(** * skupper-router: HTTP/2 adaptor, Q2/Q3 limits and unicast cut-through

    A shallow embedding of the parts of
      - include/qpid/dispatch/message.h   (queue-depth limits, cut-through API)
      - src/message_private.h             (message content fields)
      - src/adaptors/http2/http2_adaptor.c (the HTTP/2 protocol adaptor)
      - src/router_core/agent_link.c       (the management agent's link table)
      - tests/test-receiver.c              (the test receiver)
    that the properties proved below are about.

    Conventions.  C integers are [Z]; a conversion that can wrap is written
    out ([to_int], [to_size_t]).  NULL-able pointers are [option]s.  Calls
    into collaborators whose code is outside these files (nghttp2, proton,
    the router core, the message module) are recorded, in program order, in
    an event trace carried by the connection; values those collaborators
    return are inputs of the embedded function.  *)

From Stdlib Require Import String ZArith Arith List Bool Lia.
From Stdlib Require Import DecimalString.
Import ListNotations.

Set Implicit Arguments.

(* ===================================================================== *)
(** * Part I: definitions                                                 *)
(* ===================================================================== *)

(** ** Queue-depth limits (message.h, lines 43-61) *)

Module Limits.

  (** [#define QD_QLIMIT_Q2_LOWER 32] -- re-enable link receive *)
Definition QD_QLIMIT_Q2_LOWER : nat := 32.
  (** [#define QD_QLIMIT_Q2_UPPER (QD_QLIMIT_Q2_LOWER * 2)] -- disable link receive *)
Definition QD_QLIMIT_Q2_UPPER : nat := QD_QLIMIT_Q2_LOWER * 2.
  (** [#define QD_QLIMIT_Q3_LOWER (QD_QLIMIT_Q2_UPPER * 2)] -- in qd_buffer_t's *)
Definition QD_QLIMIT_Q3_LOWER : nat := QD_QLIMIT_Q2_UPPER * 2.
  (** [#define QD_QLIMIT_Q3_UPPER (QD_QLIMIT_Q3_LOWER * 2)] *)
Definition QD_QLIMIT_Q3_UPPER : nat := QD_QLIMIT_Q3_LOWER * 2.

  (** [#define UCT_SLOT_COUNT 8] and [#define UCT_RESUME_THRESHOLD 4]
      (message.h, lines 656-657) *)
Definition UCT_SLOT_COUNT : nat := 8.
Definition UCT_RESUME_THRESHOLD : nat := 4.

End Limits.

(** ** Q2 hold-off of one message content *)

Module Q2.
Import Limits.

  (** The fields of [qd_message_content_t] (message_private.h) that Q2 uses:
      the length of the buffer chain, the two Q2 booleans, and -- as a ghost
      counter -- how often the registered [q2_unblocker] handler has run. *)
Record content : Type := mkContent {
    buffers            : nat;   (* DEQ_SIZE(content->buffers) *)
    q2_input_holdoff   : bool;
    disable_q2_holdoff : bool;
    unblocked_calls    : nat
  }.

  (** Modelled from the spec: the body of [_Q2_holdoff_should_block_LH]
      (declared in message_private.h, defined in message.c which is not among
      the sources).  "Upper threshold: when the content holds >= this many
      buffers [...] set q2_input_holdoff"; "disable_q2_holdoff suppresses the
      mechanism". *)
Definition _Q2_holdoff_should_block_LH (c : content) : bool :=
    negb (disable_q2_holdoff c) && (QD_QLIMIT_Q2_UPPER <=? buffers c).

  (** Modelled from the spec: the body of [_Q2_holdoff_should_unblock_LH]
      (message.c).  "Lower threshold: when consumption drains the content
      back below this, clear q2_input_holdoff". *)
Definition _Q2_holdoff_should_unblock_LH (c : content) : bool :=
    disable_q2_holdoff c || (buffers c <? QD_QLIMIT_Q2_LOWER).

  (** Modelled from the spec: the receive path of message.c.  While
      [q2_input_holdoff] is set the producer reads no further input;
      otherwise [n] buffers are linked into the chain and the hold-off is
      set when the upper threshold is reached. *)
Definition receive (n : nat) (c : content) : content :=
    if q2_input_holdoff c then c
    else
      let c1 := mkContent (buffers c + n) false (disable_q2_holdoff c)
                          (unblocked_calls c) in
      if _Q2_holdoff_should_block_LH c1
      then mkContent (buffers c1) true (disable_q2_holdoff c1) (unblocked_calls c1)
      else c1.

  (** Modelled from the spec: the send path of message.c.  Consumption
      frees [n] buffers; when that drains a blocked content below the lower
      threshold the hold-off is cleared and the unblocked handler invoked. *)
Definition consume (n : nat) (c : content) : content :=
    let c1 := mkContent (buffers c - n) (q2_input_holdoff c)
                        (disable_q2_holdoff c) (unblocked_calls c) in
    if q2_input_holdoff c1 && _Q2_holdoff_should_unblock_LH c1
    then mkContent (buffers c1) false (disable_q2_holdoff c1)
                   (S (unblocked_calls c1))
    else c1.

  (** Modelled from the spec: [qd_message_Q2_holdoff_disable] (declared in
      message.h, defined in message.c).  "disable_q2_holdoff suppresses the
      mechanism and, if currently blocked, triggers the unblocked handler
      immediately." *)
Definition qd_message_Q2_holdoff_disable (c : content) : content :=
    if disable_q2_holdoff c then c
    else if q2_input_holdoff c
         then mkContent (buffers c) false true (S (unblocked_calls c))
         else mkContent (buffers c) false true (unblocked_calls c).

Inductive op : Type :=
  | Receive (n : nat)
  | Consume (n : nat)
  | Disable.

Definition step (o : op) (c : content) : content :=
    match o with
    | Receive n => receive n c
    | Consume n => consume n c
    | Disable   => qd_message_Q2_holdoff_disable c
    end.

Definition run (ops : list op) (c : content) : content :=
    fold_left (fun acc o => step o acc) ops c.

  (** A step is a blocked-to-unblocked transition when the hold-off was set
      before it and is clear after it. *)
Definition is_unblock_edge (o : op) (c : content) : bool :=
    q2_input_holdoff c && negb (q2_input_holdoff (step o c)).

Fixpoint unblock_edges (ops : list op) (c : content) : nat :=
    match ops with
    | [] => 0
    | o :: rest =>
        (if is_unblock_edge o c then 1 else 0) + unblock_edges rest (step o c)
    end.

Definition fresh : content := mkContent 0 false false 0.

End Q2.

(** ** Unicast cut-through ring *)

Module Cutthrough.
Import Limits.

  (** A [qd_buffer_t] is opaque here; a buffer list is a list of them. *)
Definition qd_buffer_list_t (B : Type) := list B.

Section Ring.
Variable B : Type.

    (** The cut-through fields of [qd_message_content_t]
        (message_private.h, lines 147-152): the slot array and the two
        indices.

        Modelled from the spec: the index arithmetic and the stall flag live
        in message.c, which is not among the sources.  The indices are kept
        as running counters; the slot an index designates is the index
        modulo [UCT_SLOT_COUNT], and the number of filled slots is their
        difference ("can_produce() = filled < N; can_consume() = filled >
        0").  [uct_stalled] records that a producer has declared a stall. *)
Record ring : Type := mkRing {
      uct_slots        : list (qd_buffer_list_t B);
      uct_produce_slot : nat;
      uct_consume_slot : nat;
      uct_stalled      : bool;
      resumed_calls    : nat    (* ghost: how often resume returned true *)
    }.

Definition empty_ring : ring :=
      mkRing (repeat [] UCT_SLOT_COUNT) 0 0 false 0.

    (** Modelled from the spec: [qd_message_full_slot_count]. *)
Definition qd_message_full_slot_count (r : ring) : nat :=
      uct_produce_slot r - uct_consume_slot r.

    (** Modelled from the spec: "can_produce() = filled < N". *)
Definition qd_message_can_produce_buffers (r : ring) : bool :=
      qd_message_full_slot_count r <? UCT_SLOT_COUNT.

    (** Modelled from the spec: "can_consume() = filled > 0". *)
Definition qd_message_can_consume_buffers (r : ring) : bool :=
      0 <? qd_message_full_slot_count r.

Definition slot_at (i : nat) (r : ring) : qd_buffer_list_t B :=
      nth (i mod UCT_SLOT_COUNT) (uct_slots r) [].

Fixpoint set_nth (i : nat) (v : qd_buffer_list_t B)
             (l : list (qd_buffer_list_t B)) : list (qd_buffer_list_t B) :=
      match l, i with
      | [], _ => []
      | _ :: tl, O => v :: tl
      | x :: tl, S j => x :: set_nth j v tl
      end.

Definition set_slot (i : nat) (v : qd_buffer_list_t B) (r : ring) : ring :=
      mkRing (set_nth (i mod UCT_SLOT_COUNT) v (uct_slots r))
             (uct_produce_slot r) (uct_consume_slot r) (uct_stalled r)
             (resumed_calls r).

    (** Modelled from the spec: [qd_message_produce_buffers].  "produce(buffers)
        appends atomically to slot at produce_index, advances it; must only
        be called when can_produce()". *)
Definition qd_message_produce_buffers (bufs : qd_buffer_list_t B) (r : ring)
      : ring :=
      let i  := uct_produce_slot r in
      let r1 := set_slot i (slot_at i r ++ bufs) r in
      mkRing (uct_slots r1) (S i) (uct_consume_slot r1) (uct_stalled r1)
             (resumed_calls r1).

    (** The producer side: it checks [can_produce] before producing, and
        declares a stall when it observes that it cannot produce. *)
Definition producer_offer (bufs : qd_buffer_list_t B) (r : ring) : ring :=
      if qd_message_can_produce_buffers r
      then qd_message_produce_buffers bufs r
      else mkRing (uct_slots r) (uct_produce_slot r) (uct_consume_slot r) true
                  (resumed_calls r).

    (** Modelled from the spec: [qd_message_consume_buffers].  "consume(out,
        limit) drains up to limit buffers from slots starting at
        consume_index, advances when a slot empties".  The recursion is on
        the number of filled slots still to visit. *)
Fixpoint consume_slots (filled : nat) (limit : nat) (r : ring)
             (out : qd_buffer_list_t B) : qd_buffer_list_t B * ring :=
      match filled with
      | O => (out, r)
      | S filled' =>
          let i     := uct_consume_slot r in
          let slot  := slot_at i r in
          let taken := firstn limit slot in
          let left  := skipn limit slot in
          let r1    := set_slot i left r in
          match left with
          | [] =>
              let r2 := mkRing (uct_slots r1) (uct_produce_slot r1) (S i)
                               (uct_stalled r1) (resumed_calls r1) in
              consume_slots filled' (limit - length taken) r2 (out ++ taken)
          | _ :: _ => (out ++ taken, r1)
          end
      end.

Definition qd_message_consume_buffers (limit : nat) (r : ring)
      : qd_buffer_list_t B * ring :=
      consume_slots (qd_message_full_slot_count r) limit r [].

    (** Modelled from the spec: [qd_message_resume_from_stalled].  True when
        the stream was stalled and the filled count has shrunk to the resume
        threshold; a true result clears the stalled state. *)
Definition qd_message_resume_from_stalled (r : ring) : bool * ring :=
      if uct_stalled r && (qd_message_full_slot_count r <=? UCT_RESUME_THRESHOLD)
      then (true, mkRing (uct_slots r) (uct_produce_slot r) (uct_consume_slot r)
                         false (S (resumed_calls r)))
      else (false, r).

Inductive op : Type :=
    | Offer (bufs : qd_buffer_list_t B)
    | Consume (limit : nat)
    | Resume.

Definition step (o : op) (r : ring) : ring :=
      match o with
      | Offer bufs    => producer_offer bufs r
      | Consume limit => snd (qd_message_consume_buffers limit r)
      | Resume        => snd (qd_message_resume_from_stalled r)
      end.

Definition run (ops : list op) (r : ring) : ring :=
      fold_left (fun acc o => step o acc) ops r.

    (** A step is a stall-to-unstall edge when the ring was stalled before it
        and is not stalled after it. *)
Definition is_unstall_edge (o : op) (r : ring) : bool :=
      uct_stalled r && negb (uct_stalled (step o r)).

Fixpoint unstall_edges (ops : list op) (r : ring) : nat :=
      match ops with
      | [] => 0
      | o :: rest =>
          (if is_unstall_edge o r then 1 else 0) + unstall_edges rest (step o r)
      end.

    (** Well-formedness of a ring: eight slots, and the consumer never ahead
        of the producer nor more than a full ring behind. *)
Definition ring_ok (r : ring) : Prop :=
      length (uct_slots r) = UCT_SLOT_COUNT /\
      uct_consume_slot r <= uct_produce_slot r /\
      uct_produce_slot r <= uct_consume_slot r + UCT_SLOT_COUNT.

End Ring.

(** Example rings: eight offers; a ninth offer, which stalls the producer,
    followed by the consumer draining four slots. *)
Definition example_full : ring nat :=
  run (repeat (Offer [1]) 8) (empty_ring nat).

Definition example_drained : ring nat :=
  run [Offer [1]; @Consume nat 4] example_full.

End Cutthrough.

(** ** The HTTP/2 adaptor (http2_adaptor.c) *)

Module Http2.

Local Open Scope Z_scope.

Definition byte := Byte.byte.

(** *** Machine integers *)

(** Conversion to [int] (32 bits, two's complement) and to [size_t] (64 bits). *)
Definition to_int (z : Z) : Z :=
  let m := z mod 2 ^ 32 in if m <? 2 ^ 31 then m else m - 2 ^ 32.
Definition to_size_t (z : Z) : Z := z mod 2 ^ 64.
(** Conversion of a [size_t] result to [ssize_t]. *)
Definition to_ssize_t (z : Z) : Z :=
  let m := z mod 2 ^ 64 in if m <? 2 ^ 63 then m else m - 2 ^ 64.

(** *** Constants of the collaborating libraries *)

(** nghttp2.h: frame flags, data flags, the "deferred" error code. *)
Definition NGHTTP2_FLAG_NONE        : Z := 0.
Definition NGHTTP2_FLAG_END_STREAM  : Z := 1.
Definition NGHTTP2_FLAG_END_HEADERS : Z := 4.
Definition NGHTTP2_DATA_FLAG_NONE          : Z := 0.
Definition NGHTTP2_DATA_FLAG_EOF           : Z := 1.
Definition NGHTTP2_DATA_FLAG_NO_END_STREAM : Z := 2.
Definition NGHTTP2_DATA_FLAG_NO_COPY       : Z := 4.
Definition NGHTTP2_ERR_DEFERRED : Z := -508.

(** proton/disposition.h: delivery outcomes. *)
Definition PN_ACCEPTED : Z := 36.
Definition PN_REJECTED : Z := 37.
Definition PN_RELEASED : Z := 38.
Definition PN_MODIFIED : Z := 39.

(** Modelled from the spec: [QD_ADAPTOR_MAX_BUFFER_SIZE] is defined in
    adaptors/adaptor_buffer.h, which is not among the sources; the
    specification gives it as 16 KiB ("min(requested, remaining-in-window,
    16 KiB)"). *)
Definition QD_ADAPTOR_MAX_BUFFER_SIZE : Z := 16384.

(** [#define DEFAULT_CAPACITY 250] (http2_adaptor.c, line 46) *)
Definition DEFAULT_CAPACITY : Z := 250.

(** [flags & bit] as a C condition. *)
Definition flag_set (flags bit : Z) : bool := negb (Z.land flags bit =? 0).

(** *** Enumerations *)

(** Modelled from the spec: the enumeration is declared in http2_adaptor.h,
    which is not among the sources.  "status: OPEN -> HALF_CLOSED ->
    FULLY_CLOSED". *)
Inductive qd_http2_stream_status_t : Type :=
| QD_STREAM_OPEN
| QD_STREAM_HALF_CLOSED
| QD_STREAM_FULLY_CLOSED.

(** The position of a status in the order OPEN < HALF_CLOSED < FULLY_CLOSED. *)
Definition status_rank (s : qd_http2_stream_status_t) : nat :=
  match s with
  | QD_STREAM_OPEN => 0
  | QD_STREAM_HALF_CLOSED => 1
  | QD_STREAM_FULLY_CLOSED => 2
  end%nat.

Definition status_le (a b : qd_http2_stream_status_t) : Prop :=
  (status_rank a <= status_rank b)%nat.

Definition status_eqb (a b : qd_http2_stream_status_t) : bool :=
  Nat.eqb (status_rank a) (status_rank b).

(** message.h, lines 278-282 *)
Inductive qd_message_depth_status_t : Type :=
| QD_MESSAGE_DEPTH_INVALID
| QD_MESSAGE_DEPTH_OK
| QD_MESSAGE_DEPTH_INCOMPLETE.

(** message.h, lines 435-442 *)
Inductive qd_message_stream_data_result_t : Type :=
| QD_MESSAGE_STREAM_DATA_BODY_OK
| QD_MESSAGE_STREAM_DATA_FOOTER_OK
| QD_MESSAGE_STREAM_DATA_INCOMPLETE
| QD_MESSAGE_STREAM_DATA_NO_MORE
| QD_MESSAGE_STREAM_DATA_INVALID
| QD_MESSAGE_STREAM_DATA_ABORTED.

Definition result_eqb (a b : qd_message_stream_data_result_t) : bool :=
  match a, b with
  | QD_MESSAGE_STREAM_DATA_BODY_OK, QD_MESSAGE_STREAM_DATA_BODY_OK
  | QD_MESSAGE_STREAM_DATA_FOOTER_OK, QD_MESSAGE_STREAM_DATA_FOOTER_OK
  | QD_MESSAGE_STREAM_DATA_INCOMPLETE, QD_MESSAGE_STREAM_DATA_INCOMPLETE
  | QD_MESSAGE_STREAM_DATA_NO_MORE, QD_MESSAGE_STREAM_DATA_NO_MORE
  | QD_MESSAGE_STREAM_DATA_INVALID, QD_MESSAGE_STREAM_DATA_INVALID
  | QD_MESSAGE_STREAM_DATA_ABORTED, QD_MESSAGE_STREAM_DATA_ABORTED => true
  | _, _ => false
  end.

(** *** Handles owned by collaborators *)

Definition qdr_delivery_t := nat.
Definition qdr_link_t := nat.

Definition opt_nat_eqb (a b : option nat) : bool :=
  match a, b with
  | Some x, Some y => Nat.eqb x y
  | None, None => true
  | _, _ => false
  end.

Definition is_some {A : Type} (o : option A) : bool :=
  match o with Some _ => true | None => false end.

(** A stream-data window ([qd_message_stream_data_t]): its identity and
    what [qd_message_stream_data_payload_length] returns for it. *)
Record qd_message_stream_data_t : Type := mkWindow {
  window_id      : nat;
  payload_length : Z
}.

(** *** The message of the outgoing delivery, as [read_data_callback] sees it

    [qd_message_check_depth], [qd_message_next_stream_data] and
    [qd_message_stream_data_release] are defined in message.c, which is not
    among the sources.  They are taken as given: the message carries the
    answer of the depth check, the answers the successive calls of
    [qd_message_next_stream_data] will give, and the windows released so
    far. *)
Record out_message : Type := mkOutMessage {
  depth_body  : qd_message_depth_status_t;
  next_answer : nat -> qd_message_stream_data_result_t
                       * option qd_message_stream_data_t;
  next_calls  : nat;
  released    : list qd_message_stream_data_t
}.

Definition qd_message_check_depth_BODY (m : out_message)
  : qd_message_depth_status_t := depth_body m.

Definition qd_message_next_stream_data (m : out_message)
  : qd_message_stream_data_result_t * option qd_message_stream_data_t
    * out_message :=
  (next_answer m (next_calls m),
   mkOutMessage (depth_body m) (next_answer m) (S (next_calls m)) (released m)).

(** [qd_message_stream_data_release(0)] releases nothing. *)
Definition qd_message_stream_data_release
           (w : option qd_message_stream_data_t) (m : out_message)
  : out_message :=
  match w with
  | None => m
  | Some x => mkOutMessage (depth_body m) (next_answer m) (next_calls m)
                           (released m ++ [x])
  end.

(** *** The message built from HTTP/2 input ([stream_data->message]) *)

(** What [qd_message_compose_amqp] puts into the properties section. *)
Record amqp_properties : Type := mkProps {
  prop_to       : option string;
  prop_subject  : option string;
  prop_reply_to : option string;
  prop_group_id : option string
}.

Record qd_message_t : Type := mkMessage {
  msg_properties       : option (amqp_properties * list (string * string));
  msg_body             : list (list byte);  (* body data appended, in order *)
  msg_footer           : option (list byte);
  msg_receive_complete : bool;
  msg_q2_handler_set   : bool
}.

Definition empty_message : qd_message_t := mkMessage None [] None false false.

(** Modelled from the spec: [qd_message_set_receive_complete] (message.c).
    "Flag the message as being receive-complete." *)
Definition qd_message_set_receive_complete (m : qd_message_t) : qd_message_t :=
  mkMessage (msg_properties m) (msg_body m) (msg_footer m) true
            (msg_q2_handler_set m).

Definition qd_message_receive_complete (m : qd_message_t) : bool :=
  msg_receive_complete m.

(** Modelled from the spec: [qd_message_compose_3] (message.c).  "Compose:
    build a message from one-to-several pre-composed field builders; the
    content takes ownership of their buffer lists concatenated in order."
    [receive_complete] never goes back to false ("if receive_complete(m)
    has been observed true then it remains true"). *)
Definition qd_message_compose_3 (m : qd_message_t) (props : amqp_properties)
           (app : list (string * string)) (receive_complete : bool)
  : qd_message_t :=
  mkMessage (Some (props, app)) (msg_body m) (msg_footer m)
            (msg_receive_complete m || receive_complete)
            (msg_q2_handler_set m).

(** Modelled from the spec: [qd_message_stream_data_footer_append] and
    [qd_message_extend] (message.c) as the adaptor uses them: the footer
    field is added to the message. *)
Definition qd_message_stream_data_footer_append (m : qd_message_t)
           (footer : list byte) : qd_message_t :=
  mkMessage (msg_properties m) (msg_body m) (Some footer)
            (msg_receive_complete m) (msg_q2_handler_set m).

Definition qd_message_extend (m : qd_message_t) (field : option (list byte))
  : qd_message_t :=
  match field with
  | None => m
  | Some f => qd_message_stream_data_footer_append m f
  end.

Definition qd_message_set_q2_unblocked_handler (m : qd_message_t)
  : qd_message_t :=
  mkMessage (msg_properties m) (msg_body m) (msg_footer m)
            (msg_receive_complete m) true.

(** *** Calls into collaborators, as events *)

Inductive event : Type :=
| E_nghttp2_submit_headers (flags : Z) (stream_id : Z)
                           (hdrs : list (string * string))
| E_nghttp2_submit_data (flags : Z) (stream_id : Z)
| E_nghttp2_session_send
| E_nghttp2_session_del
| E_nghttp2_session_set_stream_user_data (stream_id : Z) (p : option nat)
| E_pn_raw_connection_close
| E_pn_raw_connection_wake
| E_pn_proactor_raw_connect
| E_drain_read_write_buffers
| E_grant_read_buffers
| E_qdr_link_detach (l : qdr_link_t)
| E_qdr_link_deliver (l : option qdr_link_t) (d : qdr_delivery_t) (p : nat)
| E_qdr_link_flow (credit : Z)
| E_qdr_delivery_continue (d : qdr_delivery_t)
| E_qdr_delivery_set_context (d : qdr_delivery_t) (ctx : option nat)
| E_qdr_delivery_remote_state_updated (d : qdr_delivery_t) (disp : Z)
                                      (settled : bool)
| E_qdr_delivery_decref (d : qdr_delivery_t)
| E_qdr_connection_closed
| E_qdr_action_enqueue_delete
| E_qd_message_free (p : nat)
| E_qd_message_stream_data_release (w : qd_message_stream_data_t)
| E_http_record_request (p : nat)
| E_free_stream_data (p : nat)
| E_free_connection
| E_set_activate_scheduled
| E_clear_activate_scheduled
| E_qd_timer_schedule (msec : Z)
| E_qd_timer_cancel
| E_nghttp2_submit_settings
| E_nghttp2_submit_goaway (last_stream_id : Z) (error_code : Z)
| E_nghttp2_session_resume_data (stream_id : Z)
| E_qd_message_set_send_complete (d : qdr_delivery_t)
| E_out_buffs_append (octets : Z)
| E_encrypt_outgoing_tls (octets : Z)
| E_qd_raw_connection_write_buffers
| E_drain_write_buffers.

(** *** The two structs of the adaptor

    Modelled from the spec: [qdr_http2_stream_data_t] and
    [qdr_http2_connection_t] are declared in http2_adaptor.h, which is not
    among the sources.  The fields are those http2_adaptor.c reads and
    writes in the functions embedded below, under the names it uses. *)

Record qdr_http2_stream_data_t : Type := mkStream {
  ptr : nat;   (* address of the record (identity of the pointer) *)
  stream_id : Z;   (* int32_t stream_id *)
  status : qd_http2_stream_status_t;
  in_link : option qdr_link_t;
  out_link : option qdr_link_t;
  in_dlv : option qdr_delivery_t;
  out_dlv : option qdr_delivery_t;
  in_dlv_decrefed : bool;
  out_dlv_decrefed : bool;
  in_link_credit : Z;
  reply_to : option string;
  method : option string;
  request_status : option string;
  message : qd_message_t;   (* the message being built from HTTP/2 input *)
  app_properties : list (string * string);
  body_buffers : list byte;   (* qd_buffer_list_t, as its octets *)
  footer_properties : option (list byte);
  entire_header_arrived : bool;
  header_and_props_composed : bool;
  body_data_added_to_msg : bool;
  use_footer_properties : bool;
  entire_footer_arrived : bool;
  stream_force_closed : bool;
  disp_updated : bool;
  disp_applied : bool;
  out_msg_has_footer : bool;
  out_msg_data_flag_eof : bool;
  out_msg_body_sent : bool;
  out_msg_send_complete : bool;
  full_payload_handled : bool;
  payload_handled : Z;
  curr_stream_data : option qd_message_stream_data_t;
  curr_stream_data_iter : option qd_message_stream_data_t;   (* iterator over that window *)
  next_stream_data : option qd_message_stream_data_t;
  curr_stream_data_result : qd_message_stream_data_result_t;
  next_stream_data_result : qd_message_stream_data_result_t;
  out_dlv_local_disposition : Z;   (* uint64_t *)
  bytes_in : Z;
  bytes_out : Z;
  out_msg_header_sent : bool;
  out_msg_has_body : bool;
  footer_stream_data : option qd_message_stream_data_t;
  footer_stream_data_iter : option qd_message_stream_data_t;   (* iterator over that window *)
  remote_site : option string
}.

Definition set_status (v : qd_http2_stream_status_t) (r : qdr_http2_stream_data_t) : qdr_http2_stream_data_t :=
  mkStream
    (ptr r) (stream_id r) v (in_link r) (out_link r) (in_dlv r) (out_dlv r)
    (in_dlv_decrefed r) (out_dlv_decrefed r) (in_link_credit r) (reply_to r)
    (method r) (request_status r) (message r) (app_properties r)
    (body_buffers r) (footer_properties r) (entire_header_arrived r)
    (header_and_props_composed r) (body_data_added_to_msg r)
    (use_footer_properties r) (entire_footer_arrived r)
    (stream_force_closed r) (disp_updated r) (disp_applied r)
    (out_msg_has_footer r) (out_msg_data_flag_eof r) (out_msg_body_sent r)
    (out_msg_send_complete r) (full_payload_handled r) (payload_handled r)
    (curr_stream_data r) (curr_stream_data_iter r) (next_stream_data r)
    (curr_stream_data_result r) (next_stream_data_result r)
    (out_dlv_local_disposition r) (bytes_in r) (bytes_out r)
    (out_msg_header_sent r) (out_msg_has_body r) (footer_stream_data r)
    (footer_stream_data_iter r) (remote_site r).

Definition set_in_dlv (v : option qdr_delivery_t) (r : qdr_http2_stream_data_t) : qdr_http2_stream_data_t :=
  mkStream
    (ptr r) (stream_id r) (status r) (in_link r) (out_link r) v (out_dlv r)
    (in_dlv_decrefed r) (out_dlv_decrefed r) (in_link_credit r) (reply_to r)
    (method r) (request_status r) (message r) (app_properties r)
    (body_buffers r) (footer_properties r) (entire_header_arrived r)
    (header_and_props_composed r) (body_data_added_to_msg r)
    (use_footer_properties r) (entire_footer_arrived r)
    (stream_force_closed r) (disp_updated r) (disp_applied r)
    (out_msg_has_footer r) (out_msg_data_flag_eof r) (out_msg_body_sent r)
    (out_msg_send_complete r) (full_payload_handled r) (payload_handled r)
    (curr_stream_data r) (curr_stream_data_iter r) (next_stream_data r)
    (curr_stream_data_result r) (next_stream_data_result r)
    (out_dlv_local_disposition r) (bytes_in r) (bytes_out r)
    (out_msg_header_sent r) (out_msg_has_body r) (footer_stream_data r)
    (footer_stream_data_iter r) (remote_site r).

Definition set_out_dlv (v : option qdr_delivery_t) (r : qdr_http2_stream_data_t) : qdr_http2_stream_data_t :=
  mkStream
    (ptr r) (stream_id r) (status r) (in_link r) (out_link r) (in_dlv r) v
    (in_dlv_decrefed r) (out_dlv_decrefed r) (in_link_credit r) (reply_to r)
    (method r) (request_status r) (message r) (app_properties r)
    (body_buffers r) (footer_properties r) (entire_header_arrived r)
    (header_and_props_composed r) (body_data_added_to_msg r)
    (use_footer_properties r) (entire_footer_arrived r)
    (stream_force_closed r) (disp_updated r) (disp_applied r)
    (out_msg_has_footer r) (out_msg_data_flag_eof r) (out_msg_body_sent r)
    (out_msg_send_complete r) (full_payload_handled r) (payload_handled r)
    (curr_stream_data r) (curr_stream_data_iter r) (next_stream_data r)
    (curr_stream_data_result r) (next_stream_data_result r)
    (out_dlv_local_disposition r) (bytes_in r) (bytes_out r)
    (out_msg_header_sent r) (out_msg_has_body r) (footer_stream_data r)
    (footer_stream_data_iter r) (remote_site r).

Definition set_in_dlv_decrefed (v : bool) (r : qdr_http2_stream_data_t) : qdr_http2_stream_data_t :=
  mkStream
    (ptr r) (stream_id r) (status r) (in_link r) (out_link r) (in_dlv r)
    (out_dlv r) v (out_dlv_decrefed r) (in_link_credit r) (reply_to r)
    (method r) (request_status r) (message r) (app_properties r)
    (body_buffers r) (footer_properties r) (entire_header_arrived r)
    (header_and_props_composed r) (body_data_added_to_msg r)
    (use_footer_properties r) (entire_footer_arrived r)
    (stream_force_closed r) (disp_updated r) (disp_applied r)
    (out_msg_has_footer r) (out_msg_data_flag_eof r) (out_msg_body_sent r)
    (out_msg_send_complete r) (full_payload_handled r) (payload_handled r)
    (curr_stream_data r) (curr_stream_data_iter r) (next_stream_data r)
    (curr_stream_data_result r) (next_stream_data_result r)
    (out_dlv_local_disposition r) (bytes_in r) (bytes_out r)
    (out_msg_header_sent r) (out_msg_has_body r) (footer_stream_data r)
    (footer_stream_data_iter r) (remote_site r).

Definition set_out_dlv_decrefed (v : bool) (r : qdr_http2_stream_data_t) : qdr_http2_stream_data_t :=
  mkStream
    (ptr r) (stream_id r) (status r) (in_link r) (out_link r) (in_dlv r)
    (out_dlv r) (in_dlv_decrefed r) v (in_link_credit r) (reply_to r)
    (method r) (request_status r) (message r) (app_properties r)
    (body_buffers r) (footer_properties r) (entire_header_arrived r)
    (header_and_props_composed r) (body_data_added_to_msg r)
    (use_footer_properties r) (entire_footer_arrived r)
    (stream_force_closed r) (disp_updated r) (disp_applied r)
    (out_msg_has_footer r) (out_msg_data_flag_eof r) (out_msg_body_sent r)
    (out_msg_send_complete r) (full_payload_handled r) (payload_handled r)
    (curr_stream_data r) (curr_stream_data_iter r) (next_stream_data r)
    (curr_stream_data_result r) (next_stream_data_result r)
    (out_dlv_local_disposition r) (bytes_in r) (bytes_out r)
    (out_msg_header_sent r) (out_msg_has_body r) (footer_stream_data r)
    (footer_stream_data_iter r) (remote_site r).

Definition set_in_link_credit (v : Z) (r : qdr_http2_stream_data_t) : qdr_http2_stream_data_t :=
  mkStream
    (ptr r) (stream_id r) (status r) (in_link r) (out_link r) (in_dlv r)
    (out_dlv r) (in_dlv_decrefed r) (out_dlv_decrefed r) v (reply_to r)
    (method r) (request_status r) (message r) (app_properties r)
    (body_buffers r) (footer_properties r) (entire_header_arrived r)
    (header_and_props_composed r) (body_data_added_to_msg r)
    (use_footer_properties r) (entire_footer_arrived r)
    (stream_force_closed r) (disp_updated r) (disp_applied r)
    (out_msg_has_footer r) (out_msg_data_flag_eof r) (out_msg_body_sent r)
    (out_msg_send_complete r) (full_payload_handled r) (payload_handled r)
    (curr_stream_data r) (curr_stream_data_iter r) (next_stream_data r)
    (curr_stream_data_result r) (next_stream_data_result r)
    (out_dlv_local_disposition r) (bytes_in r) (bytes_out r)
    (out_msg_header_sent r) (out_msg_has_body r) (footer_stream_data r)
    (footer_stream_data_iter r) (remote_site r).

Definition set_reply_to (v : option string) (r : qdr_http2_stream_data_t) : qdr_http2_stream_data_t :=
  mkStream
    (ptr r) (stream_id r) (status r) (in_link r) (out_link r) (in_dlv r)
    (out_dlv r) (in_dlv_decrefed r) (out_dlv_decrefed r) (in_link_credit r) v
    (method r) (request_status r) (message r) (app_properties r)
    (body_buffers r) (footer_properties r) (entire_header_arrived r)
    (header_and_props_composed r) (body_data_added_to_msg r)
    (use_footer_properties r) (entire_footer_arrived r)
    (stream_force_closed r) (disp_updated r) (disp_applied r)
    (out_msg_has_footer r) (out_msg_data_flag_eof r) (out_msg_body_sent r)
    (out_msg_send_complete r) (full_payload_handled r) (payload_handled r)
    (curr_stream_data r) (curr_stream_data_iter r) (next_stream_data r)
    (curr_stream_data_result r) (next_stream_data_result r)
    (out_dlv_local_disposition r) (bytes_in r) (bytes_out r)
    (out_msg_header_sent r) (out_msg_has_body r) (footer_stream_data r)
    (footer_stream_data_iter r) (remote_site r).

Definition set_message (v : qd_message_t) (r : qdr_http2_stream_data_t) : qdr_http2_stream_data_t :=
  mkStream
    (ptr r) (stream_id r) (status r) (in_link r) (out_link r) (in_dlv r)
    (out_dlv r) (in_dlv_decrefed r) (out_dlv_decrefed r) (in_link_credit r)
    (reply_to r) (method r) (request_status r) v (app_properties r)
    (body_buffers r) (footer_properties r) (entire_header_arrived r)
    (header_and_props_composed r) (body_data_added_to_msg r)
    (use_footer_properties r) (entire_footer_arrived r)
    (stream_force_closed r) (disp_updated r) (disp_applied r)
    (out_msg_has_footer r) (out_msg_data_flag_eof r) (out_msg_body_sent r)
    (out_msg_send_complete r) (full_payload_handled r) (payload_handled r)
    (curr_stream_data r) (curr_stream_data_iter r) (next_stream_data r)
    (curr_stream_data_result r) (next_stream_data_result r)
    (out_dlv_local_disposition r) (bytes_in r) (bytes_out r)
    (out_msg_header_sent r) (out_msg_has_body r) (footer_stream_data r)
    (footer_stream_data_iter r) (remote_site r).

Definition set_body_buffers (v : list byte) (r : qdr_http2_stream_data_t) : qdr_http2_stream_data_t :=
  mkStream
    (ptr r) (stream_id r) (status r) (in_link r) (out_link r) (in_dlv r)
    (out_dlv r) (in_dlv_decrefed r) (out_dlv_decrefed r) (in_link_credit r)
    (reply_to r) (method r) (request_status r) (message r) (app_properties r)
    v (footer_properties r) (entire_header_arrived r)
    (header_and_props_composed r) (body_data_added_to_msg r)
    (use_footer_properties r) (entire_footer_arrived r)
    (stream_force_closed r) (disp_updated r) (disp_applied r)
    (out_msg_has_footer r) (out_msg_data_flag_eof r) (out_msg_body_sent r)
    (out_msg_send_complete r) (full_payload_handled r) (payload_handled r)
    (curr_stream_data r) (curr_stream_data_iter r) (next_stream_data r)
    (curr_stream_data_result r) (next_stream_data_result r)
    (out_dlv_local_disposition r) (bytes_in r) (bytes_out r)
    (out_msg_header_sent r) (out_msg_has_body r) (footer_stream_data r)
    (footer_stream_data_iter r) (remote_site r).

Definition set_footer_properties (v : option (list byte)) (r : qdr_http2_stream_data_t) : qdr_http2_stream_data_t :=
  mkStream
    (ptr r) (stream_id r) (status r) (in_link r) (out_link r) (in_dlv r)
    (out_dlv r) (in_dlv_decrefed r) (out_dlv_decrefed r) (in_link_credit r)
    (reply_to r) (method r) (request_status r) (message r) (app_properties r)
    (body_buffers r) v (entire_header_arrived r)
    (header_and_props_composed r) (body_data_added_to_msg r)
    (use_footer_properties r) (entire_footer_arrived r)
    (stream_force_closed r) (disp_updated r) (disp_applied r)
    (out_msg_has_footer r) (out_msg_data_flag_eof r) (out_msg_body_sent r)
    (out_msg_send_complete r) (full_payload_handled r) (payload_handled r)
    (curr_stream_data r) (curr_stream_data_iter r) (next_stream_data r)
    (curr_stream_data_result r) (next_stream_data_result r)
    (out_dlv_local_disposition r) (bytes_in r) (bytes_out r)
    (out_msg_header_sent r) (out_msg_has_body r) (footer_stream_data r)
    (footer_stream_data_iter r) (remote_site r).

Definition set_entire_header_arrived (v : bool) (r : qdr_http2_stream_data_t) : qdr_http2_stream_data_t :=
  mkStream
    (ptr r) (stream_id r) (status r) (in_link r) (out_link r) (in_dlv r)
    (out_dlv r) (in_dlv_decrefed r) (out_dlv_decrefed r) (in_link_credit r)
    (reply_to r) (method r) (request_status r) (message r) (app_properties r)
    (body_buffers r) (footer_properties r) v (header_and_props_composed r)
    (body_data_added_to_msg r) (use_footer_properties r)
    (entire_footer_arrived r) (stream_force_closed r) (disp_updated r)
    (disp_applied r) (out_msg_has_footer r) (out_msg_data_flag_eof r)
    (out_msg_body_sent r) (out_msg_send_complete r) (full_payload_handled r)
    (payload_handled r) (curr_stream_data r) (curr_stream_data_iter r)
    (next_stream_data r) (curr_stream_data_result r)
    (next_stream_data_result r) (out_dlv_local_disposition r) (bytes_in r)
    (bytes_out r) (out_msg_header_sent r) (out_msg_has_body r)
    (footer_stream_data r) (footer_stream_data_iter r) (remote_site r).

Definition set_header_and_props_composed (v : bool) (r : qdr_http2_stream_data_t) : qdr_http2_stream_data_t :=
  mkStream
    (ptr r) (stream_id r) (status r) (in_link r) (out_link r) (in_dlv r)
    (out_dlv r) (in_dlv_decrefed r) (out_dlv_decrefed r) (in_link_credit r)
    (reply_to r) (method r) (request_status r) (message r) (app_properties r)
    (body_buffers r) (footer_properties r) (entire_header_arrived r) v
    (body_data_added_to_msg r) (use_footer_properties r)
    (entire_footer_arrived r) (stream_force_closed r) (disp_updated r)
    (disp_applied r) (out_msg_has_footer r) (out_msg_data_flag_eof r)
    (out_msg_body_sent r) (out_msg_send_complete r) (full_payload_handled r)
    (payload_handled r) (curr_stream_data r) (curr_stream_data_iter r)
    (next_stream_data r) (curr_stream_data_result r)
    (next_stream_data_result r) (out_dlv_local_disposition r) (bytes_in r)
    (bytes_out r) (out_msg_header_sent r) (out_msg_has_body r)
    (footer_stream_data r) (footer_stream_data_iter r) (remote_site r).

Definition set_body_data_added_to_msg (v : bool) (r : qdr_http2_stream_data_t) : qdr_http2_stream_data_t :=
  mkStream
    (ptr r) (stream_id r) (status r) (in_link r) (out_link r) (in_dlv r)
    (out_dlv r) (in_dlv_decrefed r) (out_dlv_decrefed r) (in_link_credit r)
    (reply_to r) (method r) (request_status r) (message r) (app_properties r)
    (body_buffers r) (footer_properties r) (entire_header_arrived r)
    (header_and_props_composed r) v (use_footer_properties r)
    (entire_footer_arrived r) (stream_force_closed r) (disp_updated r)
    (disp_applied r) (out_msg_has_footer r) (out_msg_data_flag_eof r)
    (out_msg_body_sent r) (out_msg_send_complete r) (full_payload_handled r)
    (payload_handled r) (curr_stream_data r) (curr_stream_data_iter r)
    (next_stream_data r) (curr_stream_data_result r)
    (next_stream_data_result r) (out_dlv_local_disposition r) (bytes_in r)
    (bytes_out r) (out_msg_header_sent r) (out_msg_has_body r)
    (footer_stream_data r) (footer_stream_data_iter r) (remote_site r).

Definition set_use_footer_properties (v : bool) (r : qdr_http2_stream_data_t) : qdr_http2_stream_data_t :=
  mkStream
    (ptr r) (stream_id r) (status r) (in_link r) (out_link r) (in_dlv r)
    (out_dlv r) (in_dlv_decrefed r) (out_dlv_decrefed r) (in_link_credit r)
    (reply_to r) (method r) (request_status r) (message r) (app_properties r)
    (body_buffers r) (footer_properties r) (entire_header_arrived r)
    (header_and_props_composed r) (body_data_added_to_msg r) v
    (entire_footer_arrived r) (stream_force_closed r) (disp_updated r)
    (disp_applied r) (out_msg_has_footer r) (out_msg_data_flag_eof r)
    (out_msg_body_sent r) (out_msg_send_complete r) (full_payload_handled r)
    (payload_handled r) (curr_stream_data r) (curr_stream_data_iter r)
    (next_stream_data r) (curr_stream_data_result r)
    (next_stream_data_result r) (out_dlv_local_disposition r) (bytes_in r)
    (bytes_out r) (out_msg_header_sent r) (out_msg_has_body r)
    (footer_stream_data r) (footer_stream_data_iter r) (remote_site r).

Definition set_entire_footer_arrived (v : bool) (r : qdr_http2_stream_data_t) : qdr_http2_stream_data_t :=
  mkStream
    (ptr r) (stream_id r) (status r) (in_link r) (out_link r) (in_dlv r)
    (out_dlv r) (in_dlv_decrefed r) (out_dlv_decrefed r) (in_link_credit r)
    (reply_to r) (method r) (request_status r) (message r) (app_properties r)
    (body_buffers r) (footer_properties r) (entire_header_arrived r)
    (header_and_props_composed r) (body_data_added_to_msg r)
    (use_footer_properties r) v (stream_force_closed r) (disp_updated r)
    (disp_applied r) (out_msg_has_footer r) (out_msg_data_flag_eof r)
    (out_msg_body_sent r) (out_msg_send_complete r) (full_payload_handled r)
    (payload_handled r) (curr_stream_data r) (curr_stream_data_iter r)
    (next_stream_data r) (curr_stream_data_result r)
    (next_stream_data_result r) (out_dlv_local_disposition r) (bytes_in r)
    (bytes_out r) (out_msg_header_sent r) (out_msg_has_body r)
    (footer_stream_data r) (footer_stream_data_iter r) (remote_site r).

Definition set_stream_force_closed (v : bool) (r : qdr_http2_stream_data_t) : qdr_http2_stream_data_t :=
  mkStream
    (ptr r) (stream_id r) (status r) (in_link r) (out_link r) (in_dlv r)
    (out_dlv r) (in_dlv_decrefed r) (out_dlv_decrefed r) (in_link_credit r)
    (reply_to r) (method r) (request_status r) (message r) (app_properties r)
    (body_buffers r) (footer_properties r) (entire_header_arrived r)
    (header_and_props_composed r) (body_data_added_to_msg r)
    (use_footer_properties r) (entire_footer_arrived r) v (disp_updated r)
    (disp_applied r) (out_msg_has_footer r) (out_msg_data_flag_eof r)
    (out_msg_body_sent r) (out_msg_send_complete r) (full_payload_handled r)
    (payload_handled r) (curr_stream_data r) (curr_stream_data_iter r)
    (next_stream_data r) (curr_stream_data_result r)
    (next_stream_data_result r) (out_dlv_local_disposition r) (bytes_in r)
    (bytes_out r) (out_msg_header_sent r) (out_msg_has_body r)
    (footer_stream_data r) (footer_stream_data_iter r) (remote_site r).

Definition set_disp_updated (v : bool) (r : qdr_http2_stream_data_t) : qdr_http2_stream_data_t :=
  mkStream
    (ptr r) (stream_id r) (status r) (in_link r) (out_link r) (in_dlv r)
    (out_dlv r) (in_dlv_decrefed r) (out_dlv_decrefed r) (in_link_credit r)
    (reply_to r) (method r) (request_status r) (message r) (app_properties r)
    (body_buffers r) (footer_properties r) (entire_header_arrived r)
    (header_and_props_composed r) (body_data_added_to_msg r)
    (use_footer_properties r) (entire_footer_arrived r)
    (stream_force_closed r) v (disp_applied r) (out_msg_has_footer r)
    (out_msg_data_flag_eof r) (out_msg_body_sent r) (out_msg_send_complete r)
    (full_payload_handled r) (payload_handled r) (curr_stream_data r)
    (curr_stream_data_iter r) (next_stream_data r)
    (curr_stream_data_result r) (next_stream_data_result r)
    (out_dlv_local_disposition r) (bytes_in r) (bytes_out r)
    (out_msg_header_sent r) (out_msg_has_body r) (footer_stream_data r)
    (footer_stream_data_iter r) (remote_site r).

Definition set_disp_applied (v : bool) (r : qdr_http2_stream_data_t) : qdr_http2_stream_data_t :=
  mkStream
    (ptr r) (stream_id r) (status r) (in_link r) (out_link r) (in_dlv r)
    (out_dlv r) (in_dlv_decrefed r) (out_dlv_decrefed r) (in_link_credit r)
    (reply_to r) (method r) (request_status r) (message r) (app_properties r)
    (body_buffers r) (footer_properties r) (entire_header_arrived r)
    (header_and_props_composed r) (body_data_added_to_msg r)
    (use_footer_properties r) (entire_footer_arrived r)
    (stream_force_closed r) (disp_updated r) v (out_msg_has_footer r)
    (out_msg_data_flag_eof r) (out_msg_body_sent r) (out_msg_send_complete r)
    (full_payload_handled r) (payload_handled r) (curr_stream_data r)
    (curr_stream_data_iter r) (next_stream_data r)
    (curr_stream_data_result r) (next_stream_data_result r)
    (out_dlv_local_disposition r) (bytes_in r) (bytes_out r)
    (out_msg_header_sent r) (out_msg_has_body r) (footer_stream_data r)
    (footer_stream_data_iter r) (remote_site r).

Definition set_out_msg_has_footer (v : bool) (r : qdr_http2_stream_data_t) : qdr_http2_stream_data_t :=
  mkStream
    (ptr r) (stream_id r) (status r) (in_link r) (out_link r) (in_dlv r)
    (out_dlv r) (in_dlv_decrefed r) (out_dlv_decrefed r) (in_link_credit r)
    (reply_to r) (method r) (request_status r) (message r) (app_properties r)
    (body_buffers r) (footer_properties r) (entire_header_arrived r)
    (header_and_props_composed r) (body_data_added_to_msg r)
    (use_footer_properties r) (entire_footer_arrived r)
    (stream_force_closed r) (disp_updated r) (disp_applied r) v
    (out_msg_data_flag_eof r) (out_msg_body_sent r) (out_msg_send_complete r)
    (full_payload_handled r) (payload_handled r) (curr_stream_data r)
    (curr_stream_data_iter r) (next_stream_data r)
    (curr_stream_data_result r) (next_stream_data_result r)
    (out_dlv_local_disposition r) (bytes_in r) (bytes_out r)
    (out_msg_header_sent r) (out_msg_has_body r) (footer_stream_data r)
    (footer_stream_data_iter r) (remote_site r).

Definition set_out_msg_data_flag_eof (v : bool) (r : qdr_http2_stream_data_t) : qdr_http2_stream_data_t :=
  mkStream
    (ptr r) (stream_id r) (status r) (in_link r) (out_link r) (in_dlv r)
    (out_dlv r) (in_dlv_decrefed r) (out_dlv_decrefed r) (in_link_credit r)
    (reply_to r) (method r) (request_status r) (message r) (app_properties r)
    (body_buffers r) (footer_properties r) (entire_header_arrived r)
    (header_and_props_composed r) (body_data_added_to_msg r)
    (use_footer_properties r) (entire_footer_arrived r)
    (stream_force_closed r) (disp_updated r) (disp_applied r)
    (out_msg_has_footer r) v (out_msg_body_sent r) (out_msg_send_complete r)
    (full_payload_handled r) (payload_handled r) (curr_stream_data r)
    (curr_stream_data_iter r) (next_stream_data r)
    (curr_stream_data_result r) (next_stream_data_result r)
    (out_dlv_local_disposition r) (bytes_in r) (bytes_out r)
    (out_msg_header_sent r) (out_msg_has_body r) (footer_stream_data r)
    (footer_stream_data_iter r) (remote_site r).

Definition set_out_msg_body_sent (v : bool) (r : qdr_http2_stream_data_t) : qdr_http2_stream_data_t :=
  mkStream
    (ptr r) (stream_id r) (status r) (in_link r) (out_link r) (in_dlv r)
    (out_dlv r) (in_dlv_decrefed r) (out_dlv_decrefed r) (in_link_credit r)
    (reply_to r) (method r) (request_status r) (message r) (app_properties r)
    (body_buffers r) (footer_properties r) (entire_header_arrived r)
    (header_and_props_composed r) (body_data_added_to_msg r)
    (use_footer_properties r) (entire_footer_arrived r)
    (stream_force_closed r) (disp_updated r) (disp_applied r)
    (out_msg_has_footer r) (out_msg_data_flag_eof r) v
    (out_msg_send_complete r) (full_payload_handled r) (payload_handled r)
    (curr_stream_data r) (curr_stream_data_iter r) (next_stream_data r)
    (curr_stream_data_result r) (next_stream_data_result r)
    (out_dlv_local_disposition r) (bytes_in r) (bytes_out r)
    (out_msg_header_sent r) (out_msg_has_body r) (footer_stream_data r)
    (footer_stream_data_iter r) (remote_site r).

Definition set_out_msg_send_complete (v : bool) (r : qdr_http2_stream_data_t) : qdr_http2_stream_data_t :=
  mkStream
    (ptr r) (stream_id r) (status r) (in_link r) (out_link r) (in_dlv r)
    (out_dlv r) (in_dlv_decrefed r) (out_dlv_decrefed r) (in_link_credit r)
    (reply_to r) (method r) (request_status r) (message r) (app_properties r)
    (body_buffers r) (footer_properties r) (entire_header_arrived r)
    (header_and_props_composed r) (body_data_added_to_msg r)
    (use_footer_properties r) (entire_footer_arrived r)
    (stream_force_closed r) (disp_updated r) (disp_applied r)
    (out_msg_has_footer r) (out_msg_data_flag_eof r) (out_msg_body_sent r) v
    (full_payload_handled r) (payload_handled r) (curr_stream_data r)
    (curr_stream_data_iter r) (next_stream_data r)
    (curr_stream_data_result r) (next_stream_data_result r)
    (out_dlv_local_disposition r) (bytes_in r) (bytes_out r)
    (out_msg_header_sent r) (out_msg_has_body r) (footer_stream_data r)
    (footer_stream_data_iter r) (remote_site r).

Definition set_full_payload_handled (v : bool) (r : qdr_http2_stream_data_t) : qdr_http2_stream_data_t :=
  mkStream
    (ptr r) (stream_id r) (status r) (in_link r) (out_link r) (in_dlv r)
    (out_dlv r) (in_dlv_decrefed r) (out_dlv_decrefed r) (in_link_credit r)
    (reply_to r) (method r) (request_status r) (message r) (app_properties r)
    (body_buffers r) (footer_properties r) (entire_header_arrived r)
    (header_and_props_composed r) (body_data_added_to_msg r)
    (use_footer_properties r) (entire_footer_arrived r)
    (stream_force_closed r) (disp_updated r) (disp_applied r)
    (out_msg_has_footer r) (out_msg_data_flag_eof r) (out_msg_body_sent r)
    (out_msg_send_complete r) v (payload_handled r) (curr_stream_data r)
    (curr_stream_data_iter r) (next_stream_data r)
    (curr_stream_data_result r) (next_stream_data_result r)
    (out_dlv_local_disposition r) (bytes_in r) (bytes_out r)
    (out_msg_header_sent r) (out_msg_has_body r) (footer_stream_data r)
    (footer_stream_data_iter r) (remote_site r).

Definition set_payload_handled (v : Z) (r : qdr_http2_stream_data_t) : qdr_http2_stream_data_t :=
  mkStream
    (ptr r) (stream_id r) (status r) (in_link r) (out_link r) (in_dlv r)
    (out_dlv r) (in_dlv_decrefed r) (out_dlv_decrefed r) (in_link_credit r)
    (reply_to r) (method r) (request_status r) (message r) (app_properties r)
    (body_buffers r) (footer_properties r) (entire_header_arrived r)
    (header_and_props_composed r) (body_data_added_to_msg r)
    (use_footer_properties r) (entire_footer_arrived r)
    (stream_force_closed r) (disp_updated r) (disp_applied r)
    (out_msg_has_footer r) (out_msg_data_flag_eof r) (out_msg_body_sent r)
    (out_msg_send_complete r) (full_payload_handled r) v (curr_stream_data r)
    (curr_stream_data_iter r) (next_stream_data r)
    (curr_stream_data_result r) (next_stream_data_result r)
    (out_dlv_local_disposition r) (bytes_in r) (bytes_out r)
    (out_msg_header_sent r) (out_msg_has_body r) (footer_stream_data r)
    (footer_stream_data_iter r) (remote_site r).

Definition set_curr_stream_data (v : option qd_message_stream_data_t) (r : qdr_http2_stream_data_t) : qdr_http2_stream_data_t :=
  mkStream
    (ptr r) (stream_id r) (status r) (in_link r) (out_link r) (in_dlv r)
    (out_dlv r) (in_dlv_decrefed r) (out_dlv_decrefed r) (in_link_credit r)
    (reply_to r) (method r) (request_status r) (message r) (app_properties r)
    (body_buffers r) (footer_properties r) (entire_header_arrived r)
    (header_and_props_composed r) (body_data_added_to_msg r)
    (use_footer_properties r) (entire_footer_arrived r)
    (stream_force_closed r) (disp_updated r) (disp_applied r)
    (out_msg_has_footer r) (out_msg_data_flag_eof r) (out_msg_body_sent r)
    (out_msg_send_complete r) (full_payload_handled r) (payload_handled r) v
    (curr_stream_data_iter r) (next_stream_data r)
    (curr_stream_data_result r) (next_stream_data_result r)
    (out_dlv_local_disposition r) (bytes_in r) (bytes_out r)
    (out_msg_header_sent r) (out_msg_has_body r) (footer_stream_data r)
    (footer_stream_data_iter r) (remote_site r).

Definition set_curr_stream_data_iter (v : option qd_message_stream_data_t) (r : qdr_http2_stream_data_t) : qdr_http2_stream_data_t :=
  mkStream
    (ptr r) (stream_id r) (status r) (in_link r) (out_link r) (in_dlv r)
    (out_dlv r) (in_dlv_decrefed r) (out_dlv_decrefed r) (in_link_credit r)
    (reply_to r) (method r) (request_status r) (message r) (app_properties r)
    (body_buffers r) (footer_properties r) (entire_header_arrived r)
    (header_and_props_composed r) (body_data_added_to_msg r)
    (use_footer_properties r) (entire_footer_arrived r)
    (stream_force_closed r) (disp_updated r) (disp_applied r)
    (out_msg_has_footer r) (out_msg_data_flag_eof r) (out_msg_body_sent r)
    (out_msg_send_complete r) (full_payload_handled r) (payload_handled r)
    (curr_stream_data r) v (next_stream_data r) (curr_stream_data_result r)
    (next_stream_data_result r) (out_dlv_local_disposition r) (bytes_in r)
    (bytes_out r) (out_msg_header_sent r) (out_msg_has_body r)
    (footer_stream_data r) (footer_stream_data_iter r) (remote_site r).

Definition set_next_stream_data (v : option qd_message_stream_data_t) (r : qdr_http2_stream_data_t) : qdr_http2_stream_data_t :=
  mkStream
    (ptr r) (stream_id r) (status r) (in_link r) (out_link r) (in_dlv r)
    (out_dlv r) (in_dlv_decrefed r) (out_dlv_decrefed r) (in_link_credit r)
    (reply_to r) (method r) (request_status r) (message r) (app_properties r)
    (body_buffers r) (footer_properties r) (entire_header_arrived r)
    (header_and_props_composed r) (body_data_added_to_msg r)
    (use_footer_properties r) (entire_footer_arrived r)
    (stream_force_closed r) (disp_updated r) (disp_applied r)
    (out_msg_has_footer r) (out_msg_data_flag_eof r) (out_msg_body_sent r)
    (out_msg_send_complete r) (full_payload_handled r) (payload_handled r)
    (curr_stream_data r) (curr_stream_data_iter r) v
    (curr_stream_data_result r) (next_stream_data_result r)
    (out_dlv_local_disposition r) (bytes_in r) (bytes_out r)
    (out_msg_header_sent r) (out_msg_has_body r) (footer_stream_data r)
    (footer_stream_data_iter r) (remote_site r).

Definition set_curr_stream_data_result (v : qd_message_stream_data_result_t) (r : qdr_http2_stream_data_t) : qdr_http2_stream_data_t :=
  mkStream
    (ptr r) (stream_id r) (status r) (in_link r) (out_link r) (in_dlv r)
    (out_dlv r) (in_dlv_decrefed r) (out_dlv_decrefed r) (in_link_credit r)
    (reply_to r) (method r) (request_status r) (message r) (app_properties r)
    (body_buffers r) (footer_properties r) (entire_header_arrived r)
    (header_and_props_composed r) (body_data_added_to_msg r)
    (use_footer_properties r) (entire_footer_arrived r)
    (stream_force_closed r) (disp_updated r) (disp_applied r)
    (out_msg_has_footer r) (out_msg_data_flag_eof r) (out_msg_body_sent r)
    (out_msg_send_complete r) (full_payload_handled r) (payload_handled r)
    (curr_stream_data r) (curr_stream_data_iter r) (next_stream_data r) v
    (next_stream_data_result r) (out_dlv_local_disposition r) (bytes_in r)
    (bytes_out r) (out_msg_header_sent r) (out_msg_has_body r)
    (footer_stream_data r) (footer_stream_data_iter r) (remote_site r).

Definition set_next_stream_data_result (v : qd_message_stream_data_result_t) (r : qdr_http2_stream_data_t) : qdr_http2_stream_data_t :=
  mkStream
    (ptr r) (stream_id r) (status r) (in_link r) (out_link r) (in_dlv r)
    (out_dlv r) (in_dlv_decrefed r) (out_dlv_decrefed r) (in_link_credit r)
    (reply_to r) (method r) (request_status r) (message r) (app_properties r)
    (body_buffers r) (footer_properties r) (entire_header_arrived r)
    (header_and_props_composed r) (body_data_added_to_msg r)
    (use_footer_properties r) (entire_footer_arrived r)
    (stream_force_closed r) (disp_updated r) (disp_applied r)
    (out_msg_has_footer r) (out_msg_data_flag_eof r) (out_msg_body_sent r)
    (out_msg_send_complete r) (full_payload_handled r) (payload_handled r)
    (curr_stream_data r) (curr_stream_data_iter r) (next_stream_data r)
    (curr_stream_data_result r) v (out_dlv_local_disposition r) (bytes_in r)
    (bytes_out r) (out_msg_header_sent r) (out_msg_has_body r)
    (footer_stream_data r) (footer_stream_data_iter r) (remote_site r).

Definition set_out_dlv_local_disposition (v : Z) (r : qdr_http2_stream_data_t) : qdr_http2_stream_data_t :=
  mkStream
    (ptr r) (stream_id r) (status r) (in_link r) (out_link r) (in_dlv r)
    (out_dlv r) (in_dlv_decrefed r) (out_dlv_decrefed r) (in_link_credit r)
    (reply_to r) (method r) (request_status r) (message r) (app_properties r)
    (body_buffers r) (footer_properties r) (entire_header_arrived r)
    (header_and_props_composed r) (body_data_added_to_msg r)
    (use_footer_properties r) (entire_footer_arrived r)
    (stream_force_closed r) (disp_updated r) (disp_applied r)
    (out_msg_has_footer r) (out_msg_data_flag_eof r) (out_msg_body_sent r)
    (out_msg_send_complete r) (full_payload_handled r) (payload_handled r)
    (curr_stream_data r) (curr_stream_data_iter r) (next_stream_data r)
    (curr_stream_data_result r) (next_stream_data_result r) v (bytes_in r)
    (bytes_out r) (out_msg_header_sent r) (out_msg_has_body r)
    (footer_stream_data r) (footer_stream_data_iter r) (remote_site r).

Definition set_bytes_in (v : Z) (r : qdr_http2_stream_data_t) : qdr_http2_stream_data_t :=
  mkStream
    (ptr r) (stream_id r) (status r) (in_link r) (out_link r) (in_dlv r)
    (out_dlv r) (in_dlv_decrefed r) (out_dlv_decrefed r) (in_link_credit r)
    (reply_to r) (method r) (request_status r) (message r) (app_properties r)
    (body_buffers r) (footer_properties r) (entire_header_arrived r)
    (header_and_props_composed r) (body_data_added_to_msg r)
    (use_footer_properties r) (entire_footer_arrived r)
    (stream_force_closed r) (disp_updated r) (disp_applied r)
    (out_msg_has_footer r) (out_msg_data_flag_eof r) (out_msg_body_sent r)
    (out_msg_send_complete r) (full_payload_handled r) (payload_handled r)
    (curr_stream_data r) (curr_stream_data_iter r) (next_stream_data r)
    (curr_stream_data_result r) (next_stream_data_result r)
    (out_dlv_local_disposition r) v (bytes_out r) (out_msg_header_sent r)
    (out_msg_has_body r) (footer_stream_data r) (footer_stream_data_iter r)
    (remote_site r).

Definition set_bytes_out (v : Z) (r : qdr_http2_stream_data_t) : qdr_http2_stream_data_t :=
  mkStream
    (ptr r) (stream_id r) (status r) (in_link r) (out_link r) (in_dlv r)
    (out_dlv r) (in_dlv_decrefed r) (out_dlv_decrefed r) (in_link_credit r)
    (reply_to r) (method r) (request_status r) (message r) (app_properties r)
    (body_buffers r) (footer_properties r) (entire_header_arrived r)
    (header_and_props_composed r) (body_data_added_to_msg r)
    (use_footer_properties r) (entire_footer_arrived r)
    (stream_force_closed r) (disp_updated r) (disp_applied r)
    (out_msg_has_footer r) (out_msg_data_flag_eof r) (out_msg_body_sent r)
    (out_msg_send_complete r) (full_payload_handled r) (payload_handled r)
    (curr_stream_data r) (curr_stream_data_iter r) (next_stream_data r)
    (curr_stream_data_result r) (next_stream_data_result r)
    (out_dlv_local_disposition r) (bytes_in r) v (out_msg_header_sent r)
    (out_msg_has_body r) (footer_stream_data r) (footer_stream_data_iter r)
    (remote_site r).

Definition set_out_msg_header_sent (v : bool) (r : qdr_http2_stream_data_t) : qdr_http2_stream_data_t :=
  mkStream
    (ptr r) (stream_id r) (status r) (in_link r) (out_link r) (in_dlv r)
    (out_dlv r) (in_dlv_decrefed r) (out_dlv_decrefed r) (in_link_credit r)
    (reply_to r) (method r) (request_status r) (message r) (app_properties r)
    (body_buffers r) (footer_properties r) (entire_header_arrived r)
    (header_and_props_composed r) (body_data_added_to_msg r)
    (use_footer_properties r) (entire_footer_arrived r)
    (stream_force_closed r) (disp_updated r) (disp_applied r)
    (out_msg_has_footer r) (out_msg_data_flag_eof r) (out_msg_body_sent r)
    (out_msg_send_complete r) (full_payload_handled r) (payload_handled r)
    (curr_stream_data r) (curr_stream_data_iter r) (next_stream_data r)
    (curr_stream_data_result r) (next_stream_data_result r)
    (out_dlv_local_disposition r) (bytes_in r) (bytes_out r) v
    (out_msg_has_body r) (footer_stream_data r) (footer_stream_data_iter r)
    (remote_site r).

Definition set_out_msg_has_body (v : bool) (r : qdr_http2_stream_data_t) : qdr_http2_stream_data_t :=
  mkStream
    (ptr r) (stream_id r) (status r) (in_link r) (out_link r) (in_dlv r)
    (out_dlv r) (in_dlv_decrefed r) (out_dlv_decrefed r) (in_link_credit r)
    (reply_to r) (method r) (request_status r) (message r) (app_properties r)
    (body_buffers r) (footer_properties r) (entire_header_arrived r)
    (header_and_props_composed r) (body_data_added_to_msg r)
    (use_footer_properties r) (entire_footer_arrived r)
    (stream_force_closed r) (disp_updated r) (disp_applied r)
    (out_msg_has_footer r) (out_msg_data_flag_eof r) (out_msg_body_sent r)
    (out_msg_send_complete r) (full_payload_handled r) (payload_handled r)
    (curr_stream_data r) (curr_stream_data_iter r) (next_stream_data r)
    (curr_stream_data_result r) (next_stream_data_result r)
    (out_dlv_local_disposition r) (bytes_in r) (bytes_out r)
    (out_msg_header_sent r) v (footer_stream_data r)
    (footer_stream_data_iter r) (remote_site r).

Definition set_footer_stream_data (v : option qd_message_stream_data_t) (r : qdr_http2_stream_data_t) : qdr_http2_stream_data_t :=
  mkStream
    (ptr r) (stream_id r) (status r) (in_link r) (out_link r) (in_dlv r)
    (out_dlv r) (in_dlv_decrefed r) (out_dlv_decrefed r) (in_link_credit r)
    (reply_to r) (method r) (request_status r) (message r) (app_properties r)
    (body_buffers r) (footer_properties r) (entire_header_arrived r)
    (header_and_props_composed r) (body_data_added_to_msg r)
    (use_footer_properties r) (entire_footer_arrived r)
    (stream_force_closed r) (disp_updated r) (disp_applied r)
    (out_msg_has_footer r) (out_msg_data_flag_eof r) (out_msg_body_sent r)
    (out_msg_send_complete r) (full_payload_handled r) (payload_handled r)
    (curr_stream_data r) (curr_stream_data_iter r) (next_stream_data r)
    (curr_stream_data_result r) (next_stream_data_result r)
    (out_dlv_local_disposition r) (bytes_in r) (bytes_out r)
    (out_msg_header_sent r) (out_msg_has_body r) v
    (footer_stream_data_iter r) (remote_site r).

Definition set_footer_stream_data_iter (v : option qd_message_stream_data_t) (r : qdr_http2_stream_data_t) : qdr_http2_stream_data_t :=
  mkStream
    (ptr r) (stream_id r) (status r) (in_link r) (out_link r) (in_dlv r)
    (out_dlv r) (in_dlv_decrefed r) (out_dlv_decrefed r) (in_link_credit r)
    (reply_to r) (method r) (request_status r) (message r) (app_properties r)
    (body_buffers r) (footer_properties r) (entire_header_arrived r)
    (header_and_props_composed r) (body_data_added_to_msg r)
    (use_footer_properties r) (entire_footer_arrived r)
    (stream_force_closed r) (disp_updated r) (disp_applied r)
    (out_msg_has_footer r) (out_msg_data_flag_eof r) (out_msg_body_sent r)
    (out_msg_send_complete r) (full_payload_handled r) (payload_handled r)
    (curr_stream_data r) (curr_stream_data_iter r) (next_stream_data r)
    (curr_stream_data_result r) (next_stream_data_result r)
    (out_dlv_local_disposition r) (bytes_in r) (bytes_out r)
    (out_msg_header_sent r) (out_msg_has_body r) (footer_stream_data r) v
    (remote_site r).

Definition set_remote_site (v : option string) (r : qdr_http2_stream_data_t) : qdr_http2_stream_data_t :=
  mkStream
    (ptr r) (stream_id r) (status r) (in_link r) (out_link r) (in_dlv r)
    (out_dlv r) (in_dlv_decrefed r) (out_dlv_decrefed r) (in_link_credit r)
    (reply_to r) (method r) (request_status r) (message r) (app_properties r)
    (body_buffers r) (footer_properties r) (entire_header_arrived r)
    (header_and_props_composed r) (body_data_added_to_msg r)
    (use_footer_properties r) (entire_footer_arrived r)
    (stream_force_closed r) (disp_updated r) (disp_applied r)
    (out_msg_has_footer r) (out_msg_data_flag_eof r) (out_msg_body_sent r)
    (out_msg_send_complete r) (full_payload_handled r) (payload_handled r)
    (curr_stream_data r) (curr_stream_data_iter r) (next_stream_data r)
    (curr_stream_data_result r) (next_stream_data_result r)
    (out_dlv_local_disposition r) (bytes_in r) (bytes_out r)
    (out_msg_header_sent r) (out_msg_has_body r) (footer_stream_data r)
    (footer_stream_data_iter r) v.

Record qdr_http2_connection_t : Type := mkConn {
  ingress : bool;
  pn_raw_conn : option nat;
  qdr_conn : option nat;
  streams : list qdr_http2_stream_data_t;   (* DEQ of stream records, head first *)
  q2_blocked : bool;
  goaway_received : bool;
  conn_bytes_in : Z;   (* conn->bytes_in *)
  activate_scheduled : bool;   (* sys_atomic_t flag *)
  activate_timer : option nat;   (* qd_timer_t *, egress only *)
  timer_pending : nat;   (* ghost: qd_timer_schedule calls not yet cancelled or expired *)
  timer_delay : option Z;   (* ghost: delay of the last qd_timer_schedule still pending *)
  q2_restart : bool;   (* sys_atomic_t flag *)
  raw_closed_read : bool;   (* sys_atomic_t flag *)
  raw_closed_write : bool;   (* sys_atomic_t flag *)
  delete_egress_connections : bool;
  initial_settings_frame_sent : bool;
  connection_established : bool;
  stream_dispatcher : option qdr_link_t;
  dummy_link : option qdr_link_t;
  config_address : string;   (* conn->config->adaptor_config->address *)
  config_site_id : option string;   (* conn->config->adaptor_config->site_id *)
  next_delivery : nat;   (* the next qdr_delivery_t the router core hands out *)
  trace : list event;   (* calls into collaborators, oldest first *)
  delay_buffer_write : bool;   (* sys_atomic_t flag *)
  require_tls : bool;
  data_prd_source : option nat   (* conn->data_prd.source.ptr *)
}.

Definition set_pn_raw_conn (v : option nat) (r : qdr_http2_connection_t) : qdr_http2_connection_t :=
  mkConn
    (ingress r) v (qdr_conn r) (streams r) (q2_blocked r) (goaway_received r)
    (conn_bytes_in r) (activate_scheduled r) (activate_timer r)
    (timer_pending r) (timer_delay r) (q2_restart r) (raw_closed_read r)
    (raw_closed_write r) (delete_egress_connections r)
    (initial_settings_frame_sent r) (connection_established r)
    (stream_dispatcher r) (dummy_link r) (config_address r)
    (config_site_id r) (next_delivery r) (trace r) (delay_buffer_write r)
    (require_tls r) (data_prd_source r).

Definition set_qdr_conn (v : option nat) (r : qdr_http2_connection_t) : qdr_http2_connection_t :=
  mkConn
    (ingress r) (pn_raw_conn r) v (streams r) (q2_blocked r)
    (goaway_received r) (conn_bytes_in r) (activate_scheduled r)
    (activate_timer r) (timer_pending r) (timer_delay r) (q2_restart r)
    (raw_closed_read r) (raw_closed_write r) (delete_egress_connections r)
    (initial_settings_frame_sent r) (connection_established r)
    (stream_dispatcher r) (dummy_link r) (config_address r)
    (config_site_id r) (next_delivery r) (trace r) (delay_buffer_write r)
    (require_tls r) (data_prd_source r).

Definition set_streams (v : list qdr_http2_stream_data_t) (r : qdr_http2_connection_t) : qdr_http2_connection_t :=
  mkConn
    (ingress r) (pn_raw_conn r) (qdr_conn r) v (q2_blocked r)
    (goaway_received r) (conn_bytes_in r) (activate_scheduled r)
    (activate_timer r) (timer_pending r) (timer_delay r) (q2_restart r)
    (raw_closed_read r) (raw_closed_write r) (delete_egress_connections r)
    (initial_settings_frame_sent r) (connection_established r)
    (stream_dispatcher r) (dummy_link r) (config_address r)
    (config_site_id r) (next_delivery r) (trace r) (delay_buffer_write r)
    (require_tls r) (data_prd_source r).

Definition set_q2_blocked (v : bool) (r : qdr_http2_connection_t) : qdr_http2_connection_t :=
  mkConn
    (ingress r) (pn_raw_conn r) (qdr_conn r) (streams r) v
    (goaway_received r) (conn_bytes_in r) (activate_scheduled r)
    (activate_timer r) (timer_pending r) (timer_delay r) (q2_restart r)
    (raw_closed_read r) (raw_closed_write r) (delete_egress_connections r)
    (initial_settings_frame_sent r) (connection_established r)
    (stream_dispatcher r) (dummy_link r) (config_address r)
    (config_site_id r) (next_delivery r) (trace r) (delay_buffer_write r)
    (require_tls r) (data_prd_source r).

Definition set_goaway_received (v : bool) (r : qdr_http2_connection_t) : qdr_http2_connection_t :=
  mkConn
    (ingress r) (pn_raw_conn r) (qdr_conn r) (streams r) (q2_blocked r) v
    (conn_bytes_in r) (activate_scheduled r) (activate_timer r)
    (timer_pending r) (timer_delay r) (q2_restart r) (raw_closed_read r)
    (raw_closed_write r) (delete_egress_connections r)
    (initial_settings_frame_sent r) (connection_established r)
    (stream_dispatcher r) (dummy_link r) (config_address r)
    (config_site_id r) (next_delivery r) (trace r) (delay_buffer_write r)
    (require_tls r) (data_prd_source r).

Definition set_conn_bytes_in (v : Z) (r : qdr_http2_connection_t) : qdr_http2_connection_t :=
  mkConn
    (ingress r) (pn_raw_conn r) (qdr_conn r) (streams r) (q2_blocked r)
    (goaway_received r) v (activate_scheduled r) (activate_timer r)
    (timer_pending r) (timer_delay r) (q2_restart r) (raw_closed_read r)
    (raw_closed_write r) (delete_egress_connections r)
    (initial_settings_frame_sent r) (connection_established r)
    (stream_dispatcher r) (dummy_link r) (config_address r)
    (config_site_id r) (next_delivery r) (trace r) (delay_buffer_write r)
    (require_tls r) (data_prd_source r).

Definition set_activate_scheduled (v : bool) (r : qdr_http2_connection_t) : qdr_http2_connection_t :=
  mkConn
    (ingress r) (pn_raw_conn r) (qdr_conn r) (streams r) (q2_blocked r)
    (goaway_received r) (conn_bytes_in r) v (activate_timer r)
    (timer_pending r) (timer_delay r) (q2_restart r) (raw_closed_read r)
    (raw_closed_write r) (delete_egress_connections r)
    (initial_settings_frame_sent r) (connection_established r)
    (stream_dispatcher r) (dummy_link r) (config_address r)
    (config_site_id r) (next_delivery r) (trace r) (delay_buffer_write r)
    (require_tls r) (data_prd_source r).

Definition set_timer_pending (v : nat) (r : qdr_http2_connection_t) : qdr_http2_connection_t :=
  mkConn
    (ingress r) (pn_raw_conn r) (qdr_conn r) (streams r) (q2_blocked r)
    (goaway_received r) (conn_bytes_in r) (activate_scheduled r)
    (activate_timer r) v (timer_delay r) (q2_restart r) (raw_closed_read r)
    (raw_closed_write r) (delete_egress_connections r)
    (initial_settings_frame_sent r) (connection_established r)
    (stream_dispatcher r) (dummy_link r) (config_address r)
    (config_site_id r) (next_delivery r) (trace r) (delay_buffer_write r)
    (require_tls r) (data_prd_source r).

Definition set_timer_delay (v : option Z) (r : qdr_http2_connection_t) : qdr_http2_connection_t :=
  mkConn
    (ingress r) (pn_raw_conn r) (qdr_conn r) (streams r) (q2_blocked r)
    (goaway_received r) (conn_bytes_in r) (activate_scheduled r)
    (activate_timer r) (timer_pending r) v (q2_restart r) (raw_closed_read r)
    (raw_closed_write r) (delete_egress_connections r)
    (initial_settings_frame_sent r) (connection_established r)
    (stream_dispatcher r) (dummy_link r) (config_address r)
    (config_site_id r) (next_delivery r) (trace r) (delay_buffer_write r)
    (require_tls r) (data_prd_source r).

Definition set_q2_restart (v : bool) (r : qdr_http2_connection_t) : qdr_http2_connection_t :=
  mkConn
    (ingress r) (pn_raw_conn r) (qdr_conn r) (streams r) (q2_blocked r)
    (goaway_received r) (conn_bytes_in r) (activate_scheduled r)
    (activate_timer r) (timer_pending r) (timer_delay r) v
    (raw_closed_read r) (raw_closed_write r) (delete_egress_connections r)
    (initial_settings_frame_sent r) (connection_established r)
    (stream_dispatcher r) (dummy_link r) (config_address r)
    (config_site_id r) (next_delivery r) (trace r) (delay_buffer_write r)
    (require_tls r) (data_prd_source r).

Definition set_raw_closed_read (v : bool) (r : qdr_http2_connection_t) : qdr_http2_connection_t :=
  mkConn
    (ingress r) (pn_raw_conn r) (qdr_conn r) (streams r) (q2_blocked r)
    (goaway_received r) (conn_bytes_in r) (activate_scheduled r)
    (activate_timer r) (timer_pending r) (timer_delay r) (q2_restart r) v
    (raw_closed_write r) (delete_egress_connections r)
    (initial_settings_frame_sent r) (connection_established r)
    (stream_dispatcher r) (dummy_link r) (config_address r)
    (config_site_id r) (next_delivery r) (trace r) (delay_buffer_write r)
    (require_tls r) (data_prd_source r).

Definition set_raw_closed_write (v : bool) (r : qdr_http2_connection_t) : qdr_http2_connection_t :=
  mkConn
    (ingress r) (pn_raw_conn r) (qdr_conn r) (streams r) (q2_blocked r)
    (goaway_received r) (conn_bytes_in r) (activate_scheduled r)
    (activate_timer r) (timer_pending r) (timer_delay r) (q2_restart r)
    (raw_closed_read r) v (delete_egress_connections r)
    (initial_settings_frame_sent r) (connection_established r)
    (stream_dispatcher r) (dummy_link r) (config_address r)
    (config_site_id r) (next_delivery r) (trace r) (delay_buffer_write r)
    (require_tls r) (data_prd_source r).

Definition set_initial_settings_frame_sent (v : bool) (r : qdr_http2_connection_t) : qdr_http2_connection_t :=
  mkConn
    (ingress r) (pn_raw_conn r) (qdr_conn r) (streams r) (q2_blocked r)
    (goaway_received r) (conn_bytes_in r) (activate_scheduled r)
    (activate_timer r) (timer_pending r) (timer_delay r) (q2_restart r)
    (raw_closed_read r) (raw_closed_write r) (delete_egress_connections r) v
    (connection_established r) (stream_dispatcher r) (dummy_link r)
    (config_address r) (config_site_id r) (next_delivery r) (trace r)
    (delay_buffer_write r) (require_tls r) (data_prd_source r).

Definition set_connection_established (v : bool) (r : qdr_http2_connection_t) : qdr_http2_connection_t :=
  mkConn
    (ingress r) (pn_raw_conn r) (qdr_conn r) (streams r) (q2_blocked r)
    (goaway_received r) (conn_bytes_in r) (activate_scheduled r)
    (activate_timer r) (timer_pending r) (timer_delay r) (q2_restart r)
    (raw_closed_read r) (raw_closed_write r) (delete_egress_connections r)
    (initial_settings_frame_sent r) v (stream_dispatcher r) (dummy_link r)
    (config_address r) (config_site_id r) (next_delivery r) (trace r)
    (delay_buffer_write r) (require_tls r) (data_prd_source r).

Definition set_stream_dispatcher (v : option qdr_link_t) (r : qdr_http2_connection_t) : qdr_http2_connection_t :=
  mkConn
    (ingress r) (pn_raw_conn r) (qdr_conn r) (streams r) (q2_blocked r)
    (goaway_received r) (conn_bytes_in r) (activate_scheduled r)
    (activate_timer r) (timer_pending r) (timer_delay r) (q2_restart r)
    (raw_closed_read r) (raw_closed_write r) (delete_egress_connections r)
    (initial_settings_frame_sent r) (connection_established r) v
    (dummy_link r) (config_address r) (config_site_id r) (next_delivery r)
    (trace r) (delay_buffer_write r) (require_tls r) (data_prd_source r).

Definition set_dummy_link (v : option qdr_link_t) (r : qdr_http2_connection_t) : qdr_http2_connection_t :=
  mkConn
    (ingress r) (pn_raw_conn r) (qdr_conn r) (streams r) (q2_blocked r)
    (goaway_received r) (conn_bytes_in r) (activate_scheduled r)
    (activate_timer r) (timer_pending r) (timer_delay r) (q2_restart r)
    (raw_closed_read r) (raw_closed_write r) (delete_egress_connections r)
    (initial_settings_frame_sent r) (connection_established r)
    (stream_dispatcher r) v (config_address r) (config_site_id r)
    (next_delivery r) (trace r) (delay_buffer_write r) (require_tls r)
    (data_prd_source r).

Definition set_next_delivery (v : nat) (r : qdr_http2_connection_t) : qdr_http2_connection_t :=
  mkConn
    (ingress r) (pn_raw_conn r) (qdr_conn r) (streams r) (q2_blocked r)
    (goaway_received r) (conn_bytes_in r) (activate_scheduled r)
    (activate_timer r) (timer_pending r) (timer_delay r) (q2_restart r)
    (raw_closed_read r) (raw_closed_write r) (delete_egress_connections r)
    (initial_settings_frame_sent r) (connection_established r)
    (stream_dispatcher r) (dummy_link r) (config_address r)
    (config_site_id r) v (trace r) (delay_buffer_write r) (require_tls r)
    (data_prd_source r).

Definition set_trace (v : list event) (r : qdr_http2_connection_t) : qdr_http2_connection_t :=
  mkConn
    (ingress r) (pn_raw_conn r) (qdr_conn r) (streams r) (q2_blocked r)
    (goaway_received r) (conn_bytes_in r) (activate_scheduled r)
    (activate_timer r) (timer_pending r) (timer_delay r) (q2_restart r)
    (raw_closed_read r) (raw_closed_write r) (delete_egress_connections r)
    (initial_settings_frame_sent r) (connection_established r)
    (stream_dispatcher r) (dummy_link r) (config_address r)
    (config_site_id r) (next_delivery r) v (delay_buffer_write r)
    (require_tls r) (data_prd_source r).

Definition set_delay_buffer_write (v : bool) (r : qdr_http2_connection_t) : qdr_http2_connection_t :=
  mkConn
    (ingress r) (pn_raw_conn r) (qdr_conn r) (streams r) (q2_blocked r)
    (goaway_received r) (conn_bytes_in r) (activate_scheduled r)
    (activate_timer r) (timer_pending r) (timer_delay r) (q2_restart r)
    (raw_closed_read r) (raw_closed_write r) (delete_egress_connections r)
    (initial_settings_frame_sent r) (connection_established r)
    (stream_dispatcher r) (dummy_link r) (config_address r)
    (config_site_id r) (next_delivery r) (trace r) v (require_tls r)
    (data_prd_source r).

Definition set_data_prd_source (v : option nat) (r : qdr_http2_connection_t) : qdr_http2_connection_t :=
  mkConn
    (ingress r) (pn_raw_conn r) (qdr_conn r) (streams r) (q2_blocked r)
    (goaway_received r) (conn_bytes_in r) (activate_scheduled r)
    (activate_timer r) (timer_pending r) (timer_delay r) (q2_restart r)
    (raw_closed_read r) (raw_closed_write r) (delete_egress_connections r)
    (initial_settings_frame_sent r) (connection_established r)
    (stream_dispatcher r) (dummy_link r) (config_address r)
    (config_site_id r) (next_delivery r) (trace r) (delay_buffer_write r)
    (require_tls r) v.

(** [ZERO(stream_data)] followed by the assignments of
    [create_qdr_http2_stream_data] (lines 462-508). *)
Definition create_qdr_http2_stream_data_record (p : nat) (stream_id : Z)
  : qdr_http2_stream_data_t :=
  mkStream p stream_id QD_STREAM_OPEN None None None None false false 0
           None None None
           empty_message [] [] None
           false false false false false false false false
           false false false false false 0
           None None None
           QD_MESSAGE_STREAM_DATA_BODY_OK QD_MESSAGE_STREAM_DATA_BODY_OK
           0 0 0
           false true None None None.

(** *** Pointers into [conn->streams] *)

Definition find_stream (p : nat) (c : qdr_http2_connection_t)
  : option qdr_http2_stream_data_t :=
  find (fun s => Nat.eqb (ptr s) p) (streams c).

(** Writing the record at address [ptr sd] back. *)
Definition put_stream (sd : qdr_http2_stream_data_t)
           (c : qdr_http2_connection_t) : qdr_http2_connection_t :=
  set_streams
    (map (fun x => if Nat.eqb (ptr x) (ptr sd) then sd else x) (streams c)) c.

(** [DEQ_REMOVE(conn->streams, stream_data)] *)
Definition remove_stream (p : nat) (l : list qdr_http2_stream_data_t)
  : list qdr_http2_stream_data_t :=
  filter (fun x => negb (Nat.eqb (ptr x) p)) l.

Definition log (e : event) (c : qdr_http2_connection_t)
  : qdr_http2_connection_t :=
  set_trace (trace c ++ [e]) c.

Definition log_when (b : bool) (e : event) (c : qdr_http2_connection_t)
  : qdr_http2_connection_t :=
  if b then log e c else c.

(** Stream ids of the records in [conn->streams], head first. *)
Definition stream_ids (c : qdr_http2_connection_t) : list Z :=
  map stream_id (streams c).

Definition stream_ptrs (c : qdr_http2_connection_t) : list nat :=
  map ptr (streams c).

(** *** advance_stream_status (lines 190-215) *)

Definition advance_stream_status (sd : qdr_http2_stream_data_t)
  : qdr_http2_stream_data_t :=
  match status sd with
  | QD_STREAM_OPEN         => set_status QD_STREAM_HALF_CLOSED sd
  | QD_STREAM_HALF_CLOSED  => set_status QD_STREAM_FULLY_CLOSED sd
  | QD_STREAM_FULLY_CLOSED => sd
  end.

(** *** set_stream_data_delivery_flags (lines 181-188) *)

Definition set_stream_data_delivery_flags (sd : qdr_http2_stream_data_t)
           (dlv : option qdr_delivery_t) : qdr_http2_stream_data_t :=
  let sd1 := if opt_nat_eqb dlv (in_dlv sd)
             then set_in_dlv_decrefed true sd else sd in
  if opt_nat_eqb dlv (out_dlv sd1)
  then set_out_dlv_decrefed true sd1 else sd1.

(** *** free_http2_stream_data (lines 327-405)

    The record is removed from [conn->streams] and freed; what remains
    observable is the list and the calls made on the way. *)

Definition log_release (w : option qd_message_stream_data_t)
           (c : qdr_http2_connection_t) : qdr_http2_connection_t :=
  match w with
  | None => c
  | Some x => log (E_qd_message_stream_data_release x) c
  end.

Definition log_detach (l : option qdr_link_t) (c : qdr_http2_connection_t)
  : qdr_http2_connection_t :=
  match l with
  | None => c
  | Some x => if is_some (qdr_conn c) then log (E_qdr_link_detach x) c else c
  end.

Definition free_http2_stream_data (c : qdr_http2_connection_t)
           (sd : qdr_http2_stream_data_t) (on_shutdown : bool)
  : qdr_http2_connection_t :=
  let c1 := log (E_http_record_request (ptr sd)) c in
  let c2 := if on_shutdown then c1
            else log_detach (out_link sd) (log_detach (in_link sd) c1) in
  let c3 :=
    if (0 <? length (streams c2))%nat
    then log (E_nghttp2_session_set_stream_user_data (stream_id sd) None)
             (set_streams (remove_stream (ptr sd) (streams c2)) c2)
    else c2 in
  let c4 := if negb (is_some (in_dlv sd))
            then log (E_qd_message_free (ptr sd)) c3 else c3 in
  (* if (stream_data->in_dlv && !stream_data->in_dlv_decrefed) *)
  let '(c5, sd5) :=
    match in_dlv sd with
    | Some d =>
        if negb (in_dlv_decrefed sd)
        then
          let ca := log_release (next_stream_data sd)
                                (log_release (curr_stream_data sd) c4) in
          let sda := set_next_stream_data None
                       (set_curr_stream_data_iter None
                          (set_curr_stream_data None sd)) in
          let sdb := set_stream_data_delivery_flags sda (in_dlv sda) in
          (log (E_qdr_delivery_decref d) ca, sdb)
        else (c4, sd)
    | None => (c4, sd)
    end in
  (* if (stream_data->out_dlv && !stream_data->out_dlv_decrefed) *)
  let c6 :=
    match out_dlv sd5 with
    | Some d =>
        if negb (out_dlv_decrefed sd5)
        then
          let ca := log_release (next_stream_data sd5)
                                (log_release (curr_stream_data sd5) c5) in
          log (E_qdr_delivery_decref d) ca
        else c5
    | None => c5
    end in
  log (E_free_stream_data (ptr sd)) c6.

(** *** free_all_connection_streams (lines 141-152)

    [while (stream_data) { free(stream_data); stream_data = DEQ_HEAD }];
    the recursion is on the number of records in the list. *)
Fixpoint free_all_loop (n : nat) (c : qdr_http2_connection_t)
         (on_shutdown : bool) : qdr_http2_connection_t :=
  match n with
  | O => c
  | S n' =>
      match streams c with
      | [] => c
      | sd :: _ => free_all_loop n' (free_http2_stream_data c sd on_shutdown)
                                 on_shutdown
      end
  end.

Definition free_all_connection_streams (c : qdr_http2_connection_t)
           (on_shutdown : bool) : qdr_http2_connection_t :=
  free_all_loop (length (streams c)) c on_shutdown.

(** *** free_unprocessed_streams (lines 157-179)

    The loop walks the list as it was on entry: the successor of a record is
    read before the record is freed, and freeing a record unlinks only that
    record. *)
Fixpoint free_unprocessed_loop (todo : list qdr_http2_stream_data_t)
         (last_stream_id : Z) (c : qdr_http2_connection_t)
  : qdr_http2_connection_t :=
  match todo with
  | [] => c
  | sd :: rest =>
      if last_stream_id <? stream_id sd
      then free_unprocessed_loop rest last_stream_id
                                 (free_http2_stream_data c sd false)
      else free_unprocessed_loop rest last_stream_id c
  end.

Definition free_unprocessed_streams (c : qdr_http2_connection_t)
           (last_stream_id : Z) : qdr_http2_connection_t :=
  free_unprocessed_loop (streams c) last_stream_id c.

(** *** The HTTP/2-to-router path *)

Section Ingress.

(** [qd_message_stream_data_append] is defined in message.c, which is not
    among the sources.  message.h documents it: "Append the buffers in data
    as a sequence of one or more BODY_DATA sections to the given message.
    The buffers in data are moved into the message content by this
    function"; [q2_blocked] is "Set to true if this call caused Q2 to
    block".  Whether a call blocks is decided inside the message module and
    is a parameter here. *)
Variable q2_blocks : qd_message_t -> list byte -> bool.

Definition qd_message_stream_data_append (m : qd_message_t) (data : list byte)
  : qd_message_t * bool :=
  (mkMessage (msg_properties m) (msg_body m ++ [data]) (msg_footer m)
             (msg_receive_complete m) (msg_q2_handler_set m),
   q2_blocks m data).

(** Appending [stream_data->body_buffers]: the list is left empty. *)
Definition append_body_buffers (sd : qdr_http2_stream_data_t)
  : qdr_http2_stream_data_t * bool :=
  let '(m, q2) := qd_message_stream_data_append (message sd) (body_buffers sd) in
  (set_body_buffers [] (set_message m sd), q2).

(** [if (q2 && !conn->q2_blocked) conn->q2_blocked = true;] *)
Definition propagate_q2 (q2 : bool) (c : qdr_http2_connection_t)
  : qdr_http2_connection_t :=
  if q2 && negb (q2_blocked c) then set_q2_blocked true c else c.

(** *** on_data_chunk_recv_callback (lines 574-657)

    [sd_ptr] is what [nghttp2_session_get_stream_user_data] returns for the
    stream id of the chunk. *)
Definition on_data_chunk_recv_callback (c : qdr_http2_connection_t)
           (sd_ptr : option nat) (data : list byte) : qdr_http2_connection_t :=
  if negb (is_some (pn_raw_conn c)) then c
  else
    match sd_ptr with
    | None => c
    | Some p =>
        match find_stream p c with
        | None => c
        | Some sd =>
            if stream_force_closed sd then c
            else
              let len := Z.of_nat (length data) in
              let sd1 := set_bytes_in (bytes_in sd + len) sd in
              let c1  := set_conn_bytes_in (conn_bytes_in c + len) c in
              let '(c2, sd2) :=
                if is_some (in_dlv sd1) || header_and_props_composed sd1
                then
                  let '(sda, q2_blocked1) :=
                    if (0 <? length (body_buffers sd1))%nat
                       && negb (body_data_added_to_msg sd1)
                    then append_body_buffers sd1
                    else (sd1, false) in
                  let '(m, q2_blocked2) :=
                    qd_message_stream_data_append (message sda) data in
                  let sdb := set_body_data_added_to_msg true
                               (set_message m sda) in
                  (propagate_q2 (q2_blocked1 || q2_blocked2) c1, sdb)
                else
                  (c1, set_body_buffers (body_buffers sd1 ++ data) sd1) in
              log E_nghttp2_session_send (put_stream sd2 c2)
        end
    end.

(** *** qd_message_compose_amqp (lines 238-325)

    The properties list it composes, and the registration of the Q2
    unblocked handler on the message. *)
Definition qd_message_compose_amqp (to subject reply_to group_id : option string)
  : amqp_properties :=
  mkProps to subject reply_to group_id.

(** *** compose_and_deliver (lines 967-1105) *)

Definition take_footer (sd : qdr_http2_stream_data_t)
  : qdr_http2_stream_data_t :=
  (* qd_compose_take_buffers + qd_message_stream_data_footer_append *)
  match footer_properties sd with
  | None => sd
  | Some f =>
      set_footer_properties (Some [])
        (set_message (qd_message_stream_data_footer_append (message sd) f) sd)
  end.

Definition compose_3 (c : qdr_http2_connection_t)
           (sd : qdr_http2_stream_data_t) (receive_complete : bool)
  : qdr_http2_stream_data_t :=
  let props :=
    if ingress c
    then qd_message_compose_amqp (Some (config_address c)) (method sd)
                                 (reply_to sd) (config_site_id c)
    else qd_message_compose_amqp (reply_to sd) (request_status sd)
                                 None (config_site_id c) in
  set_message (qd_message_compose_3 (message sd) props (app_properties sd)
                                    receive_complete) sd.

(** The first half of [compose_and_deliver]: the block guarded by
    [if (!stream_data->header_and_props_composed)].  [None] is the early
    [return false] taken while a footer is still arriving. *)
Definition compose_header_and_props (c : qdr_http2_connection_t)
           (sd : qdr_http2_stream_data_t) (receive_complete : bool)
  : option (qdr_http2_connection_t * qdr_http2_stream_data_t) :=
  let sd0 := set_message (qd_message_set_q2_unblocked_handler (message sd)) sd in
  let composed (r : qdr_http2_connection_t * qdr_http2_stream_data_t) :=
    Some (fst r, set_header_and_props_composed true (snd r)) in
  if receive_complete then
    let '(sd1, q2) := append_body_buffers (compose_3 c sd0 receive_complete) in
    let sd2 := set_body_data_added_to_msg true sd1 in
    let sd3 := if is_some (footer_properties sd0) then take_footer sd2 else sd2 in
    composed (propagate_q2 q2 c, sd3)
  else if (0 <? length (body_buffers sd0))%nat then
    if is_some (footer_properties sd0) && negb (entire_footer_arrived sd0)
    then None
    else
      let '(sd1, q2) := append_body_buffers (compose_3 c sd0 receive_complete) in
      let sd2 := if is_some (footer_properties sd0) then take_footer sd1 else sd1 in
      composed (propagate_q2 q2 c, set_body_data_added_to_msg true sd2)
  else if is_some (footer_properties sd0) then
    if negb (entire_footer_arrived sd0) then None
    else
      let '(sd1, _) := append_body_buffers (compose_3 c sd0 receive_complete) in
      composed (c, set_body_data_added_to_msg true (take_footer sd1))
  else
    composed (c, set_body_data_added_to_msg false
                   (compose_3 c sd0 receive_complete)).

Definition compose_and_deliver (c : qdr_http2_connection_t)
           (sd : qdr_http2_stream_data_t) (receive_complete : bool)
  : bool * qdr_http2_connection_t * qdr_http2_stream_data_t :=
  let r :=
    if negb (header_and_props_composed sd)
    then
      match compose_header_and_props c sd receive_complete with
      | None =>
          (* return false; the handler registration on the message stays *)
          inl (set_message (qd_message_set_q2_unblocked_handler (message sd)) sd)
      | Some cs => inr cs
      end
    else inr (c, sd) in
  match r with
  | inl sd' => (false, c, sd')
  | inr (c1, sd1) =>
      if negb (is_some (in_dlv sd1)) && (0 <? in_link_credit sd1)
      then
        let d   := next_delivery c1 in
        let c2  := log (E_qdr_delivery_set_context d (Some (ptr sd1)))
                     (log (E_qdr_link_deliver (in_link sd1) d (ptr sd1))
                        (set_next_delivery (S d) c1)) in
        let sd2 := set_in_link_credit (in_link_credit sd1 - 1)
                     (set_in_dlv (Some d) sd1) in
        (true, c2, sd2)
      else (false, c1, sd1)
  end.

(** *** route_delivery (lines 1107-1140) *)

Definition route_delivery (c : qdr_http2_connection_t)
           (sd : qdr_http2_stream_data_t) (receive_complete : bool)
  : bool * qdr_http2_connection_t * qdr_http2_stream_data_t :=
  if is_some (in_dlv sd) then (false, c, sd)
  else if ingress c then
    if is_some (reply_to sd) && entire_header_arrived sd
       && negb (is_some (in_dlv sd))
    then compose_and_deliver c sd receive_complete
    else (false, c, sd)
  else
    if entire_header_arrived sd && negb (is_some (in_dlv sd))
    then compose_and_deliver c sd receive_complete
    else (false, c, sd).

(** *** qdr_http_flow (lines 1826-1841)

    [sd_ptr] is what [qdr_link_get_context] returns for the link. *)
Definition qdr_http_flow (c : qdr_http2_connection_t) (sd_ptr : option nat)
           (credit : Z) : qdr_http2_connection_t :=
  if 0 <? credit then
    match sd_ptr with
    | None => c
    | Some p =>
        match find_stream p c with
        | None => c
        | Some sd =>
            let sd1 := set_in_link_credit (in_link_credit sd + credit) sd in
            if negb (is_some (in_dlv sd1))
            then
              let '(_, c1, sd2) :=
                route_delivery c sd1
                               (qd_message_receive_complete (message sd1)) in
              put_stream sd2 c1
            else put_stream sd1 c
        end
    end
  else c.

(** *** qdr_http_second_attach (lines 2052-2073), qdr_copy_reply_to

    [outgoing_dynamic] is [qdr_link_direction(link) == QD_OUTGOING &&
    source->dynamic]; [address] is the address of the source terminus. *)
Definition qdr_http_second_attach (c : qdr_http2_connection_t)
           (sd_ptr : option nat) (outgoing_dynamic : bool) (address : string)
  : qdr_http2_connection_t :=
  match sd_ptr with
  | None => c
  | Some p =>
      match find_stream p c with
      | None => c
      | Some sd =>
          if outgoing_dynamic then
            let c1 :=
              if ingress c then
                let sd1 := set_reply_to (Some address) sd in
                let '(_, c', sd2) :=
                  route_delivery c sd1
                                 (qd_message_receive_complete (message sd1)) in
                put_stream sd2 c'
              else c in
            log (E_qdr_link_flow DEFAULT_CAPACITY) c1
          else c
      end
  end.

(** *** on_frame_recv_callback (lines 1199-1439) *)

Inductive nghttp2_frame : Type :=
| NGHTTP2_GOAWAY (last_stream_id : Z)
| NGHTTP2_PUSH_PROMISE
| NGHTTP2_RST_STREAM
| NGHTTP2_PING
| NGHTTP2_PRIORITY
| NGHTTP2_SETTINGS
| NGHTTP2_WINDOW_UPDATE
| NGHTTP2_DATA (flags : Z)
| NGHTTP2_HEADERS (flags : Z)
| NGHTTP2_CONTINUATION (flags : Z)
| NGHTTP2_OTHER.

(** [if (out_dlv && !disp_updated && !out_dlv_decrefed && status ==
    FULLY_CLOSED) { remote_state_updated(...); disp_updated = true; }] *)
Definition update_remote_state_when_closed (c : qdr_http2_connection_t)
           (sd : qdr_http2_stream_data_t)
  : qdr_http2_connection_t * qdr_http2_stream_data_t :=
  match out_dlv sd with
  | Some d =>
      if negb (disp_updated sd) && negb (out_dlv_decrefed sd)
         && status_eqb (status sd) QD_STREAM_FULLY_CLOSED
      then (log (E_qdr_delivery_remote_state_updated
                   d (out_dlv_local_disposition sd) true) c,
            set_disp_updated true sd)
      else (c, sd)
  | None => (c, sd)
  end.

Definition on_frame_recv_RST_STREAM (c : qdr_http2_connection_t)
           (sd : qdr_http2_stream_data_t) : qdr_http2_connection_t :=
  let '(c1, sd1) :=
    match out_dlv sd with
    | Some d =>
        (log (E_qdr_delivery_remote_state_updated d PN_REJECTED true) c,
         set_out_dlv_local_disposition PN_REJECTED sd)
    | None => (c, sd)
    end in
  let '(c2, sd2) :=
    match in_dlv sd1 with
    | Some d =>
        if negb (in_dlv_decrefed sd1)
        then
          if in_dlv_decrefed sd1
          then (c1, set_in_dlv None sd1)
          else (log (E_qdr_delivery_set_context d None) c1, sd1)
        else (c1, sd1)
    | None => (c1, sd1)
    end in
  free_http2_stream_data c2 sd2 false.

Definition on_frame_recv_DATA (c : qdr_http2_connection_t)
           (sd : qdr_http2_stream_data_t) (flags : Z)
  : qdr_http2_connection_t :=
  let sd1 :=
    if flag_set flags NGHTTP2_FLAG_END_STREAM
    then
      advance_stream_status
        (if negb (stream_force_closed sd)
         then set_message (qd_message_set_receive_complete (message sd)) sd
         else sd)
    else sd in
  let c1 :=
    match in_dlv sd1 with
    | Some d => if negb (stream_force_closed sd1)
                then log (E_qdr_delivery_continue d) c else c
    | None => c
    end in
  let '(c2, sd2) := update_remote_state_when_closed c1 sd1 in
  put_stream sd2 c2.

Definition on_frame_recv_HEADERS (c : qdr_http2_connection_t)
           (sd : qdr_http2_stream_data_t) (flags : Z)
  : qdr_http2_connection_t :=
  if flag_set flags NGHTTP2_FLAG_END_HEADERS then
    let sd1 := set_entire_header_arrived true sd in
    let sd2 :=
      if use_footer_properties sd1
      then set_message (qd_message_extend (message sd1) (footer_properties sd1))
                       (set_entire_footer_arrived true sd1)
      else set_use_footer_properties true sd1 in
    let '(sd3, receive_complete) :=
      if flag_set flags NGHTTP2_FLAG_END_STREAM
      then (advance_stream_status
              (set_message (qd_message_set_receive_complete (message sd2)) sd2),
            true)
      else (sd2, false) in
    let '(c4, sd4) :=
      if entire_footer_arrived sd3 then
        match in_dlv sd3 with
        | Some d => (log (E_qdr_delivery_continue d) c, sd3)
        | None =>
            let '(_, c', sd') := route_delivery c sd3 receive_complete in
            (c', sd')
        end
      else
        let '(_, c', sd') := route_delivery c sd3 receive_complete in
        (c', sd') in
    let '(c5, sd5) := update_remote_state_when_closed c4 sd4 in
    put_stream sd5 c5
  else c.

(** [sd_ptr] is what [nghttp2_session_get_stream_user_data] returns for the
    stream id in the frame header. *)
Definition on_frame_recv_callback (c : qdr_http2_connection_t)
           (sd_ptr : option nat) (frame : nghttp2_frame)
  : qdr_http2_connection_t :=
  let stream_data :=
    match sd_ptr with
    | None => None
    | Some p => find_stream p c
    end in
  match frame with
  | NGHTTP2_GOAWAY last_stream_id =>
      log E_pn_raw_connection_close
          (set_goaway_received true
             (free_unprocessed_streams c last_stream_id))
  | NGHTTP2_RST_STREAM =>
      match stream_data with
      | Some sd => on_frame_recv_RST_STREAM c sd
      | None => c
      end
  | NGHTTP2_DATA flags =>
      match stream_data with
      | Some sd => on_frame_recv_DATA c sd flags
      | None => c
      end
  | NGHTTP2_HEADERS flags
  | NGHTTP2_CONTINUATION flags =>
      match stream_data with
      | Some sd => on_frame_recv_HEADERS c sd flags
      | None => c
      end
  | NGHTTP2_PUSH_PROMISE | NGHTTP2_PING | NGHTTP2_PRIORITY
  | NGHTTP2_SETTINGS | NGHTTP2_WINDOW_UPDATE | NGHTTP2_OTHER => c
  end.

(** *** qdr_http_delivery_update (lines 1883-2011)

    [sd_ptr] is what [qdr_delivery_get_context] returns for [dlv]. *)

Definition is_failure_outcome (disp : Z) : bool :=
  (disp =? PN_RELEASED) || (disp =? PN_MODIFIED) || (disp =? PN_REJECTED).

Definition status_headers (disp : Z) : list (string * string) :=
  [ (":status"%string,
     if (disp =? PN_RELEASED) || (disp =? PN_MODIFIED)
     then "503"%string else "400"%string);
    ("content-type"%string, "text/html; charset=utf-8"%string);
    ("content-length"%string, "0"%string) ].

Definition qdr_http_delivery_update (c : qdr_http2_connection_t)
           (sd_ptr : option nat) (dlv : qdr_delivery_t) (disp : Z)
           (settled : bool) : qdr_http2_connection_t :=
  match sd_ptr with
  | None => c
  | Some p =>
      match find_stream p c with
      | None => c
      | Some sd =>
          let sd1 :=
            if settled && negb (ingress c) && is_failure_outcome disp
            then set_stream_force_closed true sd else sd in
          if settled then
            let c2 :=
              if ingress c && is_failure_outcome disp
              then log (E_nghttp2_submit_headers
                          (Z.lor NGHTTP2_FLAG_END_HEADERS
                                 NGHTTP2_FLAG_END_STREAM)
                          (stream_id sd1) (status_headers disp)) c
              else c in
            let '(c3, sd3) :=
              if negb (ingress c) && is_failure_outcome disp
              then (log (E_nghttp2_submit_data NGHTTP2_FLAG_END_STREAM
                                               (stream_id sd1)) c2,
                    set_out_msg_send_complete true
                      (advance_stream_status sd1))
              else (c2, sd1) in
            let c4 := log (E_qdr_delivery_set_context dlv None)
                          (log E_nghttp2_session_send c3) in
            let send_complete := out_msg_send_complete sd3 in
            let sd5 := set_stream_data_delivery_flags sd3 (Some dlv) in
            let c5  := log (E_qdr_delivery_decref dlv) c4 in
            if send_complete && status_eqb (status sd5) QD_STREAM_FULLY_CLOSED
            then free_http2_stream_data c5 sd5 false
            else put_stream (set_disp_applied true sd5) c5
          else put_stream sd1 c
      end
  end.

End Ingress.

(** *** The router-to-HTTP/2 path: read_data_callback (lines 1441-1774)

    The callback reads the connection only for
    [pn_raw_connection_write_buffers_capacity(conn->pn_raw_conn)], whose
    result is the input [write_capacity]; it works on the stream record
    [source->ptr] and on the message of [stream_data->out_dlv]. *)

Record read_result : Type := mkRead {
  rd_return     : Z;                        (* the ssize_t result *)
  rd_data_flags : Z;                        (* *data_flags on return *)
  rd_stream     : qdr_http2_stream_data_t;
  rd_message    : out_message
}.

(** [qd_message_stream_data_payload_length]; the message module hands out a
    window with every BODY_OK answer. *)
Definition window_payload_length (w : option qd_message_stream_data_t) : Z :=
  match w with
  | Some x => payload_length x
  | None => 0
  end.

(** Release [curr_stream_data], free its iterator, null both. *)
Definition release_curr (sd : qdr_http2_stream_data_t) (m : out_message)
  : qdr_http2_stream_data_t * out_message :=
  (set_curr_stream_data None (set_curr_stream_data_iter None sd),
   qd_message_stream_data_release (curr_stream_data sd) m).

(** [if (next_stream_data) { release(next_stream_data); next_stream_data = 0; }] *)
Definition release_next (sd : qdr_http2_stream_data_t) (m : out_message)
  : qdr_http2_stream_data_t * out_message :=
  (set_next_stream_data None sd,
   qd_message_stream_data_release (next_stream_data sd) m).

(** Look ahead one window:
    [next_stream_data_result = qd_message_next_stream_data(message,
    &next_stream_data)]; the out-pointer is 0 when no window is returned. *)
Definition look_ahead (sd : qdr_http2_stream_data_t) (m : out_message)
  : qdr_http2_stream_data_t * out_message :=
  let '(res, w, m1) := qd_message_next_stream_data m in
  (set_next_stream_data_result res (set_next_stream_data w sd), m1).

(** The three statements that precede [switch (curr_stream_data_result)]. *)
Definition select_current (sd : qdr_http2_stream_data_t) (m : out_message)
  : qdr_http2_stream_data_t * out_message :=
  let sd1 :=
    match next_stream_data sd with
    | Some w =>
        set_next_stream_data None
          (set_curr_stream_data_result (next_stream_data_result sd)
             (set_curr_stream_data_iter (Some w)
                (set_curr_stream_data (Some w) sd)))
    | None => sd
    end in
  let '(sd2, m2) :=
    match curr_stream_data sd1 with
    | Some _ => (sd1, m)
    | None =>
        let '(res, w, m1) := qd_message_next_stream_data m in
        let sda := set_curr_stream_data w
                     (set_curr_stream_data_result res sd1) in
        (match w with
         | Some _ => set_curr_stream_data_iter w sda
         | None => sda
         end, m1)
    end in
  let sd3 :=
    if negb (is_some (next_stream_data sd2))
       && (result_eqb (next_stream_data_result sd2) QD_MESSAGE_STREAM_DATA_NO_MORE
           || result_eqb (next_stream_data_result sd2) QD_MESSAGE_STREAM_DATA_ABORTED
           || result_eqb (next_stream_data_result sd2) QD_MESSAGE_STREAM_DATA_INVALID)
    then set_curr_stream_data_result (next_stream_data_result sd2) sd2
    else sd2 in
  (sd3, m2).

(** [case QD_MESSAGE_STREAM_DATA_BODY_OK] with [payload_length == 0]. *)
Definition read_body_empty (flags : Z) (sd : qdr_http2_stream_data_t)
           (m : out_message) : read_result :=
  let '(sd1, m1) := look_ahead sd m in
  match next_stream_data_result sd1 with
  | QD_MESSAGE_STREAM_DATA_NO_MORE =>
      let '(sd2, m2) :=
        if negb (out_msg_has_footer sd1) then release_curr sd1 m1
        else (sd1, m1) in
      let sd3 := set_full_payload_handled true
                   (set_out_msg_body_sent true
                      (set_out_msg_data_flag_eof true sd2)) in
      let '(sd4, m4) := release_next sd3 m2 in
      mkRead 0 (Z.lor flags NGHTTP2_DATA_FLAG_EOF)
             (set_out_dlv_local_disposition PN_ACCEPTED sd4) m4
  | QD_MESSAGE_STREAM_DATA_FOOTER_OK =>
      mkRead 0 flags (set_full_payload_handled true sd1) m1
  | _ =>
      let '(sd2, m2) := release_curr sd1 m1 in
      mkRead 0 flags sd2 m2
  end.

(** [case QD_MESSAGE_STREAM_DATA_BODY_OK] with [payload_length != 0]. *)
Definition read_body_data (flags : Z) (sd : qdr_http2_stream_data_t)
           (m : out_message) (length payload : Z) : read_result :=
  (* int remaining_payload_length = payload_length - payload_handled; *)
  let remaining := to_int (payload - payload_handled sd) in
  let '(bytes_to_send, flags1, sd1, m1) :=
    if remaining <=? QD_ADAPTOR_MAX_BUFFER_SIZE then
      if length <? to_size_t remaining
      then (length, flags, set_full_payload_handled false sd, m)
      else
        let '(sda, ma) := look_ahead (set_full_payload_handled true sd) m in
        match next_stream_data_result sda with
        | QD_MESSAGE_STREAM_DATA_NO_MORE =>
            (to_size_t remaining, Z.lor flags NGHTTP2_DATA_FLAG_EOF,
             set_out_dlv_local_disposition PN_ACCEPTED
               (set_out_msg_body_sent true
                  (set_out_msg_data_flag_eof true sda)), ma)
        | QD_MESSAGE_STREAM_DATA_FOOTER_OK =>
            (to_size_t remaining, flags,
             set_out_msg_body_sent true (set_out_msg_has_footer true sda), ma)
        | _ => (to_size_t remaining, flags, sda, ma)
        end
    else
      (if length <? QD_ADAPTOR_MAX_BUFFER_SIZE
       then length else QD_ADAPTOR_MAX_BUFFER_SIZE,
       flags, set_full_payload_handled false sd, m) in
  mkRead (to_ssize_t bytes_to_send) flags1
         (set_bytes_out (bytes_out sd1 + bytes_to_send) sd1) m1.

Definition read_data_callback (write_capacity : Z) (msg : out_message)
           (sd : qdr_http2_stream_data_t) (length : Z) (data_flags : Z)
  : read_result :=
  let flags := Z.lor data_flags NGHTTP2_DATA_FLAG_NO_COPY in
  match qd_message_check_depth_BODY msg with
  | QD_MESSAGE_DEPTH_OK =>
      let '(sd1, m1) := select_current sd msg in
      match curr_stream_data_result sd1 with
      | QD_MESSAGE_STREAM_DATA_BODY_OK =>
          if write_capacity =? 0
          then mkRead NGHTTP2_ERR_DEFERRED flags
                      (set_out_dlv_local_disposition 0 sd1) m1
          else
            let payload := window_payload_length (curr_stream_data sd1) in
            if payload =? 0
            then read_body_empty flags sd1 m1
            else read_body_data flags sd1 m1 length payload
      | QD_MESSAGE_STREAM_DATA_FOOTER_OK =>
          let '(sd2, m2) :=
            if negb (out_msg_has_footer sd1)
            then look_ahead (set_out_msg_has_footer true sd1) m1
            else (sd1, m1) in
          let '(sd3, m3) :=
            if result_eqb (next_stream_data_result sd2)
                          QD_MESSAGE_STREAM_DATA_INVALID
               || result_eqb (next_stream_data_result sd2)
                             QD_MESSAGE_STREAM_DATA_ABORTED
            then release_next (set_out_msg_has_footer false sd2) m2
            else (sd2, m2) in
          mkRead 0 flags sd3 m3
      | QD_MESSAGE_STREAM_DATA_INCOMPLETE =>
          mkRead NGHTTP2_ERR_DEFERRED flags
                 (set_out_dlv_local_disposition 0 sd1) m1
      | QD_MESSAGE_STREAM_DATA_NO_MORE =>
          if write_capacity =? 0
          then mkRead NGHTTP2_ERR_DEFERRED flags
                      (set_out_dlv_local_disposition 0 sd1) m1
          else
            let flags1 := Z.lor flags NGHTTP2_DATA_FLAG_EOF in
            let flags2 := if out_msg_has_footer sd1
                          then Z.lor flags1 NGHTTP2_DATA_FLAG_NO_END_STREAM
                          else flags1 in
            mkRead 0 flags2
                   (set_out_dlv_local_disposition PN_ACCEPTED
                      (set_out_msg_body_sent true
                         (set_full_payload_handled true
                            (set_out_msg_data_flag_eof true sd1)))) m1
      | QD_MESSAGE_STREAM_DATA_INVALID
      | QD_MESSAGE_STREAM_DATA_ABORTED =>
          let '(sd2, m2) := release_curr sd1 m1 in
          mkRead 0 (Z.lor flags NGHTTP2_DATA_FLAG_EOF)
                 (set_out_dlv_local_disposition PN_REJECTED
                    (set_out_msg_data_flag_eof true sd2)) m2
      end
  | QD_MESSAGE_DEPTH_INVALID =>
      mkRead 0 flags (set_out_dlv_local_disposition PN_REJECTED sd) msg
  | QD_MESSAGE_DEPTH_INCOMPLETE =>
      mkRead NGHTTP2_ERR_DEFERRED flags
             (set_out_dlv_local_disposition 0 sd) msg
  end.

(** What the specification calls the bytes remaining in the current
    stream-data window. *)
Definition remaining_in_window (sd : qdr_http2_stream_data_t) : Z :=
  window_payload_length (curr_stream_data sd) - payload_handled sd.

(** *** Activation timer (lines 3466-3482) and raw-connection events *)

(** Modelled from the spec: [SET_ATOMIC_FLAG] and [CLEAR_ATOMIC_FLAG] are
    macros of a header that is not among the sources.  They store 1 (resp.
    0) atomically and yield the previous value, which is how
    [schedule_activation] tests "transitions the flag from clear to set". *)
Definition SET_ATOMIC_FLAG_activate_scheduled (c : qdr_http2_connection_t)
  : bool * qdr_http2_connection_t :=
  (activate_scheduled c,
   log E_set_activate_scheduled (set_activate_scheduled true c)).

Definition CLEAR_ATOMIC_FLAG_activate_scheduled (c : qdr_http2_connection_t)
  : bool * qdr_http2_connection_t :=
  (activate_scheduled c,
   log E_clear_activate_scheduled (set_activate_scheduled false c)).

(** [qd_timer_schedule] and [qd_timer_cancel] belong to the timer module.
    [timer_pending] counts the schedule calls that have neither been
    cancelled nor expired. *)
Definition qd_timer_schedule (msec : Z) (c : qdr_http2_connection_t)
  : qdr_http2_connection_t :=
  log (E_qd_timer_schedule msec)
      (set_timer_delay (Some msec) (set_timer_pending (S (timer_pending c)) c)).

Definition qd_timer_cancel (c : qdr_http2_connection_t)
  : qdr_http2_connection_t :=
  log E_qd_timer_cancel (set_timer_delay None (set_timer_pending 0%nat c)).

Definition schedule_activation (c : qdr_http2_connection_t) (msec : Z)
  : bool * qdr_http2_connection_t :=
  let '(old, c1) := SET_ATOMIC_FLAG_activate_scheduled c in
  if negb old then (true, qd_timer_schedule msec c1) else (false, c1).

Definition cancel_activation (c : qdr_http2_connection_t)
  : qdr_http2_connection_t :=
  snd (CLEAR_ATOMIC_FLAG_activate_scheduled (qd_timer_cancel c)).

(** qdr_http_activate (lines 2075-2094), for a connection that exists. *)
Definition qdr_http_activate (c : qdr_http2_connection_t)
  : qdr_http2_connection_t :=
  if is_some (pn_raw_conn c)
     && negb (raw_closed_read c && raw_closed_write c)
  then log E_pn_raw_connection_wake c
  else if is_some (activate_timer c)
       then snd (schedule_activation c 0)
       else c.

(** clean_http2_conn and close_connections (lines 2871-2907) *)
Definition clean_http2_conn (c : qdr_http2_connection_t)
  : qdr_http2_connection_t :=
  log E_nghttp2_session_del (free_all_connection_streams c false).

Definition close_connections (c : qdr_http2_connection_t)
  : qdr_http2_connection_t :=
  let c1 := match dummy_link c with
            | Some l => set_dummy_link None (log (E_qdr_link_detach l) c)
            | None => c
            end in
  let c2 := if is_some (qdr_conn c1)
            then set_qdr_conn None (log E_qdr_connection_closed c1)
            else c1 in
  log E_qdr_action_enqueue_delete c2.

(** handle_disconnected (lines 2910-2953) *)
Definition handle_disconnected (c : qdr_http2_connection_t)
  : qdr_http2_connection_t :=
  let c1 := set_pn_raw_conn None c in
  if ingress c1 then close_connections (clean_http2_conn c1)
  else
    let c2 := match stream_dispatcher c1 with
              | Some l => set_stream_dispatcher None
                            (log (E_qdr_link_detach l) c1)
              | None => c1
              end in
    if delete_egress_connections c2
    then close_connections (clean_http2_conn c2)
    else clean_http2_conn c2.

(** http_connector_establish (lines 2102-2137); [tls_ready] is false when
    TLS is required and could not be configured. *)
Definition http_connector_establish (tls_ready : bool)
           (c : qdr_http2_connection_t) : qdr_http2_connection_t :=
  if tls_ready
  then log E_pn_proactor_raw_connect (set_pn_raw_conn (Some 0%nat) c)
  else c.

(** egress_conn_timer_handler (lines 2955-2994): the body run when the
    activation timer expires. *)
Definition egress_conn_timer_handler (tls_ready : bool)
           (c : qdr_http2_connection_t) : qdr_http2_connection_t :=
  let c1 := snd (CLEAR_ATOMIC_FLAG_activate_scheduled c) in
  if delete_egress_connections c1
  then log E_free_connection
           (free_all_connection_streams (log E_qdr_connection_closed c1) false)
  else if is_some (pn_raw_conn c1) then c1
  else if connection_established c1 then c1
  else if negb (ingress c1) then http_connector_establish tls_ready c1
  else c1.

(** The timer module running the handler of an armed timer. *)
Definition timer_expires (tls_ready : bool) (c : qdr_http2_connection_t)
  : qdr_http2_connection_t :=
  match timer_pending c with
  | O => c
  | S n => egress_conn_timer_handler tls_ready
             (set_timer_delay None (set_timer_pending n c))
  end.

(** *** handle_connection_event (lines 3199-3330) *)

Inductive pn_event_type_t : Type :=
| PN_RAW_CONNECTION_CONNECTED
| PN_RAW_CONNECTION_CLOSED_READ
| PN_RAW_CONNECTION_CLOSED_WRITE
| PN_RAW_CONNECTION_DISCONNECTED
| PN_RAW_CONNECTION_NEED_WRITE_BUFFERS
| PN_RAW_CONNECTION_NEED_READ_BUFFERS
| PN_RAW_CONNECTION_WAKE
| PN_RAW_CONNECTION_READ
| PN_RAW_CONNECTION_OTHER.

Section Events.

(** The parts of the event handler that move bytes: taking read buffers and
    feeding nghttp2, the connected handshake, the router core's work list. *)
Variable handle_incoming_http : qdr_http2_connection_t -> qdr_http2_connection_t.
Variable handle_raw_connected_event : qdr_http2_connection_t -> qdr_http2_connection_t.
Variable qdr_connection_process : qdr_http2_connection_t -> qdr_http2_connection_t.
(** [if (qd_tls_has_output(conn->tls)) encrypt_outgoing_tls(conn, 0, true);] *)
Variable drive_tls_output : qdr_http2_connection_t -> qdr_http2_connection_t.

Definition handle_connection_event (e : pn_event_type_t)
           (c : qdr_http2_connection_t) : qdr_http2_connection_t :=
  match e with
  | PN_RAW_CONNECTION_CONNECTED => handle_raw_connected_event c
  | PN_RAW_CONNECTION_CLOSED_READ =>
      let c1 := if q2_blocked c then set_q2_blocked false c else c in
      let c2 := handle_incoming_http (set_raw_closed_read true c1) in
      if is_some (pn_raw_conn c2) then log E_pn_raw_connection_close c2 else c2
  | PN_RAW_CONNECTION_CLOSED_WRITE =>
      log E_drain_write_buffers (set_raw_closed_write true c)
  | PN_RAW_CONNECTION_DISCONNECTED =>
      let c1 :=
        if negb (ingress c) then
          let c0 := set_initial_settings_frame_sent false c in
          if delete_egress_connections c0
          then cancel_activation c0
          else snd (schedule_activation c0 2000)
        else c in
      handle_disconnected
        (log E_drain_read_write_buffers (set_connection_established false c1))
  | PN_RAW_CONNECTION_WAKE =>
      let c1 :=
        if q2_restart c
        then handle_incoming_http (set_q2_blocked false (set_q2_restart false c))
        else c in
      qdr_connection_process c1
  | PN_RAW_CONNECTION_READ =>
      (* We don't want to read when we are q2 blocked. *)
      if q2_blocked c then c else drive_tls_output (handle_incoming_http c)
  | PN_RAW_CONNECTION_NEED_READ_BUFFERS =>
      if negb (raw_closed_read c) then log E_grant_read_buffers c else c
  | PN_RAW_CONNECTION_NEED_WRITE_BUFFERS
  | PN_RAW_CONNECTION_OTHER => c
  end.

End Events.

(** *** Operations on the activation timer, as a step function *)

Inductive activation_op : Type :=
| Op_schedule (msec : Z)            (* schedule_activation(conn, msec) *)
| Op_cancel                         (* cancel_activation(conn) *)
| Op_activate                       (* qdr_http_activate *)
| Op_disconnected                   (* PN_RAW_CONNECTION_DISCONNECTED *)
| Op_timer_expires (tls_ready : bool).

Definition raw_disconnected (c : qdr_http2_connection_t)
  : qdr_http2_connection_t :=
  handle_connection_event (fun x => x) (fun x => x) (fun x => x) (fun x => x)
                          PN_RAW_CONNECTION_DISCONNECTED c.

Definition activation_step (o : activation_op) (c : qdr_http2_connection_t)
  : qdr_http2_connection_t :=
  match o with
  | Op_schedule msec => snd (schedule_activation c msec)
  | Op_cancel => cancel_activation c
  | Op_activate => qdr_http_activate c
  | Op_disconnected => raw_disconnected c
  | Op_timer_expires tls_ready => timer_expires tls_ready c
  end.

Definition activation_run (ops : list activation_op)
           (c : qdr_http2_connection_t) : qdr_http2_connection_t :=
  fold_left (fun acc o => activation_step o acc) ops c.

(** *** The callbacks of the adaptor, as a step function on a connection *)

Inductive adapter_op : Type :=
| Op_data_chunk (sd_ptr : option nat) (data : list byte)
| Op_frame_recv (sd_ptr : option nat) (frame : nghttp2_frame)
| Op_flow (sd_ptr : option nat) (credit : Z)
| Op_second_attach (sd_ptr : option nat) (outgoing_dynamic : bool)
                   (address : string)
| Op_delivery_update (sd_ptr : option nat) (dlv : qdr_delivery_t) (disp : Z)
                     (settled : bool)
| Op_read_data (p : nat) (write_capacity : Z) (msg : out_message)
               (length : Z) (data_flags : Z).

Section Adapter.

Variable q2_blocks : qd_message_t -> list byte -> bool.

Definition adapter_step (o : adapter_op) (c : qdr_http2_connection_t)
  : qdr_http2_connection_t :=
  match o with
  | Op_data_chunk sd_ptr data =>
      on_data_chunk_recv_callback q2_blocks c sd_ptr data
  | Op_frame_recv sd_ptr frame =>
      on_frame_recv_callback q2_blocks c sd_ptr frame
  | Op_flow sd_ptr credit =>
      qdr_http_flow q2_blocks c sd_ptr credit
  | Op_second_attach sd_ptr outgoing_dynamic address =>
      qdr_http_second_attach q2_blocks c sd_ptr outgoing_dynamic address
  | Op_delivery_update sd_ptr dlv disp settled =>
      qdr_http_delivery_update c sd_ptr dlv disp settled
  | Op_read_data p write_capacity msg length data_flags =>
      match find_stream p c with
      | Some sd =>
          put_stream
            (rd_stream (read_data_callback write_capacity msg sd length
                                           data_flags)) c
      | None => c
      end
  end.

Definition adapter_run (ops : list adapter_op) (c : qdr_http2_connection_t)
  : qdr_http2_connection_t :=
  fold_left (fun acc o => adapter_step o acc) ops c.

End Adapter.

(** How many deliveries the trace shows [qdr_link_deliver] creating for the
    stream record at address [p]. *)
Definition is_deliver_for (p : nat) (e : event) : bool :=
  match e with
  | E_qdr_link_deliver _ _ q => Nat.eqb q p
  | _ => false
  end.

Definition deliveries_created (p : nat) (t : list event) : nat :=
  length (filter (is_deliver_for p) t).

Definition is_submit (e : event) : bool :=
  match e with
  | E_nghttp2_submit_headers _ _ _ | E_nghttp2_submit_data _ _ => true
  | _ => false
  end.

Definition is_free_of (p : nat) (e : event) : bool :=
  match e with
  | E_free_stream_data q => Nat.eqb q p
  | _ => false
  end.

Definition is_timer_schedule (e : event) : bool :=
  match e with
  | E_qd_timer_schedule _ => true
  | _ => false
  end.

(** A connection with the given role and streams and nothing else yet. *)
Definition new_connection (is_ingress : bool) (timer : option nat)
           (ss : list qdr_http2_stream_data_t) : qdr_http2_connection_t :=
  mkConn is_ingress (Some 0%nat) (Some 0%nat) ss false false 0
         false timer 0%nat None false false false false false true
         None None "examples/http" None 0%nat [] false false None.

(** *** Example inputs *)

Definition no_q2 : qd_message_t -> list byte -> bool := fun _ _ => false.
Definition always_q2 : qd_message_t -> list byte -> bool := fun _ _ => true.

(** Two streams, ids 1 and 3, as the second concrete scenario of the
    specification has them when GOAWAY arrives. *)
Definition example_stream_1 : qdr_http2_stream_data_t :=
  create_qdr_http2_stream_data_record 1 1.
Definition example_stream_3 : qdr_http2_stream_data_t :=
  create_qdr_http2_stream_data_record 2 3.

Definition example_ingress : qdr_http2_connection_t :=
  new_connection true None [example_stream_1; example_stream_3].

Definition example_egress : qdr_http2_connection_t :=
  new_connection false (Some 0%nat) [example_stream_1; example_stream_3].

(** A stream whose headers have all arrived, with a reply-to address and
    one credit on its incoming link. *)
Definition example_ready_stream : qdr_http2_stream_data_t :=
  set_in_link_credit 1
    (set_entire_header_arrived true
       (set_reply_to (Some "amqp:/_topo/0/reply"%string) example_stream_1)).

(** A stream whose message is composed but whose delivery has not been
    routed for lack of credit. *)
Definition example_composed_stream : qdr_http2_stream_data_t :=
  set_header_and_props_composed true
    (set_entire_header_arrived true example_stream_1).

(** A stream with staged body octets, composed neither routed. *)
Definition example_staged_stream : qdr_http2_stream_data_t :=
  set_body_buffers [Byte.x68; Byte.x69] example_ready_stream.

(** An egress stream whose request is still being sent (status OPEN): it
    has the outgoing delivery 7 and nothing else yet. *)
Definition example_sending_stream : qdr_http2_stream_data_t :=
  set_out_dlv (Some 7%nat) example_stream_1.

Definition example_egress_sending : qdr_http2_connection_t :=
  new_connection false (Some 0%nat) [example_sending_stream; example_stream_3].

(** Messages for [read_data_callback]: one whose next stream-data answer is
    INCOMPLETE, one with a 10-octet window followed by NO_MORE, one with a
    10-octet window followed by a footer. *)
Definition example_window : qd_message_stream_data_t := mkWindow 0 10.
Definition example_footer_window : qd_message_stream_data_t := mkWindow 1 4.

Definition example_msg_incomplete : out_message :=
  mkOutMessage QD_MESSAGE_DEPTH_OK
               (fun _ => (QD_MESSAGE_STREAM_DATA_INCOMPLETE, None)) 0 [].

Definition example_msg_body : out_message :=
  mkOutMessage QD_MESSAGE_DEPTH_OK
               (fun n => match n with
                         | O => (QD_MESSAGE_STREAM_DATA_BODY_OK,
                                 Some example_window)
                         | _ => (QD_MESSAGE_STREAM_DATA_NO_MORE, None)
                         end) 0 [].

Definition example_msg_footer : out_message :=
  mkOutMessage QD_MESSAGE_DEPTH_OK
               (fun n => match n with
                         | O => (QD_MESSAGE_STREAM_DATA_BODY_OK,
                                 Some example_window)
                         | S O => (QD_MESSAGE_STREAM_DATA_FOOTER_OK,
                                   Some example_footer_window)
                         | _ => (QD_MESSAGE_STREAM_DATA_NO_MORE, None)
                         end) 0 [].

Definition example_msg_not_ready : out_message :=
  mkOutMessage QD_MESSAGE_DEPTH_INCOMPLETE
               (fun _ => (QD_MESSAGE_STREAM_DATA_INCOMPLETE, None)) 0 [].

(** A run of callbacks on the example connections: an unsettled update, a
    DATA frame with END_STREAM, a second attach that records the reply-to
    address, the end of the headers, and credit. *)
Definition example_ops : list adapter_op :=
  [Op_delivery_update (Some 1%nat) 7%nat PN_REJECTED false;
   Op_frame_recv (Some 1%nat) (NGHTTP2_DATA NGHTTP2_FLAG_END_STREAM);
   Op_second_attach (Some 1%nat) true "amqp:/_topo/0/reply"%string;
   Op_frame_recv (Some 1%nat) (NGHTTP2_HEADERS NGHTTP2_FLAG_END_HEADERS);
   Op_flow (Some 1%nat) 2;
   Op_flow (Some 1%nat) 2].

(** *** Further callbacks of the adaptor

    The setters of the fields the header callback and
    [handle_outgoing_http] write. *)

Definition set_stream_id (v : Z) (r : qdr_http2_stream_data_t) : qdr_http2_stream_data_t :=
  mkStream
    (ptr r) v (status r) (in_link r) (out_link r) (in_dlv r) (out_dlv r)
    (in_dlv_decrefed r) (out_dlv_decrefed r) (in_link_credit r) (reply_to r)
    (method r) (request_status r) (message r) (app_properties r)
    (body_buffers r) (footer_properties r) (entire_header_arrived r)
    (header_and_props_composed r) (body_data_added_to_msg r)
    (use_footer_properties r) (entire_footer_arrived r)
    (stream_force_closed r) (disp_updated r) (disp_applied r)
    (out_msg_has_footer r) (out_msg_data_flag_eof r) (out_msg_body_sent r)
    (out_msg_send_complete r) (full_payload_handled r) (payload_handled r)
    (curr_stream_data r) (curr_stream_data_iter r) (next_stream_data r)
    (curr_stream_data_result r) (next_stream_data_result r)
    (out_dlv_local_disposition r) (bytes_in r) (bytes_out r)
    (out_msg_header_sent r) (out_msg_has_body r) (footer_stream_data r)
    (footer_stream_data_iter r) (remote_site r).

Definition set_method (v : option string) (r : qdr_http2_stream_data_t) : qdr_http2_stream_data_t :=
  mkStream
    (ptr r) (stream_id r) (status r) (in_link r) (out_link r) (in_dlv r)
    (out_dlv r) (in_dlv_decrefed r) (out_dlv_decrefed r) (in_link_credit r)
    (reply_to r) v (request_status r) (message r) (app_properties r)
    (body_buffers r) (footer_properties r) (entire_header_arrived r)
    (header_and_props_composed r) (body_data_added_to_msg r)
    (use_footer_properties r) (entire_footer_arrived r)
    (stream_force_closed r) (disp_updated r) (disp_applied r)
    (out_msg_has_footer r) (out_msg_data_flag_eof r) (out_msg_body_sent r)
    (out_msg_send_complete r) (full_payload_handled r) (payload_handled r)
    (curr_stream_data r) (curr_stream_data_iter r) (next_stream_data r)
    (curr_stream_data_result r) (next_stream_data_result r)
    (out_dlv_local_disposition r) (bytes_in r) (bytes_out r)
    (out_msg_header_sent r) (out_msg_has_body r) (footer_stream_data r)
    (footer_stream_data_iter r) (remote_site r).

Definition set_request_status (v : option string) (r : qdr_http2_stream_data_t) : qdr_http2_stream_data_t :=
  mkStream
    (ptr r) (stream_id r) (status r) (in_link r) (out_link r) (in_dlv r)
    (out_dlv r) (in_dlv_decrefed r) (out_dlv_decrefed r) (in_link_credit r)
    (reply_to r) (method r) v (message r) (app_properties r) (body_buffers r)
    (footer_properties r) (entire_header_arrived r)
    (header_and_props_composed r) (body_data_added_to_msg r)
    (use_footer_properties r) (entire_footer_arrived r)
    (stream_force_closed r) (disp_updated r) (disp_applied r)
    (out_msg_has_footer r) (out_msg_data_flag_eof r) (out_msg_body_sent r)
    (out_msg_send_complete r) (full_payload_handled r) (payload_handled r)
    (curr_stream_data r) (curr_stream_data_iter r) (next_stream_data r)
    (curr_stream_data_result r) (next_stream_data_result r)
    (out_dlv_local_disposition r) (bytes_in r) (bytes_out r)
    (out_msg_header_sent r) (out_msg_has_body r) (footer_stream_data r)
    (footer_stream_data_iter r) (remote_site r).

Definition set_app_properties (v : list (string * string)) (r : qdr_http2_stream_data_t) : qdr_http2_stream_data_t :=
  mkStream
    (ptr r) (stream_id r) (status r) (in_link r) (out_link r) (in_dlv r)
    (out_dlv r) (in_dlv_decrefed r) (out_dlv_decrefed r) (in_link_credit r)
    (reply_to r) (method r) (request_status r) (message r) v (body_buffers r)
    (footer_properties r) (entire_header_arrived r)
    (header_and_props_composed r) (body_data_added_to_msg r)
    (use_footer_properties r) (entire_footer_arrived r)
    (stream_force_closed r) (disp_updated r) (disp_applied r)
    (out_msg_has_footer r) (out_msg_data_flag_eof r) (out_msg_body_sent r)
    (out_msg_send_complete r) (full_payload_handled r) (payload_handled r)
    (curr_stream_data r) (curr_stream_data_iter r) (next_stream_data r)
    (curr_stream_data_result r) (next_stream_data_result r)
    (out_dlv_local_disposition r) (bytes_in r) (bytes_out r)
    (out_msg_header_sent r) (out_msg_has_body r) (footer_stream_data r)
    (footer_stream_data_iter r) (remote_site r).

(** *** qdr_http2_q2_unblocked_handler (lines 221-233)

    [conn] is what [qd_alloc_deref_safe_ptr] returns for the context: NULL
    once the connection has been freed. *)
Definition qdr_http2_q2_unblocked_handler
           (conn : option qdr_http2_connection_t)
  : option qdr_http2_connection_t :=
  match conn with
  | Some c =>
      if is_some (pn_raw_conn c)
      then Some (log E_pn_raw_connection_wake (set_q2_restart true c))
      else Some c
  | None => None
  end.

(** *** on_header_callback (lines 911-964)

    [sd_ptr] is what [nghttp2_session_get_stream_user_data] returns for the
    stream id of the frame.  Inside [case NGHTTP2_HEADERS] the pointer is
    dereferenced without a test: [None] is the result for a NULL pointer
    there.  A composed field is kept as the octets of the strings inserted
    into it, in order. *)
Definition METHOD : string := ":method".
Definition STATUS : string := ":status".

Definition qd_compose_insert_string_n (field : list byte) (s : string)
  : list byte :=
  field ++ list_byte_of_string s.

Definition on_header_callback (c : qdr_http2_connection_t)
           (sd_ptr : option nat) (frame : nghttp2_frame)
           (name value : string) : option qdr_http2_connection_t :=
  match frame with
  | NGHTTP2_HEADERS _ =>
      match sd_ptr with
      | None => None
      | Some p =>
          match find_stream p c with
          | None => None
          | Some sd =>
              if use_footer_properties sd then
                let footer := match footer_properties sd with
                              | Some f => f
                              | None => []
                              end in
                Some (put_stream
                        (set_footer_properties
                           (Some (qd_compose_insert_string_n
                                    (qd_compose_insert_string_n footer name)
                                    value)) sd) c)
              else
                let sd1 := if String.eqb METHOD name
                           then set_method (Some value) sd else sd in
                let sd2 := if String.eqb STATUS name
                           then set_request_status (Some value) sd1 else sd1 in
                Some (put_stream
                        (set_app_properties
                           (app_properties sd2 ++ [(name, value)]) sd2) c)
          end
      end
  | _ => Some c
  end.

(** The header callbacks nghttp2 makes for one header block, in order. *)
Fixpoint on_headers (c : qdr_http2_connection_t) (sd_ptr : option nat)
         (frame : nghttp2_frame) (hdrs : list (string * string))
  : option qdr_http2_connection_t :=
  match hdrs with
  | [] => Some c
  | (name, value) :: rest =>
      match on_header_callback c sd_ptr frame name value with
      | Some c1 => on_headers c1 sd_ptr frame rest
      | None => None
      end
  end.

(** The DATA chunk callbacks nghttp2 makes for one stream, in order. *)
Definition on_data_chunks (q2_blocks : qd_message_t -> list byte -> bool)
           (c : qdr_http2_connection_t) (sd_ptr : option nat)
           (chunks : list (list byte)) : qdr_http2_connection_t :=
  fold_left (fun acc data => on_data_chunk_recv_callback q2_blocks acc sd_ptr data)
            chunks c.


(** *** The HTTP/2 output path: send_callback, send_data_callback,
    nghttp2_session_send, handle_outgoing_http

    The octets themselves live in buffers of the adaptor-buffer module;
    the trace records how many octets went to the end of
    [conn->out_buffs] or to the TLS session, and when the buffers were
    handed to the raw connection. *)

(** [HTTP2_DATA_FRAME_HEADER_LENGTH] is defined in http2_adaptor.h, which
    is not among the sources; the comment at line 666 gives the serialized
    frame header as 9 bytes. *)
Definition HTTP2_DATA_FRAME_HEADER_LENGTH : Z := 9.

(** send_callback (lines 797-826); the result is [(ssize_t) length]. *)
Definition send_callback (c : qdr_http2_connection_t) (length : Z)
  : Z * qdr_http2_connection_t :=
  let c1 := if require_tls c
            then log (E_encrypt_outgoing_tls length) c
            else log (E_out_buffs_append length) c in
  let c2 := if negb (delay_buffer_write c1)
            then log E_qd_raw_connection_write_buffers c1
            else c1 in
  (to_ssize_t length, c2).

(** send_data_callback (lines 660-795), for the stream record
    [source->ptr].  The copy loop ends when [length] octets of the current
    window have been copied (the source asserts [bytes_sent == length]);
    with TLS the frame goes to local buffers, which are encrypted
    afterwards, one call of [encrypt_outgoing_tls] per buffer: the trace
    has one entry for them all. *)
Definition send_data_callback (c : qdr_http2_connection_t)
           (sd : qdr_http2_stream_data_t) (length : Z)
  : qdr_http2_connection_t * qdr_http2_stream_data_t :=
  let tls := require_tls c in
  let octets :=
    if negb (length =? 0) then HTTP2_DATA_FRAME_HEADER_LENGTH + length
    else if out_msg_data_flag_eof sd then HTTP2_DATA_FRAME_HEADER_LENGTH
         else 0 in
  let c1 :=
    if tls then c
    else if negb (length =? 0)
         then log (E_out_buffs_append length)
                  (log (E_out_buffs_append HTTP2_DATA_FRAME_HEADER_LENGTH) c)
         else if out_msg_data_flag_eof sd
              then log (E_out_buffs_append HTTP2_DATA_FRAME_HEADER_LENGTH) c
              else c in
  (* If the message has a footer, don't flush the buffers now. *)
  let write_buffs := negb (out_msg_has_footer sd) in
  let c2 := if tls && negb (octets =? 0)
            then log (E_encrypt_outgoing_tls octets) c1
            else c1 in
  let '(c3, sd3) :=
    if full_payload_handled sd then
      let '(ca, sda) :=
        match curr_stream_data sd with
        | Some w =>
            if result_eqb (curr_stream_data_result sd)
                          QD_MESSAGE_STREAM_DATA_FOOTER_OK
            then (c2,
                  set_curr_stream_data None
                    (set_curr_stream_data_iter None
                       (set_footer_stream_data_iter (curr_stream_data_iter sd)
                          (set_footer_stream_data (Some w) sd))))
            else (log_release (Some w) c2,
                  set_curr_stream_data None
                    (set_curr_stream_data_iter None sd))
        | None => (c2, sd)
        end in
      (ca, set_payload_handled 0 sda)
    else (c2, set_payload_handled (payload_handled sd + length) sd) in
  (if write_buffs then log E_qd_raw_connection_write_buffers c3 else c3,
   sd3).

(** The callbacks of the adaptor that nghttp2 makes while it sends
    ([on_frame_send_callback] and the like only write to the log).  A data
    callback is made for the record the data provider of the frame points
    to. *)
Inductive send_cb : Type :=
| Cb_send (length : Z)
| Cb_read_data (p : nat) (write_capacity : Z) (msg : out_message)
               (length : Z) (data_flags : Z)
| Cb_send_data (p : nat) (length : Z).

Definition run_send_cb (cb : send_cb) (c : qdr_http2_connection_t)
  : qdr_http2_connection_t :=
  match cb with
  | Cb_send length => snd (send_callback c length)
  | Cb_read_data p write_capacity msg length data_flags =>
      match find_stream p c with
      | Some sd =>
          put_stream
            (rd_stream (read_data_callback write_capacity msg sd length
                                           data_flags)) c
      | None => c
      end
  | Cb_send_data p length =>
      match find_stream p c with
      | Some sd =>
          let '(c1, sd1) := send_data_callback c sd length in
          put_stream sd1 c1
      | None => c
      end
  end.

(** [nghttp2_session_send(conn->session)], with the callbacks nghttp2
    makes before it returns.  Where the caller reads nothing afterwards
    that the callbacks write, the embedded functions record the call alone
    and the callbacks are steps of their own. *)
Definition nghttp2_session_send (cbs : list send_cb)
           (c : qdr_http2_connection_t) : qdr_http2_connection_t :=
  fold_left (fun acc cb => run_send_cb cb acc) cbs
            (log E_nghttp2_session_send c).

(** create_settings_frame and send_settings_frame (lines 1142-1168) *)
Definition send_settings_frame (cbs : list send_cb)
           (c : qdr_http2_connection_t) : qdr_http2_connection_t :=
  if negb (initial_settings_frame_sent c)
  then set_initial_settings_frame_sent true
         (nghttp2_session_send cbs (log E_nghttp2_submit_settings c))
  else c.

(** A write to the record at [p], which stays where it is in memory. *)
Definition on_stream (p : nat)
           (f : qdr_http2_stream_data_t -> qdr_http2_stream_data_t)
           (c : qdr_http2_connection_t) : qdr_http2_connection_t :=
  match find_stream p c with
  | Some sd => put_stream (f sd) c
  | None => c
  end.

(** What the collaborators answer during one call of
    [handle_outgoing_http]. *)
Record outgoing_answers : Type := mkOutgoing {
  (** the message of [out_dlv], for [qd_message_next_stream_data] *)
  oa_message        : out_message;
  (** the copy of its group-id field *)
  oa_group_id       : option string;
  (** the entries of its application-properties map, in order *)
  oa_app_properties : list (string * string);
  (** what [nghttp2_submit_headers] returns for the header block *)
  oa_submit_headers : Z;
  (** what [nghttp2_submit_data] returns *)
  oa_submit_data    : Z;
  (** the entries of the footer map *)
  oa_footer         : list (string * string);
  (** what [qd_message_send_complete] returns at line 2470 *)
  oa_send_complete  : bool;
  (** [conn->session] is set *)
  oa_session        : bool;
  (** the callbacks made during the calls of [nghttp2_session_send]: in
      [send_settings_frame], after the header block, for the body, after
      the footer *)
  oa_send_settings  : list send_cb;
  oa_send_headers   : list send_cb;
  oa_send_body      : list send_cb;
  oa_send_footer    : list send_cb
}.

Section Outgoing.

(** [QD_AP_FLOW_ID] is defined in a header that is not among the
    sources: the key of the flow id in the application properties. *)
Variable QD_AP_FLOW_ID : string.

(** The loop over the application properties (lines 2182-2207): every
    entry but the first with the key [QD_AP_FLOW_ID] becomes a header.
    The array [hdrs] has [count - 1] elements: without such an entry the
    loop writes past its end, which is [None]. *)
Fixpoint outgoing_headers (entries : list (string * string))
  : option (list (string * string)) :=
  match entries with
  | [] => None
  | (k, v) :: rest =>
      if String.eqb k QD_AP_FLOW_ID then Some rest
      else option_map (cons (k, v)) (outgoing_headers rest)
  end.

(** [if (strcmp(METHOD, name) == 0) method = qd_strdup(value);] and the
    same for [STATUS], for each header in turn. *)
Definition note_method_and_status (hdrs : list (string * string))
           (sd : qdr_http2_stream_data_t) : qdr_http2_stream_data_t :=
  fold_left
    (fun s h =>
       let s1 := if String.eqb METHOD (fst h)
                 then set_method (Some (snd h)) s else s in
       if String.eqb STATUS (fst h)
       then set_request_status (Some (snd h)) s1 else s1)
    hdrs sd.

(** [if (!stream_data->out_msg_header_sent) { ... }] (lines 2161-2313).
    The flag of the result is false when the function returns from inside
    the block. *)
Definition outgoing_send_headers (a : outgoing_answers) (p : nat)
           (c : qdr_http2_connection_t)
  : option (bool * qdr_http2_connection_t) :=
  match find_stream p c, outgoing_headers (oa_app_properties a) with
  | Some sd, Some hdrs =>
      let c1 := put_stream
                  (note_method_and_status
                     hdrs (set_remote_site (oa_group_id a) sd)) c in
      let stream_id0 := if ingress c1 then stream_id sd else -1 in
      let c2 := send_settings_frame (oa_send_settings a) c1 in
      let '(res, w, m1) := qd_message_next_stream_data (oa_message a) in
      let c3 := on_stream p (fun s => set_curr_stream_data
                                        w (set_curr_stream_data_result res s))
                          c2 in
      let '(flags, c4) :=
        match res with
        | QD_MESSAGE_STREAM_DATA_BODY_OK =>
            if window_payload_length w =? 0 then
              let '(nres, nw, _) := qd_message_next_stream_data m1 in
              let ca := on_stream p (fun s => set_next_stream_data
                                                nw (set_next_stream_data_result
                                                      nres s)) c3 in
              match nres with
              | QD_MESSAGE_STREAM_DATA_NO_MORE =>
                  (NGHTTP2_FLAG_END_STREAM,
                   on_stream p (fun s => set_out_msg_has_body
                                           false
                                           (set_curr_stream_data
                                              None
                                              (set_next_stream_data None s)))
                             (log_release w (log_release nw ca)))
              | _ => (NGHTTP2_FLAG_END_HEADERS, ca)
              end
            else (NGHTTP2_FLAG_END_HEADERS,
                  on_stream p (set_curr_stream_data_iter w) c3)
        | _ => (NGHTTP2_FLAG_END_HEADERS, c3)
        end in
      let c5 := match find_stream p c4 with
                | Some s => if out_msg_has_body s
                            then set_delay_buffer_write true c4 else c4
                | None => c4
                end in
      let c6 := log (E_nghttp2_submit_headers flags stream_id0 hdrs) c5 in
      let ret_val := oa_submit_headers a in
      if ret_val <? 0 then
        Some (false,
              log E_pn_raw_connection_close
                  (log (E_nghttp2_submit_goaway stream_id0 ret_val) c6))
      else
        let c7 := if ret_val =? 0 then c6
                  else on_stream p (set_stream_id ret_val) c6 in
        Some (true, nghttp2_session_send (oa_send_headers a) c7)
  | _, _ => None
  end.

(** [if (stream_data->out_msg_has_body) { ... }] (lines 2321-2350) *)
Definition outgoing_send_body (a : outgoing_answers) (p : nat)
           (c : qdr_http2_connection_t) : option qdr_http2_connection_t :=
  match find_stream p c with
  | Some sd =>
      if out_msg_has_body sd then
        if out_msg_header_sent sd then
          Some (nghttp2_session_send
                  (oa_send_body a)
                  (log (E_nghttp2_session_resume_data (stream_id sd)) c))
        else
          let c1 := log (E_nghttp2_submit_data NGHTTP2_FLAG_END_STREAM
                                               (stream_id sd))
                        (set_data_prd_source (Some p) c) in
          if negb (oa_submit_data a =? 0) then Some c1
          else if oa_session a
               then Some (nghttp2_session_send (oa_send_body a) c1)
               else Some c1
      else Some c
  | None => None
  end.

(** [if (stream_data->out_msg_has_footer) { ... }] (lines 2359-2445) *)
Definition outgoing_send_footer (a : outgoing_answers) (p : nat)
           (c : qdr_http2_connection_t) : option qdr_http2_connection_t :=
  match find_stream p c with
  | Some sd =>
      if out_msg_has_footer sd
         && negb (out_msg_has_body sd && negb (out_msg_body_sent sd))
      then
        let c1 := nghttp2_session_send
                    (oa_send_footer a)
                    (log (E_nghttp2_submit_headers NGHTTP2_FLAG_END_STREAM
                                                   (stream_id sd) (oa_footer a))
                         c) in
        match find_stream p c1 with
        | Some s =>
            let c2 := log_release (next_stream_data s)
                        (log_release (curr_stream_data s)
                           (log_release (footer_stream_data s) c1)) in
            let s1 := match curr_stream_data s with
                      | Some _ => set_curr_stream_data
                                    None (set_curr_stream_data_iter None s)
                      | None => s
                      end in
            Some (put_stream (set_next_stream_data None s1) c2)
        | None => None
        end
      else Some c
  | None => None
  end.

(** Lines 2451-2483: the message is flagged send-complete, and when the
    message says it is complete the status advances. *)
Definition outgoing_complete (a : outgoing_answers) (p : nat)
           (c : qdr_http2_connection_t) : option qdr_http2_connection_t :=
  match find_stream p c with
  | Some sd =>
      match out_dlv sd with
      | Some d =>
          let '(c1, sd1) :=
            if out_msg_header_sent sd
               && (if out_msg_has_body sd then out_msg_body_sent sd else true)
            then (log (E_qd_message_set_send_complete d) c,
                  set_out_msg_send_complete true sd)
            else (c, sd) in
          if oa_send_complete a then
            let sd2 := advance_stream_status sd1 in
            if negb (disp_updated sd2)
               && status_eqb (status sd2) QD_STREAM_FULLY_CLOSED
            then
              let c2 := log (E_qdr_delivery_remote_state_updated
                               d (out_dlv_local_disposition sd2) true) c1 in
              let sd3 := set_stream_data_delivery_flags
                           (set_disp_updated true sd2) (out_dlv sd2) in
              Some (put_stream (set_out_dlv None sd3)
                               (log (E_qdr_delivery_decref d) c2))
            else Some (put_stream sd2 c1)
          else Some (put_stream sd1 c1)
      | None => None
      end
  | None => None
  end.

(** handle_outgoing_http (lines 2142-2492), for the stream record at [p];
    [None] when [p] is not a record of the connection.  The function
    always returns 0. *)
Definition handle_outgoing_http (a : outgoing_answers) (p : nat)
           (c : qdr_http2_connection_t) : option qdr_http2_connection_t :=
  match find_stream p c with
  | Some sd =>
      if raw_closed_write c then Some c
      else
        match out_dlv sd with
        | Some _ =>
            if out_msg_send_complete sd then Some c
            else
              match (if negb (out_msg_header_sent sd)
                     then outgoing_send_headers a p c
                     else Some (true, c)) with
              | Some (true, c1) =>
                  match outgoing_send_body a p c1 with
                  | Some c2 =>
                      let c3 := set_delay_buffer_write
                                  false
                                  (on_stream p (set_out_msg_header_sent true)
                                             c2) in
                      match outgoing_send_footer a p c3 with
                      | Some c4 => outgoing_complete a p c4
                      | None => None
                      end
                  | None => None
                  end
              | Some (false, c1) => Some c1
              | None => None
              end
        | None => Some c
        end
  | None => None
  end.

(** *** Every embedded entry point of the adaptor, as one step function *)

Inductive adaptor_call : Type :=
| Call_callback (o : adapter_op)
| Call_handle_outgoing_http (p : nat) (a : outgoing_answers)
| Call_session_send (cbs : list send_cb)
| Call_header (sd_ptr : option nat) (frame : nghttp2_frame)
              (name value : string)
| Call_q2_unblocked
| Call_activation (o : activation_op)
| Call_free_all (on_shutdown : bool).

Variable q2_blocks : qd_message_t -> list byte -> bool.

(** [None] where the call dereferences a pointer that is not a record, or
    writes past an array. *)
Definition adaptor_call_step (call : adaptor_call)
           (c : qdr_http2_connection_t) : option qdr_http2_connection_t :=
  match call with
  | Call_callback o => Some (adapter_step q2_blocks o c)
  | Call_handle_outgoing_http p a => handle_outgoing_http a p c
  | Call_session_send cbs => Some (nghttp2_session_send cbs c)
  | Call_header sd_ptr frame name value =>
      on_header_callback c sd_ptr frame name value
  | Call_q2_unblocked => qdr_http2_q2_unblocked_handler (Some c)
  | Call_activation o => Some (activation_step o c)
  | Call_free_all on_shutdown =>
      Some (free_all_connection_streams c on_shutdown)
  end.

Fixpoint adaptor_calls_run (calls : list adaptor_call)
         (c : qdr_http2_connection_t) : option qdr_http2_connection_t :=
  match calls with
  | [] => Some c
  | call :: rest =>
      match adaptor_call_step call c with
      | Some c1 => adaptor_calls_run rest c1
      | None => None
      end
  end.

End Outgoing.

(** *** Example: a response sent on an ingress stream

    Stream 1 of an ingress connection has received its whole request (it
    is HALF_CLOSED) and holds the delivery of the response.  The response
    has a 10-octet body; during the send for the body nghttp2 reads the
    window and sends it. *)
Definition example_flow_key : string := "flowid".

Definition example_responding_stream : qdr_http2_stream_data_t :=
  set_out_dlv (Some 7%nat) (advance_stream_status example_stream_1).

Definition example_ingress_responding : qdr_http2_connection_t :=
  new_connection true None [example_responding_stream; example_stream_3].

Definition example_answers : outgoing_answers :=
  mkOutgoing example_msg_body None
             [(example_flow_key, "1"); (":status", "200")]%string
             0 0 [] true true
             [Cb_send 27] [Cb_send 30]
             [Cb_read_data 1 5 (snd (qd_message_next_stream_data
                                       example_msg_body)) 100 0;
              Cb_send_data 1 10]
             [].

Definition example_calls : list adaptor_call :=
  [Call_callback (Op_flow (Some 2%nat) 1);
   Call_handle_outgoing_http 1 example_answers;
   Call_header (Some 2%nat) (NGHTTP2_HEADERS NGHTTP2_FLAG_END_HEADERS)
               ":method" "GET"].
End Http2.

(** ** Vocabulary for the properties of the adaptor *)

Module Http2Spec.
Import Http2.
Local Open Scope Z_scope.

(** *** Lists of stream records addressed by pointer *)

Definition lookup (p : nat) (l : list qdr_http2_stream_data_t)
  : option qdr_http2_stream_data_t :=
  find (fun s => Nat.eqb (ptr s) p) l.

(** *** What every callback preserves of a stream record *)

(** [b] is a later state of the record [a]: same address, a status that is
    not earlier, and an incoming delivery that, once set, stays. *)
Definition stream_evolves (a b : qdr_http2_stream_data_t) : Prop :=
  ptr b = ptr a
  /\ status_le (status a) (status b)
  /\ (is_some (in_dlv a) = true -> in_dlv b = in_dlv a).

Definition streams_evolve (l l' : list qdr_http2_stream_data_t) : Prop :=
  forall p b, lookup p l' = Some b ->
              exists a, lookup p l = Some a /\ stream_evolves a b.

(** *** Frame conditions of the composition helpers *)

Definition same_routing (a b : qdr_http2_stream_data_t) : Prop :=
  ptr b = ptr a /\ stream_id b = stream_id a /\ status b = status a
  /\ in_dlv b = in_dlv a /\ in_link b = in_link a
  /\ in_link_credit b = in_link_credit a
  /\ reply_to b = reply_to a
  /\ entire_header_arrived b = entire_header_arrived a
  /\ stream_force_closed b = stream_force_closed a.

Definition same_conn (c c' : qdr_http2_connection_t) : Prop :=
  streams c' = streams c /\ trace c' = trace c
  /\ next_delivery c' = next_delivery c /\ ingress c' = ingress c.

(** The two calls [compose_and_deliver] makes when it routes: the delivery
    is created on the incoming link and given the stream as its context. *)
Definition deliver_events (sd : qdr_http2_stream_data_t) (d : qdr_delivery_t)
  : list event :=
  [E_qdr_link_deliver (in_link sd) d (ptr sd);
   E_qdr_delivery_set_context d (Some (ptr sd))].

Definition routed (c : qdr_http2_connection_t) (sd : qdr_http2_stream_data_t)
           (b : bool) (c' : qdr_http2_connection_t)
           (sd' : qdr_http2_stream_data_t) : Prop :=
  ptr sd' = ptr sd /\ status sd' = status sd /\ stream_id sd' = stream_id sd
  /\ stream_force_closed sd' = stream_force_closed sd
  /\ streams c' = streams c /\ ingress c' = ingress c
  /\ (if b
      then in_dlv sd = None /\ 0 < in_link_credit sd
           /\ in_link_credit sd' = in_link_credit sd - 1
           /\ in_dlv sd' = Some (next_delivery c)
           /\ trace c' = trace c ++ deliver_events sd (next_delivery c)
      else in_dlv sd' = in_dlv sd /\ in_link_credit sd' = in_link_credit sd
           /\ trace c' = trace c).

(** *** Calls made while freeing a stream record *)

(** The calls [free_http2_stream_data] makes for the record at [p]. *)
Definition housekeeping (p : nat) (e : event) : bool :=
  match e with
  | E_http_record_request q | E_qd_message_free q | E_free_stream_data q =>
      Nat.eqb q p
  | E_qdr_link_detach _ | E_nghttp2_session_set_stream_user_data _ _
  | E_qd_message_stream_data_release _ | E_qdr_delivery_decref _ => true
  | _ => false
  end.

(** [c'] is [c] with more events, all satisfying [P], and possibly other
    streams; the fields of the activation timer are untouched. *)
Definition grows (P : event -> Prop) (c c' : qdr_http2_connection_t) : Prop :=
  (exists new, trace c' = trace c ++ new /\ Forall P new)
  /\ ingress c' = ingress c
  /\ activate_scheduled c' = activate_scheduled c
  /\ timer_pending c' = timer_pending c
  /\ timer_delay c' = timer_delay c
  /\ delete_egress_connections c' = delete_egress_connections c
  /\ qdr_conn c' = qdr_conn c.

(** *** One callback: streams evolve, at most one delivery is routed *)

Definition nondeliver (e : event) : Prop := forall p, is_deliver_for p e = false.

(** One callback ran between [c] and [c']: the streams of [c'] are later
    states of streams of [c], and the calls it made contain at most one
    [qdr_link_deliver], made for a stream that had no incoming delivery and
    has one afterwards. *)
Definition step_ok (c c' : qdr_http2_connection_t) : Prop :=
  streams_evolve (streams c) (streams c')
  /\ exists new,
      trace c' = trace c ++ new
      /\ (Forall nondeliver new
          \/ exists pre l d p post a b,
              new = pre ++ E_qdr_link_deliver l d p :: post
              /\ Forall nondeliver pre /\ Forall nondeliver post
              /\ lookup p (streams c) = Some a /\ in_dlv a = None
              /\ lookup p (streams c') = Some b /\ in_dlv b <> None).

(** *** The GOAWAY loop *)

(** The addresses of the records the GOAWAY loop frees. *)
Definition unprocessed_ptrs (todo : list qdr_http2_stream_data_t)
           (last_stream_id : Z) : list nat :=
  map ptr (filter (fun s => last_stream_id <? stream_id s) todo).

Definition frees_only (ps : list nat) (e : event) : Prop :=
  nondeliver e /\ is_submit e = false /\ is_timer_schedule e = false
  /\ forall q, e = E_free_stream_data q -> In q ps.

(** *** The data read callback *)

(** What [read_data_callback] and its parts leave alone. *)
Definition same_ident (a b : qdr_http2_stream_data_t) : Prop :=
  ptr b = ptr a /\ status b = status a /\ in_dlv b = in_dlv a
  /\ stream_id b = stream_id a.

(** *** At most one incoming delivery per stream record *)

(** The trace shows at most one delivery created for the record at [p],
    and when it shows one the record, while it exists, holds a delivery. *)
Definition delivered_once (p : nat) (c : qdr_http2_connection_t) : Prop :=
  (deliveries_created p (trace c) <= 1)%nat
  /\ (deliveries_created p (trace c) = 1%nat ->
      forall b, lookup p (streams c) = Some b -> in_dlv b <> None).

(** *** The data read callback: the lookahead *)

(** The answer the message gives to the next
    [qd_message_next_stream_data] made on [m]. *)
Definition answer (m : out_message)
  : qd_message_stream_data_result_t * option qd_message_stream_data_t :=
  next_answer m (next_calls m).

(** *** The activation timer *)

(** The calls on the activation timer and on its flag. *)
Definition is_activation_event (e : event) : bool :=
  match e with
  | E_set_activate_scheduled | E_clear_activate_scheduled
  | E_qd_timer_schedule _ | E_qd_timer_cancel => true
  | _ => false
  end.

(** [c'] is [c] after calls none of which is on the timer or its flag. *)
Definition timer_untouched (c c' : qdr_http2_connection_t) : Prop :=
  (exists new, trace c' = trace c ++ new
               /\ Forall (fun e => is_activation_event e = false) new)
  /\ activate_scheduled c' = activate_scheduled c
  /\ timer_pending c' = timer_pending c
  /\ timer_delay c' = timer_delay c.

(** At most one arming of the timer is outstanding, and only while the
    flag is set. *)
Definition one_timer (c : qdr_http2_connection_t) : Prop :=
  (timer_pending c <= 1)%nat
  /\ (timer_pending c = 1%nat -> activate_scheduled c = true).

(** *** Connections whose stream records evolve *)

(** The stream records of [c'] are later states of records of [c]. *)
Definition evolves (c c' : qdr_http2_connection_t) : Prop :=
  streams_evolve (streams c) (streams c').

End Http2Spec.
(** ** Further vocabulary: what a trace shows, what a stream has received *)

Module AdaptorSpec.
Import Http2 Http2Spec.
Local Open Scope Z_scope.

(** The stream records freed, the deliveries whose reference was dropped,
    the stream-data windows released and the links detached, in the order
    of the calls. *)
Definition frees (t : list event) : list nat :=
  flat_map (fun e => match e with E_free_stream_data p => [p] | _ => [] end) t.

Definition decrefs (t : list event) : list qdr_delivery_t :=
  flat_map (fun e => match e with E_qdr_delivery_decref d => [d] | _ => [] end) t.

Definition releases (t : list event) : list qd_message_stream_data_t :=
  flat_map (fun e => match e with
                     | E_qd_message_stream_data_release w => [w]
                     | _ => []
                     end) t.

Definition detaches (t : list event) : list qdr_link_t :=
  flat_map (fun e => match e with E_qdr_link_detach l => [l] | _ => [] end) t.

Definition opt_list {A : Type} (o : option A) : list A :=
  match o with Some x => [x] | None => [] end.

(** The reference the record holds on a delivery is still to be dropped. *)
Definition held (dlv : option qdr_delivery_t) (decrefed : bool) : bool :=
  is_some dlv && negb decrefed.

(** The calls [free_http2_stream_data] makes for the record [sd] of the
    connection [c], in order: the request is recorded, the links are
    detached, the stream's user data is cleared, a message that was never
    delivered is freed, the windows are released and the references on the
    deliveries dropped, the record is freed. *)
Definition release_calls (sd : qdr_http2_stream_data_t) : list event :=
  map E_qd_message_stream_data_release
      (opt_list (curr_stream_data sd) ++ opt_list (next_stream_data sd)).

Definition free_calls (c : qdr_http2_connection_t)
           (sd : qdr_http2_stream_data_t) (on_shutdown : bool) : list event :=
  let in_held := held (in_dlv sd) (in_dlv_decrefed sd) in
  let out_held := held (out_dlv sd) (out_dlv_decrefed sd)
                  && negb (in_held && opt_nat_eqb (in_dlv sd) (out_dlv sd)) in
  [E_http_record_request (ptr sd)]
  ++ (if on_shutdown || negb (is_some (qdr_conn c)) then []
      else map E_qdr_link_detach
               (opt_list (in_link sd) ++ opt_list (out_link sd)))
  ++ (if (0 <? length (streams c))%nat
      then [E_nghttp2_session_set_stream_user_data (stream_id sd) None]
      else [])
  ++ (if is_some (in_dlv sd) then [] else [E_qd_message_free (ptr sd)])
  ++ (if in_held
      then release_calls sd ++ map E_qdr_delivery_decref (opt_list (in_dlv sd))
      else [])
  ++ (if out_held
      then (if in_held then [] else release_calls sd)
           ++ map E_qdr_delivery_decref (opt_list (out_dlv sd))
      else [])
  ++ [E_free_stream_data (ptr sd)].

(** The body octets a stream has taken in so far: those already in the
    message, then those still staged. *)
Definition received_body (sd : qdr_http2_stream_data_t) : list byte :=
  concat (msg_body (message sd)) ++ body_buffers sd.

(** Staged octets are moved into the message before the flag is set, and
    the flag is set only for a message that is composed or routed. *)
Definition staged_ok (sd : qdr_http2_stream_data_t) : Prop :=
  body_data_added_to_msg sd = true ->
  body_buffers sd = []
  /\ (is_some (in_dlv sd) || header_and_props_composed sd = true).

(** The last value a header block gives to [name], [old] if it gives none. *)
Definition last_value (name : string) (hdrs : list (string * string))
           (old : option string) : option string :=
  match find (fun h => String.eqb name (fst h)) (rev hdrs) with
  | Some h => Some (snd h)
  | None => old
  end.

(** The octets a header block adds to a footer field. *)
Definition footer_octets (hdrs : list (string * string)) : list byte :=
  flat_map (fun h => list_byte_of_string (fst h)
                     ++ list_byte_of_string (snd h)) hdrs.

(** [c'] is [c] with other streams and a longer trace, nothing else. *)
Definition upd (s : list qdr_http2_stream_data_t) (t : list event)
           (c : qdr_http2_connection_t) : qdr_http2_connection_t :=
  set_trace t (set_streams s c).

(** What a call of [read_data_callback] may have done to the data flags
    [data_flags] it was given: NO_COPY is added; EOF is added only with
    [out_msg_data_flag_eof] set and a disposition decided; NO_END_STREAM is
    added only along with EOF, for a message with a footer, by a call that
    returns no octets. *)
Definition read_flags_ok (data_flags : Z) (r : read_result) : Prop :=
  let f := Z.lor data_flags NGHTTP2_DATA_FLAG_NO_COPY in
  rd_data_flags r = f
  \/ (rd_data_flags r = Z.lor f NGHTTP2_DATA_FLAG_EOF
      /\ out_msg_data_flag_eof (rd_stream r) = true
      /\ (out_dlv_local_disposition (rd_stream r) = PN_ACCEPTED
          \/ out_dlv_local_disposition (rd_stream r) = PN_REJECTED))
  \/ (rd_data_flags r
      = Z.lor (Z.lor f NGHTTP2_DATA_FLAG_EOF) NGHTTP2_DATA_FLAG_NO_END_STREAM
      /\ out_msg_data_flag_eof (rd_stream r) = true
      /\ out_msg_has_footer (rd_stream r) = true
      /\ out_dlv_local_disposition (rd_stream r) = PN_ACCEPTED
      /\ rd_return r = 0).

(** The fields of a connection other than its stream list and its trace. *)
Definition others (c : qdr_http2_connection_t) :=
  (ingress c, pn_raw_conn c, qdr_conn c, q2_blocked c, goaway_received c,
   conn_bytes_in c, activate_scheduled c, activate_timer c, timer_pending c,
   timer_delay c, q2_restart c, raw_closed_read c, raw_closed_write c,
   delete_egress_connections c, initial_settings_frame_sent c,
   connection_established c, stream_dispatcher c, dummy_link c,
   config_address c, config_site_id c, next_delivery c,
   delay_buffer_write c, require_tls c, data_prd_source c).

End AdaptorSpec.

(** ** The management agent's link table (router_core/agent_link.c) *)

Module AgentLink.
Local Open Scope Z_scope.

Definition to_uint32 (z : Z) : Z := z mod 2 ^ 32.
Definition to_uint64 (z : Z) : Z := z mod 2 ^ 64.
Definition to_int64 (z : Z) : Z :=
  let m := z mod 2 ^ 64 in if m <? 2 ^ 63 then m else m - 2 ^ 64.

(** Lines 25-52: the column numbers. *)
Definition QDR_LINK_NAME : Z := 0.
Definition QDR_LINK_IDENTITY : Z := 1.
Definition QDR_LINK_TYPE : Z := 2.
Definition QDR_LINK_LINK_NAME : Z := 3.
Definition QDR_LINK_LINK_TYPE : Z := 4.
Definition QDR_LINK_LINK_DIR : Z := 5.
Definition QDR_LINK_OWNING_ADDR : Z := 6.
Definition QDR_LINK_CAPACITY : Z := 7.
Definition QDR_LINK_UNDELIVERED_COUNT : Z := 8.
Definition QDR_LINK_UNSETTLED_COUNT : Z := 9.
Definition QDR_LINK_DELIVERY_COUNT : Z := 10.
Definition QDR_LINK_CONNECTION_ID : Z := 11.
Definition QDR_LINK_OPER_STATE : Z := 12.
Definition QDR_LINK_PRESETTLED_COUNT : Z := 13.
Definition QDR_LINK_DROPPED_PRESETTLED_COUNT : Z := 14.
Definition QDR_LINK_ACCEPTED_COUNT : Z := 15.
Definition QDR_LINK_REJECTED_COUNT : Z := 16.
Definition QDR_LINK_RELEASED_COUNT : Z := 17.
Definition QDR_LINK_MODIFIED_COUNT : Z := 18.
Definition QDR_LINK_DELAYED_1SEC : Z := 19.
Definition QDR_LINK_DELAYED_10SEC : Z := 20.
Definition QDR_LINK_DELIVERIES_STUCK : Z := 21.
Definition QDR_LINK_OPEN_MOVED_STREAMS : Z := 22.
Definition QDR_LINK_INGRESS_HISTOGRAM : Z := 23.
Definition QDR_LINK_PRIORITY : Z := 24.
Definition QDR_LINK_SETTLE_RATE : Z := 25.
Definition QDR_LINK_CREDIT_AVAILABLE : Z := 26.
Definition QDR_LINK_ZERO_CREDIT_SECONDS : Z := 27.

(** Lines 54-83: the column names, without the terminating 0. *)
Definition qdr_link_columns : list string :=
  ["name"; "identity"; "type"; "linkName"; "linkType"; "linkDir";
   "owningAddr"; "capacity"; "undeliveredCount"; "unsettledCount";
   "deliveryCount"; "connectionId"; "operStatus"; "presettledCount";
   "droppedPresettledCount"; "acceptedCount"; "rejectedCount";
   "releasedCount"; "modifiedCount"; "deliveriesDelayed1Sec";
   "deliveriesDelayed10Sec"; "deliveriesStuck"; "openMovedStreams";
   "ingressHistogram"; "priority"; "settleRate"; "creditAvailable";
   "zeroCreditSeconds"]%string.

(** The enumerators the switch of [qd_link_type_name] names;
    [QD_LINK_OTHER] stands for a value that is none of them. *)
Inductive qd_link_type_t : Type :=
| QD_LINK_ENDPOINT
| QD_LINK_CONTROL
| QD_LINK_ROUTER
| QD_LINK_EDGE_DOWNLINK
| QD_LINK_INTER_EDGE
| QD_LINK_OTHER.

(** qd_link_type_name (lines 85-96) *)
Definition qd_link_type_name (lt : qd_link_type_t) : string :=
  match lt with
  | QD_LINK_ENDPOINT      => "endpoint"
  | QD_LINK_CONTROL       => "router-control"
  | QD_LINK_ROUTER        => "inter-router"
  | QD_LINK_EDGE_DOWNLINK => "edge-downlink"
  | QD_LINK_INTER_EDGE    => "inter-edge"
  | QD_LINK_OTHER         => EmptyString
  end.

Inductive qd_direction_t : Type := QD_INCOMING | QD_OUTGOING.

Inductive qdr_link_oper_status_t : Type :=
| QDR_LINK_OPER_UP
| QDR_LINK_OPER_DOWN
| QDR_LINK_OPER_QUIESCING
| QDR_LINK_OPER_IDLE
| QDR_LINK_OPER_OTHER.

(** An address: [hash_handle] is NULL or a handle whose key
    [qd_hash_key_by_handle] returns. *)
Record qdr_address_t : Type := mkAddress {
  hash_handle : option string
}.

(** address_key (lines 99-102) *)
Definition address_key (addr : option qdr_address_t) : option string :=
  match addr with
  | Some a => hash_handle a
  | None => None
  end.

(** The fields of [qdr_link_t] (router_core_private.h) that the agent
    reads and writes. *)
Record qdr_link_t : Type := mkLink {
  name                          : option string;
  identity                      : Z;
  link_type                     : qd_link_type_t;
  link_direction                : qd_direction_t;
  owning_addr                   : option qdr_address_t;
  terminus_addr                 : option string;
  capacity                      : Z;
  undelivered_size              : Z;   (* DEQ_SIZE(link->undelivered) *)
  unsettled_size                : Z;   (* DEQ_SIZE(link->unsettled) *)
  total_deliveries              : Z;
  conn_identity                 : Z;   (* link->conn->identity *)
  oper_status                   : qdr_link_oper_status_t;
  presettled_deliveries         : Z;
  dropped_presettled_deliveries : Z;
  accepted_deliveries           : Z;
  rejected_deliveries           : Z;
  released_deliveries           : Z;
  modified_deliveries           : Z;
  deliveries_delayed_1sec       : Z;
  deliveries_delayed_10sec      : Z;
  deliveries_stuck              : Z;
  open_moved_streams            : Z;
  ingress_histogram             : option (list Z); (* qd_bitmask_width() counters *)
  priority                      : Z;
  core_ticks                    : Z;
  rate_cursor                   : nat;
  settled_deliveries            : list Z;   (* QDR_LINK_RATE_DEPTH slots *)
  credit_reported               : Z;
  zero_credit_time              : Z
}.

Definition set_rate (ticks : Z) (cursor : nat) (slots : list Z)
           (l : qdr_link_t) : qdr_link_t :=
  mkLink (name l) (identity l) (link_type l) (link_direction l)
         (owning_addr l) (terminus_addr l) (capacity l) (undelivered_size l)
         (unsettled_size l) (total_deliveries l) (conn_identity l)
         (oper_status l) (presettled_deliveries l)
         (dropped_presettled_deliveries l) (accepted_deliveries l)
         (rejected_deliveries l) (released_deliveries l)
         (modified_deliveries l) (deliveries_delayed_1sec l)
         (deliveries_delayed_10sec l) (deliveries_stuck l)
         (open_moved_streams l) (ingress_histogram l) (priority l)
         ticks cursor slots (credit_reported l) (zero_credit_time l).

(** The calls on the composed field [body], in order.  The argument of an
    insert is what the callee receives: a string pointer may be NULL, a
    [uint32_t] or [uint64_t] parameter holds the value converted. *)
Inductive compose_call : Type :=
| C_start_list
| C_end_list
| C_insert_null
| C_insert_string (s : option string)
| C_insert_uint (v : Z)
| C_insert_ulong (v : Z).

Definition qd_compose_insert_string (body : list compose_call)
           (s : option string) : list compose_call :=
  body ++ [C_insert_string s].
Definition qd_compose_insert_null (body : list compose_call)
  : list compose_call := body ++ [C_insert_null].
Definition qd_compose_insert_uint (body : list compose_call) (v : Z)
  : list compose_call := body ++ [C_insert_uint (to_uint32 v)].
Definition qd_compose_insert_ulong (body : list compose_call) (v : Z)
  : list compose_call := body ++ [C_insert_ulong (to_uint64 v)].
Definition qd_compose_start_list (body : list compose_call)
  : list compose_call := body ++ [C_start_list].
Definition qd_compose_end_list (body : list compose_call)
  : list compose_call := body ++ [C_end_list].

(** [snprintf(id, 100, "%" PRId64, v)] *)
Definition print_int64 (v : Z) : string :=
  NilZero.string_of_int (Z.to_int (to_int64 v)).

(** [a[i] = v] on an array kept as a list; the index is within the array
    wherever the agent stores. *)
Fixpoint store (i : nat) (v : Z) (a : list Z) : list Z :=
  match a, i with
  | [], _ => []
  | _ :: rest, O => v :: rest
  | x :: rest, S j => x :: store j v rest
  end.

Section Agent.

(** [QDR_LINK_RATE_DEPTH] is defined in router_core_private.h, which is
    not among the sources: the number of slots of [settled_deliveries]. *)
Variable QDR_LINK_RATE_DEPTH : nat.

(** The loop of the settle-rate column:
    [for (uint8_t delta_slots = 0; delta_slots < delta_time; delta_slots++)
       { rate_cursor = (rate_cursor + 1) % QDR_LINK_RATE_DEPTH;
         settled_deliveries[rate_cursor] = 0; }];
    [n] is [delta_time], already limited to the depth. *)
Fixpoint clear_slots (n : nat) (cursor : nat) (slots : list Z)
  : nat * list Z :=
  match n with
  | O => (cursor, slots)
  | S n' =>
      let cursor' := ((cursor + 1) mod QDR_LINK_RATE_DEPTH)%nat in
      clear_slots n' cursor' (store cursor' 0 slots)
  end.

(** [case QDR_LINK_SETTLE_RATE]; [uptime] is what
    [qdr_core_uptime_ticks(core)] returns. *)
Definition settle_rate (uptime : Z) (link : qdr_link_t) : Z * qdr_link_t :=
  let depth := Z.of_nat QDR_LINK_RATE_DEPTH in
  let delta_time := to_uint32 (uptime - core_ticks link) in
  let link1 :=
    if 0 <? delta_time then
      let delta := if depth <? delta_time then depth else delta_time in
      let '(cursor, slots) :=
        clear_slots (Z.to_nat delta) (rate_cursor link)
                    (settled_deliveries link) in
      set_rate uptime cursor slots link
    else link in
  let total :=
    to_uint64 (fold_left Z.add (firstn QDR_LINK_RATE_DEPTH
                                       (settled_deliveries link1)) 0) in
  (total / depth, link1).

(** qdr_agent_write_column_CT (lines 104-279), for a link that is not
    NULL. *)
Definition qdr_agent_write_column_CT (uptime : Z) (body : list compose_call)
           (col : Z) (link : qdr_link_t) : list compose_call * qdr_link_t :=
  if col =? QDR_LINK_NAME then
    (match name link with
     | Some n => qd_compose_insert_string body (Some n)
     | None => qd_compose_insert_null body
     end, link)
  else if col =? QDR_LINK_IDENTITY then
    (qd_compose_insert_string body (Some (print_int64 (identity link))), link)
  else if col =? QDR_LINK_TYPE then
    (qd_compose_insert_string body
       (Some "io.skupper.router.router.link"%string), link)
  else if col =? QDR_LINK_LINK_NAME then
    (qd_compose_insert_string body (name link), link)
  else if col =? QDR_LINK_LINK_TYPE then
    (qd_compose_insert_string body
       (Some (qd_link_type_name (link_type link))), link)
  else if col =? QDR_LINK_LINK_DIR then
    (qd_compose_insert_string body
       (Some (match link_direction link with
              | QD_INCOMING => "in"%string
              | QD_OUTGOING => "out"%string
              end)), link)
  else if col =? QDR_LINK_OWNING_ADDR then
    (match owning_addr link with
     | Some a => qd_compose_insert_string body (address_key (Some a))
     | None =>
         match terminus_addr link with
         | Some t => qd_compose_insert_string body (Some t)
         | None => qd_compose_insert_null body
         end
     end, link)
  else if col =? QDR_LINK_CAPACITY then
    (qd_compose_insert_uint body (capacity link), link)
  else if col =? QDR_LINK_UNDELIVERED_COUNT then
    (qd_compose_insert_ulong body (undelivered_size link), link)
  else if col =? QDR_LINK_UNSETTLED_COUNT then
    (qd_compose_insert_ulong body (unsettled_size link), link)
  else if col =? QDR_LINK_DELIVERY_COUNT then
    (qd_compose_insert_ulong body (total_deliveries link), link)
  else if col =? QDR_LINK_CONNECTION_ID then
    (qd_compose_insert_string body
       (Some (print_int64 (conn_identity link))), link)
  else if col =? QDR_LINK_OPER_STATE then
    (match oper_status link with
     | QDR_LINK_OPER_UP => qd_compose_insert_string body (Some "up"%string)
     | QDR_LINK_OPER_DOWN => qd_compose_insert_string body (Some "down"%string)
     | QDR_LINK_OPER_QUIESCING =>
         qd_compose_insert_string body (Some "quiescing"%string)
     | QDR_LINK_OPER_IDLE => qd_compose_insert_string body (Some "idle"%string)
     | QDR_LINK_OPER_OTHER => qd_compose_insert_null body
     end, link)
  else if col =? QDR_LINK_PRESETTLED_COUNT then
    (qd_compose_insert_ulong body (presettled_deliveries link), link)
  else if col =? QDR_LINK_DROPPED_PRESETTLED_COUNT then
    (qd_compose_insert_ulong body (dropped_presettled_deliveries link), link)
  else if col =? QDR_LINK_ACCEPTED_COUNT then
    (qd_compose_insert_ulong body (accepted_deliveries link), link)
  else if col =? QDR_LINK_REJECTED_COUNT then
    (qd_compose_insert_ulong body (rejected_deliveries link), link)
  else if col =? QDR_LINK_RELEASED_COUNT then
    (qd_compose_insert_ulong body (released_deliveries link), link)
  else if col =? QDR_LINK_MODIFIED_COUNT then
    (qd_compose_insert_ulong body (modified_deliveries link), link)
  else if col =? QDR_LINK_DELAYED_1SEC then
    (qd_compose_insert_ulong body (deliveries_delayed_1sec link), link)
  else if col =? QDR_LINK_DELAYED_10SEC then
    (qd_compose_insert_ulong body (deliveries_delayed_10sec link), link)
  else if col =? QDR_LINK_DELIVERIES_STUCK then
    (qd_compose_insert_ulong body (deliveries_stuck link), link)
  else if col =? QDR_LINK_OPEN_MOVED_STREAMS then
    (qd_compose_insert_ulong body (open_moved_streams link), link)
  else if col =? QDR_LINK_INGRESS_HISTOGRAM then
    (match ingress_histogram link with
     | Some h =>
         qd_compose_end_list
           (fold_left qd_compose_insert_ulong h (qd_compose_start_list body))
     | None => qd_compose_insert_null body
     end, link)
  else if col =? QDR_LINK_PRIORITY then
    (qd_compose_insert_uint body (priority link), link)
  else if col =? QDR_LINK_SETTLE_RATE then
    let '(rate, link1) := settle_rate uptime link in
    (qd_compose_insert_uint body rate, link1)
  else if col =? QDR_LINK_CREDIT_AVAILABLE then
    (qd_compose_insert_uint body (credit_reported link), link)
  else if col =? QDR_LINK_ZERO_CREDIT_SECONDS then
    (if zero_credit_time link =? 0
     then qd_compose_insert_uint body 0
     else qd_compose_insert_uint body (uptime - zero_credit_time link), link)
  else
    (qd_compose_insert_null body, link).

(** qdr_agent_write_link_CT (lines 281-294).  [columns] is the array
    [query->columns] up to and without its negative terminator; an entry
    that is negative ends the loop as the terminator does. *)
Fixpoint write_columns (uptime : Z) (body : list compose_call)
         (columns : list Z) (link : qdr_link_t)
  : list compose_call * qdr_link_t :=
  match columns with
  | [] => (body, link)
  | col :: rest =>
      if col <? 0 then (body, link)
      else
        let '(body1, link1) :=
          qdr_agent_write_column_CT uptime body col link in
        write_columns uptime body1 rest link1
  end.

Definition qdr_agent_write_link_CT (uptime : Z) (body : list compose_call)
           (columns : list Z) (link : option qdr_link_t)
  : list compose_call * option qdr_link_t :=
  let body1 := qd_compose_start_list body in
  match link with
  | Some l =>
      let '(body2, l1) := write_columns uptime body1 columns l in
      (qd_compose_end_list body2, Some l1)
  | None => (qd_compose_end_list body1, None)
  end.

(** The core and the query, as far as the link table reads and writes
    them.  [responses] counts the calls of
    [qdr_agent_enqueue_response_CT]. *)
Record qdr_core_t : Type := mkCore {
  open_links   : list qdr_link_t;
  uptime_ticks : Z
}.

(** [QD_AMQP_OK] (amqp.h): the status of a query that succeeded. *)
Definition QD_AMQP_OK : Z := 200.

Record qdr_query_t : Type := mkQuery {
  status      : Z;
  more        : bool;
  next_offset : Z;
  columns     : list Z;
  body        : list compose_call;
  responses   : nat
}.

Definition qdr_agent_enqueue_response_CT (q : qdr_query_t) : qdr_query_t :=
  mkQuery (status q) (more q) (next_offset q) (columns q) (body q)
          (S (responses q)).

(** [DEQ_SIZE] is a [size_t]; an [int] compared with it is converted. *)
Definition DEQ_SIZE (l : list qdr_link_t) : Z := Z.of_nat (length l).

(** [link = DEQ_HEAD; for (i = 0; i < offset && link; i++) link = DEQ_NEXT] *)
Definition link_at (offset : Z) (l : list qdr_link_t) : option qdr_link_t :=
  if offset <? 0 then hd_error l else nth_error l (Z.to_nat offset).

(** The link written back in place: the list holds the records
    themselves. *)
Fixpoint replace_link (i : nat) (v : qdr_link_t) (l : list qdr_link_t)
  : list qdr_link_t :=
  match l, i with
  | [], _ => []
  | _ :: rest, O => v :: rest
  | x :: rest, S j => x :: replace_link j v rest
  end.

(** Writing the link found at [offset] and advancing the query:
    qdr_agent_write_link_CT, then qdr_manage_advance_link_CT (lines
    296-305), whose [more] is whether the link has a successor. *)
Definition write_and_advance (core : qdr_core_t) (q : qdr_query_t)
           (offset : Z) (link : qdr_link_t) : qdr_core_t * qdr_query_t :=
  let '(body1, link1) :=
    qdr_agent_write_link_CT (uptime_ticks core) (body q) (columns q)
                            (Some link) in
  let i := Z.to_nat offset in
  let links1 := match link1 with
                | Some l => replace_link i l (open_links core)
                | None => open_links core
                end in
  (mkCore links1 (uptime_ticks core),
   mkQuery (status q)
           (match nth_error (open_links core) (S i) with
            | Some _ => true
            | None => false
            end)
           (next_offset q + 1) (columns q) body1 (responses q)).

(** qdra_link_get_first_CT (lines 308-352) *)
Definition qdra_link_get_first_CT (core : qdr_core_t) (q : qdr_query_t)
           (offset : Z) : qdr_core_t * qdr_query_t :=
  let q1 := mkQuery QD_AMQP_OK (more q) (next_offset q) (columns q) (body q)
                    (responses q) in
  if DEQ_SIZE (open_links core) <=? to_uint64 offset then
    (core,
     qdr_agent_enqueue_response_CT
       (mkQuery (status q1) false (next_offset q1) (columns q1) (body q1)
                (responses q1)))
  else
    match link_at offset (open_links core) with
    | Some link =>
        let q2 := mkQuery (status q1) (more q1) offset (columns q1) (body q1)
                          (responses q1) in
        let '(core1, q3) := write_and_advance core q2 offset link in
        (core1, qdr_agent_enqueue_response_CT q3)
    | None =>
        (core,
         qdr_agent_enqueue_response_CT
           (mkQuery (status q1) false (next_offset q1) (columns q1) (body q1)
                    (responses q1)))
    end.

(** qdra_link_get_next_CT (lines 355-382) *)
Definition qdra_link_get_next_CT (core : qdr_core_t) (q : qdr_query_t)
  : qdr_core_t * qdr_query_t :=
  let link :=
    if to_uint64 (next_offset q) <? DEQ_SIZE (open_links core)
    then link_at (next_offset q) (open_links core)
    else None in
  match link with
  | Some l =>
      let '(core1, q1) := write_and_advance core q (next_offset q) l in
      (core1, qdr_agent_enqueue_response_CT q1)
  | None =>
      (core,
       qdr_agent_enqueue_response_CT
         (mkQuery (status q) false (next_offset q) (columns q) (body q)
                  (responses q)))
  end.

(** The management agent asking for the next row [n] times. *)
Fixpoint get_next_times (n : nat) (core : qdr_core_t) (q : qdr_query_t)
  : qdr_core_t * qdr_query_t :=
  match n with
  | O => (core, q)
  | S n' =>
      let '(core1, q1) := qdra_link_get_next_CT core q in
      get_next_times n' core1 q1
  end.

End Agent.

(** *** Reading a composed field back *)

(** Following the calls from nesting depth [depth] with [count] values
    seen at the top level: the depth and the count at the end, unless a
    list is ended that was not started. *)
Fixpoint scan (depth count : nat) (calls : list compose_call)
  : option (nat * nat) :=
  match calls with
  | [] => Some (depth, count)
  | C_start_list :: rest =>
      scan (S depth) (if Nat.eqb depth 0 then S count else count) rest
  | C_end_list :: rest =>
      match depth with
      | O => None
      | S d => scan d count rest
      end
  | _ :: rest =>
      scan depth (if Nat.eqb depth 0 then S count else count) rest
  end.

(** How many values the calls put at the top level of the field, when
    every list they start is ended. *)
Definition top_level_count (calls : list compose_call) : option nat :=
  match scan 0 0 calls with
  | Some (O, count) => Some count
  | _ => None
  end.

(** The calls put [n] values at the level where they start and end every
    list they start. *)
Definition balanced (n : nat) (calls : list compose_call) : Prop :=
  forall d c,
    scan d c calls = Some (d, if Nat.eqb d 0 then (n + c)%nat else c).

(** A row of the response: the calls of one list with [n] values. *)
Definition is_row (n : nat) (row : list compose_call) : Prop :=
  exists inner,
    row = C_start_list :: inner ++ [C_end_list] /\ balanced n inner.

(** All slots of the rate window are zero. *)
Definition all_zero (slots : list Z) : Prop := Forall (fun v => v = 0) slots.

(** *** Example links *)

Definition example_link (id : Z) : qdr_link_t :=
  mkLink (Some "link"%string) id QD_LINK_ENDPOINT QD_INCOMING None
         (Some "examples"%string) 250 0 0 0 1 QDR_LINK_OPER_UP
         0 0 0 0 0 0 0 0 0 0 (Some [1; 2]) 4 0 0%nat [3; 3; 3; 3; 3] 250 0.

Definition example_core : qdr_core_t :=
  mkCore [example_link 10; example_link 11; example_link 12] 7.

Definition example_query : qdr_query_t :=
  mkQuery 0 false 0
          [QDR_LINK_IDENTITY; QDR_LINK_INGRESS_HISTOGRAM; QDR_LINK_SETTLE_RATE]
          [] 0.

End AgentLink.

(** ** The test receiver (tests/test-receiver.c) *)

Module TestReceiver.
Import Ascii.
Local Open Scope Z_scope.

(** [count += 1] on a [uint64_t]. *)
Definition to_uint64 (z : Z) : Z := z mod 2 ^ 64.

(** The event types the switch of [event_handler] names;
    [PN_EVENT_OTHER] stands for every other one. *)
Inductive pn_event_type_t : Type :=
| PN_CONNECTION_BOUND
| PN_CONNECTION_WAKE
| PN_DELIVERY
| PN_PROACTOR_TIMEOUT
| PN_PROACTOR_INACTIVE
| PN_PROACTOR_INTERRUPT
| PN_EVENT_OTHER.

(** The calls the program makes that act on proton, the process or the
    standard streams, in program order.  The output of [debug], the calls
    that only read a value, and the reads of the drain loop are left
    out. *)
Inductive call : Type :=
| signal_SIG_IGN
| pn_message
| pn_transport_set_max_frame (size : Z)
| pn_connection_open
| pn_session
| pn_session_set_incoming_window_and_lwm (window lwm : Z)
| print_window_failure
| pn_session_open
| pn_receiver
| pn_terminus_set_address (address : string)
| pn_link_open
| pn_link_flow (credit : Z)
| pn_proactor_cancel_timeout
| pn_proactor_set_timeout (msec : Z)
| print_received (count limit : Z)
| pn_link_close
| pn_session_close
| pn_connection_close
| pn_delivery_update_ACCEPTED
| pn_delivery_settle
| pn_connection_wake
| pn_proactor_interrupt.

(** The globals of the program (lines 41-64).  The proton objects are
    kept as whether the pointer is set. *)
Record globals : Type := mkGlobals {
  stop              : bool;
  verbose           : bool;
  in_session_window : Z;
  in_window_lwm     : Z;
  in_max_frame      : Z;
  credit_window     : Z;
  source_address    : string;
  drop_connection   : bool;
  pn_conn           : bool;
  pn_ssn            : bool;
  pn_link           : bool;
  proactor          : bool;
  count             : Z;
  limit             : Z;
  calls             : list call
}.

Definition log (e : call) (g : globals) : globals :=
  mkGlobals (stop g) (verbose g) (in_session_window g) (in_window_lwm g)
            (in_max_frame g) (credit_window g) (source_address g)
            (drop_connection g) (pn_conn g) (pn_ssn g) (pn_link g)
            (proactor g) (count g) (limit g) (calls g ++ [e]).

Definition set_stop (v : bool) (g : globals) : globals :=
  mkGlobals v (verbose g) (in_session_window g) (in_window_lwm g)
            (in_max_frame g) (credit_window g) (source_address g)
            (drop_connection g) (pn_conn g) (pn_ssn g) (pn_link g)
            (proactor g) (count g) (limit g) (calls g).

Definition set_count (v : Z) (g : globals) : globals :=
  mkGlobals (stop g) (verbose g) (in_session_window g) (in_window_lwm g)
            (in_max_frame g) (credit_window g) (source_address g)
            (drop_connection g) (pn_conn g) (pn_ssn g) (pn_link g)
            (proactor g) v (limit g) (calls g).

Definition set_endpoints (conn ssn link : bool) (g : globals) : globals :=
  mkGlobals (stop g) (verbose g) (in_session_window g) (in_window_lwm g)
            (in_max_frame g) (credit_window g) (source_address g)
            (drop_connection g) conn ssn link
            (proactor g) (count g) (limit g) (calls g).

(** What proton answers while one event is handled. *)
Record answers : Type := mkAnswers {
  (** [pn_session(pn_conn)] and [pn_receiver(pn_ssn, ...)] returned an
      object *)
  new_session  : bool;
  new_receiver : bool;
  (** [pn_session_set_incoming_window_and_lwm] *)
  window_rc    : Z;
  (** [pn_delivery_readable(dlv)] *)
  readable     : bool;
  (** the value of [pn_link_recv] that ends the loop
      [do { rc = pn_link_recv(...); } while (rc > 0)] *)
  last_rc      : Z;
  (** [pn_delivery_partial(dlv)] *)
  partial      : bool;
  (** [pn_link_credit(pn_link)] *)
  link_credit  : Z
}.

(** How a call of [event_handler] ends: it returns, or the process ends
    in [exit(0)] or [abort()]. *)
Inductive outcome : Type :=
| Returned (done : bool) (g : globals)
| Exited (g : globals)
| Aborted (g : globals).

Section Handler.

(** [PN_EOS] (proton/error.h) and whether the proton version has
    [pn_session_set_incoming_window_and_lwm]
    ([(PN_VERSION_MAJOR > 0) || (PN_VERSION_MINOR > 39)]). *)
Variable PN_EOS : Z.
Variable has_window_lwm : bool.

(** signal_handler (lines 80-86) *)
Definition signal_handler (g : globals) : globals :=
  let g1 := set_stop true (log signal_SIG_IGN g) in
  if proactor g1 then log pn_proactor_interrupt g1 else g1.

(** [case PN_CONNECTION_BOUND] (lines 97-123) *)
Definition connection_bound (a : answers) (g : globals) : outcome :=
  let g0 := log pn_message g in
  let g1 := if in_max_frame g0 =? 0 then g0
            else log (pn_transport_set_max_frame (in_max_frame g0)) g0 in
  let g2 := log pn_session (log pn_connection_open g1) in
  let g3 := set_endpoints (pn_conn g2) (new_session a) (pn_link g2) g2 in
  let open_link (g4 : globals) : outcome :=
    let g5 := log pn_receiver (log pn_session_open g4) in
    let g6 := set_endpoints (pn_conn g5) (pn_ssn g5) (new_receiver a) g5 in
    let g7 := log (pn_terminus_set_address (source_address g6)) g6 in
    let g8 := log pn_link_open g7 in
    Returned false (log (pn_link_flow (credit_window g8)) g8) in
  if (in_session_window g3 =? 0) || negb has_window_lwm then open_link g3
  else
    let g4 := log (pn_session_set_incoming_window_and_lwm
                     (in_session_window g3) (in_window_lwm g3)) g3 in
    if window_rc a =? 0 then open_link g4
    else Aborted (log print_window_failure g4).

(** [case PN_CONNECTION_WAKE] (lines 125-145) *)
Definition connection_wake (g : globals) : outcome :=
  if stop g then
    let g1 := log pn_proactor_cancel_timeout g in
    if drop_connection g1 then
      Exited (if verbose g1
              then log (print_received (count g1) (limit g1)) g1
              else g1)
    else if pn_conn g1 then
      let g2 := if pn_link g1 then log pn_link_close g1 else g1 in
      let g3 := if pn_ssn g2 then log pn_session_close g2 else g2 in
      let g4 := log pn_connection_close g3 in
      Returned false (set_endpoints false false false g4)
    else Returned false g1
  else Returned false g.

(** [case PN_DELIVERY] (lines 147-185) *)
Definition delivery (a : answers) (g : globals) : outcome :=
  if stop g then Returned false g
  else
    let rx_done :=
      if readable a
      then (last_rc a =? PN_EOS) || (last_rc a <? 0)
      else false in
    if rx_done || negb (partial a) then
      let g1 := set_count (to_uint64 (count g + 1)) g in
      let g2 := log pn_delivery_settle (log pn_delivery_update_ACCEPTED g1) in
      let g3 :=
        if link_credit a <=? Z.quot (credit_window g2) 2
        then log (pn_link_flow (credit_window g2 - link_credit a)) g2
        else g2 in
      if negb (limit g3 =? 0) && (count g3 =? limit g3)
      then Returned false (log pn_connection_wake (set_stop true g3))
      else Returned false g3
    else Returned false g.

(** [case PN_PROACTOR_TIMEOUT] (lines 187-195) *)
Definition proactor_timeout (g : globals) : outcome :=
  if verbose g then
    let g1 := log (print_received (count g) (limit g)) g in
    Returned false
      (if stop g1 then g1 else log (pn_proactor_set_timeout (10 * 1000)) g1)
  else Returned false g.

(** event_handler (lines 91-208) *)
Definition event_handler (type : pn_event_type_t) (a : answers)
           (g : globals) : outcome :=
  match type with
  | PN_CONNECTION_BOUND => connection_bound a g
  | PN_CONNECTION_WAKE => connection_wake g
  | PN_DELIVERY => delivery a g
  | PN_PROACTOR_TIMEOUT => proactor_timeout g
  | PN_PROACTOR_INACTIVE | PN_PROACTOR_INTERRUPT => Returned true g
  | PN_EVENT_OTHER => Returned false g
  end.

(** What happens to the process: an event given to the handler, or a
    signal caught. *)
Inductive step : Type :=
| Event (type : pn_event_type_t) (a : answers)
| Signal.

(** The event loop of [main] (lines 299-315), with the signals caught
    between events: events are handled until the handler says it is done
    or the process ends. *)
Fixpoint run (steps : list step) (g : globals) : outcome :=
  match steps with
  | [] => Returned false g
  | Signal :: rest => run rest (signal_handler g)
  | Event type a :: rest =>
      match event_handler type a g with
      | Returned false g1 => run rest g1
      | o => o
      end
  end.

End Handler.

(** The globals an outcome leaves. *)
Definition final (o : outcome) : globals :=
  match o with
  | Returned _ g => g
  | Exited g => g
  | Aborted g => g
  end.

(** The credit granted by each call of [pn_link_flow], in order. *)
Definition flows (l : list call) : list Z :=
  flat_map (fun e => match e with pn_link_flow n => [n] | _ => [] end) l.

(** How many deliveries were settled. *)
Definition settled (l : list call) : nat :=
  length (filter (fun e => match e with
                           | pn_delivery_settle => true
                           | _ => false
                           end) l).

(** The credit the steps report is not negative. *)
Definition credit_not_negative (s : step) : Prop :=
  match s with
  | Event _ a => 0 <= link_credit a
  | Signal => True
  end.

(** *** The address of the server (main, lines 276-284) *)

(** [strrchr(s, c)], as the text before the last [c] and the text after
    it; [None] where C returns NULL. *)
Fixpoint strrchr (s : string) (c : Ascii.ascii) : option (string * string) :=
  match s with
  | EmptyString => None
  | String a rest =>
      match strrchr rest c with
      | Some (before, after) => Some (String a before, after)
      | None => if Ascii.eqb a c then Some (EmptyString, rest) else None
      end
  end.

(** [host] and [port] as [main] passes them to [pn_proactor_addr]:
    [if (strncmp(host, "amqp://", 7) == 0) host += 7;
     port = strrchr(host, ':');
     if (port) *port++ = 0; else port = "5672";] *)
Definition host_and_port (host_address : string) : string * string :=
  let host :=
    if String.prefix "amqp://" host_address
    then String.substring 7 (String.length host_address - 7)%nat host_address
    else host_address in
  match strrchr host ":"%char with
  | Some (h, port) => (h, port)
  | None => (host, "5672"%string)
  end.

(** The text holds no colon. *)
Fixpoint no_colon (s : string) : bool :=
  match s with
  | EmptyString => true
  | String a rest => negb (Ascii.eqb a ":"%char) && no_colon rest
  end.

(** An example run: a receiver told to stop after two messages. *)
Definition example_globals : globals :=
  mkGlobals false false 0 0 0 1000 "test-address" false true false false
            true 0 2 [].

Definition whole_message : answers :=
  mkAnswers true true 0 true (-1) false 400.

Definition example_steps : list step :=
  [Event PN_CONNECTION_BOUND whole_message;
   Event PN_DELIVERY whole_message;
   Event PN_DELIVERY whole_message;
   Event PN_DELIVERY whole_message;
   Event PN_CONNECTION_WAKE whole_message].

End TestReceiver.

(* ===================================================================== *)
(** * Part II: properties                                                 *)
(* ===================================================================== *)

Unset Implicit Arguments.

(** ** Q2 and Q3 thresholds *)

Module Q2Facts.
Import Limits Q2.

Lemma receive_holdoff (n : nat) (c : content) :
  q2_input_holdoff (receive n c)
  = q2_input_holdoff c
    || (negb (disable_q2_holdoff c) && (QD_QLIMIT_Q2_UPPER <=? buffers c + n)).
Proof.
  unfold receive, _Q2_holdoff_should_block_LH.
  destruct (q2_input_holdoff c) eqn:H; cbn [buffers disable_q2_holdoff orb].
  - exact H.
  - destruct (negb (disable_q2_holdoff c) && _); reflexivity.
Qed.

Lemma consume_calls (n : nat) (c : content) :
  unblocked_calls (consume n c)
  = unblocked_calls c
    + (if q2_input_holdoff c && negb (q2_input_holdoff (consume n c))
       then 1 else 0).
Proof.
  unfold consume; cbn [q2_input_holdoff].
  destruct (q2_input_holdoff c); cbn [andb].
  - destruct (_Q2_holdoff_should_unblock_LH _);
      cbn [unblocked_calls q2_input_holdoff negb]; lia.
  - cbn [unblocked_calls]; lia.
Qed.

Lemma step_calls (o : op) (c : content) :
  unblocked_calls (step o c)
  = unblocked_calls c + (if is_unblock_edge o c then 1 else 0).
Proof.
  unfold is_unblock_edge.
  destruct o as [n | n | ]; cbn [step].
  - unfold receive.
    destruct (q2_input_holdoff c) eqn:H.
    + rewrite H; cbn; lia.
    + cbn [andb]. destruct (_Q2_holdoff_should_block_LH _); cbn; lia.
  - apply consume_calls.
  - unfold qd_message_Q2_holdoff_disable.
    destruct (disable_q2_holdoff c), (q2_input_holdoff c) eqn:H;
      cbn; rewrite ?H; cbn; lia.
Qed.

Lemma run_calls (ops : list op) :
  forall c, unblocked_calls (run ops c)
            = unblocked_calls c + unblock_edges ops c.
Proof.
  induction ops as [| o rest IH]; intro c; cbn [run fold_left unblock_edges].
  - lia.
  - fold (run rest (step o c)). rewrite IH, step_calls. lia.
Qed.

End Q2Facts.

(** C2.  The limits are Q2_UPPER = 64, Q2_LOWER = 32, Q3_UPPER = 256 and
    Q3_LOWER = 128 buffers.  Receiving sets [q2_input_holdoff] exactly when
    the content then holds at least Q2_UPPER buffers, and a content whose
    hold-off is set reads no further input (on the adaptor side, a READ
    event on a Q2-blocked connection changes nothing).  Consumption that
    drains a blocked content below Q2_LOWER clears the hold-off and invokes
    the unblocked handler; over any run the handler has been invoked once
    for every blocked-to-unblocked transition, no more and no less. *)
Theorem q2_q3_thresholds :
  (Limits.QD_QLIMIT_Q2_UPPER = 64 /\ Limits.QD_QLIMIT_Q2_LOWER = 32 /\
   Limits.QD_QLIMIT_Q3_UPPER = 256 /\ Limits.QD_QLIMIT_Q3_LOWER = 128)%nat
  /\ (forall n c,
         Q2.q2_input_holdoff c = false -> Q2.disable_q2_holdoff c = false ->
         (Q2.q2_input_holdoff (Q2.receive n c) = true
          <-> Limits.QD_QLIMIT_Q2_UPPER <= Q2.buffers (Q2.receive n c))%nat)
  /\ (forall n c, Q2.q2_input_holdoff c = true -> Q2.receive n c = c)
  /\ (forall hi hr qp tls c,
         Http2.q2_blocked c = true ->
         Http2.handle_connection_event hi hr qp tls
           Http2.PN_RAW_CONNECTION_READ c = c)
  /\ (forall n c,
         Q2.q2_input_holdoff c = true ->
         (Q2.buffers c - n < Limits.QD_QLIMIT_Q2_LOWER)%nat ->
         Q2.q2_input_holdoff (Q2.consume n c) = false
         /\ Q2.unblocked_calls (Q2.consume n c) = S (Q2.unblocked_calls c))
  /\ (forall n c,
         Q2.q2_input_holdoff c = true -> Q2.disable_q2_holdoff c = false ->
         (Limits.QD_QLIMIT_Q2_LOWER <= Q2.buffers c - n)%nat ->
         Q2.q2_input_holdoff (Q2.consume n c) = true
         /\ Q2.unblocked_calls (Q2.consume n c) = Q2.unblocked_calls c)
  /\ (forall ops c,
         Q2.unblocked_calls (Q2.run ops c)
         = (Q2.unblocked_calls c + Q2.unblock_edges ops c)%nat).
Proof.
  split; [repeat split; reflexivity |].
  split.
  { intros n c Hh Hd. rewrite Q2Facts.receive_holdoff, Hh, Hd.
    cbn [orb negb andb]. unfold Q2.receive, Q2._Q2_holdoff_should_block_LH.
    rewrite Hh. cbn [Q2.buffers Q2.disable_q2_holdoff]. rewrite Hd.
    cbn [negb andb].
    destruct (Limits.QD_QLIMIT_Q2_UPPER <=? Q2.buffers c + n)%nat eqn:E;
      cbn [Q2.buffers].
    - apply Nat.leb_le in E. tauto.
    - apply Nat.leb_gt in E. split; [discriminate | lia]. }
  split.
  { intros n c Hh. unfold Q2.receive. rewrite Hh. reflexivity. }
  split.
  { intros hi hr qp tls c Hb. cbn. rewrite Hb. reflexivity. }
  split.
  { intros n c Hh Hlt. unfold Q2.consume, Q2._Q2_holdoff_should_unblock_LH.
    cbn [Q2.q2_input_holdoff Q2.buffers Q2.disable_q2_holdoff].
    rewrite Hh. apply Nat.ltb_lt in Hlt. rewrite Hlt, orb_true_r.
    cbn. split; reflexivity. }
  split.
  { intros n c Hh Hd Hge. unfold Q2.consume, Q2._Q2_holdoff_should_unblock_LH.
    cbn [Q2.q2_input_holdoff Q2.buffers Q2.disable_q2_holdoff].
    rewrite Hh, Hd. apply Nat.ltb_ge in Hge. rewrite Hge.
    cbn. split; reflexivity. }
  apply Q2Facts.run_calls.
Qed.

(** A run that blocks at 64 buffers, drains to 31 and unblocks once. *)
Lemma q2_q3_thresholds_witness :
  Q2.q2_input_holdoff (Q2.receive 64 Q2.fresh) = true
  /\ Q2.receive 5 (Q2.receive 64 Q2.fresh) = Q2.receive 64 Q2.fresh
  /\ Q2.unblocked_calls (Q2.consume 33 (Q2.receive 64 Q2.fresh)) = 1%nat
  /\ Q2.q2_input_holdoff (Q2.consume 32 (Q2.receive 64 Q2.fresh)) = true
  /\ Http2.handle_connection_event (fun x => x) (fun x => x) (fun x => x)
       (fun x => x) Http2.PN_RAW_CONNECTION_READ
       (Http2.set_q2_blocked true (Http2.new_connection true None []))
     = Http2.set_q2_blocked true (Http2.new_connection true None []).
Proof.
  destruct q2_q3_thresholds as (_ & Hset & Hstop & Hread & Hdrain & Hkeep & _).
  split.
  { apply (proj2 (Hset 64%nat Q2.fresh eq_refl eq_refl)). vm_compute. lia. }
  split.
  { apply (Hstop 5%nat (Q2.receive 64 Q2.fresh)). reflexivity. }
  split.
  { apply (Hdrain 33%nat (Q2.receive 64 Q2.fresh)); [reflexivity |].
    vm_compute. lia. }
  split.
  { apply (Hkeep 32%nat (Q2.receive 64 Q2.fresh));
      [reflexivity | reflexivity | vm_compute; lia]. }
  apply Hread. reflexivity.
Defined.

(** ** Unicast cut-through ring *)

Module CutFacts.
Import Limits Cutthrough.

Section RingFacts.
Variable B : Type.
Local Abbreviation ring := (ring B).

Lemma set_nth_length (i : nat) (v : list B) (l : list (list B)) :
  length (set_nth i v l) = length l.
Proof.
  revert i; induction l as [| x tl IH]; intros [| j]; cbn; auto.
Qed.

Lemma set_slot_fields (i : nat) (v : list B) (r : ring) :
  length (uct_slots (set_slot i v r)) = length (uct_slots r)
  /\ uct_produce_slot (set_slot i v r) = uct_produce_slot r
  /\ uct_consume_slot (set_slot i v r) = uct_consume_slot r
  /\ uct_stalled (set_slot i v r) = uct_stalled r
  /\ resumed_calls (set_slot i v r) = resumed_calls r.
Proof.
  unfold set_slot; cbn. rewrite set_nth_length. tauto.
Qed.

(** The consumer loop touches neither the stall flag nor the producer
    index, and keeps a well-formed ring well formed as long as it is not
    asked to visit more slots than are filled. *)
Lemma consume_slots_ok (fuel : nat) :
  forall limit (r : ring) out,
    ring_ok r -> uct_consume_slot r + fuel <= uct_produce_slot r ->
    let r' := snd (consume_slots fuel limit r out) in
    ring_ok r'
    /\ uct_stalled r' = uct_stalled r
    /\ resumed_calls r' = resumed_calls r
    /\ uct_produce_slot r' = uct_produce_slot r
    /\ uct_consume_slot r <= uct_consume_slot r'.
Proof.
  induction fuel as [| fuel IH]; intros limit r out Hok Hfuel.
  - cbn. repeat split; try apply Hok; auto.
  - cbn [consume_slots].
    destruct (set_slot_fields (uct_consume_slot r)
                (skipn limit (slot_at (uct_consume_slot r) r)) r)
      as (Hl & Hp & Hc & Hs & Hr).
    destruct Hok as (Hlen & Hcp & Hpc).
    destruct (skipn limit (slot_at (uct_consume_slot r) r)) as [| b left] eqn:E.
    + set (r2 := mkRing _ _ _ _ _).
      assert (Hok2 : ring_ok r2).
      { unfold ring_ok, r2; cbn [uct_slots uct_produce_slot uct_consume_slot].
        rewrite Hl, Hp. repeat split; [exact Hlen | lia | lia]. }
      assert (Hfuel2 : uct_consume_slot r2 + fuel <= uct_produce_slot r2).
      { unfold r2; cbn [uct_produce_slot uct_consume_slot]. rewrite Hp. lia. }
      destruct (IH (limit - length (firstn limit (slot_at (uct_consume_slot r) r)))
                   r2 (out ++ firstn limit (slot_at (uct_consume_slot r) r))
                   Hok2 Hfuel2) as (H1 & H2 & H3 & H4 & H5).
      cbn zeta in *. repeat split; try apply H1.
      * rewrite H2. unfold r2; cbn. exact Hs.
      * rewrite H3. unfold r2; cbn. exact Hr.
      * rewrite H4. unfold r2; cbn. exact Hp.
      * change (uct_consume_slot r2) with (S (uct_consume_slot r)) in H5. lia.
    + cbn [snd]. unfold ring_ok. rewrite Hl, Hp, Hc, Hs, Hr.
      repeat split; auto.
Qed.

Lemma step_ok (o : op B) (r : ring) : ring_ok r -> ring_ok (step o r).
Proof.
  intros Hok. destruct o as [bufs | limit | ]; cbn [step].
  - unfold producer_offer, qd_message_can_produce_buffers,
      qd_message_full_slot_count.
    destruct (_ <? _) eqn:E.
    + apply Nat.ltb_lt in E. unfold qd_message_produce_buffers.
      destruct (set_slot_fields (uct_produce_slot r)
                  (slot_at (uct_produce_slot r) r ++ bufs) r)
        as (Hl & Hp & Hc & _).
      destruct Hok as (Hlen & Hcp & Hpc).
      unfold ring_ok; cbn [uct_slots uct_produce_slot uct_consume_slot].
      rewrite Hl, Hc. repeat split; [exact Hlen | lia | lia].
    + exact Hok.
  - unfold qd_message_consume_buffers, qd_message_full_slot_count.
    apply consume_slots_ok; [exact Hok |]. destruct Hok as (_ & Hcp & _). lia.
  - unfold qd_message_resume_from_stalled.
    destruct (_ && _); [| exact Hok]. exact Hok.
Qed.

Lemma run_ok (ops : list (op B)) :
  forall r : ring, ring_ok r -> ring_ok (run ops r).
Proof.
  induction ops as [| o rest IH]; intros r Hok; cbn; [exact Hok |].
  apply IH, step_ok, Hok.
Qed.

Lemma empty_ring_ok : ring_ok (empty_ring B).
Proof. unfold ring_ok, empty_ring, UCT_SLOT_COUNT; cbn. lia. Qed.

Lemma step_resumed (o : op B) (r : ring) :
  ring_ok r ->
  resumed_calls (step o r)
  = resumed_calls r + (if is_unstall_edge o r then 1 else 0).
Proof.
  intros Hok. unfold is_unstall_edge. destruct o as [bufs | limit | ]; cbn [step].
  - unfold producer_offer. destruct (qd_message_can_produce_buffers r).
    + unfold qd_message_produce_buffers.
      cbn [resumed_calls uct_stalled]. unfold set_slot; cbn.
      rewrite andb_negb_r. lia.
    + cbn. rewrite andb_false_r. lia.
  - unfold qd_message_consume_buffers, qd_message_full_slot_count.
    assert (Hfuel : uct_consume_slot r
                    + (uct_produce_slot r - uct_consume_slot r)
                    <= uct_produce_slot r)
      by (destruct Hok as (_ & Hcp & _); lia).
    destruct (consume_slots_ok _ limit r [] Hok Hfuel) as (_ & Hs & Hr & _).
    cbn zeta in *. rewrite Hs, Hr, andb_negb_r. lia.
  - unfold qd_message_resume_from_stalled.
    destruct (uct_stalled r) eqn:Hs; cbn [andb].
    + destruct (_ <=? _); cbn; rewrite ?Hs; cbn; lia.
    + cbn. lia.
Qed.

Lemma run_resumed (ops : list (op B)) :
  forall r : ring,
    ring_ok r ->
    resumed_calls (run ops r) = resumed_calls r + unstall_edges ops r.
Proof.
  induction ops as [| o rest IH]; intros r Hok; cbn [run fold_left unstall_edges].
  - lia.
  - fold (run rest (step o r)).
    rewrite (IH _ (step_ok o r Hok)), (step_resumed o r Hok). lia.
Qed.

End RingFacts.
End CutFacts.

(** C8.  The ring has 8 slots and resume threshold 4.  From the empty ring,
    whatever the producer and the consumer do, the slot array keeps its 8
    entries and the filled count stays between 0 and 8 (the consumer index
    never passes the producer index).  A producer that observes
    [!can_produce] declares a stall; [resume_from_stalled] is true exactly
    when the ring is stalled with filled <= 4, a true result clears the
    stall (so an immediate second call is false), and over any run it has
    been true once for every stall-to-unstall edge. *)
Theorem cut_through_ring (B : Type) :
  (Limits.UCT_SLOT_COUNT = 8 /\ Limits.UCT_RESUME_THRESHOLD = 4
   /\ length (Cutthrough.uct_slots (Cutthrough.empty_ring B)) = 8)%nat
  /\ (forall ops,
         let r := Cutthrough.run ops (Cutthrough.empty_ring B) in
         (length (Cutthrough.uct_slots r) = 8
          /\ Cutthrough.uct_consume_slot r <= Cutthrough.uct_produce_slot r
          /\ 0 <= Cutthrough.qd_message_full_slot_count r <= 8)%nat)
  /\ (forall bufs (r : Cutthrough.ring B),
         Cutthrough.qd_message_can_produce_buffers r = false ->
         Cutthrough.uct_stalled (Cutthrough.producer_offer bufs r) = true)
  /\ (forall r : Cutthrough.ring B,
         fst (Cutthrough.qd_message_resume_from_stalled r) = true
         <-> (Cutthrough.uct_stalled r = true
              /\ Cutthrough.qd_message_full_slot_count r
                 <= Limits.UCT_RESUME_THRESHOLD)%nat)
  /\ (forall r : Cutthrough.ring B,
         fst (Cutthrough.qd_message_resume_from_stalled r) = true ->
         let r' := snd (Cutthrough.qd_message_resume_from_stalled r) in
         Cutthrough.uct_stalled r' = false
         /\ fst (Cutthrough.qd_message_resume_from_stalled r') = false)
  /\ (forall ops,
         let r := Cutthrough.run ops (Cutthrough.empty_ring B) in
         Cutthrough.resumed_calls r
         = Cutthrough.unstall_edges ops (Cutthrough.empty_ring B)).
Proof.
  split; [repeat split; reflexivity |].
  split.
  { intros ops r.
    destruct (CutFacts.run_ok B ops _ (CutFacts.empty_ring_ok B))
      as (Hlen & Hcp & Hpc).
    fold r in Hlen, Hcp, Hpc. unfold Cutthrough.qd_message_full_slot_count.
    unfold Limits.UCT_SLOT_COUNT in *. lia. }
  split.
  { intros bufs r H. unfold Cutthrough.producer_offer. rewrite H. reflexivity. }
  split.
  { intros r. unfold Cutthrough.qd_message_resume_from_stalled.
    destruct (Cutthrough.uct_stalled r); cbn [andb].
    - destruct (_ <=? _)%nat eqn:E; cbn [fst].
      + apply Nat.leb_le in E. tauto.
      + apply Nat.leb_gt in E. split; [discriminate | lia].
    - cbn. split; [discriminate | intros [H _]; discriminate]. }
  split.
  { intros r H r'. subst r'. revert H.
    unfold Cutthrough.qd_message_resume_from_stalled.
    destruct (Cutthrough.uct_stalled r && _) eqn:E; cbn; [| discriminate].
    intros _. split; reflexivity. }
  intros ops r. subst r.
  rewrite (CutFacts.run_resumed B ops _ (CutFacts.empty_ring_ok B)). reflexivity.
Qed.

(** Eight offers fill the ring and the ninth stalls the producer; the
    stalled ring cannot resume while all 8 slots are filled; once four
    slots are drained it resumes, once. *)
Lemma cut_through_ring_witness :
  Cutthrough.uct_stalled
    (Cutthrough.producer_offer [1%nat] Cutthrough.example_full) = true
  /\ (fst (Cutthrough.qd_message_resume_from_stalled
             Cutthrough.example_drained) = true
      <-> (Cutthrough.uct_stalled Cutthrough.example_drained = true
           /\ Cutthrough.qd_message_full_slot_count Cutthrough.example_drained
              <= Limits.UCT_RESUME_THRESHOLD)%nat)
  /\ (Cutthrough.uct_stalled
        (snd (Cutthrough.qd_message_resume_from_stalled
                Cutthrough.example_drained)) = false
      /\ fst (Cutthrough.qd_message_resume_from_stalled
                (snd (Cutthrough.qd_message_resume_from_stalled
                        Cutthrough.example_drained))) = false).
Proof.
  destruct (cut_through_ring nat) as (_ & _ & Hstall & Hiff & Honce & _).
  split.
  { apply Hstall. vm_compute. reflexivity. }
  split.
  { apply Hiff. }
  apply Honce. vm_compute. reflexivity.
Defined.

(** ** The HTTP/2 adaptor: shared facts *)

Module Http2Facts.
Import Http2 Http2Spec.
Local Open Scope Z_scope.

Lemma find_stream_lookup p c : find_stream p c = lookup p (streams c).
Proof. reflexivity. Qed.

Lemma lookup_ptr p l sd : lookup p l = Some sd -> ptr sd = p.
Proof.
  intros H. apply find_some in H. destruct H as [_ H].
  apply Nat.eqb_eq in H. exact H.
Qed.

Lemma lookup_In p l sd : lookup p l = Some sd -> In sd l.
Proof. intros H. apply find_some in H. tauto. Qed.

Lemma lookup_put p sd l :
  lookup p (map (fun x => if Nat.eqb (ptr x) (ptr sd) then sd else x) l)
  = if Nat.eqb (ptr sd) p
    then match lookup p l with Some _ => Some sd | None => None end
    else lookup p l.
Proof.
  unfold lookup. induction l as [| x tl IH]; cbn [map find].
  - destruct (Nat.eqb (ptr sd) p); reflexivity.
  - destruct (Nat.eqb (ptr x) (ptr sd)) eqn:Exs.
    + apply Nat.eqb_eq in Exs. rewrite Exs.
      destruct (Nat.eqb (ptr sd) p) eqn:Esp; [reflexivity |].
      rewrite IH. reflexivity.
    + destruct (Nat.eqb (ptr x) p) eqn:Exp.
      * apply Nat.eqb_eq in Exp. subst p. rewrite Nat.eqb_sym, Exs.
        reflexivity.
      * exact IH.
Qed.

Lemma lookup_remove p q l :
  lookup p (remove_stream q l) = if Nat.eqb q p then None else lookup p l.
Proof.
  unfold lookup, remove_stream. induction l as [| x tl IH]; cbn [filter find].
  - destruct (Nat.eqb q p); reflexivity.
  - destruct (Nat.eqb (ptr x) q) eqn:Exq; cbn [negb].
    + apply Nat.eqb_eq in Exq. rewrite IH. subst q.
      destruct (Nat.eqb (ptr x) p); reflexivity.
    + cbn [find]. destruct (Nat.eqb (ptr x) p) eqn:Exp.
      * apply Nat.eqb_eq in Exp. subst p. rewrite Nat.eqb_sym, Exq.
        reflexivity.
      * exact IH.
Qed.

Lemma status_le_refl s : status_le s s.
Proof. unfold status_le; lia. Qed.

Lemma status_le_trans a b c : status_le a b -> status_le b c -> status_le a c.
Proof. unfold status_le; lia. Qed.

Lemma stream_evolves_refl a : stream_evolves a a.
Proof. repeat split; auto using status_le_refl. Qed.

Lemma stream_evolves_trans a b c :
  stream_evolves a b -> stream_evolves b c -> stream_evolves a c.
Proof.
  intros (H1 & H2 & H3) (H4 & H5 & H6). repeat split.
  - congruence.
  - eauto using status_le_trans.
  - intros H. rewrite <- (H3 H). apply H6. rewrite (H3 H). exact H.
Qed.

Lemma streams_evolve_refl l : streams_evolve l l.
Proof. intros p b H. exists b. split; [exact H | apply stream_evolves_refl]. Qed.

Lemma streams_evolve_trans l1 l2 l3 :
  streams_evolve l1 l2 -> streams_evolve l2 l3 -> streams_evolve l1 l3.
Proof.
  intros H12 H23 p c Hc. destruct (H23 p c Hc) as (b & Hb & Hbc).
  destruct (H12 p b Hb) as (a & Ha & Hab). exists a.
  split; [exact Ha | eapply stream_evolves_trans; eauto].
Qed.

Lemma streams_evolve_put l a b :
  lookup (ptr a) l = Some a -> stream_evolves a b ->
  streams_evolve l (map (fun x => if Nat.eqb (ptr x) (ptr b) then b else x) l).
Proof.
  intros Ha Hab p s Hs. rewrite lookup_put in Hs.
  destruct (Nat.eqb (ptr b) p) eqn:E.
  - apply Nat.eqb_eq in E. destruct Hab as (Hp & Hrest). subst p.
    rewrite Hp, Ha in Hs. inversion Hs; subst s. exists a.
    rewrite Hp. split; [exact Ha | repeat split; tauto].
  - exists s. split; [exact Hs | apply stream_evolves_refl].
Qed.

Lemma streams_evolve_remove l q : streams_evolve l (remove_stream q l).
Proof.
  intros p s Hs. rewrite lookup_remove in Hs.
  destruct (Nat.eqb q p); [discriminate |].
  exists s. split; [exact Hs | apply stream_evolves_refl].
Qed.

(** *** Counting deliveries in a trace *)
Lemma deliveries_created_app p t1 t2 :
  deliveries_created p (t1 ++ t2)
  = (deliveries_created p t1 + deliveries_created p t2)%nat.
Proof.
  unfold deliveries_created. rewrite filter_app, length_app. reflexivity.
Qed.

Ltac break_ifs :=
  repeat match goal with
         | |- context [if ?b then _ else _] => destruct b eqn:?
         | |- context [match ?x with Some _ => _ | None => _ end] =>
             destruct x eqn:?
         end.

Lemma compose_header_and_props_frame q2 c sd rc c1 sd1 :
  compose_header_and_props q2 c sd rc = Some (c1, sd1) ->
  same_routing sd sd1 /\ same_conn c c1.
Proof.
  unfold compose_header_and_props, append_body_buffers, take_footer,
    compose_3, propagate_q2, qd_message_stream_data_append.
  cbn.
  break_ifs; intros H; inversion H; subst; clear H;
    (split; repeat split; reflexivity).
Qed.

Lemma compose_and_deliver_spec q2 c sd rc b c' sd' :
  compose_and_deliver q2 c sd rc = (b, c', sd') -> routed c sd b c' sd'.
Proof.
  unfold compose_and_deliver, routed.
  destruct (negb (header_and_props_composed sd)) eqn:Hc.
  - destruct (compose_header_and_props q2 c sd rc) as [[c1 sd1] |] eqn:Hh.
    + destruct (compose_header_and_props_frame _ _ _ _ _ _ Hh)
        as ((P1 & P2 & P3 & P4 & P5 & P6 & P7 & P8 & P9) & (Q1 & Q2 & Q3 & Q4)).
      rewrite P4, P6.
      destruct (negb (is_some (in_dlv sd)) && (0 <? in_link_credit sd)) eqn:Hd;
        intros H; inversion H; subst; clear H; cbn.
      * apply andb_prop in Hd. destruct Hd as [Hd1 Hd2].
        apply Z.ltb_lt in Hd2. destruct (in_dlv sd); [discriminate |].
        unfold deliver_events. rewrite Q2, Q3, P1, P5, <- app_assoc.
        repeat split; auto.
      * repeat split; auto.
    + intros H; inversion H; subst; clear H; cbn. repeat split; reflexivity.
  - destruct (negb (is_some (in_dlv sd)) && (0 <? in_link_credit sd)) eqn:Hd;
      intros H; inversion H; subst; clear H; cbn.
    + apply andb_prop in Hd. destruct Hd as [Hd1 Hd2].
      apply Z.ltb_lt in Hd2. destruct (in_dlv sd); [discriminate |].
      unfold deliver_events. rewrite <- app_assoc. repeat split; auto.
    + repeat split; auto.
Qed.

Lemma route_delivery_spec q2 c sd rc b c' sd' :
  route_delivery q2 c sd rc = (b, c', sd') ->
  routed c sd b c' sd'
  /\ (b = true ->
      entire_header_arrived sd = true
      /\ (ingress c = true -> reply_to sd <> None)).
Proof.
  unfold route_delivery.
  assert (Hno : forall x y, (false, c, sd) = (b, x, y) ->
                            routed c sd b x y /\ (b = true -> 
                              entire_header_arrived sd = true
                              /\ (ingress c = true -> reply_to sd <> None))).
  { intros x y H; inversion H; subst. split; [| discriminate].
    unfold routed. repeat split; reflexivity. }
  destruct (is_some (in_dlv sd)); [apply Hno |].
  destruct (ingress c) eqn:Hi.
  - destruct (is_some (reply_to sd) && entire_header_arrived sd
              && negb false) eqn:Hg; [| apply Hno].
    intros H. split; [eapply compose_and_deliver_spec; eauto |].
    intros _. apply andb_prop in Hg. destruct Hg as [Hg _].
    apply andb_prop in Hg. destruct Hg as [Hr He].
    split; [exact He |]. intros _. destruct (reply_to sd); [discriminate |].
    discriminate.
  - destruct (entire_header_arrived sd && negb false) eqn:Hg; [| apply Hno].
    intros H. split; [eapply compose_and_deliver_spec; eauto |].
    intros _. apply andb_prop in Hg. destruct Hg as [He _].
    split; [exact He | discriminate].
Qed.

Lemma grows_refl P c : grows P c c.
Proof.
  split; [exists []; rewrite app_nil_r; auto | repeat split; reflexivity].
Qed.

Lemma grows_trans P c1 c2 c3 : grows P c1 c2 -> grows P c2 c3 -> grows P c1 c3.
Proof.
  intros ((n1 & T1 & F1) & A1 & A2 & A3 & A4 & A5 & A6)
         ((n2 & T2 & F2) & B1 & B2 & B3 & B4 & B5 & B6).
  split.
  - exists (n1 ++ n2). rewrite T2, T1, app_assoc. split; [reflexivity |].
    apply Forall_app; auto.
  - repeat split; congruence.
Qed.

Lemma grows_log (P : event -> Prop) e c : P e -> grows P c (log e c).
Proof.
  intros H. split; [exists [e]; split; [reflexivity | auto] |].
  repeat split; reflexivity.
Qed.

Lemma grows_weaken (P Q : event -> Prop) c c' :
  (forall e, P e -> Q e) -> grows P c c' -> grows Q c c'.
Proof.
  intros HPQ ((n & T & F) & A). split; [| exact A].
  exists n. split; [exact T |]. eapply Forall_impl; eauto.
Qed.

Lemma grows_log_release (P : event -> Prop) w c :
  (forall x, P (E_qd_message_stream_data_release x)) ->
  grows P c (log_release w c).
Proof.
  intros H. destruct w; cbn; [apply grows_log, H | apply grows_refl].
Qed.

Lemma grows_log_detach (P : event -> Prop) l c :
  (forall x, P (E_qdr_link_detach x)) -> grows P c (log_detach l c).
Proof.
  intros H. destruct l; cbn; [| apply grows_refl].
  destruct (is_some (qdr_conn c)); [apply grows_log, H | apply grows_refl].
Qed.

Lemma streams_log e c : streams (log e c) = streams c.
Proof. reflexivity. Qed.

Lemma streams_log_release w c : streams (log_release w c) = streams c.
Proof. destruct w; reflexivity. Qed.

Lemma streams_log_detach l c : streams (log_detach l c) = streams c.
Proof. destruct l; cbn; [destruct (is_some (qdr_conn c)) |]; reflexivity. Qed.

Lemma remove_stream_nil p l : length l = 0%nat -> remove_stream p l = l.
Proof. destruct l; [reflexivity | discriminate]. Qed.

Lemma free_http2_stream_data_spec c sd on_shutdown :
  let c' := free_http2_stream_data c sd on_shutdown in
  streams c' = remove_stream (ptr sd) (streams c)
  /\ grows (fun e => housekeeping (ptr sd) e = true) c c'
  /\ exists new, trace c' = trace c ++ new
                 /\ In (E_free_stream_data (ptr sd)) new.
Proof.
  set (P := fun e => housekeeping (ptr sd) e = true).
  assert (Hrel : forall x, P (E_qd_message_stream_data_release x))
    by reflexivity.
  assert (Hdet : forall x, P (E_qdr_link_detach x)) by reflexivity.
  assert (Hdec : forall x, P (E_qdr_delivery_decref x)) by reflexivity.
  assert (Hself : forall f : nat -> event,
             housekeeping (ptr sd) (f (ptr sd)) = true -> P (f (ptr sd)))
    by (intros f H; exact H).
  unfold free_http2_stream_data.
  set (c1 := log (E_http_record_request (ptr sd)) c).
  set (c2 := if on_shutdown then c1 else _).
  set (c3 := if (0 <? length (streams c2))%nat then _ else c2).
  set (c4 := if negb (is_some (in_dlv sd)) then _ else c3).
  assert (G1 : grows P c c1).
  { apply grows_log. unfold P; cbn. apply Nat.eqb_refl. }
  assert (S2 : streams c2 = streams c).
  { unfold c2. destruct on_shutdown; [reflexivity |].
    rewrite !streams_log_detach. reflexivity. }
  assert (G2 : grows P c1 c2).
  { unfold c2. destruct on_shutdown; [apply grows_refl |].
    eapply grows_trans; apply grows_log_detach; exact Hdet. }
  assert (S3 : streams c3 = remove_stream (ptr sd) (streams c)).
  { unfold c3. destruct (0 <? length (streams c2))%nat eqn:E.
    - cbn. rewrite S2. reflexivity.
    - apply Nat.ltb_ge in E. rewrite S2 in *.
      rewrite remove_stream_nil; [reflexivity | lia]. }
  assert (G3 : grows P c2 c3).
  { unfold c3. destruct (0 <? length (streams c2))%nat; [| apply grows_refl].
    split; [exists [E_nghttp2_session_set_stream_user_data (stream_id sd) None];
            split; [reflexivity | repeat constructor] |].
    repeat split; reflexivity. }
  assert (S4 : streams c4 = streams c3).
  { unfold c4. destruct (negb (is_some (in_dlv sd))); reflexivity. }
  assert (G4 : grows P c3 c4).
  { unfold c4. destruct (negb (is_some (in_dlv sd))); [| apply grows_refl].
    apply grows_log. unfold P; cbn. apply Nat.eqb_refl. }
  match goal with
  | |- context [let '(a, b) := ?X in _] => destruct X as [c5 sd5] eqn:E5
  end.
  assert (S5 : streams c5 = streams c4 /\ grows P c4 c5).
  { destruct (in_dlv sd) as [d |]; [| inversion E5; subst; split;
                                      [reflexivity | apply grows_refl]].
    destruct (negb (in_dlv_decrefed sd));
      inversion E5; subst; clear E5;
      [| split; [reflexivity | apply grows_refl]].
    split.
    - cbn. rewrite !streams_log_release. reflexivity.
    - eapply grows_trans; [apply grows_log_release; exact Hrel |].
      eapply grows_trans; [apply grows_log_release; exact Hrel |].
      apply grows_log, Hdec. }
  destruct S5 as [S5 G5].
  match goal with
  | |- context [log (E_free_stream_data (ptr sd)) ?X] => set (c6 := X)
  end.
  assert (S6 : streams c6 = streams c5 /\ grows P c5 c6).
  { unfold c6. destruct (out_dlv sd5) as [d |];
      [| split; [reflexivity | apply grows_refl]].
    destruct (negb (out_dlv_decrefed sd5));
      [| split; [reflexivity | apply grows_refl]].
    split.
    - cbn. rewrite !streams_log_release. reflexivity.
    - eapply grows_trans; [apply grows_log_release; exact Hrel |].
      eapply grows_trans; [apply grows_log_release; exact Hrel |].
      apply grows_log, Hdec. }
  destruct S6 as [S6 G6].
  cbv zeta. split; [| split].
  - cbn. rewrite S6, S5, S4, S3. reflexivity.
  - eapply grows_trans; [exact G1 |]. eapply grows_trans; [exact G2 |].
    eapply grows_trans; [exact G3 |]. eapply grows_trans; [exact G4 |].
    eapply grows_trans; [exact G5 |]. eapply grows_trans; [exact G6 |].
    apply grows_log. unfold P; cbn. apply Nat.eqb_refl.
  - assert (G : grows P c c6).
    { eapply grows_trans; [exact G1 |]. eapply grows_trans; [exact G2 |].
      eapply grows_trans; [exact G3 |]. eapply grows_trans; [exact G4 |].
      eapply grows_trans; [exact G5 |]. exact G6. }
    destruct G as ((n & Hn & _) & _).
    exists (n ++ [E_free_stream_data (ptr sd)]). split.
    + cbn. rewrite Hn, app_assoc. reflexivity.
    + apply in_or_app. right. left. reflexivity.
Qed.

Lemma housekeeping_nondeliver p e : housekeeping p e = true -> nondeliver e.
Proof. destruct e; cbn; try discriminate; intros _ q; reflexivity. Qed.

Lemma step_ok_refl c : step_ok c c.
Proof.
  split; [apply streams_evolve_refl |].
  exists []. rewrite app_nil_r. split; [reflexivity | left; constructor].
Qed.

Lemma step_ok_quiet c c' :
  streams_evolve (streams c) (streams c') ->
  (exists new, trace c' = trace c ++ new /\ Forall nondeliver new) ->
  step_ok c c'.
Proof.
  intros Hs (new & Ht & Hf). split; [exact Hs |].
  exists new. split; [exact Ht | left; exact Hf].
Qed.

Lemma streams_put_stream sd c :
  streams (put_stream sd c)
  = map (fun x => if Nat.eqb (ptr x) (ptr sd) then sd else x) (streams c).
Proof. reflexivity. Qed.

Lemma trace_put_stream sd c : trace (put_stream sd c) = trace c.
Proof. reflexivity. Qed.

Lemma put_stream_evolves c c1 a b :
  streams c1 = streams c -> lookup (ptr a) (streams c) = Some a ->
  stream_evolves a b ->
  streams_evolve (streams c) (streams (put_stream b c1)).
Proof.
  intros Hs Ha Hab. rewrite streams_put_stream, Hs.
  apply streams_evolve_put with (a := a); assumption.
Qed.

Lemma lookup_self p l sd : lookup p l = Some sd -> lookup (ptr sd) l = Some sd.
Proof. intros H. rewrite (lookup_ptr _ _ _ H). exact H. Qed.

(** A callback that calls [route_delivery] once on the stream it was given,
    with calls before ([pre]) and after ([post]) that deliver nothing. *)
Lemma step_ok_routed q2 c c1 sd0 sd rc b c2 sd2 sd3 c' pre post :
  lookup (ptr sd0) (streams c) = Some sd0 ->
  stream_evolves sd0 sd -> in_dlv sd = in_dlv sd0 ->
  streams c1 = streams c -> trace c1 = trace c ++ pre ->
  Forall nondeliver pre ->
  route_delivery q2 c1 sd rc = (b, c2, sd2) ->
  ptr sd3 = ptr sd2 -> status_le (status sd2) (status sd3) ->
  in_dlv sd3 = in_dlv sd2 ->
  streams c' = streams (put_stream sd3 c2) ->
  trace c' = trace c2 ++ post -> Forall nondeliver post ->
  step_ok c c'.
Proof.
  intros Hl Hev Hin Hs1 Ht1 Hpre Hr Hp3 Hst3 Hin3 Hs' Ht' Hpost.
  destruct (route_delivery_spec _ _ _ _ _ _ _ Hr)
    as ((R1 & R2 & R3 & R4 & R5 & R6 & R7) & _).
  destruct Hev as (E1 & E2 & E3).
  assert (Hev3 : stream_evolves sd0 sd3).
  { repeat split.
    - congruence.
    - eapply status_le_trans; [exact E2 |]. rewrite <- R2. exact Hst3.
    - intros Hsome. rewrite Hin3. destruct b.
      + destruct R7 as (Hnone & _). rewrite Hin in Hnone.
        rewrite Hnone in Hsome. discriminate.
      + destruct R7 as (Hsame & _). congruence. }
  assert (Hstreams : streams_evolve (streams c) (streams c')).
  { rewrite Hs'. apply put_stream_evolves with (a := sd0); auto. congruence. }
  split; [exact Hstreams |].
  destruct b.
  - destruct R7 as (Hnone & Hcred & Hcred' & Hsome & Htr).
    exists (pre ++ deliver_events sd (next_delivery c1) ++ post).
    split.
    { rewrite Ht', Htr, Ht1, <- !app_assoc. reflexivity. }
    right. exists pre, (in_link sd), (next_delivery c1), (ptr sd),
             (E_qdr_delivery_set_context (next_delivery c1) (Some (ptr sd))
              :: post), sd0, sd3.
    repeat split; auto.
    + constructor; [intro; reflexivity | exact Hpost].
    + rewrite E1. exact Hl.
    + congruence.
    + rewrite Hs', streams_put_stream, R5, Hs1, lookup_put.
      replace (ptr sd3) with (ptr sd) by congruence.
      rewrite Nat.eqb_refl, E1, Hl. reflexivity.
    + rewrite Hin3, Hsome. discriminate.
  - destruct R7 as (_ & _ & Htr).
    exists (pre ++ post). split.
    { rewrite Ht', Htr, Ht1, <- app_assoc. reflexivity. }
    left. apply Forall_app; auto.
Qed.

(** **** on_data_chunk_recv_callback *)
Lemma on_data_chunk_step_ok q2 c sd_ptr data :
  step_ok c (on_data_chunk_recv_callback q2 c sd_ptr data).
Proof.
  unfold on_data_chunk_recv_callback.
  destruct (negb (is_some (pn_raw_conn c))); [apply step_ok_refl |].
  destruct sd_ptr as [p |]; [| apply step_ok_refl].
  destruct (find_stream p c) as [sd |] eqn:Hf; [| apply step_ok_refl].
  destruct (stream_force_closed sd); [apply step_ok_refl |].
  match goal with
  | |- context [let '(a, b) := ?X in _] => destruct X as [c2 sd2] eqn:E
  end.
  assert (H : streams c2 = streams c /\ trace c2 = trace c
              /\ stream_evolves sd sd2).
  { revert E. unfold append_body_buffers, propagate_q2,
                qd_message_stream_data_append. cbn.
    break_ifs; intros E; inversion E; subst; clear E;
      (split; [reflexivity | split; [reflexivity |]]);
      repeat split; cbn; auto using status_le_refl. }
  destruct H as (Hs & Ht & Hev).
  apply step_ok_quiet.
  - cbn [log set_trace streams]. 
    apply put_stream_evolves with (a := sd); auto.
    eapply lookup_self; exact Hf.
  - exists [E_nghttp2_session_send]. cbn. rewrite Ht.
    split; [reflexivity |]. constructor; [intro; reflexivity | constructor].
Qed.

(** **** qdr_http_flow and qdr_http_second_attach *)
Lemma qdr_http_flow_step_ok q2 c sd_ptr credit :
  step_ok c (qdr_http_flow q2 c sd_ptr credit).
Proof.
  unfold qdr_http_flow.
  destruct (0 <? credit); [| apply step_ok_refl].
  destruct sd_ptr as [p |]; [| apply step_ok_refl].
  destruct (find_stream p c) as [sd |] eqn:Hf; [| apply step_ok_refl].
  pose proof (lookup_self _ _ _ Hf) as Hl.
  set (sd1 := set_in_link_credit (in_link_credit sd + credit) sd).
  assert (Hev : stream_evolves sd sd1)
    by (repeat split; cbn; auto using status_le_refl).
  destruct (negb (is_some (in_dlv sd1))).
  - destruct (route_delivery q2 c sd1 _) as [[b c1] sd2] eqn:Hr.
    eapply step_ok_routed with (pre := []) (post := []) (sd3 := sd2);
      try exact Hr; try exact Hl; try exact Hev; try reflexivity;
      auto using status_le_refl.
    + rewrite app_nil_r; reflexivity.
    + rewrite app_nil_r; reflexivity.
  - apply step_ok_quiet.
    + apply put_stream_evolves with (a := sd); auto.
    + exists []. cbn. rewrite app_nil_r. split; [reflexivity | constructor].
Qed.

Lemma qdr_http_second_attach_step_ok q2 c sd_ptr outgoing_dynamic address :
  step_ok c (qdr_http_second_attach q2 c sd_ptr outgoing_dynamic address).
Proof.
  unfold qdr_http_second_attach.
  destruct sd_ptr as [p |]; [| apply step_ok_refl].
  destruct (find_stream p c) as [sd |] eqn:Hf; [| apply step_ok_refl].
  pose proof (lookup_self _ _ _ Hf) as Hl.
  destruct outgoing_dynamic; [| apply step_ok_refl].
  destruct (ingress c).
  - set (sd1 := set_reply_to (Some address) sd).
    assert (Hev : stream_evolves sd sd1)
      by (repeat split; cbn; auto using status_le_refl).
    destruct (route_delivery q2 c sd1 _) as [[b c1] sd2] eqn:Hr.
    eapply step_ok_routed with (pre := [])
                               (post := [E_qdr_link_flow DEFAULT_CAPACITY])
                               (sd3 := sd2);
      try exact Hr; try exact Hl; try exact Hev; try reflexivity;
      auto using status_le_refl.
    + rewrite app_nil_r; reflexivity.
    + constructor; [intro; reflexivity | constructor].
  - apply step_ok_quiet; [apply streams_evolve_refl |].
    exists [E_qdr_link_flow DEFAULT_CAPACITY]. split; [reflexivity |].
    constructor; [intro; reflexivity | constructor].
Qed.

Lemma housekeeping_frees_only p ps e :
  In p ps -> housekeeping p e = true -> frees_only ps e.
Proof.
  intros Hin H. split; [eapply housekeeping_nondeliver; eauto |].
  destruct e; cbn in H; try discriminate; repeat split;
    try reflexivity; try (intros q Hq; discriminate).
  intros q Hq. inversion Hq; subst. apply Nat.eqb_eq in H. subst. exact Hin.
Qed.

Lemma frees_only_mono ps ps' e :
  (forall p, In p ps -> In p ps') -> frees_only ps e -> frees_only ps' e.
Proof.
  intros Hsub (H1 & H2 & H3 & H4). repeat split; auto.
Qed.

Lemma remove_stream_filter p f l :
  remove_stream p (filter f l) = filter f (remove_stream p l).
Proof.
  unfold remove_stream. induction l as [| x tl IH]; cbn; [reflexivity |].
  destruct (f x) eqn:Ef; cbn;
    destruct (negb (Nat.eqb (ptr x) p)) eqn:En; cbn;
    rewrite ?Ef, ?IH; reflexivity.
Qed.

Lemma filter_twice {A : Type} (f g : A -> bool) (l : list A) :
  filter f (filter g l) = filter (fun x => g x && f x) l.
Proof.
  induction l as [| x tl IH]; cbn; [reflexivity |].
  destruct (g x); cbn; [destruct (f x) |]; rewrite IH; reflexivity.
Qed.

Lemma free_unprocessed_loop_spec todo last_stream_id :
  forall c,
    let c' := free_unprocessed_loop todo last_stream_id c in
    let ps := unprocessed_ptrs todo last_stream_id in
    streams c'
    = filter (fun x => negb (existsb (Nat.eqb (ptr x)) ps)) (streams c)
    /\ grows (frees_only ps) c c'
    /\ exists new, trace c' = trace c ++ new
                   /\ forall p, In p ps -> In (E_free_stream_data p) new.
Proof.
  induction todo as [| sd rest IH]; intros c; cbn [free_unprocessed_loop].
  - cbv zeta. unfold unprocessed_ptrs; cbn. split; [| split].
    + induction (streams c) as [| x tl IHl]; cbn; [| rewrite <- IHl];
        reflexivity.
    + apply grows_refl.
    + exists []. rewrite app_nil_r. split; [reflexivity | intros p []].
  - unfold unprocessed_ptrs. cbn [filter].
    destruct (last_stream_id <? stream_id sd) eqn:E.
    + fold (unprocessed_ptrs rest last_stream_id).
      destruct (free_http2_stream_data_spec c sd false)
        as (Hs & Hg & (n1 & Hn1 & Hin1)).
      destruct (IH (free_http2_stream_data c sd false)) as (IHs & IHg & IHn).
      cbv zeta in *. cbn [map]. split; [| split].
      * rewrite IHs, Hs. unfold remove_stream. rewrite filter_twice.
        apply filter_ext. intros x. cbn [existsb].
        rewrite negb_orb, (Nat.eqb_sym (ptr x) (ptr sd)). reflexivity.
      * eapply grows_trans.
        -- eapply grows_weaken; [| exact Hg]. intros e He.
           eapply housekeeping_frees_only; [left; reflexivity | exact He].
        -- eapply grows_weaken; [| exact IHg]. intros e He.
           eapply frees_only_mono; [| exact He]. intros p Hp. right; exact Hp.
      * destruct IHn as (n2 & Hn2 & Hin2).
        exists (n1 ++ n2). split; [rewrite Hn2, Hn1, app_assoc; reflexivity |].
        intros p [Hp | Hp].
        -- subst p. apply in_or_app. left. exact Hin1.
        -- apply in_or_app. right. apply Hin2, Hp.
    + apply IH.
Qed.

(** **** on_frame_recv_callback *)
Lemma advance_stream_status_evolves sd :
  ptr (advance_stream_status sd) = ptr sd
  /\ in_dlv (advance_stream_status sd) = in_dlv sd
  /\ stream_id (advance_stream_status sd) = stream_id sd
  /\ stream_force_closed (advance_stream_status sd) = stream_force_closed sd
  /\ status_le (status sd) (status (advance_stream_status sd)).
Proof.
  unfold advance_stream_status, status_le.
  destruct (status sd) eqn:E; cbn; rewrite ?E; cbn; repeat split; lia.
Qed.

Lemma free_unprocessed_loop_evolves todo last_stream_id :
  forall c, streams_evolve (streams c)
              (streams (free_unprocessed_loop todo last_stream_id c)).
Proof.
  induction todo as [| sd rest IH]; intros c; cbn [free_unprocessed_loop].
  - apply streams_evolve_refl.
  - destruct (last_stream_id <? stream_id sd); [| apply IH].
    eapply streams_evolve_trans; [| apply IH].
    destruct (free_http2_stream_data_spec c sd false) as (Hs & _).
    cbv zeta in Hs. rewrite Hs. apply streams_evolve_remove.
Qed.

Lemma grows_new (P : event -> Prop) c c' :
  grows P c c' -> exists new, trace c' = trace c ++ new /\ Forall P new.
Proof. intros (H & _). exact H. Qed.

Lemma frees_only_nondeliver ps e : frees_only ps e -> nondeliver e.
Proof. intros (H & _). exact H. Qed.

Lemma update_remote_state_when_closed_spec c sd c' sd' :
  update_remote_state_when_closed c sd = (c', sd') ->
  streams c' = streams c /\ grows nondeliver c c'
  /\ ptr sd' = ptr sd /\ status sd' = status sd /\ in_dlv sd' = in_dlv sd.
Proof.
  unfold update_remote_state_when_closed.
  destruct (out_dlv sd) as [d |].
  - destruct (negb (disp_updated sd) && negb (out_dlv_decrefed sd)
              && status_eqb (status sd) QD_STREAM_FULLY_CLOSED);
      intros H; inversion H; subst; clear H;
      (split; [reflexivity |]); (split; [| repeat split; reflexivity]).
    + apply grows_log. intro; reflexivity.
    + apply grows_refl.
  - intros H; inversion H; subst; clear H.
    split; [reflexivity |]. split; [apply grows_refl | repeat split; reflexivity].
Qed.

Lemma step_ok_grows c c' :
  streams_evolve (streams c) (streams c') -> grows nondeliver c c' ->
  step_ok c c'.
Proof.
  intros Hs Hg. apply step_ok_quiet; [exact Hs | eapply grows_new; exact Hg].
Qed.

Lemma grows_put_stream (P : event -> Prop) sd c c' :
  grows P c c' -> grows P c (put_stream sd c').
Proof.
  intros ((n & Hn & Hf) & A). split; [exists n; split; [exact Hn | exact Hf] |].
  exact A.
Qed.

Lemma on_frame_recv_HEADERS_step_ok q2 c sd flags :
  lookup (ptr sd) (streams c) = Some sd ->
  step_ok c (on_frame_recv_HEADERS q2 c sd flags).
Proof.
  intros Hl. unfold on_frame_recv_HEADERS.
  destruct (flag_set flags NGHTTP2_FLAG_END_HEADERS); [| apply step_ok_refl].
  set (sd1 := set_entire_header_arrived true sd).
  set (sd2 := if use_footer_properties sd1 then _ else _).
  assert (H2 : ptr sd2 = ptr sd /\ status sd2 = status sd
               /\ in_dlv sd2 = in_dlv sd).
  { unfold sd2. destruct (use_footer_properties sd1); repeat split; reflexivity. }
  destruct H2 as (P2 & T2 & D2).
  match goal with
  | |- context [let '(a, b) := ?X in let '(a', b') := _ in _] =>
      destruct X as [sd3 rc] eqn:E3
  end.
  assert (Hev : stream_evolves sd sd3 /\ in_dlv sd3 = in_dlv sd).
  { destruct (flag_set flags NGHTTP2_FLAG_END_STREAM);
      inversion E3; subst; clear E3.
    - match goal with
      | |- context [advance_stream_status ?X] =>
          destruct (advance_stream_status_evolves X) as (A1 & A2 & _ & _ & A3)
      end.
      cbn in A1, A2, A3. split; [repeat split |]; try congruence.
      all: try (rewrite <- T2; exact A3).
    - split; [repeat split |]; try congruence.
      all: try (rewrite T2; apply status_le_refl). }
  destruct Hev as (Hev & D3).
  match goal with
  | |- context [let '(a, b) := ?X in _] => destruct X as [c4 sd4] eqn:E4
  end.
  destruct (update_remote_state_when_closed c4 sd4) as [c5 sd5] eqn:E5.
  destruct (update_remote_state_when_closed_spec _ _ _ _ E5)
    as (S5 & G5 & P5 & T5 & D5).
  destruct (grows_new _ _ _ G5) as (post & Hpost & Fpost).
  assert (Hrouted : forall b c' sd',
             route_delivery q2 c sd3 rc = (b, c', sd') ->
             (c', sd') = (c4, sd4) ->
             step_ok c (put_stream sd5 c5)).
  { intros b c' sd' Hr Heq. inversion Heq; subst c' sd'.
    eapply step_ok_routed with (pre := []) (post := post) (sd3 := sd5);
      try exact Hr; try exact Hl; try exact Hev; auto.
    - rewrite app_nil_r; reflexivity.
    - rewrite T5. apply status_le_refl.
    - rewrite !streams_put_stream, S5. reflexivity. }
  destruct (entire_footer_arrived sd3).
  - destruct (in_dlv sd3) as [d |] eqn:Hd.
    + inversion E4; subst c4 sd4; clear E4.
      apply step_ok_grows.
      * apply put_stream_evolves with (a := sd); auto.
        eapply stream_evolves_trans; [exact Hev |].
        repeat split; [exact P5 | rewrite T5; apply status_le_refl |].
        intros _. exact D5.
      * apply grows_put_stream. eapply grows_trans; [| exact G5].
        apply grows_log. intro; reflexivity.
    + destruct (route_delivery q2 c sd3 rc) as [[b c'] sd'] eqn:Hr.
      eapply Hrouted; eauto.
  - destruct (route_delivery q2 c sd3 rc) as [[b c'] sd'] eqn:Hr.
    eapply Hrouted; eauto.
Qed.

Lemma on_frame_recv_callback_step_ok q2 c sd_ptr frame :
  step_ok c (on_frame_recv_callback q2 c sd_ptr frame).
Proof.
  unfold on_frame_recv_callback.
  set (stream_data := match sd_ptr with
                      | Some p => find_stream p c
                      | None => None
                      end).
  assert (Hl : forall sd, stream_data = Some sd ->
                          lookup (ptr sd) (streams c) = Some sd).
  { intros sd H. unfold stream_data in H. destruct sd_ptr as [p |];
      [| discriminate]. eapply lookup_self; exact H. }
  destruct frame as [L | | | | | | | flags | flags | flags | ];
    try apply step_ok_refl.
  - (* GOAWAY *)
    apply step_ok_grows.
    + cbn. apply free_unprocessed_loop_evolves.
    + destruct (free_unprocessed_loop_spec (streams c) L c) as (_ & Hg & _).
      cbv zeta in Hg.
      apply grows_weaken with (Q := nondeliver) in Hg;
        [| intros e; apply frees_only_nondeliver].
      unfold free_unprocessed_streams.
      destruct Hg as ((n & Hn & Hf) & A1 & A2 & A3 & A4 & A5 & A6).
      split; [| repeat split; cbn; auto].
      exists (n ++ [E_pn_raw_connection_close]). cbn. rewrite Hn, app_assoc.
      split; [reflexivity |]. apply Forall_app. split; [exact Hf |].
      constructor; [intro; reflexivity | constructor].
  - (* RST_STREAM *)
    destruct stream_data as [sd |] eqn:Hsd; [| apply step_ok_refl].
    unfold on_frame_recv_RST_STREAM.
    match goal with
    | |- context [let '(a, b) := ?X in let '(a', b') := _ in _] =>
        destruct X as [c1 sd1] eqn:E1
    end.
    match goal with
    | |- context [let '(a, b) := ?X in _] => destruct X as [c2 sd2] eqn:E2
    end.
    assert (H1 : streams c1 = streams c /\ grows nondeliver c c1
                 /\ in_dlv sd1 = in_dlv sd /\ ptr sd1 = ptr sd).
    { destruct (out_dlv sd); inversion E1; subst; clear E1;
        (split; [reflexivity |]); (split; [| split; reflexivity]).
      - apply grows_log. intro; reflexivity.
      - apply grows_refl. }
    destruct H1 as (S1 & G1 & D1 & P1).
    assert (H2 : streams c2 = streams c1 /\ grows nondeliver c1 c2
                 /\ ptr sd2 = ptr sd1).
    { destruct (in_dlv sd1); [destruct (negb (in_dlv_decrefed sd1)) eqn:En;
                                [apply negb_true_iff in En; rewrite En in E2 |] |];
        inversion E2; subst; clear E2;
        (split; [reflexivity |]); (split; [| reflexivity]);
        try apply grows_refl.
      apply grows_log. intro; reflexivity. }
    destruct H2 as (S2 & G2 & P2).
    destruct (free_http2_stream_data_spec c2 sd2 false) as (Hs & Hg & _).
    cbv zeta in Hs, Hg. apply step_ok_grows.
    + rewrite Hs, S2, S1. apply streams_evolve_remove.
    + eapply grows_trans; [exact G1 |]. eapply grows_trans; [exact G2 |].
      eapply grows_weaken; [| exact Hg].
      intros e. apply housekeeping_nondeliver.
  - (* DATA *)
    destruct stream_data as [sd |] eqn:Hsd; [| apply step_ok_refl].
    unfold on_frame_recv_DATA.
    set (sd1 := if flag_set flags NGHTTP2_FLAG_END_STREAM then _ else sd).
    assert (Hev : stream_evolves sd sd1).
    { unfold sd1. destruct (flag_set flags NGHTTP2_FLAG_END_STREAM);
        [| apply stream_evolves_refl].
      match goal with
      | |- stream_evolves _ (advance_stream_status ?X) =>
          destruct (advance_stream_status_evolves X) as (A1 & A2 & _ & _ & A3);
          assert (HX : ptr X = ptr sd /\ in_dlv X = in_dlv sd
                       /\ status X = status sd)
            by (destruct (negb (stream_force_closed sd));
                repeat split; reflexivity)
      end.
      destruct HX as (X1 & X2 & X3).
      repeat split; [congruence | rewrite <- X3; exact A3 | congruence]. }
    set (c1 := match in_dlv sd1 with Some _ => _ | None => c end).
    assert (G1 : streams c1 = streams c /\ grows nondeliver c c1).
    { unfold c1. destruct (in_dlv sd1);
        [destruct (negb (stream_force_closed sd1)) |];
        (split; [reflexivity |]); try apply grows_refl.
      apply grows_log. intro; reflexivity. }
    destruct G1 as (S1 & G1).
    destruct (update_remote_state_when_closed c1 sd1) as [c2 sd2] eqn:E2.
    destruct (update_remote_state_when_closed_spec _ _ _ _ E2)
      as (S2 & G2 & P2 & T2 & D2).
    apply step_ok_grows.
    + apply put_stream_evolves with (a := sd); [congruence | auto |].
      eapply stream_evolves_trans; [exact Hev |].
      repeat split; [exact P2 | rewrite T2; apply status_le_refl |].
      intros _. exact D2.
    + apply grows_put_stream. eapply grows_trans; eauto.
  - (* HEADERS *)
    destruct stream_data as [sd |] eqn:Hsd; [| apply step_ok_refl].
    apply on_frame_recv_HEADERS_step_ok. auto.
  - (* CONTINUATION *)
    destruct stream_data as [sd |] eqn:Hsd; [| apply step_ok_refl].
    apply on_frame_recv_HEADERS_step_ok. auto.
Qed.

(** **** qdr_http_delivery_update *)
Lemma set_stream_data_delivery_flags_frame sd dlv :
  let sd' := set_stream_data_delivery_flags sd dlv in
  ptr sd' = ptr sd /\ status sd' = status sd /\ in_dlv sd' = in_dlv sd
  /\ stream_id sd' = stream_id sd
  /\ stream_force_closed sd' = stream_force_closed sd
  /\ out_msg_send_complete sd' = out_msg_send_complete sd.
Proof.
  unfold set_stream_data_delivery_flags. cbv zeta.
  destruct (opt_nat_eqb dlv (in_dlv sd)); cbn;
    match goal with
    | |- context [if ?b then _ else _] => destruct b
    end; repeat split; reflexivity.
Qed.

Ltac grows_logs :=
  match goal with
  | |- grows _ ?c ?c => apply grows_refl
  | |- grows _ ?c (log ?e ?c') =>
      apply grows_trans with (c2 := c');
      [grows_logs | apply grows_log; try (intro; reflexivity)]
  | _ => idtac
  end.

Lemma qdr_http_delivery_update_step_ok c sd_ptr dlv disp settled :
  step_ok c (qdr_http_delivery_update c sd_ptr dlv disp settled).
Proof.
  unfold qdr_http_delivery_update.
  destruct sd_ptr as [p |]; [| apply step_ok_refl].
  destruct (find_stream p c) as [sd |] eqn:Hf; [| apply step_ok_refl].
  pose proof (lookup_self _ _ _ Hf) as Hl.
  set (sd1 := if settled && negb (ingress c) && is_failure_outcome disp
              then _ else sd).
  assert (H1 : stream_evolves sd sd1).
  { unfold sd1. destruct (settled && negb (ingress c) && is_failure_outcome disp);
      repeat split; cbn; auto using status_le_refl. }
  destruct settled.
  2:{ apply step_ok_grows; [| apply grows_put_stream, grows_refl].
      apply put_stream_evolves with (a := sd); auto. }
  set (c2 := if ingress c && is_failure_outcome disp then _ else c).
  assert (G2 : streams c2 = streams c /\ grows nondeliver c c2).
  { unfold c2. destruct (ingress c && is_failure_outcome disp);
      (split; [reflexivity |]); [apply grows_log; intro; reflexivity
                                | apply grows_refl]. }
  destruct G2 as (S2 & G2).
  match goal with
  | |- context [let '(a, b) := ?X in _] => destruct X as [c3 sd3] eqn:E3
  end.
  assert (H3 : streams c3 = streams c2 /\ grows nondeliver c2 c3
               /\ stream_evolves sd1 sd3).
  { destruct (negb (ingress c) && is_failure_outcome disp);
      inversion E3; subst c3 sd3; clear E3.
    - split; [reflexivity |]. split; [apply grows_log; intro; reflexivity |].
      destruct (advance_stream_status_evolves sd1) as (A1 & A2 & _ & _ & A3).
      repeat split; cbn; auto. 
    - split; [reflexivity |]. split; [apply grows_refl |].
      apply stream_evolves_refl. }
  destruct H3 as (S3 & G3 & H3).
  set (c4 := log (E_qdr_delivery_set_context dlv None)
                 (log E_nghttp2_session_send c3)).
  set (sd5 := set_stream_data_delivery_flags sd3 (Some dlv)).
  set (c5 := log (E_qdr_delivery_decref dlv) c4).
  assert (G5 : streams c5 = streams c /\ grows nondeliver c c5).
  { split; [cbn; congruence |].
    eapply grows_trans; [exact G2 |]. eapply grows_trans; [exact G3 |].
    unfold c5, c4. grows_logs. }
  destruct G5 as (S5 & G5).
  destruct (set_stream_data_delivery_flags_frame sd3 (Some dlv))
    as (F1 & F2 & F3 & _).
  cbv zeta in F1, F2, F3. fold sd5 in F1, F2, F3.
  destruct (out_msg_send_complete sd3
            && status_eqb (status sd5) QD_STREAM_FULLY_CLOSED).
  - destruct (free_http2_stream_data_spec c5 sd5 false) as (Hs & Hg & _).
    cbv zeta in Hs, Hg. apply step_ok_grows.
    + rewrite Hs, S5. apply streams_evolve_remove.
    + eapply grows_trans; [exact G5 |]. eapply grows_weaken; [| exact Hg].
      intros e. apply housekeeping_nondeliver.
  - apply step_ok_grows; [| apply grows_put_stream; exact G5].
    apply put_stream_evolves with (a := sd); auto.
    eapply stream_evolves_trans; [exact H1 |].
    eapply stream_evolves_trans; [exact H3 |].
    repeat split; cbn; [exact F1 | rewrite F2; apply status_le_refl |].
    intros _. exact F3.
Qed.

Ltac ident_setters := repeat split; reflexivity.

Lemma same_ident_refl a : same_ident a a.
Proof. repeat split; reflexivity. Qed.

Lemma same_ident_trans a b c :
  same_ident a b -> same_ident b c -> same_ident a c.
Proof.
  intros (A1 & A2 & A3 & A4) (B1 & B2 & B3 & B4).
  repeat split; congruence.
Qed.

Lemma look_ahead_ident sd m sd' m' :
  look_ahead sd m = (sd', m') -> same_ident sd sd'.
Proof.
  unfold look_ahead, qd_message_next_stream_data.
  destruct (next_answer m (next_calls m)) as [res w].
  intros H; inversion H; subst; ident_setters.
Qed.

Lemma release_curr_ident sd m sd' m' :
  release_curr sd m = (sd', m') -> same_ident sd sd'.
Proof. unfold release_curr. intros H; inversion H; subst; ident_setters. Qed.

Lemma release_next_ident sd m sd' m' :
  release_next sd m = (sd', m') -> same_ident sd sd'.
Proof. unfold release_next. intros H; inversion H; subst; ident_setters. Qed.

Lemma select_current_ident sd m sd' m' :
  select_current sd m = (sd', m') -> same_ident sd sd'.
Proof.
  unfold select_current, qd_message_next_stream_data.
  set (sd1 := match next_stream_data sd with Some _ => _ | None => sd end).
  assert (H1 : same_ident sd sd1)
    by (unfold sd1; destruct (next_stream_data sd); ident_setters).
  destruct (curr_stream_data sd1) as [w |].
  - match goal with
    | |- context [if ?b then _ else _] => destruct b
    end; intros H; inversion H; subst;
      (eapply same_ident_trans; [exact H1 | ident_setters]).
  - destruct (next_answer m (next_calls m)) as [res w].
    destruct w;
      match goal with
      | |- context [if ?b then _ else _] => destruct b
      end; intros H; inversion H; subst;
      (eapply same_ident_trans; [exact H1 | ident_setters]).
Qed.

Lemma read_body_empty_ident flags sd m :
  same_ident sd (rd_stream (read_body_empty flags sd m)).
Proof.
  unfold read_body_empty.
  destruct (look_ahead sd m) as [sd1 m1] eqn:E1.
  pose proof (look_ahead_ident _ _ _ _ E1) as H1.
  destruct (release_curr sd1 m1) as [sd2 m2] eqn:E2.
  pose proof (release_curr_ident _ _ _ _ E2) as H2.
  assert (H12 : same_ident sd sd2) by (eapply same_ident_trans; eauto).
  destruct (next_stream_data_result sd1); cbn; try exact H12.
  - eapply same_ident_trans; [exact H1 | ident_setters].
  - destruct (negb (out_msg_has_footer sd1)); cbn.
    + eapply same_ident_trans; [exact H12 | ident_setters].
    + eapply same_ident_trans; [exact H1 | ident_setters].
Qed.

Lemma read_body_data_ident flags sd m length payload :
  same_ident sd (rd_stream (read_body_data flags sd m length payload)).
Proof.
  unfold read_body_data.
  destruct (to_int (payload - payload_handled sd)
            <=? QD_ADAPTOR_MAX_BUFFER_SIZE).
  - destruct (length <? to_size_t (to_int (payload - payload_handled sd))).
    + cbn. ident_setters.
    + destruct (look_ahead (set_full_payload_handled true sd) m)
        as [sda ma] eqn:E.
      pose proof (look_ahead_ident _ _ _ _ E) as H.
      assert (H0 : same_ident sd sda)
        by (eapply same_ident_trans; [| exact H]; ident_setters).
      destruct (next_stream_data_result sda); cbn;
        (eapply same_ident_trans; [exact H0 | ident_setters]).
  - cbn. ident_setters.
Qed.

Lemma read_data_callback_frame write_capacity msg sd length data_flags :
  same_ident sd (rd_stream (read_data_callback write_capacity msg sd length
                                               data_flags)).
Proof.
  unfold read_data_callback.
  destruct (qd_message_check_depth_BODY msg); try (cbn; ident_setters).
  destruct (select_current sd msg) as [sd1 m1] eqn:E1.
  pose proof (select_current_ident _ _ _ _ E1) as H1.
  destruct (curr_stream_data_result sd1).
  - destruct (write_capacity =? 0);
      [cbn; eapply same_ident_trans; [exact H1 | ident_setters] |].
    destruct (window_payload_length (curr_stream_data sd1) =? 0).
    + eapply same_ident_trans; [exact H1 | apply read_body_empty_ident].
    + eapply same_ident_trans; [exact H1 | apply read_body_data_ident].
  - match goal with
    | |- context [let '(a, b) := ?X in let '(a', b') := _ in _] =>
        destruct X as [sd2 m2] eqn:E2
    end.
    assert (H2 : same_ident sd1 sd2).
    { destruct (negb (out_msg_has_footer sd1)).
      - pose proof (look_ahead_ident _ _ _ _ E2) as H.
        eapply same_ident_trans; [| exact H]. ident_setters.
      - inversion E2; subst. apply same_ident_refl. }
    match goal with
    | |- context [let '(a, b) := ?X in _] => destruct X as [sd3 m3] eqn:E3
    end.
    assert (H3 : same_ident sd2 sd3).
    { match type of E3 with
      | (if ?b then _ else _) = _ => destruct b
      end.
      - pose proof (release_next_ident _ _ _ _ E3) as H.
        eapply same_ident_trans; [| exact H]. ident_setters.
      - inversion E3; subst. apply same_ident_refl. }
    cbn. eapply same_ident_trans; [exact H1 |].
    eapply same_ident_trans; eauto.
  - cbn. eapply same_ident_trans; [exact H1 | ident_setters].
  - destruct (write_capacity =? 0); cbn;
      (eapply same_ident_trans; [exact H1 | ident_setters]).
  - destruct (release_curr sd1 m1) as [sd2 m2] eqn:E2.
    pose proof (release_curr_ident _ _ _ _ E2) as H2.
    cbn. eapply same_ident_trans; [exact H1 |].
    eapply same_ident_trans; [exact H2 | ident_setters].
  - destruct (release_curr sd1 m1) as [sd2 m2] eqn:E2.
    pose proof (release_curr_ident _ _ _ _ E2) as H2.
    cbn. eapply same_ident_trans; [exact H1 |].
    eapply same_ident_trans; [exact H2 | ident_setters].
Qed.

Lemma read_data_step_ok q2 c p write_capacity msg length data_flags :
  step_ok c (adapter_step q2
               (Op_read_data p write_capacity msg length data_flags) c).
Proof.
  cbn [adapter_step].
  destruct (find_stream p c) as [sd |] eqn:Hf; [| apply step_ok_refl].
  pose proof (lookup_self _ _ _ Hf) as Hl.
  destruct (read_data_callback_frame write_capacity msg sd length data_flags)
    as (F1 & F2 & F3 & _).
  apply step_ok_grows; [| apply grows_put_stream, grows_refl].
  apply put_stream_evolves with (a := sd); auto.
  repeat split; [exact F1 | rewrite F2; apply status_le_refl |].
  intros _. exact F3.
Qed.

Lemma adapter_step_ok q2 o c : step_ok c (adapter_step q2 o c).
Proof.
  destruct o; cbn [adapter_step].
  - apply on_data_chunk_step_ok.
  - apply on_frame_recv_callback_step_ok.
  - apply qdr_http_flow_step_ok.
  - apply qdr_http_second_attach_step_ok.
  - apply qdr_http_delivery_update_step_ok.
  - apply (read_data_step_ok q2).
Qed.

(** *** Runs of callbacks *)

Lemma adapter_run_evolves q2 ops :
  forall c, streams_evolve (streams c) (streams (adapter_run q2 ops c)).
Proof.
  induction ops as [| o rest IH]; intros c; cbn [adapter_run fold_left].
  - apply streams_evolve_refl.
  - eapply streams_evolve_trans; [| apply IH].
    destruct (adapter_step_ok q2 o c) as (H & _). exact H.
Qed.

Lemma nondeliver_count p l :
  Forall nondeliver l -> deliveries_created p l = 0%nat.
Proof.
  unfold deliveries_created. induction 1 as [| e l He _ IH]; cbn;
    [reflexivity |]. rewrite (He p). exact IH.
Qed.

Lemma deliveries_created_cons p e l :
  deliveries_created p (e :: l)
  = ((if is_deliver_for p e then 1 else 0) + deliveries_created p l)%nat.
Proof.
  unfold deliveries_created. cbn [filter].
  destruct (is_deliver_for p e); reflexivity.
Qed.

Lemma step_ok_delivered_once p c c' :
  step_ok c c' -> delivered_once p c -> delivered_once p c'.
Proof.
  intros (Hs & new & Ht & Hnew) (Hle & Hset). unfold delivered_once.
  rewrite Ht, deliveries_created_app.
  assert (Hkeep : forall b, lookup p (streams c') = Some b ->
                    deliveries_created p (trace c) = 1%nat ->
                    in_dlv b <> None).
  { intros b Hb Hone. destruct (Hs p b Hb) as (a & Ha & _ & _ & Hev).
    pose proof (Hset Hone a Ha) as Hsome.
    destruct (in_dlv a) eqn:Ea; [| congruence].
    rewrite (Hev eq_refl). discriminate. }
  destruct Hnew as [Hq | (pre & l & d & q & post & a & b' & Hn & Hpre & Hpost
                          & Ha & Hnone & Hb & Hsome)].
  - rewrite (nondeliver_count p new Hq), Nat.add_0_r.
    split; [exact Hle |]. intros Hone b Hb. eauto.
  - subst new. rewrite deliveries_created_app, deliveries_created_cons.
    rewrite (nondeliver_count p pre Hpre), (nondeliver_count p post Hpost).
    cbn [is_deliver_for].
    destruct (Nat.eqb q p) eqn:E.
    + apply Nat.eqb_eq in E. subst q.
      assert (Hzero : deliveries_created p (trace c) = 0%nat).
      { destruct (deliveries_created p (trace c)) as [| [| n]] eqn:En;
          [reflexivity | | lia].
        exfalso. apply (Hset eq_refl a Ha). exact Hnone. }
      rewrite Hzero. split; [cbn; lia |].
      intros _ b Hb2. rewrite Hb in Hb2. inversion Hb2; subst. exact Hsome.
    + rewrite !Nat.add_0_r. split; [exact Hle |]. intros Hone b Hb2. eauto.
Qed.

Lemma adapter_run_delivered_once q2 p ops :
  forall c, delivered_once p c -> delivered_once p (adapter_run q2 ops c).
Proof.
  induction ops as [| o rest IH]; intros c H; cbn [adapter_run fold_left].
  - exact H.
  - apply IH. eapply step_ok_delivered_once; [apply adapter_step_ok | exact H].
Qed.

End Http2Facts.
(** ** Routing of the incoming delivery *)

(** C10.  [route_delivery] returns false, and changes nothing, when the
    stream's [in_dlv] is already set.  When it returns true a delivery was
    created: [in_dlv] was unset, [in_link_credit] was strictly positive and
    is now one less, all headers had arrived and, on an ingress connection,
    the reply-to address was recorded.  When it returns false no delivery
    was created.  Over any run of the adaptor's callbacks at most one
    [qdr_link_deliver] is made for a stream record. *)
Theorem one_incoming_delivery_per_stream :
  (forall q2 c sd rc,
      Http2.in_dlv sd <> None ->
      Http2.route_delivery q2 c sd rc = (false, c, sd))
  /\ (forall q2 c sd rc c' sd',
         Http2.route_delivery q2 c sd rc = (true, c', sd') ->
         Http2.in_dlv sd = None
         /\ (0 < Http2.in_link_credit sd)%Z
         /\ Http2.in_link_credit sd' = (Http2.in_link_credit sd - 1)%Z
         /\ Http2.in_dlv sd' = Some (Http2.next_delivery c)
         /\ Http2.trace c'
            = Http2.trace c
              ++ Http2Spec.deliver_events sd (Http2.next_delivery c)
         /\ Http2.entire_header_arrived sd = true
         /\ (Http2.ingress c = true -> Http2.reply_to sd <> None))
  /\ (forall q2 c sd rc c' sd',
         Http2.route_delivery q2 c sd rc = (false, c', sd') ->
         Http2.in_dlv sd' = Http2.in_dlv sd
         /\ Http2.in_link_credit sd' = Http2.in_link_credit sd
         /\ Http2.trace c' = Http2.trace c)
  /\ (forall q2 ops c p,
         Http2.deliveries_created p (Http2.trace c) = 0 ->
         Http2.deliveries_created p
           (Http2.trace (Http2.adapter_run q2 ops c)) <= 1).
Proof.
  split; [| split; [| split]].
  - intros q2 c sd rc H. unfold Http2.route_delivery.
    destruct (Http2.in_dlv sd); [reflexivity | congruence].
  - intros q2 c sd rc c' sd' H.
    destruct (Http2Facts.route_delivery_spec _ _ _ _ _ _ _ H)
      as ((_ & _ & _ & _ & _ & _ & R) & Hd).
    destruct R as (R1 & R2 & R3 & R4 & R5).
    destruct (Hd eq_refl) as (D1 & D2). repeat split; assumption.
  - intros q2 c sd rc c' sd' H.
    destruct (Http2Facts.route_delivery_spec _ _ _ _ _ _ _ H)
      as ((_ & _ & _ & _ & _ & _ & R) & _).
    exact R.
  - intros q2 ops c p H.
    apply (Http2Facts.adapter_run_delivered_once q2 p ops c).
    split; [rewrite H; lia | rewrite H; discriminate].
Qed.

(** A stream that already has a delivery is not routed again; the ready
    example stream is routed once and pays one credit; the example run
    creates no second delivery for stream 1. *)
Lemma one_incoming_delivery_per_stream_witness :
  Http2.route_delivery Http2.no_q2 Http2.example_ingress
    (Http2.set_in_dlv (Some 5) Http2.example_ready_stream) true
  = (false, Http2.example_ingress,
     Http2.set_in_dlv (Some 5) Http2.example_ready_stream)
  /\ (Http2.in_link_credit Http2.example_ready_stream = 1%Z
      /\ Http2.in_link_credit
           (snd (Http2.route_delivery Http2.no_q2 Http2.example_ingress
                   Http2.example_ready_stream false)) = 0%Z)
  /\ Http2.in_dlv
       (snd (Http2.route_delivery Http2.no_q2 Http2.example_ingress
               Http2.example_stream_1 false)) = None
  /\ Http2.deliveries_created 1
       (Http2.trace (Http2.adapter_run Http2.no_q2 Http2.example_ops
                                       Http2.example_ingress)) <= 1.
Proof.
  destruct one_incoming_delivery_per_stream as (Hset & Htrue & Hfalse & Hrun).
  split.
  { apply Hset. vm_compute. discriminate. }
  split.
  { destruct (Htrue Http2.no_q2 Http2.example_ingress
                Http2.example_ready_stream false
                (snd (fst (Http2.route_delivery Http2.no_q2
                             Http2.example_ingress
                             Http2.example_ready_stream false)))
                (snd (Http2.route_delivery Http2.no_q2 Http2.example_ingress
                        Http2.example_ready_stream false)))
      as (_ & _ & Hdec & _).
    - vm_compute. reflexivity.
    - split; [reflexivity |]. rewrite Hdec. reflexivity. }
  split.
  { destruct (Hfalse Http2.no_q2 Http2.example_ingress
                Http2.example_stream_1 false
                (snd (fst (Http2.route_delivery Http2.no_q2
                             Http2.example_ingress
                             Http2.example_stream_1 false)))
                (snd (Http2.route_delivery Http2.no_q2 Http2.example_ingress
                        Http2.example_stream_1 false)))
      as (Hin & _).
    - vm_compute. reflexivity.
    - rewrite Hin. reflexivity. }
  apply Hrun. reflexivity.
Defined.

(** ** GOAWAY *)

Module GoawayFacts.
Import Http2 Http2Spec.
Local Open Scope Z_scope.

Lemma ptr_injective_on (l : list qdr_http2_stream_data_t) :
  NoDup (map ptr l) ->
  forall x s, In x l -> In s l -> ptr s = ptr x -> s = x.
Proof.
  induction l as [| y tl IH]; intros Hnd x s Hx Hs Hp; [destruct Hx |].
  cbn in Hnd. inversion Hnd as [| ? ? Hnotin Hnd']; subst.
  destruct Hx as [Hx | Hx], Hs as [Hs | Hs].
  - congruence.
  - subst y. exfalso. apply Hnotin. rewrite <- Hp. apply in_map. exact Hs.
  - subst y. exfalso. apply Hnotin. rewrite Hp. apply in_map. exact Hx.
  - apply IH; assumption.
Qed.

Lemma existsb_unprocessed (l : list qdr_http2_stream_data_t) L x :
  NoDup (map ptr l) -> In x l ->
  existsb (Nat.eqb (ptr x)) (unprocessed_ptrs l L) = (L <? stream_id x).
Proof.
  intros Hnd Hx. unfold unprocessed_ptrs.
  destruct (L <? stream_id x) eqn:E.
  - apply existsb_exists. exists (ptr x). split; [| apply Nat.eqb_refl].
    apply in_map. apply filter_In. split; assumption.
  - destruct (existsb _ _) eqn:Ex; [| reflexivity].
    apply existsb_exists in Ex. destruct Ex as (p & Hp & Heq).
    apply Nat.eqb_eq in Heq. apply in_map_iff in Hp.
    destruct Hp as (s & Hs & Hin). apply filter_In in Hin.
    destruct Hin as (Hin & Hlt).
    assert (s = x) by (apply (ptr_injective_on l Hnd); congruence).
    subst s. congruence.
Qed.

End GoawayFacts.

(** C5.  On a GOAWAY frame with last-stream-id [L], on a connection whose
    stream records have distinct addresses: the stream list afterwards is
    the list before restricted to the ids not greater than [L], in the same
    order; every stream with an id strictly greater than [L] was freed and
    is gone; no stream with an id less than or equal to [L] was freed, and
    it is still there; [goaway_received] is set; and the last thing the
    handler does is to close the raw connection. *)
Theorem goaway_frees_unprocessed_streams :
  forall q2 c sd_ptr L,
    NoDup (Http2.stream_ptrs c) ->
    let c' := Http2.on_frame_recv_callback q2 c sd_ptr (Http2.NGHTTP2_GOAWAY L) in
    Http2.streams c'
    = filter (fun s => (Http2.stream_id s <=? L)%Z) (Http2.streams c)
    /\ Http2.goaway_received c' = true
    /\ exists new,
        Http2.trace c'
        = Http2.trace c ++ new ++ [Http2.E_pn_raw_connection_close]
        /\ (forall sd,
               In sd (Http2.streams c) -> (L < Http2.stream_id sd)%Z ->
               In (Http2.E_free_stream_data (Http2.ptr sd)) new
               /\ ~ In sd (Http2.streams c'))
        /\ (forall sd,
               In sd (Http2.streams c) -> (Http2.stream_id sd <= L)%Z ->
               In sd (Http2.streams c')
               /\ ~ In (Http2.E_free_stream_data (Http2.ptr sd)) new).
Proof.
  intros q2 c sd_ptr L Hnd c'.
  destruct (Http2Facts.free_unprocessed_loop_spec (Http2.streams c) L c)
    as (Hs & Hg & (new & Hnew & Hin)).
  cbv zeta in Hs, Hg, Hnew, Hin.
  assert (Hstreams : Http2.streams c'
                     = filter (fun s => (Http2.stream_id s <=? L)%Z)
                              (Http2.streams c)).
  { unfold c'. cbn. unfold Http2.free_unprocessed_streams. rewrite Hs.
    apply filter_ext_in. intros x Hx.
    rewrite (GoawayFacts.existsb_unprocessed _ L x Hnd Hx).
    rewrite Z.leb_antisym. reflexivity. }
  split; [exact Hstreams |]. split; [reflexivity |].
  exists new. split; [| split].
  - unfold c'. cbn. unfold Http2.free_unprocessed_streams.
    rewrite Hnew, app_assoc. reflexivity.
  - intros sd Hsd Hlt. split.
    + apply Hin. unfold Http2Spec.unprocessed_ptrs. apply in_map.
      apply filter_In. split; [exact Hsd | apply Z.ltb_lt; exact Hlt].
    + rewrite Hstreams. intros H. apply filter_In in H.
      destruct H as (_ & H). apply Z.leb_le in H. lia.
  - intros sd Hsd Hle. split.
    + rewrite Hstreams. apply filter_In.
      split; [exact Hsd | apply Z.leb_le; exact Hle].
    + intros Hfree.
      destruct Hg as ((new' & Hnew' & Hall) & _).
      rewrite Hnew in Hnew'. apply app_inv_head in Hnew'. subst new'.
      rewrite Forall_forall in Hall.
      destruct (Hall _ Hfree) as (_ & _ & _ & Hps).
      specialize (Hps (Http2.ptr sd) eq_refl).
      unfold Http2Spec.unprocessed_ptrs in Hps. apply in_map_iff in Hps.
      destruct Hps as (s & Hp & Hs'). apply filter_In in Hs'.
      destruct Hs' as (Hs' & Hlt). apply Z.ltb_lt in Hlt.
      assert (s = sd)
        by (apply (GoawayFacts.ptr_injective_on _ Hnd); assumption).
      subst s. lia.
Qed.

(** The fourth scenario of the specification: streams 1 and 3 are open and
    GOAWAY carries last-stream-id 1; stream 3 is freed, stream 1 stays. *)
Lemma goaway_frees_unprocessed_streams_witness :
  Http2.streams
    (Http2.on_frame_recv_callback Http2.no_q2 Http2.example_egress None
                                  (Http2.NGHTTP2_GOAWAY 1))
  = filter (fun s => (Http2.stream_id s <=? 1)%Z)
           (Http2.streams Http2.example_egress)
  /\ Http2.goaway_received
       (Http2.on_frame_recv_callback Http2.no_q2 Http2.example_egress None
                                     (Http2.NGHTTP2_GOAWAY 1)) = true.
Proof.
  assert (Hnd : NoDup (Http2.stream_ptrs Http2.example_egress)).
  { vm_compute. repeat constructor; cbn; intuition discriminate. }
  destruct (goaway_frees_unprocessed_streams Http2.no_q2 Http2.example_egress
              None 1%Z Hnd) as (Hs & Hg & _).
  split; [exact Hs | exact Hg].
Defined.

(** ** Forced closure *)




(** ** Disposition updates *)

Module UpdateFacts.
Import Http2 Http2Spec.
Local Open Scope Z_scope.





End UpdateFacts.



(** ** DATA chunks *)

(** C4, as stated, fails.  The example stream has no routed delivery
    ([in_dlv] is NULL) but its message is already composed; a chunk
    arriving now is not staged in [body_buffers]: it goes straight into
    the message body. *)
Lemma data_chunk_counterexample :
  let c := Http2.new_connection true None [Http2.example_composed_stream] in
  Http2.in_dlv Http2.example_composed_stream = None
  /\ exists sd',
      Http2.find_stream 1
        (Http2.on_data_chunk_recv_callback Http2.no_q2 c (Some 1%nat)
                                           [Byte.x68; Byte.x69]) = Some sd'
      /\ Http2.body_buffers sd' = []
      /\ Http2.msg_body (Http2.message sd') = [[Byte.x68; Byte.x69]].
Proof.
  cbv zeta. split; [reflexivity |].
  eexists. split; [vm_compute; reflexivity |]. split; reflexivity.
Qed.

Module ChunkFacts.
Import Http2 Http2Spec.
Local Open Scope Z_scope.

Lemma propagate_q2_blocked q c :
  q2_blocked (propagate_q2 q c) = q2_blocked c || q.
Proof.
  unfold propagate_q2. destruct q, (q2_blocked c) eqn:E; cbn; rewrite ?E;
    reflexivity.
Qed.

Lemma find_after_put c c1 p sd sd' e :
  find_stream p c = Some sd -> streams c1 = streams c -> ptr sd' = ptr sd ->
  find_stream p (log e (put_stream sd' c1)) = Some sd'.
Proof.
  intros Hf Hs Hp. pose proof (Http2Facts.lookup_ptr _ _ _ Hf) as Hq.
  rewrite Http2Facts.find_stream_lookup. cbn [log set_trace streams].
  rewrite Http2Facts.streams_put_stream, Hs, Http2Facts.lookup_put.
  rewrite Hp, Hq, Nat.eqb_refl, <- Http2Facts.find_stream_lookup, Hf.
  reflexivity.
Qed.

End ChunkFacts.

(** C4, amended.  For a DATA chunk received on a stream that is not force
    closed, the raw connection being there: if the delivery is routed or
    the message's header and properties are already composed, the staged
    body buffers that were not yet added are appended first, then the
    chunk's bytes are appended to the message body, and a Q2 blocking
    signal from either append sets the connection's [q2_blocked];
    otherwise the bytes are staged at the end of the stream's
    [body_buffers] and nothing else changes.  Staged bytes are moved into
    the message when [compose_and_deliver] composes it, which is when, or
    before, the delivery is routed. *)
Theorem data_chunk_amended :
  (forall q2 c p sd data,
      Http2.pn_raw_conn c <> None ->
      Http2.find_stream p c = Some sd ->
      Http2.stream_force_closed sd = false ->
      let c' := Http2.on_data_chunk_recv_callback q2 c (Some p) data in
      let flush := ((0 <? length (Http2.body_buffers sd))%nat
                    && negb (Http2.body_data_added_to_msg sd))%bool in
      let m1 := if flush
                then fst (Http2.qd_message_stream_data_append
                            q2 (Http2.message sd) (Http2.body_buffers sd))
                else Http2.message sd in
      exists sd',
        Http2.find_stream p c' = Some sd'
        /\ (Http2.in_dlv sd <> None
            \/ Http2.header_and_props_composed sd = true ->
            Http2.message sd'
            = fst (Http2.qd_message_stream_data_append q2 m1 data)
            /\ Http2.msg_body (Http2.message sd')
               = Http2.msg_body (Http2.message sd)
                 ++ (if flush then [Http2.body_buffers sd] else [])
                 ++ [data]
            /\ Http2.body_buffers sd'
               = (if flush then [] else Http2.body_buffers sd)
            /\ Http2.q2_blocked c'
               = (Http2.q2_blocked c
                  || (flush && q2 (Http2.message sd) (Http2.body_buffers sd))
                  || q2 m1 data)%bool)
        /\ (Http2.in_dlv sd = None ->
            Http2.header_and_props_composed sd = false ->
            Http2.body_buffers sd' = Http2.body_buffers sd ++ data
            /\ Http2.message sd' = Http2.message sd
            /\ Http2.q2_blocked c' = Http2.q2_blocked c))
  /\ (forall q2 c sd rc c1 sd1,
         Http2.compose_header_and_props q2 c sd rc = Some (c1, sd1) ->
         Http2.body_buffers sd <> [] ->
         Http2.msg_body (Http2.message sd1)
         = Http2.msg_body (Http2.message sd) ++ [Http2.body_buffers sd]
         /\ Http2.body_buffers sd1 = [])
  /\ (forall q2 c sd rc c' sd',
         Http2.header_and_props_composed sd = false ->
         Http2.body_buffers sd <> [] ->
         Http2.route_delivery q2 c sd rc = (true, c', sd') ->
         Http2.msg_body (Http2.message sd')
         = Http2.msg_body (Http2.message sd) ++ [Http2.body_buffers sd]
         /\ Http2.body_buffers sd' = []).
Proof.
  assert (Hcompose :
            forall q2 c sd rc c1 sd1,
              Http2.compose_header_and_props q2 c sd rc = Some (c1, sd1) ->
              Http2.body_buffers sd <> [] ->
              Http2.msg_body (Http2.message sd1)
              = Http2.msg_body (Http2.message sd) ++ [Http2.body_buffers sd]
              /\ Http2.body_buffers sd1 = []).
  { intros q2 c sd rc c1 sd1 H Hne. revert H.
    unfold Http2.compose_header_and_props, Http2.append_body_buffers,
      Http2.take_footer, Http2.compose_3, Http2.propagate_q2,
      Http2.qd_message_stream_data_append.
    destruct (Http2.body_buffers sd) as [| b bs] eqn:Eb; [congruence |].
    cbn. rewrite Eb. cbn.
    Http2Facts.break_ifs; intros H; inversion H; subst; clear H; cbn;
      rewrite ?Eb; split; reflexivity. }
  split; [| split; [exact Hcompose |]].
  - intros q2 c p sd data Hraw Hf Hfc c' flush m1. subst c'.
    unfold Http2.on_data_chunk_recv_callback. rewrite Hf, Hfc.
    destruct (Http2.pn_raw_conn c) as [r |] eqn:Er; [| congruence].
    cbn [Http2.is_some negb].
    match goal with
    | |- context [let '(a, b) := ?X in _] => destruct X as [c2 sd2] eqn:E
    end.
    assert (H : Http2.streams c2 = Http2.streams c
                /\ Http2.ptr sd2 = Http2.ptr sd).
    { revert E. unfold Http2.append_body_buffers, Http2.propagate_q2,
                  Http2.qd_message_stream_data_append. cbn.
      Http2Facts.break_ifs; intros E; inversion E; subst; clear E;
        split; reflexivity. }
    destruct H as (Hs & Hp).
    exists sd2. split; [eapply ChunkFacts.find_after_put; eauto |].
    cbn [Http2.log Http2.set_trace Http2.q2_blocked].
    change (Http2.q2_blocked (Http2.put_stream sd2 c2))
      with (Http2.q2_blocked c2).
    cbn [Http2.in_dlv Http2.set_bytes_in Http2.header_and_props_composed
         Http2.body_buffers Http2.body_data_added_to_msg Http2.message] in E.
    fold flush in E.
    split.
    + intros Hrouted.
      assert (Hcond : Http2.is_some (Http2.in_dlv sd)
                      || Http2.header_and_props_composed sd = true).
      { destruct Hrouted as [Hr | Hr].
        - destruct (Http2.in_dlv sd); [reflexivity | congruence].
        - rewrite Hr. apply orb_true_r. }
      rewrite Hcond in E. unfold m1.
      unfold Http2.append_body_buffers, Http2.qd_message_stream_data_append
        in *.
      destruct flush; cbn in E |- *; inversion E; subst c2 sd2; clear E;
        cbn; rewrite ?ChunkFacts.propagate_q2_blocked; cbn;
        rewrite <- ?app_assoc; repeat split; try reflexivity.
      * apply orb_assoc.
      * rewrite orb_false_r. reflexivity.
    + intros Hnone Hnot. rewrite Hnone, Hnot in E. cbn in E.
      inversion E; subst c2 sd2. repeat split; reflexivity.
  - intros q2 c sd rc c' sd' Hnc Hne Hr.
    unfold Http2.route_delivery in Hr.
    assert (Hcd : Http2.compose_and_deliver q2 c sd rc = (true, c', sd')).
    { destruct (Http2.is_some (Http2.in_dlv sd)); [discriminate |].
      destruct (Http2.ingress c);
        match type of Hr with
        | (if ?b then _ else _) = _ => destruct b
        end; congruence. }
    clear Hr. unfold Http2.compose_and_deliver in Hcd. rewrite Hnc in Hcd.
    cbn [negb] in Hcd.
    destruct (Http2.compose_header_and_props q2 c sd rc) as [[c1 sd1] |] eqn:Eh;
      [| discriminate].
    destruct (Hcompose _ _ _ _ _ _ Eh Hne) as (Hm & Hb).
    destruct (negb (Http2.is_some (Http2.in_dlv sd1))
              && (0 <? Http2.in_link_credit sd1)%Z); [| discriminate].
    inversion Hcd; subst c' sd'. cbn. split; assumption.
Qed.

(** A chunk for a stream whose delivery is routed goes into the message
    and its Q2 signal blocks the connection; a chunk for a stream that is
    neither routed nor composed is staged; the staged octets of the example
    stream are in the message once it is routed. *)
Lemma data_chunk_amended_witness :
  (exists sd',
      Http2.find_stream 1
        (Http2.on_data_chunk_recv_callback Http2.always_q2
           (Http2.new_connection true None
              [Http2.set_in_dlv (Some 4%nat) Http2.example_composed_stream])
           (Some 1%nat) [Byte.x68]) = Some sd'
      /\ Http2.msg_body (Http2.message sd') = [[Byte.x68]])
  /\ (exists sd',
         Http2.find_stream 1
           (Http2.on_data_chunk_recv_callback Http2.no_q2
              Http2.example_ingress (Some 1%nat) [Byte.x68]) = Some sd'
         /\ Http2.body_buffers sd' = [Byte.x68])
  /\ Http2.msg_body
       (Http2.message
          (snd (Http2.route_delivery Http2.no_q2 Http2.example_ingress
                  Http2.example_staged_stream false)))
     = [[Byte.x68; Byte.x69]].
Proof.
  destruct data_chunk_amended as (Hchunk & _ & Hroute).
  split; [| split].
  - destruct (Hchunk Http2.always_q2
                (Http2.new_connection true None
                   [Http2.set_in_dlv (Some 4%nat)
                      Http2.example_composed_stream])
                1%nat
                (Http2.set_in_dlv (Some 4%nat) Http2.example_composed_stream)
                [Byte.x68])
      as (sd' & Hf & Happ & _).
    + vm_compute. discriminate.
    + reflexivity.
    + reflexivity.
    + exists sd'. split; [exact Hf |].
      destruct Happ as (_ & Hbody & _); [left; vm_compute; discriminate |].
      exact Hbody.
  - destruct (Hchunk Http2.no_q2 Http2.example_ingress 1%nat
                Http2.example_stream_1 [Byte.x68])
      as (sd' & Hf & _ & Hstage).
    + vm_compute. discriminate.
    + reflexivity.
    + reflexivity.
    + exists sd'. split; [exact Hf |].
      destruct Hstage as (Hb & _); [reflexivity | reflexivity |]. exact Hb.
  - destruct (Hroute Http2.no_q2 Http2.example_ingress
                Http2.example_staged_stream false
                (snd (fst (Http2.route_delivery Http2.no_q2
                             Http2.example_ingress
                             Http2.example_staged_stream false)))
                (snd (Http2.route_delivery Http2.no_q2 Http2.example_ingress
                        Http2.example_staged_stream false)))
      as (Hm & _).
    + reflexivity.
    + vm_compute. discriminate.
    + vm_compute. reflexivity.
    + rewrite Hm. reflexivity.
Defined.

(** ** The DATA read callback *)

(** C1, as stated, fails.  With the body depth reached and write capacity
    available, a stream-data answer of INCOMPLETE makes the callback return
    "deferred" (-508), not min(requested, remaining, 16384); and when a
    10-octet window is emptied and the lookahead finds a footer, the call
    returns its 10 octets with only NO_COPY in the data flags: EOF is not
    set by that call. *)
Lemma data_read_callback_counterexample :
  (Http2.depth_body Http2.example_msg_incomplete = Http2.QD_MESSAGE_DEPTH_OK
   /\ Http2.curr_stream_data_result
        (fst (Http2.select_current Http2.example_sending_stream
                                   Http2.example_msg_incomplete))
      = Http2.QD_MESSAGE_STREAM_DATA_INCOMPLETE
   /\ Http2.rd_return
        (Http2.read_data_callback 5 Http2.example_msg_incomplete
                                  Http2.example_sending_stream 100 0)
      = Http2.NGHTTP2_ERR_DEFERRED
   /\ Http2.rd_return
        (Http2.read_data_callback 5 Http2.example_msg_incomplete
                                  Http2.example_sending_stream 100 0)
      <> Z.min 100
               (Z.min (Http2.remaining_in_window
                         (fst (Http2.select_current
                                 Http2.example_sending_stream
                                 Http2.example_msg_incomplete)))
                      16384))
  /\ (Http2.rd_return
        (Http2.read_data_callback 5 Http2.example_msg_footer
                                  Http2.example_sending_stream 100 0) = 10%Z
      /\ Http2.next_stream_data_result
           (Http2.rd_stream
              (Http2.read_data_callback 5 Http2.example_msg_footer
                                        Http2.example_sending_stream 100 0))
         = Http2.QD_MESSAGE_STREAM_DATA_FOOTER_OK
      /\ Http2.rd_data_flags
           (Http2.read_data_callback 5 Http2.example_msg_footer
                                     Http2.example_sending_stream 100 0)
         = Http2.NGHTTP2_DATA_FLAG_NO_COPY
      /\ Z.land (Http2.rd_data_flags
                   (Http2.read_data_callback 5 Http2.example_msg_footer
                      Http2.example_sending_stream 100 0))
                Http2.NGHTTP2_DATA_FLAG_EOF = 0%Z).
Proof.
  split.
  - repeat split; try (vm_compute; reflexivity). vm_compute. discriminate.
  - repeat split; vm_compute; reflexivity.
Qed.

Module ReadFacts.
Import Http2 Http2Spec.
Local Open Scope Z_scope.

Lemma to_int_small z : 0 <= z < 2 ^ 31 -> to_int z = z.
Proof.
  intros H. unfold to_int. rewrite Z.mod_small by lia.
  destruct (z <? 2 ^ 31) eqn:E; [reflexivity |].
  apply Z.ltb_ge in E. lia.
Qed.

Lemma to_size_t_small z : 0 <= z < 2 ^ 64 -> to_size_t z = z.
Proof. intros H. unfold to_size_t. apply Z.mod_small. lia. Qed.

Lemma to_ssize_t_small z : 0 <= z < 2 ^ 63 -> to_ssize_t z = z.
Proof.
  intros H. unfold to_ssize_t. rewrite Z.mod_small by lia.
  destruct (z <? 2 ^ 63) eqn:E; [reflexivity |].
  apply Z.ltb_ge in E. lia.
Qed.

Lemma look_ahead_result sd m :
  next_stream_data_result (fst (look_ahead sd m)) = fst (answer m)
  /\ next_calls (snd (look_ahead sd m)) = S (next_calls m)
  /\ out_msg_has_footer (fst (look_ahead sd m)) = out_msg_has_footer sd
  /\ out_msg_data_flag_eof (fst (look_ahead sd m)) = out_msg_data_flag_eof sd.
Proof.
  unfold look_ahead, qd_message_next_stream_data, answer.
  destruct (next_answer m (next_calls m)) as [res w]. cbn. tauto.
Qed.

Lemma release_keeps_calls w m :
  next_calls (qd_message_stream_data_release w m) = next_calls m.
Proof. destruct w; reflexivity. Qed.

(** A window with octets left: the number returned, and what a lookahead
    does to the flags when the window is emptied. *)
Lemma read_body_data_spec flags sd m length payload :
  0 <= length < 2 ^ 63 ->
  0 <= payload_handled sd <= payload -> payload < 2 ^ 31 ->
  let remaining := payload - payload_handled sd in
  let r := read_body_data flags sd m length payload in
  rd_return r = Z.min length (Z.min remaining QD_ADAPTOR_MAX_BUFFER_SIZE)
  /\ (remaining <= length -> remaining <= QD_ADAPTOR_MAX_BUFFER_SIZE ->
      next_calls (rd_message r) = S (next_calls m)
      /\ (fst (answer m) = QD_MESSAGE_STREAM_DATA_NO_MORE ->
          rd_data_flags r = Z.lor flags NGHTTP2_DATA_FLAG_EOF
          /\ out_msg_data_flag_eof (rd_stream r) = true)
      /\ (fst (answer m) = QD_MESSAGE_STREAM_DATA_FOOTER_OK ->
          rd_data_flags r = flags
          /\ out_msg_has_footer (rd_stream r) = true)).
Proof.
  intros Hlen Hh Hp remaining r. subst r.
  unfold read_body_data. fold remaining.
  assert (Hr : 0 <= remaining < 2 ^ 31) by (unfold remaining; lia).
  rewrite (to_int_small remaining Hr).
  rewrite (to_size_t_small remaining) by lia.
  unfold QD_ADAPTOR_MAX_BUFFER_SIZE.
  destruct (remaining <=? 16384) eqn:E1.
  - apply Z.leb_le in E1.
    destruct (length <? remaining) eqn:E2.
    + apply Z.ltb_lt in E2. cbn [rd_return rd_message rd_data_flags rd_stream].
      rewrite to_ssize_t_small by lia.
      split; [lia | intros; lia].
    + apply Z.ltb_ge in E2.
      destruct (look_ahead_result (set_full_payload_handled true sd) m)
        as (L1 & L2 & L3 & L4).
      destruct (look_ahead (set_full_payload_handled true sd) m)
        as [sda ma] eqn:El.
      cbn [fst snd] in L1, L2, L3, L4.
      assert (Hret : to_ssize_t remaining
                     = Z.min length (Z.min remaining 16384))
        by (rewrite to_ssize_t_small by lia; lia).
      destruct (next_stream_data_result sda) eqn:En;
        cbn [rd_return rd_message rd_data_flags rd_stream
             out_msg_data_flag_eof out_msg_has_footer set_bytes_out
             set_out_dlv_local_disposition set_out_msg_body_sent
             set_out_msg_data_flag_eof set_out_msg_has_footer];
        (split; [exact Hret |]); intros _ _;
        (split; [exact L2 |]); rewrite <- L1;
        split; intros Habs; try discriminate; split; reflexivity.
  - apply Z.leb_gt in E1.
    destruct (length <? 16384) eqn:E2;
      cbn [rd_return rd_message rd_data_flags rd_stream].
    + apply Z.ltb_lt in E2. rewrite to_ssize_t_small by lia.
      split; [lia | intros; lia].
    + apply Z.ltb_ge in E2. rewrite to_ssize_t_small by lia.
      split; [lia | intros; lia].
Qed.

(** An empty window. *)
Lemma read_body_empty_spec flags sd m :
  let r := read_body_empty flags sd m in
  rd_return r = 0
  /\ next_calls (rd_message r) = S (next_calls m)
  /\ (fst (answer m) = QD_MESSAGE_STREAM_DATA_NO_MORE ->
      rd_data_flags r = Z.lor flags NGHTTP2_DATA_FLAG_EOF
      /\ out_msg_data_flag_eof (rd_stream r) = true)
  /\ (fst (answer m) = QD_MESSAGE_STREAM_DATA_FOOTER_OK ->
      rd_data_flags r = flags).
Proof.
  cbv zeta. unfold read_body_empty.
  destruct (look_ahead_result sd m) as (L1 & L2 & _).
  destruct (look_ahead sd m) as [sd1 m1] eqn:El. cbn [fst snd] in L1, L2.
  rewrite <- L1.
  destruct (next_stream_data_result sd1) eqn:En;
    try destruct (negb (out_msg_has_footer sd1));
    unfold release_curr, release_next;
    cbn [rd_return rd_message rd_data_flags rd_stream];
    rewrite ?release_keeps_calls;
    (split; [reflexivity |]); (split; [exact L2 |]);
    split; intros Habs; try discriminate; try reflexivity;
    split; reflexivity.
Qed.

End ReadFacts.

(** C1, amended.  Let the current stream-data result be the one the
    callback holds after it has fetched or reused the current window.
    The callback returns "deferred" when the depth check for BODY returns
    INCOMPLETE, when the current result is INCOMPLETE, and when the current
    result is BODY_OK or NO_MORE while the raw connection's write capacity
    is zero.  When the current result is BODY_OK and the capacity is not
    zero it returns exactly min(requested, remaining in the window, 16384)
    (for a request below 2^63 and a window below 2^31 octets of which no
    more than its length has been handled), and when that empties the
    window it looks ahead one window: a NO_MORE lookahead sets EOF in the
    data flags and on the stream; a FOOTER_OK lookahead sets no data flag
    in that call and, for a non-empty window, records
    [out_msg_has_footer].  EOF together with NO_END_STREAM is set by the
    call that finds the current result NO_MORE while [out_msg_has_footer]
    is set.  In the remaining cases (a footer, an invalid or aborted
    stream, an invalid depth) the callback returns 0. *)
Theorem data_read_callback_amended :
  forall write_capacity msg sd length data_flags,
    let r := Http2.read_data_callback write_capacity msg sd length data_flags in
    let cur := fst (Http2.select_current sd msg) in
    let m1 := snd (Http2.select_current sd msg) in
    let flags := Z.lor data_flags Http2.NGHTTP2_DATA_FLAG_NO_COPY in
    (Http2.depth_body msg = Http2.QD_MESSAGE_DEPTH_INCOMPLETE ->
     Http2.rd_return r = Http2.NGHTTP2_ERR_DEFERRED)
    /\ (Http2.depth_body msg = Http2.QD_MESSAGE_DEPTH_INVALID ->
        Http2.rd_return r = 0%Z)
    /\ (Http2.depth_body msg = Http2.QD_MESSAGE_DEPTH_OK ->
        (Http2.curr_stream_data_result cur
         = Http2.QD_MESSAGE_STREAM_DATA_INCOMPLETE ->
         Http2.rd_return r = Http2.NGHTTP2_ERR_DEFERRED)
        /\ (Http2.curr_stream_data_result cur
            = Http2.QD_MESSAGE_STREAM_DATA_BODY_OK
            \/ Http2.curr_stream_data_result cur
               = Http2.QD_MESSAGE_STREAM_DATA_NO_MORE ->
            write_capacity = 0%Z ->
            Http2.rd_return r = Http2.NGHTTP2_ERR_DEFERRED)
        /\ (Http2.curr_stream_data_result cur
            = Http2.QD_MESSAGE_STREAM_DATA_BODY_OK ->
            write_capacity <> 0%Z ->
            (0 <= length < 2 ^ 63)%Z ->
            (0 <= Http2.payload_handled cur
             <= Http2.window_payload_length (Http2.curr_stream_data cur))%Z ->
            (Http2.window_payload_length (Http2.curr_stream_data cur)
             < 2 ^ 31)%Z ->
            Http2.rd_return r
            = Z.min length (Z.min (Http2.remaining_in_window cur) 16384)
            /\ ((Http2.remaining_in_window cur <= length)%Z ->
                (Http2.remaining_in_window cur <= 16384)%Z ->
                Http2.next_calls (Http2.rd_message r)
                = S (Http2.next_calls m1)
                /\ (fst (Http2Spec.answer m1)
                    = Http2.QD_MESSAGE_STREAM_DATA_NO_MORE ->
                    Http2.rd_data_flags r
                    = Z.lor flags Http2.NGHTTP2_DATA_FLAG_EOF
                    /\ Http2.out_msg_data_flag_eof (Http2.rd_stream r) = true)
                /\ (fst (Http2Spec.answer m1)
                    = Http2.QD_MESSAGE_STREAM_DATA_FOOTER_OK ->
                    Http2.rd_data_flags r = flags
                    /\ ((0 < Http2.window_payload_length
                               (Http2.curr_stream_data cur))%Z ->
                        Http2.out_msg_has_footer (Http2.rd_stream r) = true))))
        /\ (Http2.curr_stream_data_result cur
            = Http2.QD_MESSAGE_STREAM_DATA_NO_MORE ->
            write_capacity <> 0%Z ->
            Http2.rd_return r = 0%Z
            /\ Http2.rd_data_flags r
               = (if Http2.out_msg_has_footer cur
                  then Z.lor (Z.lor flags Http2.NGHTTP2_DATA_FLAG_EOF)
                             Http2.NGHTTP2_DATA_FLAG_NO_END_STREAM
                  else Z.lor flags Http2.NGHTTP2_DATA_FLAG_EOF))
        /\ (Http2.curr_stream_data_result cur
            = Http2.QD_MESSAGE_STREAM_DATA_FOOTER_OK
            \/ Http2.curr_stream_data_result cur
               = Http2.QD_MESSAGE_STREAM_DATA_INVALID
            \/ Http2.curr_stream_data_result cur
               = Http2.QD_MESSAGE_STREAM_DATA_ABORTED ->
            Http2.rd_return r = 0%Z)).
Proof.
  intros write_capacity msg sd length data_flags r cur m1 flags.
  subst r. unfold Http2.read_data_callback, Http2.qd_message_check_depth_BODY.
  fold flags.
  split; [intros H; rewrite H; reflexivity |].
  split; [intros H; rewrite H; reflexivity |].
  intros Hd. rewrite Hd.
  unfold cur, m1 in *. clear cur m1.
  destruct (Http2.select_current sd msg) as [cur m1] eqn:Es.
  cbn [fst snd].
  split; [intros H; rewrite H; reflexivity |].
  split.
  { intros [H | H] Hc; rewrite H; subst write_capacity; reflexivity. }
  split.
  { intros H Hc Hlen Hh Hp. rewrite H.
    destruct (write_capacity =? 0)%Z eqn:Ec;
      [apply Z.eqb_eq in Ec; contradiction |].
    unfold Http2.remaining_in_window.
    set (payload := Http2.window_payload_length
                      (Http2.curr_stream_data cur)) in *.
    destruct (payload =? 0)%Z eqn:Ep.
    - apply Z.eqb_eq in Ep.
      destruct (ReadFacts.read_body_empty_spec flags cur m1)
        as (R1 & R2 & R3 & R4). cbv zeta in R1, R2, R3, R4.
      split; [rewrite R1; lia |]. intros _ _.
      split; [exact R2 |]. split; [exact R3 |].
      intros Hf. split; [apply R4, Hf | intros; lia].
    - apply Z.eqb_neq in Ep.
      destruct (ReadFacts.read_body_data_spec flags cur m1 length payload
                  Hlen Hh Hp) as (R1 & R2).
      cbv zeta in R1, R2. split; [exact R1 |].
      intros H1 H2. destruct (R2 H1 H2) as (R3 & R4 & R5).
      split; [exact R3 |]. split; [exact R4 |].
      intros Hf. destruct (R5 Hf) as (R6 & R7). split; [exact R6 |].
      intros _. exact R7. }
  split.
  { intros H Hc. rewrite H.
    destruct (write_capacity =? 0)%Z eqn:Ec;
      [apply Z.eqb_eq in Ec; contradiction |].
    cbn. split; reflexivity. }
  intros [H | [H | H]]; rewrite H.
  - repeat match goal with
           | |- context [let '(a, b) := ?X in _] => destruct X
           end. reflexivity.
  - destruct (Http2.release_curr cur m1). reflexivity.
  - destruct (Http2.release_curr cur m1). reflexivity.
Qed.

(** The 10-octet example window: a request for 100 octets with capacity
    gets 10 and, the lookahead finding NO_MORE, EOF; without capacity the
    call is deferred; a message whose body depth is not reached defers. *)
Lemma data_read_callback_amended_witness :
  Http2.rd_return
    (Http2.read_data_callback 5 Http2.example_msg_not_ready
                              Http2.example_sending_stream 100 0)
  = Http2.NGHTTP2_ERR_DEFERRED
  /\ Http2.rd_return
       (Http2.read_data_callback 0 Http2.example_msg_body
                                 Http2.example_sending_stream 100 0)
     = Http2.NGHTTP2_ERR_DEFERRED
  /\ Http2.rd_return
       (Http2.read_data_callback 5 Http2.example_msg_body
                                 Http2.example_sending_stream 100 0)
     = Z.min 100
             (Z.min (Http2.remaining_in_window
                       (fst (Http2.select_current
                               Http2.example_sending_stream
                               Http2.example_msg_body)))
                    16384).
Proof.
  split; [| split].
  - apply (proj1 (data_read_callback_amended 5 Http2.example_msg_not_ready
                    Http2.example_sending_stream 100 0)).
    vm_compute. reflexivity.
  - destruct (data_read_callback_amended 0 Http2.example_msg_body
                Http2.example_sending_stream 100 0) as (_ & _ & H).
    destruct H as (_ & H & _); [vm_compute; reflexivity |].
    apply H; [left; vm_compute; reflexivity | reflexivity].
  - destruct (data_read_callback_amended 5 Http2.example_msg_body
                Http2.example_sending_stream 100 0) as (_ & _ & H).
    destruct H as (_ & _ & H & _); [vm_compute; reflexivity |].
    apply H.
    + vm_compute. reflexivity.
    + discriminate.
    + lia.
    + vm_compute. split; discriminate.
    + vm_compute. reflexivity.
Defined.

(** ** The activation timer *)

Module ActivationFacts.
Import Http2 Http2Spec.

Lemma untouched_refl c : timer_untouched c c.
Proof.
  split; [exists []; rewrite app_nil_r; auto | repeat split; reflexivity].
Qed.

Lemma untouched_trans c1 c2 c3 :
  timer_untouched c1 c2 -> timer_untouched c2 c3 -> timer_untouched c1 c3.
Proof.
  intros ((n1 & T1 & F1) & A1 & A2 & A3) ((n2 & T2 & F2) & B1 & B2 & B3).
  split.
  - exists (n1 ++ n2). rewrite T2, T1, app_assoc. split; [reflexivity |].
    apply Forall_app; auto.
  - repeat split; congruence.
Qed.

Lemma untouched_log e c :
  is_activation_event e = false -> timer_untouched c (log e c).
Proof.
  intros H. split; [exists [e]; split; [reflexivity | auto] |].
  repeat split; reflexivity.
Qed.

Lemma untouched_grows (P : event -> Prop) c c' :
  (forall e, P e -> is_activation_event e = false) ->
  grows P c c' -> timer_untouched c c'.
Proof.
  intros HP ((n & T & F) & _ & A & B & C & _).
  split; [| auto]. exists n. split; [exact T |].
  eapply Forall_impl; [| exact F]. exact HP.
Qed.

Lemma housekeeping_quiet p e :
  housekeeping p e = true -> is_activation_event e = false.
Proof. destruct e; cbn; intros H; try reflexivity; discriminate. Qed.

Lemma free_all_loop_untouched n : forall c on_shutdown,
  timer_untouched c (free_all_loop n c on_shutdown).
Proof.
  induction n as [| n IH]; intros c on_shutdown; cbn.
  - apply untouched_refl.
  - destruct (streams c) as [| sd rest]; [apply untouched_refl |].
    eapply untouched_trans; [| apply IH].
    destruct (Http2Facts.free_http2_stream_data_spec c sd on_shutdown)
      as (_ & G & _).
    eapply untouched_grows; [| exact G].
    intros e. apply housekeeping_quiet.
Qed.

Lemma clean_http2_conn_untouched c : timer_untouched c (clean_http2_conn c).
Proof.
  unfold clean_http2_conn, free_all_connection_streams.
  eapply untouched_trans; [apply free_all_loop_untouched |].
  apply untouched_log. reflexivity.
Qed.

Lemma close_connections_untouched c : timer_untouched c (close_connections c).
Proof.
  unfold close_connections.
  set (c1 := match dummy_link c with
             | Some l => set_dummy_link None (log (E_qdr_link_detach l) c)
             | None => c
             end).
  assert (H1 : timer_untouched c c1).
  { unfold c1. destruct (dummy_link c) as [n |]; [| apply untouched_refl].
    eapply untouched_trans; [apply (untouched_log (E_qdr_link_detach n) c);
                             reflexivity |].
    split; [exists []; rewrite app_nil_r; auto | repeat split; reflexivity]. }
  set (c2 := if is_some (qdr_conn c1)
             then set_qdr_conn None (log E_qdr_connection_closed c1)
             else c1).
  assert (H2 : timer_untouched c1 c2).
  { unfold c2. destruct (is_some (qdr_conn c1)); [| apply untouched_refl].
    eapply untouched_trans; [apply (untouched_log E_qdr_connection_closed c1);
                             reflexivity |].
    split; [exists []; rewrite app_nil_r; auto | repeat split; reflexivity]. }
  eapply untouched_trans; [exact H1 |].
  eapply untouched_trans; [exact H2 |].
  apply untouched_log. reflexivity.
Qed.

Lemma handle_disconnected_untouched c :
  timer_untouched c (handle_disconnected c).
Proof.
  unfold handle_disconnected.
  set (c1 := set_pn_raw_conn None c).
  assert (H1 : timer_untouched c c1).
  { split; [exists []; rewrite app_nil_r; auto | repeat split; reflexivity]. }
  eapply untouched_trans; [exact H1 |].
  destruct (ingress c1).
  - eapply untouched_trans; [apply clean_http2_conn_untouched |].
    apply close_connections_untouched.
  - set (c2 := match stream_dispatcher c1 with
               | Some l => set_stream_dispatcher None
                             (log (E_qdr_link_detach l) c1)
               | None => c1
               end).
    assert (H2 : timer_untouched c1 c2).
    { unfold c2. destruct (stream_dispatcher c1) as [n |]; [| apply untouched_refl].
      eapply untouched_trans;
        [apply (untouched_log (E_qdr_link_detach n) c1); reflexivity |].
      split; [exists []; rewrite app_nil_r; auto | repeat split; reflexivity]. }
    eapply untouched_trans; [exact H2 |].
    destruct (delete_egress_connections c2).
    + eapply untouched_trans; [apply clean_http2_conn_untouched |].
      apply close_connections_untouched.
    + apply clean_http2_conn_untouched.
Qed.

(** What follows the timer calls in the DISCONNECTED case. *)
Lemma after_timer_untouched c1 :
  timer_untouched c1
    (handle_disconnected
       (log E_drain_read_write_buffers (set_connection_established false c1))).
Proof.
  eapply untouched_trans; [| apply handle_disconnected_untouched].
  eapply untouched_trans;
    [| apply untouched_log; reflexivity].
  split; [exists []; rewrite app_nil_r; auto | repeat split; reflexivity].
Qed.

Lemma one_timer_untouched c c' :
  timer_untouched c c' -> one_timer c -> one_timer c'.
Proof.
  intros (_ & A & B & _) (H1 & H2). unfold one_timer.
  rewrite A, B. auto.
Qed.

Lemma one_timer_schedule c msec :
  one_timer c -> one_timer (snd (schedule_activation c msec)).
Proof.
  intros (H1 & H2). unfold schedule_activation, one_timer. cbn.
  destruct (activate_scheduled c) eqn:E; cbn.
  - auto.
  - assert (timer_pending c = 0%nat).
    { destruct (timer_pending c) as [| [| k]]; [reflexivity | | lia].
      specialize (H2 eq_refl). discriminate. }
    split; [lia | reflexivity].
Qed.

Lemma one_timer_cancel c : one_timer (cancel_activation c).
Proof. unfold one_timer. cbn. split; [lia | discriminate]. Qed.

Lemma one_timer_handler tls_ready c :
  timer_pending c = 0%nat -> one_timer (egress_conn_timer_handler tls_ready c).
Proof.
  intros H0. unfold egress_conn_timer_handler.
  set (c1 := snd (CLEAR_ATOMIC_FLAG_activate_scheduled c)).
  assert (H1 : one_timer c1).
  { unfold one_timer, c1. cbn. rewrite H0. split; [lia | discriminate]. }
  destruct (delete_egress_connections c1).
  - eapply one_timer_untouched; [| exact H1].
    eapply untouched_trans;
      [apply (untouched_log E_qdr_connection_closed c1); reflexivity |].
    eapply untouched_trans; [apply free_all_loop_untouched |].
    apply untouched_log. reflexivity.
  - destruct (is_some (pn_raw_conn c1)); [exact H1 |].
    destruct (connection_established c1); [exact H1 |].
    destruct (negb (ingress c1)); [| exact H1].
    unfold http_connector_establish. destruct tls_ready; [| exact H1].
    eapply one_timer_untouched; [| exact H1].
    eapply untouched_trans;
      [| apply untouched_log; reflexivity].
    split; [exists []; rewrite app_nil_r; auto | repeat split; reflexivity].
Qed.

Lemma one_timer_step o c : one_timer c -> one_timer (activation_step o c).
Proof.
  intros H. destruct o as [msec | | | | tls_ready]; cbn [activation_step].
  - apply one_timer_schedule, H.
  - apply one_timer_cancel.
  - unfold qdr_http_activate.
    destruct (is_some (pn_raw_conn c)
              && negb (raw_closed_read c && raw_closed_write c)).
    + eapply one_timer_untouched; [| exact H].
      apply untouched_log. reflexivity.
    + destruct (is_some (activate_timer c)); [| exact H].
      apply one_timer_schedule, H.
  - unfold raw_disconnected, handle_connection_event.
    eapply one_timer_untouched; [apply after_timer_untouched |].
    destruct (negb (ingress c)); [| exact H].
    destruct (delete_egress_connections
                (set_initial_settings_frame_sent false c)).
    + apply one_timer_cancel.
    + apply one_timer_schedule. exact H.
  - unfold timer_expires.
    destruct (timer_pending c) as [| n] eqn:E; [exact H |].
    apply one_timer_handler. cbn.
    destruct H as (H1 & _). lia.
Qed.

Lemma one_timer_run ops : forall c,
  one_timer c -> one_timer (activation_run ops c).
Proof.
  unfold activation_run.
  induction ops as [| o ops IH]; intros c H; cbn; [exact H |].
  apply IH, one_timer_step, H.
Qed.

End ActivationFacts.

(** C9, as stated, fails.  An egress connection whose raw connection has
    been closed for reading and for writing is activated by the router
    core: [qdr_http_activate] finds no usable socket and schedules the
    timer with 0 milliseconds, which sets the flag.  The DISCONNECTED event
    that follows finds the flag set: no timer is scheduled for 2000
    milliseconds, and the timer that then expires reconnects at once. *)
Lemma reconnect_timer_activation_counterexample :
  let c0 := Http2.set_raw_closed_write true
              (Http2.set_raw_closed_read true Http2.example_egress) in
  let c1 := Http2.qdr_http_activate c0 in
  let c2 := Http2.raw_disconnected c1 in
  Http2.ingress c0 = false
  /\ Http2.delete_egress_connections c0 = false
  /\ Http2.trace c1
     = [Http2.E_set_activate_scheduled; Http2.E_qd_timer_schedule 0]
  /\ filter Http2.is_timer_schedule (Http2.trace c2)
     = [Http2.E_qd_timer_schedule 0]
  /\ ~ In (Http2.E_qd_timer_schedule 2000) (Http2.trace c2)
  /\ Http2.timer_delay c2 = Some 0%Z
  /\ exists before,
      Http2.trace (Http2.timer_expires true c2)
      = before ++ [Http2.E_clear_activate_scheduled;
                   Http2.E_pn_proactor_raw_connect].
Proof.
  cbv zeta. repeat split; try (vm_compute; reflexivity).
  - vm_compute. intros H.
    repeat (destruct H as [H | H]; [discriminate |]). exact H.
  - exists (Http2.trace
              (Http2.raw_disconnected
                 (Http2.qdr_http_activate
                    (Http2.set_raw_closed_write true
                       (Http2.set_raw_closed_read true
                          Http2.example_egress))))).
    vm_compute. reflexivity.
Qed.

(** C9, amended.  On the DISCONNECTED event of an egress connection whose
    connector is not being deleted, [schedule_activation] is called with
    2000 milliseconds: with the flag clear the calls made are the setting
    of the flag, [qd_timer_schedule] with 2000, and then calls that touch
    neither the timer nor the flag; with the flag already set no timer is
    scheduled and the one pending is left as it is; when the connector is
    being deleted the timer is cancelled instead.  [schedule_activation]
    arms the timer exactly when it finds the flag clear, and with the flag
    set it leaves the timer as it is; over any sequence of schedule,
    cancel, activate, disconnect and expiry steps starting with no timer
    armed, at most one arming is outstanding.  [cancel_activation] calls
    [qd_timer_cancel] first and clears the flag afterwards. *)
Theorem reconnect_timer_activation_amended :
  (forall c,
      Http2.ingress c = false ->
      Http2.delete_egress_connections c = false ->
      Http2.activate_scheduled c = false ->
      exists rest,
        Http2.trace (Http2.raw_disconnected c)
        = Http2.trace c
          ++ [Http2.E_set_activate_scheduled; Http2.E_qd_timer_schedule 2000]
          ++ rest
        /\ Forall (fun e => Http2Spec.is_activation_event e = false) rest
        /\ Http2.activate_scheduled (Http2.raw_disconnected c) = true
        /\ Http2.timer_delay (Http2.raw_disconnected c) = Some 2000%Z
        /\ Http2.timer_pending (Http2.raw_disconnected c)
           = S (Http2.timer_pending c))
  /\ (forall c,
         Http2.ingress c = false ->
         Http2.delete_egress_connections c = false ->
         Http2.activate_scheduled c = true ->
         exists rest,
           Http2.trace (Http2.raw_disconnected c)
           = Http2.trace c ++ [Http2.E_set_activate_scheduled] ++ rest
           /\ Forall (fun e => Http2Spec.is_activation_event e = false) rest
           /\ Http2.activate_scheduled (Http2.raw_disconnected c) = true
           /\ Http2.timer_delay (Http2.raw_disconnected c)
              = Http2.timer_delay c
           /\ Http2.timer_pending (Http2.raw_disconnected c)
              = Http2.timer_pending c)
  /\ (forall c,
         Http2.ingress c = false ->
         Http2.delete_egress_connections c = true ->
         exists rest,
           Http2.trace (Http2.raw_disconnected c)
           = Http2.trace c
             ++ [Http2.E_qd_timer_cancel; Http2.E_clear_activate_scheduled]
             ++ rest
           /\ Forall (fun e => Http2Spec.is_activation_event e = false) rest
           /\ Http2.timer_pending (Http2.raw_disconnected c) = 0%nat)
  /\ (forall c msec,
         Http2.activate_scheduled c = false ->
         fst (Http2.schedule_activation c msec) = true
         /\ Http2.trace (snd (Http2.schedule_activation c msec))
            = Http2.trace c
              ++ [Http2.E_set_activate_scheduled;
                  Http2.E_qd_timer_schedule msec]
         /\ Http2.activate_scheduled (snd (Http2.schedule_activation c msec))
            = true
         /\ Http2.timer_delay (snd (Http2.schedule_activation c msec))
            = Some msec
         /\ Http2.timer_pending (snd (Http2.schedule_activation c msec))
            = S (Http2.timer_pending c))
  /\ (forall c msec,
         Http2.activate_scheduled c = true ->
         fst (Http2.schedule_activation c msec) = false
         /\ Http2.trace (snd (Http2.schedule_activation c msec))
            = Http2.trace c ++ [Http2.E_set_activate_scheduled]
         /\ Http2.activate_scheduled (snd (Http2.schedule_activation c msec))
            = true
         /\ Http2.timer_delay (snd (Http2.schedule_activation c msec))
            = Http2.timer_delay c
         /\ Http2.timer_pending (snd (Http2.schedule_activation c msec))
            = Http2.timer_pending c)
  /\ (forall ops c,
         Http2.timer_pending c = 0%nat ->
         (Http2.timer_pending (Http2.activation_run ops c) <= 1)%nat)
  /\ (forall c,
         Http2.trace (Http2.cancel_activation c)
         = Http2.trace c
           ++ [Http2.E_qd_timer_cancel; Http2.E_clear_activate_scheduled]
         /\ Http2.activate_scheduled (Http2.cancel_activation c) = false
         /\ Http2.timer_pending (Http2.cancel_activation c) = 0%nat
         /\ Http2.timer_delay (Http2.cancel_activation c) = None).
Proof.
  split; [| split; [| split; [| split; [| split; [| split]]]]].
  - intros c Hi Hd Hf.
    unfold Http2.raw_disconnected, Http2.handle_connection_event.
    rewrite Hi. cbn [negb].
    change (Http2.delete_egress_connections
              (Http2.set_initial_settings_frame_sent false c))
      with (Http2.delete_egress_connections c).
    rewrite Hd.
    set (c1 := snd (Http2.schedule_activation
                      (Http2.set_initial_settings_frame_sent false c) 2000)).
    destruct (ActivationFacts.after_timer_untouched c1)
      as ((new & T & F) & A & B & C).
    rewrite T, A, B, C. unfold c1, Http2.schedule_activation. cbn.
    rewrite Hf. cbn. exists new.
    rewrite <- !app_assoc. cbn. auto.
  - intros c Hi Hd Hf.
    unfold Http2.raw_disconnected, Http2.handle_connection_event.
    rewrite Hi. cbn [negb].
    change (Http2.delete_egress_connections
              (Http2.set_initial_settings_frame_sent false c))
      with (Http2.delete_egress_connections c).
    rewrite Hd.
    set (c1 := snd (Http2.schedule_activation
                      (Http2.set_initial_settings_frame_sent false c) 2000)).
    destruct (ActivationFacts.after_timer_untouched c1)
      as ((new & T & F) & A & B & C).
    rewrite T, A, B, C. unfold c1, Http2.schedule_activation. cbn.
    rewrite Hf. cbn. exists new.
    rewrite <- !app_assoc. cbn. auto.
  - intros c Hi Hd.
    unfold Http2.raw_disconnected, Http2.handle_connection_event.
    rewrite Hi. cbn [negb].
    change (Http2.delete_egress_connections
              (Http2.set_initial_settings_frame_sent false c))
      with (Http2.delete_egress_connections c).
    rewrite Hd.
    set (c1 := Http2.cancel_activation
                 (Http2.set_initial_settings_frame_sent false c)).
    destruct (ActivationFacts.after_timer_untouched c1)
      as ((new & T & F) & A & B & C).
    rewrite T, B. unfold c1. cbn. exists new.
    rewrite <- !app_assoc. cbn. auto.
  - intros c msec Hf. unfold Http2.schedule_activation. cbn.
    rewrite Hf. cbn. rewrite <- app_assoc. cbn. auto.
  - intros c msec Hf. unfold Http2.schedule_activation. cbn.
    rewrite Hf. cbn. auto.
  - intros ops c H0.
    apply (ActivationFacts.one_timer_run ops c).
    unfold Http2Spec.one_timer. rewrite H0. split; [lia | discriminate].
  - intros c. cbn. rewrite <- app_assoc. cbn. auto.
Qed.

(** The example egress connection: its disconnect arms the timer once for
    2000 milliseconds, and a second schedule call while the flag is set
    arms nothing; disconnected with an activation pending, it keeps the
    pending timer. *)
Lemma reconnect_timer_activation_amended_witness :
  Http2.timer_delay (Http2.raw_disconnected Http2.example_egress)
  = Some 2000%Z
  /\ fst (Http2.schedule_activation Http2.example_egress 2000) = true
  /\ fst (Http2.schedule_activation
            (Http2.raw_disconnected Http2.example_egress) 2000) = false
  /\ (Http2.timer_pending
        (Http2.activation_run
           [Http2.Op_disconnected; Http2.Op_schedule 2000; Http2.Op_activate]
           Http2.example_egress) <= 1)%nat
  /\ Http2.timer_delay
       (Http2.raw_disconnected
          (Http2.qdr_http_activate
             (Http2.set_raw_closed_write true
                (Http2.set_raw_closed_read true Http2.example_egress))))
     = Some 0%Z.
Proof.
  destruct reconnect_timer_activation_amended
    as (H1 & H2 & _ & H3 & H4 & H5 & _).
  split; [| split; [| split; [| split]]].
  - destruct (H1 Http2.example_egress) as (rest & _ & _ & _ & D & _);
      [vm_compute; reflexivity | vm_compute; reflexivity
       | vm_compute; reflexivity |].
    exact D.
  - apply H3. vm_compute. reflexivity.
  - apply H4. vm_compute. reflexivity.
  - apply H5. vm_compute. reflexivity.
  - destruct (H2 (Http2.qdr_http_activate
                    (Http2.set_raw_closed_write true
                       (Http2.set_raw_closed_read true
                          Http2.example_egress))))
      as (rest & _ & _ & _ & D & _);
      [vm_compute; reflexivity | vm_compute; reflexivity
       | vm_compute; reflexivity |].
    rewrite D. vm_compute. reflexivity.
Defined.

(** ** What the traces of the freeing functions show *)

Module TraceFacts.
Import Http2 Http2Spec AdaptorSpec.
Local Open Scope Z_scope.

Lemma trace_log e c : trace (log e c) = trace c ++ [e].
Proof. reflexivity. Qed.

Lemma trace_log_release w c :
  trace (log_release w c)
  = trace c ++ map E_qd_message_stream_data_release (opt_list w).
Proof. destruct w; cbn; [reflexivity | rewrite app_nil_r; reflexivity]. Qed.

Lemma trace_log_detach l c :
  trace (log_detach l c)
  = trace c ++ (if is_some (qdr_conn c)
                then map E_qdr_link_detach (opt_list l) else []).
Proof.
  destruct l; cbn; destruct (is_some (qdr_conn c)); cbn;
    rewrite ?app_nil_r; reflexivity.
Qed.

Lemma qdr_conn_log_detach l c : qdr_conn (log_detach l c) = qdr_conn c.
Proof. destruct l; cbn; [destruct (is_some (qdr_conn c)) |]; reflexivity. Qed.

(** The trace of [free_http2_stream_data], call by call. *)
Lemma free_http2_stream_data_calls c sd on_shutdown :
  trace (free_http2_stream_data c sd on_shutdown)
  = trace c ++ free_calls c sd on_shutdown.
Proof.
  unfold free_http2_stream_data, free_calls, release_calls, held.
  set (c1 := log (E_http_record_request (ptr sd)) c).
  set (c2 := if on_shutdown then c1
             else log_detach (out_link sd) (log_detach (in_link sd) c1)).
  assert (H2 : trace c2
               = trace c ++ [E_http_record_request (ptr sd)]
                 ++ (if on_shutdown || negb (is_some (qdr_conn c)) then []
                     else map E_qdr_link_detach
                              (opt_list (in_link sd) ++ opt_list (out_link sd)))
               /\ streams c2 = streams c).
  { unfold c2. destruct on_shutdown; cbn [orb].
    - split; [rewrite app_nil_r; reflexivity | reflexivity].
    - rewrite trace_log_detach, qdr_conn_log_detach, trace_log_detach.
      rewrite !Http2Facts.streams_log_detach.
      change (qdr_conn c1) with (qdr_conn c).
      change (trace c1) with (trace c ++ [E_http_record_request (ptr sd)]).
      split; [| reflexivity].
      destruct (is_some (qdr_conn c)); cbn [negb];
        rewrite ?app_nil_r, ?map_app, <- ?app_assoc; reflexivity. }
  destruct H2 as [T2 S2]. rewrite S2.
  set (c3 := if (0 <? length (streams c))%nat then _ else c2).
  assert (T3 : trace c3
               = trace c2
                 ++ (if (0 <? length (streams c))%nat
                     then [E_nghttp2_session_set_stream_user_data
                             (stream_id sd) None] else [])).
  { unfold c3. destruct (0 <? length (streams c))%nat;
      [reflexivity | rewrite app_nil_r; reflexivity]. }
  set (c4 := if negb (is_some (in_dlv sd)) then _ else c3).
  assert (T4 : trace c4
               = trace c3 ++ (if is_some (in_dlv sd) then []
                              else [E_qd_message_free (ptr sd)])).
  { unfold c4. destruct (is_some (in_dlv sd)); cbn [negb];
      [rewrite app_nil_r; reflexivity | reflexivity]. }
  clearbody c4 c3 c2. clear c1.
  unfold set_stream_data_delivery_flags.
  destruct (in_dlv sd) as [d1 |] eqn:Ei,
           (in_dlv_decrefed sd) eqn:Eid,
           (out_dlv sd) as [d2 |] eqn:Eo,
           (out_dlv_decrefed sd) eqn:Eod,
           (curr_stream_data sd) as [w1 |] eqn:Ec,
           (next_stream_data sd) as [w2 |] eqn:En;
    repeat (progress (cbn; rewrite ?Ei, ?Eo, ?Eid, ?Eod, ?Ec, ?En,
                             ?Nat.eqb_refl));
    try (destruct (Nat.eqb d1 d2) eqn:E12;
         repeat (progress (cbn; rewrite ?Ei, ?Eo, ?Eid, ?Eod, ?Ec, ?En)));
    rewrite T4, T3, T2; cbn; rewrite <- ?app_assoc; cbn;
    rewrite ?app_nil_r; reflexivity.
Qed.

(** A connection is determined by its streams, its trace and the rest. *)
Lemma upd_intro c c' :
  others c' = others c -> c' = upd (streams c') (trace c') c.
Proof.
  destruct c, c'. unfold others, upd. cbn. intros H.
  inversion H; subst. reflexivity.
Qed.

Lemma others_upd s t c : others (upd s t c) = others c.
Proof. reflexivity. Qed.

Lemma others_log_detach l c : others (log_detach l c) = others c.
Proof. destruct l; cbn; [destruct (is_some (qdr_conn c)) |]; reflexivity. Qed.

Lemma others_log_release w c : others (log_release w c) = others c.
Proof. destruct w; reflexivity. Qed.

Ltac others_steps :=
  repeat first [ progress change (others (log ?e ?x)) with (others x)
               | progress change (others (set_streams ?s ?x)) with (others x)
               | rewrite others_log_release
               | rewrite others_log_detach ].

Lemma others_free_http2_stream_data c sd on_shutdown :
  others (free_http2_stream_data c sd on_shutdown) = others c.
Proof.
  unfold free_http2_stream_data.
  set (c1 := log (E_http_record_request (ptr sd)) c).
  set (c2 := if on_shutdown then c1
             else log_detach (out_link sd) (log_detach (in_link sd) c1)).
  assert (H2 : others c2 = others c).
  { unfold c2. destruct on_shutdown; others_steps; reflexivity. }
  set (c3 := if (0 <? length (streams c2))%nat then _ else c2).
  assert (H3 : others c3 = others c).
  { unfold c3. destruct (0 <? length (streams c2))%nat; others_steps;
      exact H2. }
  set (c4 := if negb (is_some (in_dlv sd)) then _ else c3).
  assert (H4 : others c4 = others c).
  { unfold c4. destruct (negb (is_some (in_dlv sd))); others_steps;
      exact H3. }
  clearbody c4. clear c1 c2 c3 H2 H3.
  destruct (in_dlv sd) as [d1 |]; [destruct (in_dlv_decrefed sd) |];
    cbn [negb]; cbv beta iota zeta;
    match goal with
    | |- context [match out_dlv ?s with _ => _ end] =>
        destruct (out_dlv s); [destruct (out_dlv_decrefed s) |]
    end;
    cbn [negb]; others_steps; exact H4.
Qed.

Lemma free_http2_stream_data_upd c sd on_shutdown :
  free_http2_stream_data c sd on_shutdown
  = upd (remove_stream (ptr sd) (streams c))
        (trace c ++ free_calls c sd on_shutdown) c.
Proof.
  rewrite (upd_intro c (free_http2_stream_data c sd on_shutdown)
             (others_free_http2_stream_data c sd on_shutdown)).
  rewrite free_http2_stream_data_calls.
  destruct (Http2Facts.free_http2_stream_data_spec c sd on_shutdown)
    as (Hs & _). cbv zeta in Hs. rewrite Hs. reflexivity.
Qed.

(** What the calls of [free_http2_stream_data] contain. *)
Lemma frees_app t1 t2 : frees (t1 ++ t2) = frees t1 ++ frees t2.
Proof. apply flat_map_app. Qed.

Lemma decrefs_app t1 t2 : decrefs (t1 ++ t2) = decrefs t1 ++ decrefs t2.
Proof. apply flat_map_app. Qed.

Lemma releases_app t1 t2 : releases (t1 ++ t2) = releases t1 ++ releases t2.
Proof. apply flat_map_app. Qed.

Lemma detaches_app t1 t2 : detaches (t1 ++ t2) = detaches t1 ++ detaches t2.
Proof. apply flat_map_app. Qed.

Lemma detaches_map_detach l : detaches (map E_qdr_link_detach l) = l.
Proof. induction l as [| x l IH]; cbn; [| f_equal; exact IH]; reflexivity. Qed.

Lemma decrefs_map_decref l : decrefs (map E_qdr_delivery_decref l) = l.
Proof. induction l as [| x l IH]; cbn; [| f_equal; exact IH]; reflexivity. Qed.

Lemma releases_map_release l :
  releases (map E_qd_message_stream_data_release l) = l.
Proof. induction l as [| x l IH]; cbn; [| f_equal; exact IH]; reflexivity. Qed.

Lemma frees_map_detach l : frees (map E_qdr_link_detach l) = [].
Proof. induction l; cbn; auto. Qed.

Lemma frees_map_decref l : frees (map E_qdr_delivery_decref l) = [].
Proof. induction l; cbn; auto. Qed.

Lemma frees_map_release l :
  frees (map E_qd_message_stream_data_release l) = [].
Proof. induction l; cbn; auto. Qed.

Lemma detaches_map_decref l : detaches (map E_qdr_delivery_decref l) = [].
Proof. induction l; cbn; auto. Qed.

Lemma detaches_map_release l :
  detaches (map E_qd_message_stream_data_release l) = [].
Proof. induction l; cbn; auto. Qed.

Lemma decrefs_map_detach l : decrefs (map E_qdr_link_detach l) = [].
Proof. induction l; cbn; auto. Qed.

Lemma decrefs_map_release l :
  decrefs (map E_qd_message_stream_data_release l) = [].
Proof. induction l; cbn; auto. Qed.

Lemma releases_map_detach l : releases (map E_qdr_link_detach l) = [].
Proof. induction l; cbn; auto. Qed.

Lemma releases_map_decref l : releases (map E_qdr_delivery_decref l) = [].
Proof. induction l; cbn; auto. Qed.

Ltac split_calls :=
  unfold free_calls, release_calls;
  rewrite ?frees_app, ?decrefs_app, ?releases_app, ?detaches_app;
  repeat match goal with
         | |- context [if ?b then _ else _] => destruct b eqn:?
         end;
  rewrite ?frees_app, ?decrefs_app, ?releases_app, ?detaches_app,
    ?frees_map_detach, ?frees_map_decref, ?frees_map_release,
    ?detaches_map_detach, ?detaches_map_decref, ?detaches_map_release,
    ?decrefs_map_detach, ?decrefs_map_decref, ?decrefs_map_release,
    ?releases_map_detach, ?releases_map_decref, ?releases_map_release;
  cbn; rewrite ?app_nil_r.

Lemma frees_free_calls c sd on_shutdown :
  frees (free_calls c sd on_shutdown) = [ptr sd].
Proof. split_calls; reflexivity. Qed.

Lemma detaches_free_calls c sd on_shutdown :
  detaches (free_calls c sd on_shutdown)
  = if on_shutdown || negb (is_some (qdr_conn c)) then []
    else opt_list (in_link sd) ++ opt_list (out_link sd).
Proof. split_calls; reflexivity. Qed.

Lemma decrefs_free_calls c sd on_shutdown :
  decrefs (free_calls c sd on_shutdown)
  = (if held (in_dlv sd) (in_dlv_decrefed sd)
     then opt_list (in_dlv sd) else [])
    ++ (if held (out_dlv sd) (out_dlv_decrefed sd)
           && negb (held (in_dlv sd) (in_dlv_decrefed sd)
                    && opt_nat_eqb (in_dlv sd) (out_dlv sd))
        then opt_list (out_dlv sd) else []).
Proof. split_calls; reflexivity. Qed.

Lemma releases_free_calls c sd on_shutdown :
  releases (free_calls c sd on_shutdown)
  = if held (in_dlv sd) (in_dlv_decrefed sd)
       || held (out_dlv sd) (out_dlv_decrefed sd)
    then opt_list (curr_stream_data sd) ++ opt_list (next_stream_data sd)
    else [].
Proof.
  unfold free_calls, release_calls.
  destruct (held (in_dlv sd) (in_dlv_decrefed sd)),
           (held (out_dlv sd) (out_dlv_decrefed sd)),
           (opt_nat_eqb (in_dlv sd) (out_dlv sd));
    cbn [andb orb negb];
    rewrite ?releases_app, ?releases_map_detach, ?releases_map_decref,
      ?releases_map_release;
    repeat match goal with
           | |- context [if ?b then _ else _] => destruct b
           end;
    rewrite ?releases_map_detach; cbn; rewrite ?app_nil_r; reflexivity.
Qed.

Lemma deliveries_free_calls p c sd on_shutdown :
  deliveries_created p (free_calls c sd on_shutdown) = 0%nat.
Proof.
  apply Http2Facts.nondeliver_count.
  destruct (Http2Facts.free_http2_stream_data_spec c sd on_shutdown)
    as (_ & G & _). cbv zeta in G.
  destruct G as ((new & T & F) & _).
  rewrite free_http2_stream_data_calls in T.
  apply app_inv_head in T. subst new.
  eapply Forall_impl; [| exact F].
  intros e. apply Http2Facts.housekeeping_nondeliver.
Qed.

Lemma submits_free_calls c sd on_shutdown :
  filter is_submit (free_calls c sd on_shutdown) = [].
Proof.
  destruct (Http2Facts.free_http2_stream_data_spec c sd on_shutdown)
    as (_ & G & _). cbv zeta in G.
  destruct G as ((new & T & F) & _).
  rewrite free_http2_stream_data_calls in T.
  apply app_inv_head in T. subst new.
  induction F as [| e l He _ IH]; [reflexivity |].
  cbn. destruct e; cbn in He; try discriminate; cbn; exact IH.
Qed.

End TraceFacts.

(** ** Freeing stream records *)

Module FreeFacts.
Import Http2 Http2Spec AdaptorSpec.

Lemma remove_stream_length p l :
  (length (remove_stream p l) <= length l)%nat.
Proof.
  unfold remove_stream. induction l as [| x l IH]; cbn; [lia |].
  destruct (negb (Nat.eqb (ptr x) p)); cbn; lia.
Qed.

Lemma remove_stream_notin p l :
  ~ In p (map ptr l) -> remove_stream p l = l.
Proof.
  unfold remove_stream. induction l as [| x l IH]; cbn; [reflexivity |].
  intros H. destruct (Nat.eqb (ptr x) p) eqn:E.
  - apply Nat.eqb_eq in E. tauto.
  - cbn. f_equal. apply IH. tauto.
Qed.

Lemma remove_stream_head sd rest :
  remove_stream (ptr sd) (sd :: rest) = remove_stream (ptr sd) rest.
Proof. unfold remove_stream. cbn. rewrite Nat.eqb_refl. reflexivity. Qed.

Lemma filter_submit_app t1 t2 :
  filter is_submit (t1 ++ t2) = filter is_submit t1 ++ filter is_submit t2.
Proof. apply filter_app. Qed.

Lemma free_all_loop_spec on_shutdown n :
  forall c,
    (length (streams c) <= n)%nat ->
    let c' := free_all_loop n c on_shutdown in
    streams c' = []
    /\ others c' = others c
    /\ (NoDup (map ptr (streams c)) ->
        frees (trace c') = frees (trace c) ++ map ptr (streams c))
    /\ (forall p, deliveries_created p (trace c')
                  = deliveries_created p (trace c))
    /\ filter is_submit (trace c') = filter is_submit (trace c).
Proof.
  induction n as [| n IH]; intros c Hlen; cbn.
  - destruct (streams c) as [| sd rest]; [| cbn in Hlen; lia].
    cbn. rewrite app_nil_r. auto.
  - destruct (streams c) as [| sd rest] eqn:Es.
    + rewrite Es. cbn. rewrite app_nil_r. auto.
    + rewrite TraceFacts.free_http2_stream_data_upd, Es.
      rewrite remove_stream_head.
      set (c1 := upd (remove_stream (ptr sd) rest)
                     (trace c ++ free_calls c sd on_shutdown) c).
      assert (Hlen1 : (length (streams c1) <= n)%nat).
      { change (streams c1) with (remove_stream (ptr sd) rest).
        pose proof (remove_stream_length (ptr sd) rest). cbn in Hlen. lia. }
      destruct (IH c1 Hlen1) as (S1 & O1 & F1 & D1 & M1). cbv zeta in *.
      change (trace c1) with (trace c ++ free_calls c sd on_shutdown) in *.
      change (streams c1) with (remove_stream (ptr sd) rest) in F1.
      split; [exact S1 |]. split; [exact O1 |]. split; [| split].
      * intros Hnd. cbn in Hnd. inversion Hnd as [| x l Hnot Hnd']; subst.
        rewrite (remove_stream_notin _ _ Hnot) in F1.
        rewrite (F1 Hnd'), TraceFacts.frees_app,
          TraceFacts.frees_free_calls, <- app_assoc.
        reflexivity.
      * intros p. rewrite D1, Http2Facts.deliveries_created_app,
          TraceFacts.deliveries_free_calls. lia.
      * rewrite M1, filter_submit_app, TraceFacts.submits_free_calls,
          app_nil_r. reflexivity.
Qed.

End FreeFacts.

(** X1.  [free_all_connection_streams] leaves the connection without
    stream records and changes nothing of the connection but its stream
    list; when the records have distinct addresses each one is freed
    exactly once, in list order; no delivery is created and no frame is
    submitted on the way. *)
Theorem free_all_connection_streams_frees_each_once :
  forall c on_shutdown,
    let c' := Http2.free_all_connection_streams c on_shutdown in
    Http2.streams c' = []
    /\ AdaptorSpec.others c' = AdaptorSpec.others c
    /\ (NoDup (Http2.stream_ptrs c) ->
        AdaptorSpec.frees (Http2.trace c')
        = AdaptorSpec.frees (Http2.trace c) ++ Http2.stream_ptrs c)
    /\ (forall p, Http2.deliveries_created p (Http2.trace c')
                  = Http2.deliveries_created p (Http2.trace c))
    /\ filter Http2.is_submit (Http2.trace c')
       = filter Http2.is_submit (Http2.trace c).
Proof.
  intros c on_shutdown.
  exact (FreeFacts.free_all_loop_spec on_shutdown
           (length (Http2.streams c)) c (Nat.le_refl _)).
Qed.

(** The two records of the example connection are freed, 1 then 2. *)
Lemma free_all_connection_streams_frees_each_once_witness :
  AdaptorSpec.frees
    (Http2.trace (Http2.free_all_connection_streams Http2.example_ingress false))
  = [1; 2]%nat.
Proof.
  destruct (free_all_connection_streams_frees_each_once
              Http2.example_ingress false) as (_ & _ & H & _).
  apply H. vm_compute. repeat constructor; cbn; intuition discriminate.
Defined.

(** X2.  [free_http2_stream_data] detaches the incoming and the outgoing
    link of the record, in this order, when it is not called on shutdown
    and the connection still has its router connection; on shutdown, or
    without a router connection, it detaches no link. *)
Theorem free_stream_detaches_its_links :
  forall c sd on_shutdown,
    AdaptorSpec.detaches
      (Http2.trace (Http2.free_http2_stream_data c sd on_shutdown))
    = AdaptorSpec.detaches (Http2.trace c)
      ++ (if on_shutdown || negb (Http2.is_some (Http2.qdr_conn c))
          then []
          else AdaptorSpec.opt_list (Http2.in_link sd)
               ++ AdaptorSpec.opt_list (Http2.out_link sd)).
Proof.
  intros c sd on_shutdown.
  rewrite TraceFacts.free_http2_stream_data_calls, TraceFacts.detaches_app,
    TraceFacts.detaches_free_calls.
  reflexivity.
Qed.

(** X3.  [free_http2_stream_data] drops the reference on a delivery of the
    record exactly when the record still holds it (the delivery is set and
    its "decrefed" flag is clear), and never twice, also when the incoming
    and the outgoing delivery are the same; the current and the next
    stream-data window are released once when a reference is dropped, and
    not at all otherwise. *)
Theorem free_stream_drops_each_reference_once :
  forall c sd on_shutdown,
    let c' := Http2.free_http2_stream_data c sd on_shutdown in
    (exists ds,
        AdaptorSpec.decrefs (Http2.trace c')
        = AdaptorSpec.decrefs (Http2.trace c) ++ ds
        /\ NoDup ds
        /\ forall d,
            In d ds <->
            (Http2.in_dlv sd = Some d /\ Http2.in_dlv_decrefed sd = false)
            \/ (Http2.out_dlv sd = Some d
                /\ Http2.out_dlv_decrefed sd = false))
    /\ AdaptorSpec.releases (Http2.trace c')
       = AdaptorSpec.releases (Http2.trace c)
         ++ (if AdaptorSpec.held (Http2.in_dlv sd) (Http2.in_dlv_decrefed sd)
                || AdaptorSpec.held (Http2.out_dlv sd)
                                    (Http2.out_dlv_decrefed sd)
             then AdaptorSpec.opt_list (Http2.curr_stream_data sd)
                  ++ AdaptorSpec.opt_list (Http2.next_stream_data sd)
             else []).
Proof.
  intros c sd on_shutdown c'. subst c'.
  rewrite TraceFacts.free_http2_stream_data_calls.
  rewrite TraceFacts.decrefs_app, TraceFacts.releases_app,
    TraceFacts.decrefs_free_calls, TraceFacts.releases_free_calls.
  split; [| reflexivity].
  eexists. split; [reflexivity |].
  unfold AdaptorSpec.held.
  destruct (Http2.in_dlv sd) as [d1 |], (Http2.in_dlv_decrefed sd),
           (Http2.out_dlv sd) as [d2 |], (Http2.out_dlv_decrefed sd);
    cbn; try destruct (Nat.eqb_spec d1 d2); cbn;
    (split; [repeat constructor; cbn; intuition congruence |]);
    intros d; split; intros H; cbn in *;
    intuition (try congruence);
    repeat match goal with
           | H : Some _ = Some _ |- _ => inversion H; subst; clear H
           end; auto.
Qed.

(** ** Body octets received on a stream *)

Module BodyFacts.
Import Http2 Http2Spec AdaptorSpec.
Local Open Scope Z_scope.

Lemma concat_snoc {A : Type} (l : list (list A)) (x : list A) :
  concat (l ++ [x]) = concat l ++ x.
Proof. rewrite concat_app. cbn. rewrite app_nil_r. reflexivity. Qed.

Ltac destruct_if :=
  match goal with
  | |- context [if ?b then _ else _] => destruct b
  end.

(** One chunk on a stream that takes it. *)
Lemma chunk_step q2 c p sd data :
  pn_raw_conn c <> None ->
  find_stream p c = Some sd ->
  stream_force_closed sd = false ->
  staged_ok sd ->
  let c' := on_data_chunk_recv_callback q2 c (Some p) data in
  exists sd',
    find_stream p c' = Some sd'
    /\ received_body sd' = received_body sd ++ data
    /\ bytes_in sd' = bytes_in sd + Z.of_nat (length data)
    /\ conn_bytes_in c' = conn_bytes_in c + Z.of_nat (length data)
    /\ staged_ok sd'
    /\ stream_force_closed sd' = false
    /\ pn_raw_conn c' = pn_raw_conn c.
Proof.
  intros Hraw Hf Hfc Hok c'. subst c'.
  pose proof (Http2Facts.lookup_ptr _ _ _ Hf) as Hp.
  unfold on_data_chunk_recv_callback.
  destruct (pn_raw_conn c) as [r |] eqn:Er; [| congruence].
  cbn [is_some negb]. rewrite Hf, Hfc.
  set (len := Z.of_nat (length data)).
  set (sd1 := set_bytes_in (bytes_in sd + len) sd).
  set (c1 := set_conn_bytes_in (conn_bytes_in c + len) c).
  change (in_dlv sd1) with (in_dlv sd).
  change (header_and_props_composed sd1) with (header_and_props_composed sd).
  change (body_buffers sd1) with (body_buffers sd).
  change (body_data_added_to_msg sd1) with (body_data_added_to_msg sd).
  unfold staged_ok in Hok.
  destruct (is_some (in_dlv sd) || header_and_props_composed sd) eqn:Ec.
  - destruct ((0 <? length (body_buffers sd))%nat
              && negb (body_data_added_to_msg sd)) eqn:Efl.
    + unfold append_body_buffers, qd_message_stream_data_append.
      cbn [fst snd message set_message set_body_buffers set_bytes_in sd1].
      eexists. split.
      { apply (ChunkFacts.find_after_put c _ p sd); [exact Hf | | reflexivity].
        unfold propagate_q2. destruct_if; reflexivity. }
      unfold received_body. cbn. unfold propagate_q2.
      rewrite !concat_snoc, app_nil_r.
      split; [reflexivity |]. split; [reflexivity |].
      split; [destruct_if; reflexivity |].
      split; [intros _; split; [reflexivity | exact Ec] |].
      split; [exact Hfc |]. destruct_if; exact Er.
    + unfold qd_message_stream_data_append.
      assert (Hbb : body_buffers sd = []).
      { apply andb_false_iff in Efl. destruct Efl as [E | E].
        - apply Nat.ltb_ge in E. destruct (body_buffers sd); [reflexivity |].
          cbn in E. lia.
        - apply negb_false_iff in E. apply Hok, E. }
      eexists. split.
      { apply (ChunkFacts.find_after_put c _ p sd); [exact Hf | | reflexivity].
        unfold propagate_q2. destruct_if; reflexivity. }
      unfold received_body. cbn. unfold propagate_q2.
      rewrite concat_snoc, Hbb, !app_nil_r.
      split; [reflexivity |]. split; [reflexivity |].
      split; [destruct_if; reflexivity |].
      split; [intros _; split; [exact Hbb | exact Ec] |].
      split; [exact Hfc |]. destruct_if; exact Er.
  - eexists. split.
    { apply (ChunkFacts.find_after_put c _ p sd);
        [exact Hf | reflexivity | reflexivity]. }
    unfold received_body. cbn. rewrite app_assoc.
    split; [reflexivity |]. split; [reflexivity |]. split; [reflexivity |].
    split; [| split; [exact Hfc | exact Er]].
    intros Ha. destruct (Hok Ha) as [_ Hc]. discriminate.
Qed.

Lemma chunks_run q2 p chunks :
  forall c sd,
    pn_raw_conn c <> None ->
    find_stream p c = Some sd ->
    stream_force_closed sd = false ->
    staged_ok sd ->
    let c' := on_data_chunks q2 c (Some p) chunks in
    exists sd',
      find_stream p c' = Some sd'
      /\ received_body sd' = received_body sd ++ concat chunks
      /\ bytes_in sd' = bytes_in sd + Z.of_nat (length (concat chunks))
      /\ conn_bytes_in c'
         = conn_bytes_in c + Z.of_nat (length (concat chunks))
      /\ staged_ok sd'.
Proof.
  unfold on_data_chunks.
  induction chunks as [| data rest IH]; intros c sd Hraw Hf Hfc Hok; cbn.
  - exists sd. rewrite app_nil_r, !Z.add_0_r. auto.
  - destruct (chunk_step q2 c p sd data Hraw Hf Hfc Hok)
      as (sd1 & F1 & R1 & B1 & C1 & O1 & X1 & P1). cbv zeta in *.
    assert (Hraw1 : pn_raw_conn (on_data_chunk_recv_callback q2 c (Some p) data)
                    <> None) by (rewrite P1; exact Hraw).
    destruct (IH _ sd1 Hraw1 F1 X1 O1) as (sd2 & F2 & R2 & B2 & C2 & O2).
    exists sd2. rewrite R2, R1, B2, B1, C2, C1, length_app, Nat2Z.inj_add.
    split; [exact F2 |]. split; [symmetry; apply app_assoc |].
    split; [lia |]. split; [lia | exact O2].
Qed.

End BodyFacts.

(** X4.  On a stream that is not force closed, with the raw connection
    present, the DATA chunks received are all kept, in the order received:
    after any sequence of chunks the octets in the message body followed by
    the octets still staged are those that were there before followed by
    the chunks, whether the message was composed, routed or neither, and
    the byte counters of the stream and of the connection have grown by
    the number of octets received. *)
Theorem data_chunks_keep_every_octet_in_order :
  forall q2 chunks c p sd,
    Http2.pn_raw_conn c <> None ->
    Http2.find_stream p c = Some sd ->
    Http2.stream_force_closed sd = false ->
    AdaptorSpec.staged_ok sd ->
    let c' := Http2.on_data_chunks q2 c (Some p) chunks in
    exists sd',
      Http2.find_stream p c' = Some sd'
      /\ AdaptorSpec.received_body sd'
         = AdaptorSpec.received_body sd ++ concat chunks
      /\ Http2.bytes_in sd'
         = (Http2.bytes_in sd + Z.of_nat (length (concat chunks)))%Z
      /\ Http2.conn_bytes_in c'
         = (Http2.conn_bytes_in c + Z.of_nat (length (concat chunks)))%Z
      /\ AdaptorSpec.staged_ok sd'.
Proof.
  intros q2 chunks c p sd. apply BodyFacts.chunks_run.
Qed.

(** Two chunks on the stream with two staged octets: four octets in
    order, none lost. *)
Lemma data_chunks_keep_every_octet_in_order_witness :
  exists sd',
    Http2.find_stream 1
      (Http2.on_data_chunks Http2.no_q2
         (Http2.new_connection true None [Http2.example_staged_stream])
         (Some 1%nat) [[Byte.x61]; [Byte.x62]]) = Some sd'
    /\ AdaptorSpec.received_body sd'
       = [Byte.x68; Byte.x69; Byte.x61; Byte.x62].
Proof.
  destruct (data_chunks_keep_every_octet_in_order Http2.no_q2
              [[Byte.x61]; [Byte.x62]]
              (Http2.new_connection true None [Http2.example_staged_stream])
              1%nat Http2.example_staged_stream)
    as (sd' & F & R & _).
  - discriminate.
  - vm_compute. reflexivity.
  - vm_compute. reflexivity.
  - intros H. vm_compute in H. discriminate.
  - exists sd'. split; [exact F | exact R].
Defined.

(** ** GOAWAY twice, link credit, disposition updates *)

Module GoawayAgain.
Import Http2 Http2Spec AdaptorSpec.
Local Open Scope Z_scope.

Lemma free_unprocessed_loop_noop todo last_stream_id c :
  Forall (fun s => (last_stream_id <? stream_id s) = false) todo ->
  free_unprocessed_loop todo last_stream_id c = c.
Proof.
  induction 1 as [| sd rest Hsd _ IH]; cbn; [reflexivity |].
  rewrite Hsd. exact IH.
Qed.

(** After the GOAWAY loop every record left has an id the peer will
    process. *)
Lemma free_unprocessed_streams_left c last_stream_id :
  Forall (fun s => (last_stream_id <? stream_id s) = false)
         (streams (free_unprocessed_streams c last_stream_id)).
Proof.
  unfold free_unprocessed_streams.
  destruct (Http2Facts.free_unprocessed_loop_spec (streams c)
              last_stream_id c) as (Hs & _). cbv zeta in Hs.
  rewrite Hs. apply Forall_forall. intros x Hx.
  apply filter_In in Hx. destruct Hx as [Hin Hex].
  destruct (last_stream_id <? stream_id x) eqn:E; [| reflexivity].
  apply negb_true_iff in Hex.
  assert (Ht : existsb (Nat.eqb (ptr x))
                       (unprocessed_ptrs (streams c) last_stream_id) = true).
  { apply existsb_exists. exists (ptr x). split; [| apply Nat.eqb_refl].
    unfold unprocessed_ptrs. apply in_map. apply filter_In. auto. }
  congruence.
Qed.

End GoawayAgain.

(** X5.  A second GOAWAY frees nothing: after a GOAWAY with last stream id
    L, a GOAWAY with a last stream id not below L only asks again for the
    raw connection to be closed; the stream records and everything else
    stay as the first one left them. *)
Theorem goaway_again_frees_nothing :
  forall q2 c sd_ptr sd_ptr' last_stream_id last_stream_id',
    (last_stream_id <= last_stream_id')%Z ->
    let c1 := Http2.on_frame_recv_callback
                q2 c sd_ptr (Http2.NGHTTP2_GOAWAY last_stream_id) in
    Http2.on_frame_recv_callback
      q2 c1 sd_ptr' (Http2.NGHTTP2_GOAWAY last_stream_id')
    = Http2.log Http2.E_pn_raw_connection_close c1.
Proof.
  intros q2 c sd_ptr sd_ptr' L L' HL c1.
  unfold Http2.on_frame_recv_callback at 1.
  unfold Http2.free_unprocessed_streams.
  rewrite GoawayAgain.free_unprocessed_loop_noop.
  - unfold c1, Http2.on_frame_recv_callback. reflexivity.
  - unfold c1, Http2.on_frame_recv_callback.
    change (Http2.streams
              (Http2.log Http2.E_pn_raw_connection_close
                 (Http2.set_goaway_received true
                    (Http2.free_unprocessed_streams c L))))
      with (Http2.streams (Http2.free_unprocessed_streams c L)).
    eapply Forall_impl; [| apply GoawayAgain.free_unprocessed_streams_left].
    intros s Hs. cbv beta in *.
    apply Z.ltb_ge in Hs. apply Z.ltb_ge. lia.
Qed.

(** GOAWAY 1 on the example connection frees stream 3; GOAWAY 1 again
    frees nothing more. *)
Lemma goaway_again_frees_nothing_witness :
  AdaptorSpec.frees
    (Http2.trace
       (Http2.on_frame_recv_callback Http2.no_q2
          (Http2.on_frame_recv_callback Http2.no_q2 Http2.example_egress
             None (Http2.NGHTTP2_GOAWAY 1))
          None (Http2.NGHTTP2_GOAWAY 1)))
  = [2%nat].
Proof.
  rewrite (goaway_again_frees_nothing Http2.no_q2 Http2.example_egress
             None None 1%Z 1%Z (Z.le_refl 1)).
  vm_compute. reflexivity.
Defined.

Module CreditFacts.
Import Http2 Http2Spec AdaptorSpec.
Local Open Scope Z_scope.


Lemma find_put c c1 p sd sd' :
  find_stream p c = Some sd -> streams c1 = streams c -> ptr sd' = ptr sd ->
  find_stream p (put_stream sd' c1) = Some sd'.
Proof.
  intros Hf Hs Hp. pose proof (Http2Facts.lookup_ptr _ _ _ Hf) as Hq.
  rewrite Http2Facts.find_stream_lookup, Http2Facts.streams_put_stream, Hs,
    Http2Facts.lookup_put.
  rewrite Hp, Hq, Nat.eqb_refl, <- Http2Facts.find_stream_lookup, Hf.
  reflexivity.
Qed.

End CreditFacts.



Module DispositionFacts.
Import Http2 Http2Spec AdaptorSpec.
Local Open Scope Z_scope.

(** Once the flags are set for [dlv], the record holds no reference on
    [dlv] that is still to be dropped. *)
Lemma delivery_flags_release_hold sd dlv :
  let sd' := set_stream_data_delivery_flags sd (Some dlv) in
  (held (in_dlv sd') (in_dlv_decrefed sd') = true -> in_dlv sd' <> Some dlv)
  /\ (held (out_dlv sd') (out_dlv_decrefed sd') = true ->
      out_dlv sd' <> Some dlv).
Proof.
  unfold set_stream_data_delivery_flags, held.
  destruct (in_dlv sd) as [d1 |] eqn:Ei, (out_dlv sd) as [d2 |] eqn:Eo;
    cbn; rewrite ?Ei, ?Eo; cbn;
    try destruct (Nat.eqb_spec dlv d1); cbn; rewrite ?Eo, ?Ei; cbn;
    try destruct (Nat.eqb_spec dlv d2); cbn; rewrite ?Eo, ?Ei; cbn;
    split; intros H; try discriminate; congruence.
Qed.

Lemma count_occ_not_in (l : list nat) (x : nat) :
  ~ In x l -> count_occ Nat.eq_dec l x = 0%nat.
Proof. apply count_occ_not_In. Qed.

Lemma decrefs_not_in_free c sd dlv on_shutdown :
  let sd' := set_stream_data_delivery_flags sd (Some dlv) in
  ~ In dlv (decrefs (free_calls c sd' on_shutdown)).
Proof.
  cbv zeta. rewrite TraceFacts.decrefs_free_calls.
  destruct (delivery_flags_release_hold sd dlv) as [Hin Hout].
  cbv zeta in Hin, Hout.
  set (sd' := set_stream_data_delivery_flags sd (Some dlv)) in *.
  intros H. apply in_app_or in H. destruct H as [H | H].
  - destruct (held (in_dlv sd') (in_dlv_decrefed sd')); [| contradiction].
    destruct (in_dlv sd') as [d |]; cbn in H; [| contradiction].
    destruct H as [H | []]. subst d. apply (Hin eq_refl). reflexivity.
  - destruct (held (out_dlv sd') (out_dlv_decrefed sd')); cbn in H;
      [| contradiction].
    destruct (negb _); [| contradiction].
    destruct (out_dlv sd') as [d |]; cbn in H; [| contradiction].
    destruct H as [H | []]. subst d. apply (Hout eq_refl). reflexivity.
Qed.

Lemma settled_update_decrefs c p sd dlv disp :
  find_stream p c = Some sd ->
  exists ds,
    decrefs (trace (qdr_http_delivery_update c (Some p) dlv disp true))
    = decrefs (trace c) ++ dlv :: ds
    /\ ~ In dlv ds.
Proof.
  intros Hf. unfold qdr_http_delivery_update. rewrite Hf. cbn [andb].
  set (sd1 := if negb (ingress c) && is_failure_outcome disp then _ else sd).
  set (c2 := if ingress c && is_failure_outcome disp then _ else c).
  match goal with
  | |- context [let '(a, b) := ?X in _] => destruct X as [c3 sd3] eqn:E3
  end.
  set (c5 := log _ (log _ (log _ c3))).
  set (sd5 := set_stream_data_delivery_flags sd3 (Some dlv)).
  assert (H5 : decrefs (trace c5) = decrefs (trace c) ++ [dlv]).
  { unfold c5. cbn [log set_trace trace]. unfold c2 in E3.
    destruct (ingress c); cbn [andb negb] in *;
      destruct (is_failure_outcome disp);
      inversion E3; subst c3 sd3; cbn [log set_trace trace];
      rewrite !TraceFacts.decrefs_app; cbn; rewrite ?app_nil_r;
      reflexivity. }
  destruct (out_msg_send_complete sd3
            && status_eqb (status sd5) QD_STREAM_FULLY_CLOSED).
  - exists (decrefs (free_calls c5 sd5 false)). split.
    + rewrite TraceFacts.free_http2_stream_data_calls,
        TraceFacts.decrefs_app, H5, <- app_assoc.
      reflexivity.
    + apply decrefs_not_in_free.
  - exists []. split; [| intros []].
    rewrite Http2Facts.trace_put_stream, H5. reflexivity.
Qed.

Lemma put_found p c sd :
  find_stream p c = Some sd ->
  forall q, find_stream q (put_stream sd c) = find_stream q c.
Proof.
  intros Hf q. pose proof (Http2Facts.lookup_ptr _ _ _ Hf) as Hp.
  rewrite !Http2Facts.find_stream_lookup, Http2Facts.streams_put_stream,
    Http2Facts.lookup_put.
  rewrite Http2Facts.find_stream_lookup in Hf.
  destruct (Nat.eqb_spec (ptr sd) q) as [E | E]; [| reflexivity].
  subst q. rewrite Hp, Hf. reflexivity.
Qed.

End DispositionFacts.

(** X7.  A disposition update that is not settled makes no call and
    changes no stream record.  A settled update for a stream of the
    connection drops the reference on the delivery exactly once, also when
    the stream record is freed in the same call and whatever other
    deliveries the record holds. *)
Theorem disposition_update_drops_the_delivery_once :
  (forall c sd_ptr dlv disp,
      let c' := Http2.qdr_http_delivery_update c sd_ptr dlv disp false in
      Http2.trace c' = Http2.trace c
      /\ forall q, Http2.find_stream q c' = Http2.find_stream q c)
  /\ (forall c p sd dlv disp,
         Http2.find_stream p c = Some sd ->
         let c' := Http2.qdr_http_delivery_update c (Some p) dlv disp true in
         count_occ Nat.eq_dec (AdaptorSpec.decrefs (Http2.trace c')) dlv
         = S (count_occ Nat.eq_dec (AdaptorSpec.decrefs (Http2.trace c)) dlv)).
Proof.
  split.
  - intros c sd_ptr dlv disp c'. subst c'.
    unfold Http2.qdr_http_delivery_update.
    destruct sd_ptr as [p |]; [| auto].
    destruct (Http2.find_stream p c) as [sd |] eqn:Hf; [| auto].
    cbn [andb]. split; [apply Http2Facts.trace_put_stream |].
    apply (DispositionFacts.put_found p c sd Hf).
  - intros c p sd dlv disp Hf c'. subst c'.
    destruct (DispositionFacts.settled_update_decrefs c p sd dlv disp Hf)
      as (ds & Ht & Hn).
    rewrite Ht, count_occ_app, (count_occ_cons_eq Nat.eq_dec ds eq_refl).
    rewrite (DispositionFacts.count_occ_not_in ds dlv Hn).
    apply Nat.add_1_r.
Qed.

(** Delivery 7 of the sending stream, rejected and settled: one decref. *)
Lemma disposition_update_drops_the_delivery_once_witness :
  count_occ Nat.eq_dec
    (AdaptorSpec.decrefs
       (Http2.trace
          (Http2.qdr_http_delivery_update Http2.example_egress_sending
             (Some 1%nat) 7%nat Http2.PN_REJECTED true))) 7%nat
  = 1%nat.
Proof.
  destruct disposition_update_drops_the_delivery_once as [_ H].
  rewrite (H Http2.example_egress_sending 1%nat Http2.example_sending_stream
             7%nat Http2.PN_REJECTED); [| vm_compute; reflexivity].
  vm_compute. reflexivity.
Defined.

(** ** The DATA read callback: flags and return value *)

Module ReadContract.
Import Http2 Http2Spec AdaptorSpec.
Local Open Scope Z_scope.

Lemma land_lor_right a b : Z.land (Z.lor a b) b = b.
Proof.
  apply Z.bits_inj'. intros n _.
  rewrite Z.land_spec, Z.lor_spec.
  destruct (Z.testbit a n), (Z.testbit b n); reflexivity.
Qed.

Lemma land_lor_left a b : Z.land (Z.lor a b) a = a.
Proof. rewrite Z.lor_comm. apply land_lor_right. Qed.

Ltac destruct_cond :=
  match goal with
  | |- context [if ?b then _ else _] => destruct b
  end.

Lemma look_ahead_bytes_out sd m :
  bytes_out (fst (look_ahead sd m)) = bytes_out sd.
Proof.
  unfold look_ahead, qd_message_next_stream_data.
  destruct (next_answer m (next_calls m)). reflexivity.
Qed.

Lemma select_current_bytes_out sd m :
  bytes_out (fst (select_current sd m)) = bytes_out sd.
Proof.
  unfold select_current.
  set (sd1 := match next_stream_data sd with Some _ => _ | None => sd end).
  assert (H1 : bytes_out sd1 = bytes_out sd)
    by (unfold sd1; destruct (next_stream_data sd); reflexivity).
  clearbody sd1.
  destruct (curr_stream_data sd1);
    [| unfold qd_message_next_stream_data;
       destruct (next_answer m (next_calls m)) as [res [w |]]];
    cbn; destruct_cond; cbn; exact H1.
Qed.

Lemma read_body_empty_contract flags sd m :
  let r := read_body_empty flags sd m in
  rd_return r = 0 /\ bytes_out (rd_stream r) = bytes_out sd.
Proof.
  cbv zeta. unfold read_body_empty.
  pose proof (look_ahead_bytes_out sd m) as Hb.
  destruct (look_ahead sd m) as [sd1 m1]. cbn [fst] in Hb.
  destruct (next_stream_data_result sd1);
    try destruct (negb (out_msg_has_footer sd1));
    unfold release_curr, release_next; cbn; auto.
Qed.

Ltac read_cbn :=
  cbn [rd_return rd_stream rd_data_flags rd_message bytes_out set_bytes_out
       set_out_dlv_local_disposition set_out_msg_body_sent
       set_out_msg_data_flag_eof set_out_msg_has_footer
       set_full_payload_handled].

Lemma read_body_data_contract flags sd m length payload :
  0 <= length < 2 ^ 63 ->
  let r := read_body_data flags sd m length payload in
  0 <= rd_return r <= length
  /\ bytes_out (rd_stream r) = bytes_out sd + rd_return r.
Proof.
  intros Hlen. cbv zeta. unfold read_body_data.
  set (remaining := to_int (payload - payload_handled sd)).
  assert (Hsz : 0 <= to_size_t remaining < 2 ^ 64).
  { unfold to_size_t. apply Z.mod_pos_bound. lia. }
  unfold QD_ADAPTOR_MAX_BUFFER_SIZE.
  destruct (remaining <=? 16384) eqn:E1.
  - destruct (length <? to_size_t remaining) eqn:E2.
    + read_cbn. rewrite ReadFacts.to_ssize_t_small by lia. lia.
    + apply Z.ltb_ge in E2.
      pose proof (look_ahead_bytes_out (set_full_payload_handled true sd) m)
        as Hb.
      destruct (look_ahead (set_full_payload_handled true sd) m)
        as [sda ma]. cbn [fst] in Hb.
      change (bytes_out (set_full_payload_handled true sd))
        with (bytes_out sd) in Hb.
      destruct (next_stream_data_result sda); read_cbn;
        rewrite ReadFacts.to_ssize_t_small by lia; rewrite Hb; lia.
  - destruct (length <? 16384) eqn:E2; read_cbn.
    + apply Z.ltb_lt in E2. rewrite ReadFacts.to_ssize_t_small by lia. lia.
    + apply Z.ltb_ge in E2. rewrite ReadFacts.to_ssize_t_small by lia. lia.
Qed.

Ltac flags_solve :=
  unfold read_flags_ok; cbn;
  first [ left; reflexivity
        | right; left;
          split; [reflexivity |];
          split; [reflexivity |];
          first [left; reflexivity | right; reflexivity]
        | right; right; repeat split; reflexivity ].

Lemma read_body_empty_flags data_flags sd m :
  read_flags_ok data_flags
    (read_body_empty (Z.lor data_flags NGHTTP2_DATA_FLAG_NO_COPY) sd m).
Proof.
  unfold read_body_empty.
  destruct (look_ahead sd m) as [sd1 m1].
  destruct (next_stream_data_result sd1);
    try destruct (negb (out_msg_has_footer sd1));
    unfold release_curr, release_next; flags_solve.
Qed.

Lemma read_body_data_flags data_flags sd m length payload :
  read_flags_ok data_flags
    (read_body_data (Z.lor data_flags NGHTTP2_DATA_FLAG_NO_COPY) sd m
                    length payload).
Proof.
  unfold read_body_data.
  destruct (_ <=? QD_ADAPTOR_MAX_BUFFER_SIZE).
  - destruct (length <? _); [flags_solve |].
    destruct (look_ahead (set_full_payload_handled true sd) m) as [sda ma].
    destruct (next_stream_data_result sda); flags_solve.
  - flags_solve.
Qed.

Ltac break_pairs :=
  repeat match goal with
         | |- context [let '(a, b) := ?X in _] => destruct X
         end.

Lemma read_data_callback_flags write_capacity msg sd length data_flags :
  read_flags_ok data_flags
    (read_data_callback write_capacity msg sd length data_flags).
Proof.
  unfold read_data_callback.
  destruct (qd_message_check_depth_BODY msg);
    [flags_solve | | flags_solve].
  destruct (select_current sd msg) as [sd1 m1].
  destruct (curr_stream_data_result sd1).
  - destruct (write_capacity =? 0); [flags_solve |].
    destruct (_ =? 0);
      [apply read_body_empty_flags | apply read_body_data_flags].
  - break_pairs. flags_solve.
  - flags_solve.
  - destruct (write_capacity =? 0); [flags_solve |].
    destruct (out_msg_has_footer sd1) eqn:Ef; unfold read_flags_ok; cbn;
      rewrite ?Ef.
    + right. right. repeat split; reflexivity.
    + right. left. repeat split; try reflexivity. left. reflexivity.
  - break_pairs. unfold release_curr. flags_solve.
  - break_pairs. unfold release_curr. flags_solve.
Qed.

Lemma deferred_negative : NGHTTP2_ERR_DEFERRED = -508.
Proof. reflexivity. Qed.

Lemma read_data_callback_contract write_capacity msg sd length data_flags :
  0 <= length < 2 ^ 63 ->
  let r := read_data_callback write_capacity msg sd length data_flags in
  (rd_return r = NGHTTP2_ERR_DEFERRED
   /\ rd_data_flags r = Z.lor data_flags NGHTTP2_DATA_FLAG_NO_COPY
   /\ out_dlv_local_disposition (rd_stream r) = 0
   /\ bytes_out (rd_stream r) = bytes_out sd)
  \/ (0 <= rd_return r <= length
      /\ bytes_out (rd_stream r) = bytes_out sd + rd_return r).
Proof.
  intros Hlen. cbv zeta. unfold read_data_callback.
  destruct (qd_message_check_depth_BODY msg);
    [right; cbn; lia | | left; cbn; auto].
  pose proof (select_current_bytes_out sd msg) as Hb.
  destruct (select_current sd msg) as [sd1 m1]. cbn [fst] in Hb.
  destruct (curr_stream_data_result sd1).
  - destruct (write_capacity =? 0); [left; cbn; auto |].
    destruct (_ =? 0).
    + destruct (read_body_empty_contract
                  (Z.lor data_flags NGHTTP2_DATA_FLAG_NO_COPY) sd1 m1)
        as [R B]. cbv zeta in R, B. right. rewrite R, B, Hb. lia.
    + destruct (read_body_data_contract
                  (Z.lor data_flags NGHTTP2_DATA_FLAG_NO_COPY) sd1 m1 length
                  (window_payload_length (curr_stream_data sd1)) Hlen)
        as [R B]. cbv zeta in R, B. right. rewrite B, Hb. lia.
  - right.
    assert (Hl : forall s, bytes_out (fst (look_ahead s m1)) = bytes_out s)
      by (intros; apply look_ahead_bytes_out).
    destruct (negb (out_msg_has_footer sd1)).
    + specialize (Hl (set_out_msg_has_footer true sd1)).
      destruct (look_ahead (set_out_msg_has_footer true sd1) m1)
        as [sd2 m2]. cbn [fst] in Hl.
      destruct (_ || _); unfold release_next; cbn; rewrite ?Hl; cbn;
        rewrite Hb; lia.
    + destruct (_ || _); unfold release_next; cbn; rewrite Hb; lia.
  - left. cbn. auto.
  - destruct (write_capacity =? 0); [left; cbn; auto |].
    right. cbn. rewrite Hb. lia.
  - right. unfold release_curr. cbn. rewrite Hb. lia.
  - right. unfold release_curr. cbn. rewrite Hb. lia.
Qed.

End ReadContract.

(** X8.  Whatever the message answers, [read_data_callback] returns data
    flags that keep every flag it was given and have NO_COPY set.  It adds
    EOF only along with setting [out_msg_data_flag_eof] on the stream and
    with the local disposition decided (accepted or rejected), and it adds
    NO_END_STREAM only together with EOF, for a stream whose message has a
    footer, in a call that returns no octets and accepts. *)
Theorem read_data_callback_flags_contract :
  forall write_capacity msg sd length data_flags,
    let r := Http2.read_data_callback write_capacity msg sd length
                                      data_flags in
    AdaptorSpec.read_flags_ok data_flags r
    /\ Z.land (Http2.rd_data_flags r) Http2.NGHTTP2_DATA_FLAG_NO_COPY
       = Http2.NGHTTP2_DATA_FLAG_NO_COPY
    /\ Z.land (Http2.rd_data_flags r) data_flags = data_flags.
Proof.
  intros write_capacity msg sd length data_flags r.
  pose proof (ReadContract.read_data_callback_flags
                write_capacity msg sd length data_flags) as H.
  fold r in H. split; [exact H |].
  unfold AdaptorSpec.read_flags_ok in H.
  destruct H as [H | [(H & _) | (H & _)]]; rewrite H; split;
    rewrite <- ?Z.lor_assoc;
    first [ apply ReadContract.land_lor_left
          | rewrite (Z.lor_comm data_flags), <- ?Z.lor_assoc;
            apply ReadContract.land_lor_left
          | idtac ].
Qed.

(** X9.  For a requested length below 2^63, [read_data_callback] either
    defers, and then it has added no flag but NO_COPY, has reset the
    local disposition and has counted no octet, or it returns a number of
    octets between 0 and the requested length, which is exactly what it
    adds to the stream's [bytes_out]. *)
Theorem read_data_callback_return_contract :
  forall write_capacity msg sd length data_flags,
    (0 <= length < 2 ^ 63)%Z ->
    let r := Http2.read_data_callback write_capacity msg sd length
                                      data_flags in
    (Http2.rd_return r = Http2.NGHTTP2_ERR_DEFERRED
     /\ Http2.rd_data_flags r
        = Z.lor data_flags Http2.NGHTTP2_DATA_FLAG_NO_COPY
     /\ Http2.out_dlv_local_disposition (Http2.rd_stream r) = 0%Z
     /\ Http2.bytes_out (Http2.rd_stream r) = Http2.bytes_out sd)
    \/ ((0 <= Http2.rd_return r <= length)%Z
        /\ Http2.bytes_out (Http2.rd_stream r)
           = (Http2.bytes_out sd + Http2.rd_return r)%Z).
Proof.
  intros write_capacity msg sd length data_flags Hlen.
  apply ReadContract.read_data_callback_contract, Hlen.
Qed.

(** A request for 4 octets of the 10-octet example window returns 4. *)
Lemma read_data_callback_return_contract_witness :
  (0 <= Http2.rd_return
          (Http2.read_data_callback 5 Http2.example_msg_body
                                    Http2.example_sending_stream 4 0)
   <= 4)%Z.
Proof.
  destruct (read_data_callback_return_contract 5 Http2.example_msg_body
              Http2.example_sending_stream 4 0) as [(H & _) | (H & _)].
  - lia.
  - vm_compute in H. discriminate.
  - exact H.
Defined.

(** ** Reconnecting, resuming after Q2, header blocks *)

Module ReconnectFacts.
Import Http2 Http2Spec AdaptorSpec.
Local Open Scope Z_scope.

Lemma others_free_all_loop on_shutdown n :
  forall c, others (free_all_loop n c on_shutdown) = others c.
Proof.
  induction n as [| n IH]; intros c; cbn; [reflexivity |].
  destruct (streams c) as [| sd rest]; [reflexivity |].
  rewrite IH. apply TraceFacts.others_free_http2_stream_data.
Qed.




End ReconnectFacts.



(** X11.  Resuming after Q2: a connection that is Q2-blocked ignores READ
    events.  When the message's unblocked handler runs for a connection
    that still has its raw connection, the next WAKE event clears both
    [q2_restart] and [q2_blocked] before it reads the incoming data, and
    nothing else has changed but the wake-up requested; without a raw
    connection, or for a connection already freed, the handler does
    nothing. *)
Theorem q2_unblock_resumes_reading :
  (forall hi hr qp dt c,
      Http2.q2_blocked c = true ->
      Http2.handle_connection_event hi hr qp dt
                                    Http2.PN_RAW_CONNECTION_READ c = c)
  /\ (forall hi hr qp dt c,
         Http2.pn_raw_conn c <> None ->
         exists c1 c0,
           Http2.qdr_http2_q2_unblocked_handler (Some c) = Some c1
           /\ Http2.handle_connection_event hi hr qp dt
                                            Http2.PN_RAW_CONNECTION_WAKE c1
              = qp (hi c0)
           /\ Http2.q2_blocked c0 = false /\ Http2.q2_restart c0 = false
           /\ Http2.trace c0
              = Http2.trace c ++ [Http2.E_pn_raw_connection_wake]
           /\ Http2.streams c0 = Http2.streams c
           /\ Http2.pn_raw_conn c0 = Http2.pn_raw_conn c)
  /\ (forall c,
         Http2.pn_raw_conn c = None ->
         Http2.qdr_http2_q2_unblocked_handler (Some c) = Some c)
  /\ Http2.qdr_http2_q2_unblocked_handler None = None.
Proof.
  split; [| split; [| split]].
  - intros hi hr qp dt c Hb. cbn. rewrite Hb. reflexivity.
  - intros hi hr qp dt c Hraw.
    unfold Http2.qdr_http2_q2_unblocked_handler.
    destruct (Http2.pn_raw_conn c) as [r |] eqn:Er; [| congruence].
    cbn [Http2.is_some].
    eexists. eexists. split; [reflexivity |].
    split; [cbn; reflexivity |].
    cbn. rewrite Er. repeat split; reflexivity.
  - intros c Hn. unfold Http2.qdr_http2_q2_unblocked_handler.
    rewrite Hn. reflexivity.
  - reflexivity.
Qed.

(** The example ingress connection, blocked: READ is ignored, and after
    the handler the WAKE event finds it unblocked. *)
Lemma q2_unblock_resumes_reading_witness :
  Http2.handle_connection_event
    (fun x => x) (fun x => x) (fun x => x) (fun x => x)
    Http2.PN_RAW_CONNECTION_READ
    (Http2.set_q2_blocked true Http2.example_ingress)
  = Http2.set_q2_blocked true Http2.example_ingress.
Proof.
  destruct q2_unblock_resumes_reading as [H _].
  apply H. reflexivity.
Defined.

Module HeaderFacts.
Import Http2 Http2Spec AdaptorSpec.
Local Open Scope Z_scope.

Lemma find_app_first {A : Type} (f : A -> bool) (l1 l2 : list A) :
  find f (l1 ++ l2)
  = match find f l1 with Some x => Some x | None => find f l2 end.
Proof.
  induction l1 as [| x l1 IH]; cbn; [reflexivity |].
  destruct (f x); [reflexivity | exact IH].
Qed.

Lemma last_value_cons name h rest old :
  last_value name (h :: rest) old
  = last_value name rest
               (if String.eqb name (fst h) then Some (snd h) else old).
Proof.
  unfold last_value. cbn [rev]. rewrite find_app_first.
  destruct (find _ (rev rest)); [reflexivity |].
  cbn. destruct (String.eqb name (fst h)); reflexivity.
Qed.

Lemma headers_run flags p hdrs :
  forall c sd,
    find_stream p c = Some sd ->
    use_footer_properties sd = false ->
    exists c' sd',
      on_headers c (Some p) (NGHTTP2_HEADERS flags) hdrs = Some c'
      /\ find_stream p c' = Some sd'
      /\ app_properties sd' = app_properties sd ++ hdrs
      /\ method sd' = last_value METHOD hdrs (method sd)
      /\ request_status sd' = last_value STATUS hdrs (request_status sd)
      /\ footer_properties sd' = footer_properties sd
      /\ message sd' = message sd
      /\ trace c' = trace c.
Proof.
  induction hdrs as [| [name value] rest IH]; intros c sd Hf Hu.
  - exists c, sd. cbn. rewrite app_nil_r. auto 10.
  - cbn [on_headers]. unfold on_header_callback. rewrite Hf, Hu.
    set (sd1 := if String.eqb METHOD name then set_method (Some value) sd
                else sd).
    set (sd2 := if String.eqb STATUS name
                then set_request_status (Some value) sd1 else sd1).
    set (sd3 := set_app_properties (app_properties sd2 ++ [(name, value)])
                                   sd2).
    assert (H3 : ptr sd3 = ptr sd /\ use_footer_properties sd3 = false
                 /\ app_properties sd3 = app_properties sd ++ [(name, value)]
                 /\ method sd3 = (if String.eqb METHOD name then Some value
                                  else method sd)
                 /\ request_status sd3 = (if String.eqb STATUS name
                                          then Some value
                                          else request_status sd)
                 /\ footer_properties sd3 = footer_properties sd
                 /\ message sd3 = message sd).
    { unfold sd3, sd2, sd1.
      destruct (String.eqb METHOD name), (String.eqb STATUS name); cbn;
        auto 10. }
    destruct H3 as (P3 & U3 & A3 & M3 & R3 & F3 & G3).
    assert (Hf3 : find_stream p (put_stream sd3 c) = Some sd3)
      by (apply (CreditFacts.find_put c c p sd); auto).
    destruct (IH (put_stream sd3 c) sd3 Hf3 U3)
      as (c' & sd' & H1 & H2 & H4 & H5 & H6 & H7 & H8 & H9).
    exists c', sd'. rewrite !last_value_cons. cbn [fst snd].
    rewrite H4, H5, H6, H7, H8, H9, A3, M3, R3, F3, G3, <- app_assoc.
    rewrite Http2Facts.trace_put_stream. auto 10.
Qed.

Lemma footers_run flags p hdrs :
  forall c sd,
    find_stream p c = Some sd ->
    use_footer_properties sd = true ->
    exists c' sd',
      on_headers c (Some p) (NGHTTP2_HEADERS flags) hdrs = Some c'
      /\ find_stream p c' = Some sd'
      /\ app_properties sd' = app_properties sd
      /\ method sd' = method sd
      /\ request_status sd' = request_status sd
      /\ (hdrs <> [] ->
          footer_properties sd'
          = Some (match footer_properties sd with
                  | Some f => f
                  | None => []
                  end ++ footer_octets hdrs))
      /\ (hdrs = [] -> footer_properties sd' = footer_properties sd).
Proof.
  induction hdrs as [| [name value] rest IH]; intros c sd Hf Hu.
  - exists c, sd. cbn. repeat split; auto. intros H. congruence.
  - cbn [on_headers]. unfold on_header_callback. rewrite Hf, Hu.
    set (f0 := match footer_properties sd with Some f => f | None => [] end).
    set (sd3 := set_footer_properties _ sd).
    assert (Hf3 : find_stream p (put_stream sd3 c) = Some sd3)
      by (apply (CreditFacts.find_put c c p sd); auto).
    destruct (IH (put_stream sd3 c) sd3 Hf3 Hu)
      as (c' & sd' & H1 & H2 & H4 & H5 & H6 & H7 & H8).
    exists c', sd'. rewrite H4, H5, H6.
    repeat split; auto; [| intros H; discriminate].
    intros _. destruct rest as [| h rest'].
    + rewrite (H8 eq_refl). unfold sd3, qd_compose_insert_string_n.
      cbn. rewrite app_nil_r, <- app_assoc. reflexivity.
    + rewrite H7 by discriminate. unfold sd3, qd_compose_insert_string_n.
      cbn [footer_properties set_footer_properties].
      unfold footer_octets. cbn [flat_map fst snd].
      rewrite <- !app_assoc. reflexivity.
Qed.

End HeaderFacts.

(** X12.  The header callbacks of one header block, on a stream of the
    connection.  Before the first header block has ended they append the
    headers to the stream's application properties in the order received,
    record as method and as request status the value of the last header
    named [:method] and [:status] (keeping what was there if the block has
    none), and leave the footer, the message and the trace alone.  Once
    [use_footer_properties] is set they add the names and values to the
    footer field, in order, and leave the application properties, the
    method and the status alone.  A header of a HEADERS frame whose stream
    has no record is a NULL dereference; headers of a frame of any other
    type, PUSH_PROMISE included, are ignored. *)
Theorem header_block_is_collected_in_order :
  (forall flags p hdrs c sd,
      Http2.find_stream p c = Some sd ->
      Http2.use_footer_properties sd = false ->
      exists c' sd',
        Http2.on_headers c (Some p) (Http2.NGHTTP2_HEADERS flags) hdrs
        = Some c'
        /\ Http2.find_stream p c' = Some sd'
        /\ Http2.app_properties sd' = Http2.app_properties sd ++ hdrs
        /\ Http2.method sd'
           = AdaptorSpec.last_value Http2.METHOD hdrs (Http2.method sd)
        /\ Http2.request_status sd'
           = AdaptorSpec.last_value Http2.STATUS hdrs
                                    (Http2.request_status sd)
        /\ Http2.footer_properties sd' = Http2.footer_properties sd
        /\ Http2.message sd' = Http2.message sd
        /\ Http2.trace c' = Http2.trace c)
  /\ (forall flags p hdrs c sd,
         Http2.find_stream p c = Some sd ->
         Http2.use_footer_properties sd = true ->
         hdrs <> [] ->
         exists c' sd',
           Http2.on_headers c (Some p) (Http2.NGHTTP2_HEADERS flags) hdrs
           = Some c'
           /\ Http2.find_stream p c' = Some sd'
           /\ Http2.app_properties sd' = Http2.app_properties sd
           /\ Http2.method sd' = Http2.method sd
           /\ Http2.request_status sd' = Http2.request_status sd
           /\ Http2.footer_properties sd'
              = Some (match Http2.footer_properties sd with
                      | Some f => f
                      | None => []
                      end
                      ++ AdaptorSpec.footer_octets hdrs))
  /\ (forall flags c h hdrs,
         Http2.on_headers c None (Http2.NGHTTP2_HEADERS flags) (h :: hdrs)
         = None)
  /\ (forall c sd_ptr frame hdrs,
         (forall flags, frame <> Http2.NGHTTP2_HEADERS flags) ->
         Http2.on_headers c sd_ptr frame hdrs = Some c).
Proof.
  split; [| split; [| split]].
  - intros flags p hdrs c sd. apply HeaderFacts.headers_run.
  - intros flags p hdrs c sd Hf Hu Hne.
    destruct (HeaderFacts.footers_run flags p hdrs c sd Hf Hu)
      as (c' & sd' & H1 & H2 & H3 & H4 & H5 & H6 & _).
    exists c', sd'. rewrite (H6 Hne). auto 10.
  - intros flags c [name value] hdrs. reflexivity.
  - intros c sd_ptr frame hdrs Hframe.
    induction hdrs as [| [n v] rest IH]; [reflexivity |].
    cbn [Http2.on_headers].
    destruct frame; try exact IH.
    exfalso. exact (Hframe flags eq_refl).
Qed.

(** A request's header block on stream 1 of the example connection. *)
Lemma header_block_is_collected_in_order_witness :
  exists c' sd',
    Http2.on_headers Http2.example_ingress (Some 1%nat)
      (Http2.NGHTTP2_HEADERS 4)
      [(":method", "GET"); (":path", "/index.html")]%string = Some c'
    /\ Http2.find_stream 1 c' = Some sd'
    /\ Http2.app_properties sd'
       = [(":method", "GET"); (":path", "/index.html")]%string
    /\ Http2.method sd' = Some "GET"%string.
Proof.
  destruct header_block_is_collected_in_order as [H _].
  destruct (H 4%Z 1%nat [(":method", "GET"); (":path", "/index.html")]%string
              Http2.example_ingress Http2.example_stream_1)
    as (c' & sd' & H1 & H2 & H3 & H4 & _);
    try (vm_compute; reflexivity).
  exists c', sd'. split; [exact H1 |]. split; [exact H2 |].
  split; [rewrite H3; reflexivity | rewrite H4; vm_compute; reflexivity].
Defined.

(** ** Stream status over every entry point *)

Module OutgoingFacts.
Import Http2 Http2Spec.
Local Open Scope Z_scope.

Lemma evolves_refl c : evolves c c.
Proof. apply Http2Facts.streams_evolve_refl. Qed.

Lemma evolves_trans c1 c2 c3 : evolves c1 c2 -> evolves c2 c3 -> evolves c1 c3.
Proof. apply Http2Facts.streams_evolve_trans. Qed.

Lemma evolves_same c c' : streams c' = streams c -> evolves c c'.
Proof. unfold evolves. intros H. rewrite H. apply Http2Facts.streams_evolve_refl. Qed.

Lemma evolves_none c c' : streams c' = [] -> evolves c c'.
Proof. unfold evolves. intros H. rewrite H. intros p b Hb. discriminate. Qed.

Lemma evolves_put c p sd sd' :
  find_stream p c = Some sd -> stream_evolves sd sd' ->
  evolves c (put_stream sd' c).
Proof.
  intros Hf He. unfold evolves.
  apply Http2Facts.put_stream_evolves with (a := sd); [reflexivity | | exact He].
  rewrite Http2Facts.find_stream_lookup in Hf.
  apply (Http2Facts.lookup_self p), Hf.
Qed.

Lemma evolves_on_stream p f c :
  (forall s, stream_evolves s (f s)) -> evolves c (on_stream p f c).
Proof.
  intros Hf. unfold on_stream.
  destruct (find_stream p c) as [sd |] eqn:E; [| apply evolves_refl].
  eapply (evolves_put c p sd); [exact E | apply Hf].
Qed.

(** A chain of setters that leaves the address, the status and the
    incoming delivery alone. *)
Ltac setters :=
  unfold stream_evolves; cbn;
  repeat split; auto using Http2Facts.status_le_refl.

Ltac same_streams := apply evolves_same; reflexivity.

Lemma evolves_log e c : evolves c (log e c).
Proof. same_streams. Qed.

Lemma evolves_log_release w c : evolves c (log_release w c).
Proof. apply evolves_same, Http2Facts.streams_log_release. Qed.

Lemma send_callback_evolves c length : evolves c (snd (send_callback c length)).
Proof.
  apply evolves_same. unfold send_callback. cbn [snd].
  destruct (require_tls c); cbn;
    match goal with
    | |- context [if ?b then _ else _] => destruct b
    end; reflexivity.
Qed.

Lemma send_data_callback_spec c sd length :
  streams (fst (send_data_callback c sd length)) = streams c
  /\ stream_evolves sd (snd (send_data_callback c sd length)).
Proof.
  unfold send_data_callback.
  set (c1 := if require_tls c then c else _).
  assert (H1 : streams c1 = streams c).
  { unfold c1. destruct (require_tls c); [reflexivity |].
    destruct (negb (length =? 0)); [reflexivity |].
    destruct (out_msg_data_flag_eof sd); reflexivity. }
  set (c2 := if require_tls c && _ then _ else c1).
  assert (H2 : streams c2 = streams c).
  { unfold c2. destruct (require_tls c && _); [exact H1 | exact H1]. }
  clearbody c2. clear c1 H1.
  destruct (full_payload_handled sd).
  - destruct (curr_stream_data sd) as [w |].
    + destruct (result_eqb (curr_stream_data_result sd)
                           QD_MESSAGE_STREAM_DATA_FOOTER_OK);
        destruct (negb (out_msg_has_footer sd)); cbn [fst snd];
        (split; [exact H2 | setters]).
    + destruct (negb (out_msg_has_footer sd)); cbn [fst snd];
        (split; [exact H2 | setters]).
  - destruct (negb (out_msg_has_footer sd)); cbn [fst snd];
      (split; [exact H2 | setters]).
Qed.

Lemma run_send_cb_evolves cb c : evolves c (run_send_cb cb c).
Proof.
  destruct cb as [length | p wc msg length flags | p length];
    cbn [run_send_cb].
  - apply send_callback_evolves.
  - destruct (find_stream p c) as [sd |] eqn:E; [| apply evolves_refl].
    eapply evolves_put; [exact E |].
    destruct (Http2Facts.read_data_callback_frame wc msg sd length flags)
      as (F1 & F2 & F3 & _).
    repeat split; [exact F1 | rewrite F2; apply Http2Facts.status_le_refl |].
    intros _. exact F3.
  - destruct (find_stream p c) as [sd |] eqn:E; [| apply evolves_refl].
    destruct (send_data_callback_spec c sd length) as [Hs He].
    destruct (send_data_callback c sd length) as [c1 sd1].
    cbn [fst snd] in Hs, He.
    eapply evolves_trans; [apply evolves_same; exact Hs |].
    eapply evolves_put; [| exact He].
    unfold find_stream in *. rewrite Hs. exact E.
Qed.

Lemma send_cbs_evolve cbs :
  forall c, evolves c (fold_left (fun acc cb => run_send_cb cb acc) cbs c).
Proof.
  induction cbs as [| cb cbs IH]; intros c; cbn [fold_left].
  - apply evolves_refl.
  - eapply evolves_trans; [apply run_send_cb_evolves | apply IH].
Qed.

Lemma nghttp2_session_send_evolves cbs c :
  evolves c (nghttp2_session_send cbs c).
Proof.
  unfold nghttp2_session_send.
  eapply evolves_trans; [apply evolves_log | apply send_cbs_evolve].
Qed.

Lemma send_settings_frame_evolves cbs c :
  evolves c (send_settings_frame cbs c).
Proof.
  unfold send_settings_frame.
  destruct (negb (initial_settings_frame_sent c)); [| apply evolves_refl].
  eapply evolves_trans; [apply evolves_log |].
  eapply evolves_trans; [apply nghttp2_session_send_evolves |].
  same_streams.
Qed.

Lemma note_method_and_status_evolves hdrs :
  forall sd, stream_evolves sd (note_method_and_status hdrs sd).
Proof.
  unfold note_method_and_status.
  induction hdrs as [| h hdrs IH]; intros sd; cbn [fold_left].
  - apply Http2Facts.stream_evolves_refl.
  - eapply Http2Facts.stream_evolves_trans; [| apply IH].
    destruct (String.eqb METHOD (fst h)), (String.eqb STATUS (fst h));
      setters.
Qed.

Ltac peel :=
  match goal with
  | |- evolves ?c ?c => apply evolves_refl
  | |- evolves _ (log _ _) =>
      eapply evolves_trans; [| apply evolves_log]
  | |- evolves _ (log_release _ _) =>
      eapply evolves_trans; [| apply evolves_log_release]
  | |- evolves _ (nghttp2_session_send _ _) =>
      eapply evolves_trans; [| apply nghttp2_session_send_evolves]
  | |- evolves _ (send_settings_frame _ _) =>
      eapply evolves_trans; [| apply send_settings_frame_evolves]
  | |- evolves _ (on_stream _ _ _) =>
      eapply evolves_trans; [| apply evolves_on_stream; intros ?; setters]
  | |- evolves _ (set_delay_buffer_write _ ?x) =>
      eapply evolves_trans; [| apply (evolves_same x); reflexivity]
  | |- evolves _ (set_data_prd_source _ ?x) =>
      eapply evolves_trans; [| apply (evolves_same x); reflexivity]
  end.

Ltac chain := repeat peel.

Lemma outgoing_send_headers_evolves flow a p c b c' :
  outgoing_send_headers flow a p c = Some (b, c') -> evolves c c'.
Proof.
  unfold outgoing_send_headers.
  destruct (find_stream p c) as [sd |] eqn:Ef; [| discriminate].
  destruct (outgoing_headers flow (oa_app_properties a)) as [hdrs |];
    [| discriminate].
  set (c1 := put_stream _ c).
  assert (H1 : evolves c c1).
  { unfold c1. eapply evolves_put; [exact Ef |].
    eapply Http2Facts.stream_evolves_trans;
      [| apply note_method_and_status_evolves].
    setters. }
  clearbody c1.
  set (sid := if ingress c1 then stream_id sd else -1). clearbody sid.
  set (c2 := send_settings_frame (oa_send_settings a) c1).
  assert (H2 : evolves c c2)
    by (eapply evolves_trans; [exact H1 | apply send_settings_frame_evolves]).
  clearbody c2. clear H1 c1.
  destruct (qd_message_next_stream_data (oa_message a)) as [[res w] m1].
  set (c3 := on_stream p _ c2).
  assert (H3 : evolves c c3)
    by (eapply evolves_trans; [exact H2 |];
        apply evolves_on_stream; intros ?; setters).
  clearbody c3. clear H2 c2.
  match goal with
  | |- (let '(flags, c4) := ?X in _) = _ -> _ =>
      assert (H4 : evolves c (snd X)); [| destruct X as [flags c4]]
  end.
  { destruct res; try exact H3.
    destruct (window_payload_length w =? 0).
    - destruct (qd_message_next_stream_data m1) as [[nres nw] m2].
      destruct nres; cbn [snd];
        (eapply evolves_trans; [exact H3 |]); chain.
    - cbn [snd]. eapply evolves_trans; [exact H3 |]. chain. }
  cbn [snd] in H4. clear H3 c3.
  set (c5 := match find_stream p c4 with Some _ => _ | None => c4 end).
  assert (H5 : evolves c c5).
  { eapply evolves_trans; [exact H4 |]. unfold c5.
    destruct (find_stream p c4) as [s |]; [| apply evolves_refl].
    destruct (out_msg_has_body s); chain. }
  clearbody c5. clear H4 c4.
  destruct (oa_submit_headers a <? 0).
  - intros H. inversion H; subst. eapply evolves_trans; [exact H5 |]. chain.
  - intros H. inversion H; subst. eapply evolves_trans; [exact H5 |].
    destruct (oa_submit_headers a =? 0); chain.
Qed.

Lemma outgoing_send_body_evolves a p c c' :
  outgoing_send_body a p c = Some c' -> evolves c c'.
Proof.
  unfold outgoing_send_body.
  destruct (find_stream p c) as [sd |]; [| discriminate].
  destruct (out_msg_has_body sd);
    [| intros H; inversion H; apply evolves_refl].
  destruct (out_msg_header_sent sd).
  - intros H. inversion H; subst. chain.
  - destruct (negb (oa_submit_data a =? 0));
      [intros H; inversion H; subst; chain |].
    destruct (oa_session a); intros H; inversion H; subst; chain.
Qed.

Lemma outgoing_send_footer_evolves a p c c' :
  outgoing_send_footer a p c = Some c' -> evolves c c'.
Proof.
  unfold outgoing_send_footer.
  destruct (find_stream p c) as [sd |]; [| discriminate].
  destruct (out_msg_has_footer sd
            && negb (out_msg_has_body sd && negb (out_msg_body_sent sd)));
    [| intros H; inversion H; apply evolves_refl].
  set (c1 := nghttp2_session_send _ _).
  assert (H1 : evolves c c1) by (unfold c1; chain).
  clearbody c1.
  destruct (find_stream p c1) as [s |] eqn:Es; [| discriminate].
  intros H. inversion H; subst. clear H.
  eapply evolves_trans; [exact H1 |].
  set (c2 := log_release _ (log_release _ (log_release _ c1))).
  assert (Hs : streams c2 = streams c1).
  { unfold c2. rewrite !Http2Facts.streams_log_release. reflexivity. }
  eapply evolves_trans; [apply evolves_same; exact Hs |].
  eapply evolves_put with (sd := s);
    [unfold find_stream in *; rewrite Hs; exact Es |].
  destruct (curr_stream_data s); setters.
Qed.

Lemma outgoing_complete_evolves a p c c' :
  outgoing_complete a p c = Some c' -> evolves c c'.
Proof.
  unfold outgoing_complete.
  destruct (find_stream p c) as [sd |] eqn:Ef; [| discriminate].
  destruct (out_dlv sd) as [d |]; [| discriminate].
  match goal with
  | |- (let '(c1, sd1) := ?X in _) = _ -> _ =>
      assert (H1 : streams (fst X) = streams c
                   /\ stream_evolves sd (snd X));
      [| destruct X as [c1 sd1]]
  end.
  { match goal with
    | |- context [if ?b then _ else _] => destruct b
    end; cbn [fst snd]; (split; [reflexivity | setters]). }
  cbn [fst snd] in H1. destruct H1 as [Hs He].
  assert (Ef1 : find_stream p c1 = Some sd)
    by (unfold find_stream in *; rewrite Hs; exact Ef).
  assert (H01 : evolves c c1) by (apply evolves_same; exact Hs).
  destruct (oa_send_complete a).
  - destruct (Http2Facts.advance_stream_status_evolves sd1)
      as (A1 & A2 & _ & _ & A5).
    assert (He2 : stream_evolves sd (advance_stream_status sd1)).
    { eapply Http2Facts.stream_evolves_trans; [exact He |].
      repeat split; [exact A1 | exact A5 | intros _; exact A2]. }
    destruct (negb (disp_updated (advance_stream_status sd1))
              && status_eqb (status (advance_stream_status sd1))
                            QD_STREAM_FULLY_CLOSED).
    + intros H. inversion H; subst. clear H.
      eapply evolves_trans; [exact H01 |].
      eapply evolves_trans; [apply evolves_log |].
      eapply evolves_trans; [apply evolves_log |].
      eapply evolves_put with (sd := sd); [exact Ef1 |].
      eapply Http2Facts.stream_evolves_trans; [exact He2 |].
      destruct (Http2Facts.set_stream_data_delivery_flags_frame
                  (set_disp_updated true (advance_stream_status sd1))
                  (out_dlv (advance_stream_status sd1)))
        as (F1 & F2 & F3 & _). cbv zeta in F1, F2, F3.
      repeat split; cbn.
      * rewrite F1. reflexivity.
      * rewrite F2. apply Http2Facts.status_le_refl.
      * intros _. rewrite F3. reflexivity.
    + intros H. inversion H; subst.
      eapply evolves_trans; [exact H01 |].
      eapply evolves_put; [exact Ef1 | exact He2].
  - intros H. inversion H; subst.
    eapply evolves_trans; [exact H01 |].
    eapply evolves_put; [exact Ef1 | exact He].
Qed.

Lemma handle_outgoing_http_evolves flow a p c c' :
  handle_outgoing_http flow a p c = Some c' -> evolves c c'.
Proof.
  unfold handle_outgoing_http.
  destruct (find_stream p c) as [sd |]; [| discriminate].
  destruct (raw_closed_write c);
    [intros H; inversion H; apply evolves_refl |].
  destruct (out_dlv sd); [| intros H; inversion H; apply evolves_refl].
  destruct (out_msg_send_complete sd);
    [intros H; inversion H; apply evolves_refl |].
  match goal with
  | |- match ?X with _ => _ end = _ -> _ =>
      assert (H1 : forall b c1, X = Some (b, c1) -> evolves c c1);
      [| destruct X as [[[|] c1] |]]
  end.
  { destruct (negb (out_msg_header_sent sd)).
    - intros b c1. apply outgoing_send_headers_evolves.
    - intros b c1 H. inversion H; subst. apply evolves_refl. }
  - specialize (H1 true c1 eq_refl).
    destruct (outgoing_send_body a p c1) as [c2 |] eqn:E2; [| discriminate].
    apply outgoing_send_body_evolves in E2.
    match goal with
    | |- match outgoing_send_footer a p ?c3 with _ => _ end = _ -> _ =>
        assert (H3 : evolves c2 c3) by chain;
        destruct (outgoing_send_footer a p c3) as [c4 |] eqn:E4;
        [| discriminate]
    end.
    apply outgoing_send_footer_evolves in E4.
    intros H. apply outgoing_complete_evolves in H.
    eapply evolves_trans; [exact H1 |].
    eapply evolves_trans; [exact E2 |].
    eapply evolves_trans; [exact H3 |].
    eapply evolves_trans; [exact E4 | exact H].
  - intros H. inversion H; subst. apply (H1 false c' eq_refl).
  - discriminate.
Qed.

Lemma on_header_callback_evolves c sd_ptr frame name value c' :
  on_header_callback c sd_ptr frame name value = Some c' -> evolves c c'.
Proof.
  unfold on_header_callback.
  destruct frame; try (intros H; inversion H; apply evolves_refl).
  destruct sd_ptr as [p |]; [| discriminate].
  destruct (find_stream p c) as [sd |] eqn:Ef; [| discriminate].
  destruct (use_footer_properties sd).
  - intros H. injection H as <-.
    eapply evolves_put; [exact Ef | setters].
  - destruct (String.eqb METHOD name), (String.eqb STATUS name);
      intros H; injection H as <-;
      (eapply evolves_put; [exact Ef | setters]).
Qed.

Lemma free_all_connection_streams_none c on_shutdown :
  streams (free_all_connection_streams c on_shutdown) = [].
Proof.
  unfold free_all_connection_streams.
  destruct (FreeFacts.free_all_loop_spec on_shutdown (length (streams c)) c
              (Nat.le_refl _)) as (S1 & _).
  exact S1.
Qed.

Lemma close_connections_streams c :
  streams (close_connections c) = streams c.
Proof.
  unfold close_connections.
  destruct (dummy_link c); cbn;
    match goal with
    | |- context [if ?b then _ else _] => destruct b
    end; reflexivity.
Qed.

Lemma handle_disconnected_none c : streams (handle_disconnected c) = [].
Proof.
  unfold handle_disconnected, clean_http2_conn.
  repeat match goal with
         | |- context [if ?b then _ else _] => destruct b
         end;
    rewrite ?close_connections_streams; cbn [streams log set_trace];
    apply free_all_connection_streams_none.
Qed.

Lemma activation_step_evolves o c : evolves c (activation_step o c).
Proof.
  destruct o as [msec | | | | tls_ready]; cbn [activation_step].
  - apply evolves_same. unfold schedule_activation. cbn.
    destruct (negb (activate_scheduled c)); reflexivity.
  - same_streams.
  - apply evolves_same. unfold qdr_http_activate.
    destruct (is_some (pn_raw_conn c)
              && negb (raw_closed_read c && raw_closed_write c));
      [reflexivity |].
    destruct (is_some (activate_timer c)); [| reflexivity].
    unfold schedule_activation. cbn.
    destruct (negb (activate_scheduled c)); reflexivity.
  - apply evolves_none. unfold raw_disconnected, handle_connection_event.
    apply handle_disconnected_none.
  - unfold timer_expires. destruct (timer_pending c); [apply evolves_refl |].
    unfold egress_conn_timer_handler.
    match goal with
    | |- context [if delete_egress_connections ?c1 then _ else _] =>
        destruct (delete_egress_connections c1)
    end.
    + apply evolves_none. cbn [streams log set_trace].
      apply free_all_connection_streams_none.
    + apply evolves_same.
      repeat match goal with
             | |- context [if ?b then _ else _] => destruct b
             end; try reflexivity.
      unfold http_connector_establish. destruct tls_ready; reflexivity.
Qed.

Lemma adaptor_call_step_evolves flow q2 call c c' :
  adaptor_call_step flow q2 call c = Some c' -> evolves c c'.
Proof.
  destruct call; cbn [adaptor_call_step].
  - intros H. inversion H; subst.
    destruct (Http2Facts.adapter_step_ok q2 o c) as [He _]. exact He.
  - apply handle_outgoing_http_evolves.
  - intros H. inversion H; subst. apply nghttp2_session_send_evolves.
  - apply on_header_callback_evolves.
  - unfold qdr_http2_q2_unblocked_handler.
    destruct (is_some (pn_raw_conn c)); intros H; inversion H; subst;
      [same_streams | apply evolves_refl].
  - intros H. inversion H; subst. apply activation_step_evolves.
  - intros H. inversion H; subst. apply evolves_none.
    apply free_all_connection_streams_none.
Qed.

Lemma adaptor_calls_run_evolves flow q2 calls :
  forall c c',
    adaptor_calls_run flow q2 calls c = Some c' -> evolves c c'.
Proof.
  induction calls as [| call rest IH]; intros c c'; cbn [adaptor_calls_run].
  - intros H. inversion H; subst. apply evolves_refl.
  - destruct (adaptor_call_step flow q2 call c) as [c1 |] eqn:E;
      [| discriminate].
    intros H. eapply evolves_trans;
      [eapply adaptor_call_step_evolves; exact E | apply IH, H].
Qed.

End OutgoingFacts.

(** C7.  [advance_stream_status] maps OPEN to HALF_CLOSED and HALF_CLOSED to
    FULLY_CLOSED and leaves a FULLY_CLOSED record unchanged.  Over any run
    of the adaptor's entry points (the callbacks for DATA chunks, received
    frames and headers, link flow, second attach, delivery updates, the
    data read callback, [handle_outgoing_http] and the callbacks nghttp2
    makes while it sends, the Q2 unblocked handler, the activation timer
    and the disconnect, the freeing of all streams) a stream record that
    is still there has a status that is not earlier, in the order
    OPEN < HALF_CLOSED < FULLY_CLOSED, than the one it had. *)
Theorem stream_status_monotonic :
  (forall sd,
      Http2.status sd = Http2.QD_STREAM_OPEN ->
      Http2.status (Http2.advance_stream_status sd)
      = Http2.QD_STREAM_HALF_CLOSED)
  /\ (forall sd,
         Http2.status sd = Http2.QD_STREAM_HALF_CLOSED ->
         Http2.status (Http2.advance_stream_status sd)
         = Http2.QD_STREAM_FULLY_CLOSED)
  /\ (forall sd,
         Http2.status sd = Http2.QD_STREAM_FULLY_CLOSED ->
         Http2.advance_stream_status sd = sd)
  /\ (forall q2 ops c p sd sd',
         Http2.find_stream p c = Some sd ->
         Http2.find_stream p (Http2.adapter_run q2 ops c) = Some sd' ->
         Http2.status_le (Http2.status sd) (Http2.status sd'))
  /\ (forall flow_id q2 calls c c' p sd sd',
         Http2.adaptor_calls_run flow_id q2 calls c = Some c' ->
         Http2.find_stream p c = Some sd ->
         Http2.find_stream p c' = Some sd' ->
         Http2.status_le (Http2.status sd) (Http2.status sd')).
Proof.
  split; [| split; [| split; [| split]]].
  - intros sd H. unfold Http2.advance_stream_status. rewrite H. reflexivity.
  - intros sd H. unfold Http2.advance_stream_status. rewrite H. reflexivity.
  - intros sd H. unfold Http2.advance_stream_status. rewrite H. reflexivity.
  - intros q2 ops c p sd sd' Hc Hc'.
    destruct (Http2Facts.adapter_run_evolves q2 ops c p sd' Hc')
      as (a & Ha & _ & Hle & _).
    rewrite Http2Facts.find_stream_lookup in Hc. rewrite Hc in Ha.
    inversion Ha; subst a. exact Hle.
  - intros flow_id q2 calls c c' p sd sd' Hrun Hc Hc'.
    pose proof (OutgoingFacts.adaptor_calls_run_evolves
                  flow_id q2 calls c c' Hrun) as He.
    rewrite Http2Facts.find_stream_lookup in Hc, Hc'.
    destruct (He p sd' Hc') as (a & Ha & _ & Hle & _).
    rewrite Hc in Ha. inversion Ha; subst a. exact Hle.
Qed.

(** Stream 1 of the example connection advances from OPEN to HALF_CLOSED.
    The responding stream, HALF_CLOSED, is FULLY_CLOSED after the run in
    which [handle_outgoing_http] sends its response. *)
Lemma stream_status_monotonic_witness :
  Http2.status (Http2.advance_stream_status Http2.example_stream_1)
  = Http2.QD_STREAM_HALF_CLOSED
  /\ exists c' sd',
      Http2.adaptor_calls_run Http2.example_flow_key Http2.no_q2
                              Http2.example_calls
                              Http2.example_ingress_responding = Some c'
      /\ Http2.find_stream 1 c' = Some sd'
      /\ Http2.status Http2.example_responding_stream
         = Http2.QD_STREAM_HALF_CLOSED
      /\ Http2.status sd' = Http2.QD_STREAM_FULLY_CLOSED
      /\ Http2.status_le (Http2.status Http2.example_responding_stream)
                         (Http2.status sd').
Proof.
  destruct stream_status_monotonic as (Hopen & _ & _ & _ & Hrun).
  split; [apply Hopen; reflexivity |].
  eexists. eexists.
  split; [vm_compute; reflexivity |].
  split; [vm_compute; reflexivity |].
  split; [reflexivity |]. split; [reflexivity |].
  eapply (Hrun Http2.example_flow_key Http2.no_q2 Http2.example_calls
               Http2.example_ingress_responding _ 1%nat).
  - vm_compute. reflexivity.
  - vm_compute. reflexivity.
  - vm_compute. reflexivity.
Defined.
(** ** The link table of the management agent *)

Module AgentFacts.
Import AgentLink.
Local Open Scope Z_scope.

Lemma scan_app l1 : forall l2 d c,
  scan d c (l1 ++ l2)
  = match scan d c l1 with
    | Some (d', c') => scan d' c' l2
    | None => None
    end.
Proof.
  induction l1 as [| x l1 IH]; intros l2 d c; [reflexivity |].
  destruct x; cbn; try apply IH.
  destruct d; [reflexivity | apply IH].
Qed.

Lemma balanced_nil : balanced 0 [].
Proof. intros d c. cbn. destruct (Nat.eqb d 0); reflexivity. Qed.

Lemma balanced_single x :
  x <> C_start_list -> x <> C_end_list -> balanced 1 [x].
Proof. intros H1 H2 d c. destruct x; cbn; congruence. Qed.

Lemma balanced_app n m l1 l2 :
  balanced n l1 -> balanced m l2 -> balanced (n + m) (l1 ++ l2).
Proof.
  intros H1 H2 d c. rewrite scan_app, H1, H2.
  destruct (Nat.eqb d 0); [| reflexivity].
  f_equal. f_equal. lia.
Qed.

Lemma balanced_list n inner :
  balanced n inner -> balanced 1 (C_start_list :: inner ++ [C_end_list]).
Proof.
  intros H d c. cbn [scan]. rewrite scan_app, H. cbn. reflexivity.
Qed.

Lemma balanced_row n row : is_row n row -> balanced 1 row.
Proof. intros (inner & -> & H). eapply balanced_list, H. Qed.

Lemma balanced_count n calls :
  balanced n calls -> top_level_count calls = Some n.
Proof.
  intros H. unfold top_level_count. rewrite H. cbn.
  rewrite Nat.add_0_r. reflexivity.
Qed.

Lemma insert_ulongs h b :
  fold_left qd_compose_insert_ulong h b
  = b ++ map (fun v => C_insert_ulong (to_uint64 v)) h.
Proof.
  revert b. induction h as [| v h IH]; intros b; cbn.
  - rewrite app_nil_r. reflexivity.
  - rewrite IH. unfold qd_compose_insert_ulong. rewrite <- app_assoc.
    reflexivity.
Qed.

Lemma balanced_inner_ulongs h :
  forall n, balanced n (map (fun v => C_insert_ulong (to_uint64 v)) h)
            <-> n = length h.
Proof.
  assert (H : balanced (length h)
                       (map (fun v => C_insert_ulong (to_uint64 v)) h)).
  { induction h as [| v h IH]; [apply balanced_nil |].
    change (balanced (1 + length h)
              ([C_insert_ulong (to_uint64 v)]
                 ++ map (fun v => C_insert_ulong (to_uint64 v)) h)).
    apply balanced_app; [apply balanced_single; discriminate | exact IH]. }
  intros n. split.
  - intros Hn. pose proof (Hn 0%nat 0%nat) as A. rewrite H in A.
    cbn in A. inversion A. lia.
  - intros ->. exact H.
Qed.

Ltac col_case :=
  match goal with
  | |- context [if ?b then _ else _] => destruct b eqn:?
  end.

Ltac one_value :=
  cbn [fst];
  rewrite ?insert_ulongs;
  unfold qd_compose_end_list, qd_compose_start_list,
    qd_compose_insert_string, qd_compose_insert_null,
    qd_compose_insert_uint, qd_compose_insert_ulong;
  rewrite <- ?app_assoc;
  eexists; (split; [reflexivity |]);
  first [ apply balanced_single; discriminate
        | eapply balanced_list; apply balanced_inner_ulongs; reflexivity ].

Ltac break_cells :=
  repeat match goal with
         | |- context [match ?x with Some _ => _ | None => _ end] =>
             destruct x
         | |- context [match oper_status ?l with _ => _ end] =>
             destruct (oper_status l)
         | |- context [let '(a, b) := ?X in _] => destruct X
         | |- context [if ?b then _ else _] => destruct b
         end.

Lemma write_column_one_value D uptime body col link :
  exists new,
    fst (qdr_agent_write_column_CT D uptime body col link) = body ++ new
    /\ balanced 1 new.
Proof.
  unfold qdr_agent_write_column_CT.
  repeat (col_case; cbv iota; [break_cells; one_value |]).
  one_value.
Qed.

Lemma write_column_keeps_link D uptime body col link :
  col <> QDR_LINK_SETTLE_RATE ->
  snd (qdr_agent_write_column_CT D uptime body col link) = link.
Proof.
  intros Hc. unfold qdr_agent_write_column_CT.
  repeat (col_case; cbv iota;
          [first [ reflexivity
                 | match goal with
                   | H : (col =? QDR_LINK_SETTLE_RATE) = true |- _ =>
                       apply Z.eqb_eq in H; contradiction
                   end ] |]).
  reflexivity.
Qed.

Lemma write_columns_values D uptime columns :
  forall body link,
    Forall (fun c => 0 <= c) columns ->
    exists new,
      fst (write_columns D uptime body columns link) = body ++ new
      /\ balanced (length columns) new
      /\ (~ In QDR_LINK_SETTLE_RATE columns ->
          snd (write_columns D uptime body columns link) = link).
Proof.
  induction columns as [| col rest IH]; intros body link Hnn.
  - exists []. cbn. rewrite app_nil_r. repeat split; auto.
    apply balanced_nil.
  - inversion Hnn as [| x l Hcol Hrest]; subst.
    cbn [write_columns].
    destruct (col <? 0) eqn:E; [apply Z.ltb_lt in E; lia |].
    destruct (write_column_one_value D uptime body col link)
      as (new1 & H1 & V1).
    pose proof (write_column_keeps_link D uptime body col link) as K1.
    destruct (qdr_agent_write_column_CT D uptime body col link)
      as [body1 link1]. cbn [fst snd] in H1, K1. subst body1.
    destruct (IH (body ++ new1) link1 Hrest) as (new2 & H2 & V2 & K2).
    exists (new1 ++ new2). cbv beta iota zeta. rewrite H2, app_assoc.
    split; [reflexivity |].
    split.
    + change (length (col :: rest)) with (1 + length rest)%nat.
      apply balanced_app; assumption.
    + intros Hn. rewrite K2.
      * apply K1. intros Habs. apply Hn. left. congruence.
      * intros Habs. apply Hn. right. exact Habs.
Qed.

Lemma write_link_row D uptime body columns link :
  Forall (fun c => 0 <= c) columns ->
  exists row link',
    qdr_agent_write_link_CT D uptime body columns (Some link)
    = (body ++ row, Some link')
    /\ is_row (length columns) row
    /\ (~ In QDR_LINK_SETTLE_RATE columns -> link' = link).
Proof.
  intros Hnn. unfold qdr_agent_write_link_CT.
  destruct (write_columns_values D uptime columns
              (qd_compose_start_list body) link Hnn) as (new & H1 & V & K).
  destruct (write_columns D uptime (qd_compose_start_list body) columns link)
    as [body2 l1]. cbn [fst snd] in H1, K. subst body2.
  exists (C_start_list :: new ++ [C_end_list]), l1.
  split; [| split; [exists new; split; [reflexivity | exact V] | exact K]].
  unfold qd_compose_end_list, qd_compose_start_list.
  rewrite <- !app_assoc. reflexivity.
Qed.

End AgentFacts.

(** X13.  The name [qd_link_type_name] gives a link type determines the
    type: the five enumerators have five different names, none of them
    empty, and only a value that is no enumerator gets the empty string;
    this name is what the linkType column holds. *)
Theorem link_type_names_are_distinct :
  (forall a b,
      AgentLink.qd_link_type_name a = AgentLink.qd_link_type_name b -> a = b)
  /\ (forall a,
         AgentLink.qd_link_type_name a = EmptyString
         <-> a = AgentLink.QD_LINK_OTHER)
  /\ (forall D uptime body link,
         AgentLink.qdr_agent_write_column_CT
           D uptime body AgentLink.QDR_LINK_LINK_TYPE link
         = (body ++ [AgentLink.C_insert_string
                       (Some (AgentLink.qd_link_type_name
                                (AgentLink.link_type link)))], link)).
Proof.
  split; [| split].
  - intros a b H. destruct a, b; cbn in H; try reflexivity; discriminate.
  - intros a. split; intros H; [| subst; reflexivity].
    destruct a; cbn in H; try reflexivity; discriminate.
  - reflexivity.
Qed.

(** X14.  The row the agent writes for a link is one list with exactly one
    value per requested column, in the order of the columns, whatever the
    columns are: every list started inside it is ended, a column number
    that is none of the 28 known ones yields a null, and the link record
    is left as it was unless the settle rate was asked for.  For no link
    the row is the empty list. *)
Theorem link_row_has_one_value_per_column :
  (forall D uptime body columns link,
      Forall (fun c => (0 <= c)%Z) columns ->
      exists row link',
        AgentLink.qdr_agent_write_link_CT D uptime body columns (Some link)
        = (body ++ row, Some link')
        /\ AgentLink.is_row (length columns) row
        /\ AgentLink.top_level_count row = Some 1%nat
        /\ (~ In AgentLink.QDR_LINK_SETTLE_RATE columns -> link' = link))
  /\ (forall D uptime body col link,
         (27 < col)%Z ->
         AgentLink.qdr_agent_write_column_CT D uptime body col link
         = (body ++ [AgentLink.C_insert_null], link))
  /\ (forall D uptime body columns,
         AgentLink.qdr_agent_write_link_CT D uptime body columns None
         = (body ++ [AgentLink.C_start_list; AgentLink.C_end_list], None)).
Proof.
  split; [| split].
  - intros D uptime body columns link Hnn.
    destruct (AgentFacts.write_link_row D uptime body columns link Hnn)
      as (row & link' & H1 & H2 & H3).
    exists row, link'. split; [exact H1 |]. split; [exact H2 |].
    split; [| exact H3].
    apply AgentFacts.balanced_count. eapply AgentFacts.balanced_row, H2.
  - intros D uptime body col link Hc.
    unfold AgentLink.qdr_agent_write_column_CT.
    repeat (match goal with
            | |- context [if (col =? ?k)%Z then _ else _] =>
                destruct (Z.eqb_spec col k) as [E | _];
                [unfold AgentLink.QDR_LINK_NAME, AgentLink.QDR_LINK_IDENTITY,
                   AgentLink.QDR_LINK_TYPE, AgentLink.QDR_LINK_LINK_NAME,
                   AgentLink.QDR_LINK_LINK_TYPE, AgentLink.QDR_LINK_LINK_DIR,
                   AgentLink.QDR_LINK_OWNING_ADDR, AgentLink.QDR_LINK_CAPACITY,
                   AgentLink.QDR_LINK_UNDELIVERED_COUNT,
                   AgentLink.QDR_LINK_UNSETTLED_COUNT,
                   AgentLink.QDR_LINK_DELIVERY_COUNT,
                   AgentLink.QDR_LINK_CONNECTION_ID,
                   AgentLink.QDR_LINK_OPER_STATE,
                   AgentLink.QDR_LINK_PRESETTLED_COUNT,
                   AgentLink.QDR_LINK_DROPPED_PRESETTLED_COUNT,
                   AgentLink.QDR_LINK_ACCEPTED_COUNT,
                   AgentLink.QDR_LINK_REJECTED_COUNT,
                   AgentLink.QDR_LINK_RELEASED_COUNT,
                   AgentLink.QDR_LINK_MODIFIED_COUNT,
                   AgentLink.QDR_LINK_DELAYED_1SEC,
                   AgentLink.QDR_LINK_DELAYED_10SEC,
                   AgentLink.QDR_LINK_DELIVERIES_STUCK,
                   AgentLink.QDR_LINK_OPEN_MOVED_STREAMS,
                   AgentLink.QDR_LINK_INGRESS_HISTOGRAM,
                   AgentLink.QDR_LINK_PRIORITY, AgentLink.QDR_LINK_SETTLE_RATE,
                   AgentLink.QDR_LINK_CREDIT_AVAILABLE,
                   AgentLink.QDR_LINK_ZERO_CREDIT_SECONDS in E; lia |]
            end).
    reflexivity.
  - intros D uptime body columns.
    unfold AgentLink.qdr_agent_write_link_CT, AgentLink.qd_compose_end_list,
      AgentLink.qd_compose_start_list.
    rewrite <- app_assoc. reflexivity.
Qed.

(** The row of the example query for the example link: a list of three
    values, the second of them a list itself. *)
Lemma link_row_has_one_value_per_column_witness :
  exists row link',
    AgentLink.qdr_agent_write_link_CT
      5 7 [] (AgentLink.columns AgentLink.example_query)
      (Some (AgentLink.example_link 10))
    = ([] ++ row, Some link')
    /\ AgentLink.is_row 3 row.
Proof.
  destruct link_row_has_one_value_per_column as [H _].
  destruct (H 5%nat 7%Z [] (AgentLink.columns AgentLink.example_query)
              (AgentLink.example_link 10))
    as (row & link' & H1 & H2 & _).
  - vm_compute. repeat constructor; discriminate.
  - exists row, link'. split; [exact H1 | exact H2].
Defined.

(** ** The settle rate of a link, and paging through the link table *)

Module RateFacts.
Import AgentLink.

Lemma length_store i v a : length (store i v a) = length a.
Proof.
  revert i. induction a as [| x a IH]; intros [| j]; cbn; auto.
Qed.

Lemma nth_store a : forall i k v d,
  nth i (store k v a) d
  = if Nat.eqb i k && Nat.ltb k (length a) then v else nth i a d.
Proof.
  induction a as [| x a IH]; intros i k v d.
  - destruct k, i; cbn; rewrite ?andb_false_r; reflexivity.
  - destruct k as [| k], i as [| i]; cbn; try reflexivity.
    rewrite IH. reflexivity.
Qed.

Lemma existsb_pointwise {A : Type} (f g : A -> bool) l :
  (forall x, f x = g x) -> existsb f l = existsb g l.
Proof.
  intros H. induction l as [| x l IH]; cbn; [reflexivity |].
  rewrite H, IH. reflexivity.
Qed.

Lemma existsb_map_S (f : nat -> bool) l :
  existsb f (map S l) = existsb (fun j => f (S j)) l.
Proof. induction l as [| x l IH]; cbn; [| rewrite IH]; reflexivity. Qed.

(** The slots cleared by [n] steps from [cursor]. *)
Definition cleared (D cursor n i : nat) : bool :=
  existsb (fun j => Nat.eqb ((cursor + j) mod D) i) (seq 1 n).

Lemma clear_slots_spec D n :
  forall cursor slots,
    (0 < D)%nat -> length slots = D -> (cursor < D)%nat ->
    length (snd (clear_slots D n cursor slots)) = D
    /\ fst (clear_slots D n cursor slots) = ((cursor + n) mod D)%nat
    /\ forall i d,
        nth i (snd (clear_slots D n cursor slots)) d
        = if cleared D cursor n i then 0%Z else nth i slots d.
Proof.
  induction n as [| n IH]; intros cursor slots HD Hlen Hc.
  - cbn. rewrite Nat.add_0_r, Nat.mod_small by exact Hc. auto.
  - cbn [clear_slots].
    set (cursor' := ((cursor + 1) mod D)%nat).
    assert (Hc' : (cursor' < D)%nat)
      by (apply Nat.mod_upper_bound; lia).
    destruct (IH cursor' (store cursor' 0%Z slots) HD
                 (eq_trans (length_store _ _ _) Hlen) Hc')
      as (L & C & N).
    split; [exact L |]. split.
    + rewrite C. unfold cursor'.
      rewrite Nat.Div0.add_mod_idemp_l. f_equal. lia.
    + intros i d. rewrite N, nth_store, Hlen.
      assert (Hcl : cleared D cursor (S n) i
                    = Nat.eqb cursor' i || cleared D cursor' n i).
      { unfold cleared. change (seq 1 (S n)) with (1%nat :: seq 2 n).
        rewrite <- seq_shift. cbn [existsb]. rewrite existsb_map_S.
        f_equal.
        apply existsb_pointwise. intros j. unfold cursor'.
        rewrite Nat.Div0.add_mod_idemp_l. f_equal. f_equal. lia. }
      rewrite Hcl.
      destruct (Nat.ltb_spec cursor' D) as [_ | Hge]; [| lia].
      rewrite (Nat.eqb_sym i cursor'), andb_true_r.
      destruct (cleared D cursor' n i), (Nat.eqb cursor' i); reflexivity.
Qed.

(** A whole turn of the cursor clears every slot. *)
Lemma cleared_all D cursor i :
  (cursor < D)%nat -> (i < D)%nat -> cleared D cursor D i = true.
Proof.
  intros Hc Hi. unfold cleared. apply existsb_exists.
  set (j0 := ((i + D - cursor) mod D)%nat).
  assert (Hj0 : ((cursor + j0) mod D = i)%nat).
  { unfold j0. rewrite Nat.Div0.add_mod_idemp_r.
    replace (cursor + (i + D - cursor))%nat with (i + 1 * D)%nat by lia.
    rewrite Nat.Div0.mod_add. apply Nat.mod_small, Hi. }
  destruct (Nat.eq_dec j0 0) as [E | E].
  - exists D. split; [apply in_seq; lia |].
    apply Nat.eqb_eq. rewrite E, Nat.add_0_r in Hj0.
    replace (cursor + D)%nat with (cursor + 1 * D)%nat by lia.
    rewrite Nat.Div0.mod_add. exact Hj0.
  - exists j0. split; [| apply Nat.eqb_eq, Hj0].
    apply in_seq.
    assert (j0 < D)%nat by (apply Nat.mod_upper_bound; lia). lia.
Qed.

Lemma sum_all_zero l : all_zero l -> fold_left Z.add l 0%Z = 0%Z.
Proof.
  unfold all_zero. induction 1 as [| x l Hx _ IH]; [reflexivity |].
  cbn. subst x. exact IH.
Qed.

Lemma clear_slots_turn D cursor slots :
  (0 < D)%nat -> length slots = D -> (cursor < D)%nat ->
  all_zero (snd (clear_slots D D cursor slots)).
Proof.
  intros HD Hlen Hc.
  destruct (clear_slots_spec D D cursor slots HD Hlen Hc) as (L & _ & N).
  unfold all_zero. apply Forall_nth. intros i d Hi.
  rewrite N, cleared_all; [reflexivity | exact Hc | lia].
Qed.

End RateFacts.

(** X15.  The settle-rate column, for a link with as many rate slots as
    the rate depth (at most 255, the range of the loop counter) and its
    cursor among them.  With no tick since the last query nothing is
    written to the link.  Otherwise the cursor advances by the ticks
    elapsed, limited to the depth, the slots it passes are cleared and all
    the others keep their counts, and the link's tick count is brought up
    to date.  When at least as many ticks have elapsed as there are slots,
    every slot is cleared and the rate reported is 0.  The rate reported
    is always the sum of the slots, as left, divided by the depth. *)
Theorem settle_rate_clears_the_elapsed_slots :
  forall D uptime link,
    (0 < D <= 255)%nat ->
    length (AgentLink.settled_deliveries link) = D ->
    (AgentLink.rate_cursor link < D)%nat ->
    let delta := AgentLink.to_uint32 (uptime - AgentLink.core_ticks link) in
    let steps := Z.to_nat (Z.min delta (Z.of_nat D)) in
    let rate := fst (AgentLink.settle_rate D uptime link) in
    let link' := snd (AgentLink.settle_rate D uptime link) in
    length (AgentLink.settled_deliveries link') = D
    /\ AgentLink.rate_cursor link'
       = ((AgentLink.rate_cursor link + steps) mod D)%nat
    /\ (forall i d,
           nth i (AgentLink.settled_deliveries link') d
           = if RateFacts.cleared D (AgentLink.rate_cursor link) steps i
             then 0%Z
             else nth i (AgentLink.settled_deliveries link) d)
    /\ (delta = 0%Z -> link' = link)
    /\ ((0 < delta)%Z -> AgentLink.core_ticks link' = uptime)
    /\ ((Z.of_nat D <= delta)%Z ->
        AgentLink.all_zero (AgentLink.settled_deliveries link')
        /\ rate = 0%Z)
    /\ rate
       = (AgentLink.to_uint64
            (fold_left Z.add (AgentLink.settled_deliveries link') 0)
          / Z.of_nat D)%Z.
Proof.
  intros D uptime link HD Hlen Hc delta steps rate link'.
  assert (Hdelta : (0 <= delta)%Z).
  { unfold delta, AgentLink.to_uint32. apply Z.mod_pos_bound. lia. }
  assert (Hshape :
            link' = (if (0 <? delta)%Z
                     then AgentLink.set_rate uptime
                            (fst (AgentLink.clear_slots
                                    D steps (AgentLink.rate_cursor link)
                                    (AgentLink.settled_deliveries link)))
                            (snd (AgentLink.clear_slots
                                    D steps (AgentLink.rate_cursor link)
                                    (AgentLink.settled_deliveries link)))
                            link
                     else link)
            /\ rate
               = (AgentLink.to_uint64
                    (fold_left Z.add
                       (firstn D (AgentLink.settled_deliveries link')) 0)
                  / Z.of_nat D)%Z).
  { unfold link', rate, AgentLink.settle_rate. fold delta.
    destruct (0 <? delta)%Z eqn:E0; [| split; reflexivity].
    assert (Hmin : (if (Z.of_nat D <? delta)%Z then Z.of_nat D else delta)
                   = Z.min delta (Z.of_nat D)).
    { destruct (Z.ltb_spec (Z.of_nat D) delta); lia. }
    rewrite Hmin. fold steps.
    destruct (AgentLink.clear_slots D steps (AgentLink.rate_cursor link)
                (AgentLink.settled_deliveries link)) as [cur slots].
    split; reflexivity. }
  destruct Hshape as [Hl Hr].
  destruct (RateFacts.clear_slots_spec D steps (AgentLink.rate_cursor link)
              (AgentLink.settled_deliveries link)
              (proj1 HD) Hlen Hc) as (L & C & N).
  assert (Hlen' : length (AgentLink.settled_deliveries link') = D).
  { rewrite Hl. destruct (0 <? delta)%Z; [exact L | exact Hlen]. }
  assert (Hrate : rate
                  = (AgentLink.to_uint64
                       (fold_left Z.add
                          (AgentLink.settled_deliveries link') 0)
                     / Z.of_nat D)%Z).
  { rewrite Hr, <- Hlen', firstn_all. reflexivity. }
  split; [exact Hlen' |].
  destruct (Z.ltb_spec 0 delta) as [Hpos | Hzero].
  - rewrite Hl in *. cbn [AgentLink.settled_deliveries AgentLink.rate_cursor
                            AgentLink.core_ticks AgentLink.set_rate] in *.
    split; [exact C |]. split; [exact N |].
    split; [lia |]. split; [reflexivity |]. split; [| exact Hrate].
    intros Hge.
    assert (Hsteps : steps = D) by (unfold steps; lia).
    assert (Hz : AgentLink.all_zero
                   (snd (AgentLink.clear_slots
                           D steps (AgentLink.rate_cursor link)
                           (AgentLink.settled_deliveries link)))).
    { rewrite Hsteps. apply RateFacts.clear_slots_turn; [lia | | ]; auto. }
    split; [exact Hz |].
    rewrite Hrate, (RateFacts.sum_all_zero _ Hz). reflexivity.
  - assert (Hd0 : delta = 0%Z) by lia.
    assert (Hs0 : steps = 0%nat) by (unfold steps; lia).
    rewrite Hl in *. rewrite Hs0.
    split; [rewrite Nat.add_0_r, Nat.mod_small by exact Hc; reflexivity |].
    split; [intros i d; reflexivity |].
    split; [reflexivity |]. split; [lia |]. split; [lia | exact Hrate].
Qed.

(** The example link, queried 7 ticks after its last update with a depth
    of 5: every slot is cleared and the rate is 0. *)
Lemma settle_rate_clears_the_elapsed_slots_witness :
  fst (AgentLink.settle_rate 5 7 (AgentLink.example_link 10)) = 0%Z.
Proof.
  destruct (settle_rate_clears_the_elapsed_slots 5%nat 7%Z
              (AgentLink.example_link 10))
    as (_ & _ & _ & _ & _ & H & _).
  - lia.
  - reflexivity.
  - cbn. lia.
  - apply H. vm_compute. discriminate.
Defined.

Module PageFacts.
Import AgentLink.
Local Open Scope Z_scope.

Lemma length_replace_link i v l : length (replace_link i v l) = length l.
Proof.
  revert i. induction l as [| x l IH]; intros [| j]; cbn; auto.
Qed.

Lemma replace_link_same l : forall i v,
  nth_error l i = Some v -> replace_link i v l = l.
Proof.
  induction l as [| x l IH]; intros [| j] v H; cbn in *; try discriminate.
  - inversion H. reflexivity.
  - f_equal. apply IH, H.
Qed.

Lemma to_uint64_small z : 0 <= z < 2 ^ 31 -> to_uint64 z = z.
Proof. intros H. unfold to_uint64. apply Z.mod_small. lia. Qed.

Lemma link_at_nth offset l :
  0 <= offset -> link_at offset l = nth_error l (Z.to_nat offset).
Proof.
  intros H. unfold link_at.
  destruct (Z.ltb_spec offset 0); [lia | reflexivity].
Qed.

Lemma more_after (l : list qdr_link_t) i :
  match nth_error l (S i) with Some _ => true | None => false end
  = (Z.of_nat i + 1 <? Z.of_nat (length l)).
Proof.
  destruct (nth_error l (S i)) eqn:E.
  - assert (S i < length l)%nat by (apply nth_error_Some; congruence).
    symmetry. apply Z.ltb_lt. lia.
  - apply nth_error_None in E. symmetry. apply Z.ltb_ge. lia.
Qed.

(** What one row written at [offset] does to the core and the query. *)
Definition advanced (core : qdr_core_t) (q : qdr_query_t) (offset : Z)
           (core' : qdr_core_t) (q' : qdr_query_t) : Prop :=
  (exists row, body q' = body q ++ row /\ is_row (length (columns q)) row)
  /\ next_offset q' = offset + 1
  /\ more q' = (offset + 1 <? DEQ_SIZE (open_links core))
  /\ responses q' = S (responses q)
  /\ columns q' = columns q
  /\ length (open_links core') = length (open_links core)
  /\ uptime_ticks core' = uptime_ticks core
  /\ (~ In QDR_LINK_SETTLE_RATE (columns q) -> core' = core).

Lemma write_and_advance_spec D core q offset link :
  Forall (fun c => 0 <= c) (columns q) ->
  0 <= offset -> next_offset q = offset ->
  nth_error (open_links core) (Z.to_nat offset) = Some link ->
  let r := write_and_advance D core q offset link in
  advanced core q offset (fst r)
           (qdr_agent_enqueue_response_CT (snd r))
  /\ status (snd r) = status q.
Proof.
  intros Hnn Ho Hno Hnth. cbv zeta. unfold write_and_advance.
  destruct (AgentFacts.write_link_row D (uptime_ticks core) (body q)
              (columns q) link Hnn) as (row & link' & Hw & Hrow & Hk).
  rewrite Hw. unfold advanced, qdr_agent_enqueue_response_CT.
  cbn [fst snd body next_offset more responses columns status open_links
       uptime_ticks].
  split; [| reflexivity].
  split; [exists row; auto |]. split; [lia |].
  split.
  { rewrite more_after. unfold DEQ_SIZE. rewrite Z2Nat.id by exact Ho.
    reflexivity. }
  split; [reflexivity |]. split; [reflexivity |].
  split; [apply length_replace_link |]. split; [reflexivity |].
  intros Hn. rewrite (Hk Hn), (replace_link_same _ _ _ Hnth).
  destruct core. reflexivity.
Qed.

Lemma get_next_spec D core q :
  Forall (fun c => 0 <= c) (columns q) ->
  0 <= next_offset q < DEQ_SIZE (open_links core) ->
  DEQ_SIZE (open_links core) < 2 ^ 31 ->
  let r := qdra_link_get_next_CT D core q in
  advanced core q (next_offset q) (fst r) (snd r)
  /\ status (snd r) = status q.
Proof.
  intros Hnn Ho Hsz. cbv zeta. unfold qdra_link_get_next_CT.
  rewrite to_uint64_small by lia.
  destruct (Z.ltb_spec (next_offset q) (DEQ_SIZE (open_links core)));
    [| lia].
  rewrite link_at_nth by lia.
  destruct (nth_error (open_links core) (Z.to_nat (next_offset q)))
    as [link |] eqn:E.
  - pose proof (write_and_advance_spec D core q (next_offset q) link Hnn
                  (proj1 Ho) eq_refl E) as H1. cbv zeta in H1.
    destruct (write_and_advance D core q (next_offset q) link)
      as [core1 q1]. exact H1.
  - apply nth_error_None in E. unfold DEQ_SIZE in *. lia.
Qed.

Lemma get_next_times_spec D n :
  forall core q,
    Forall (fun c => 0 <= c) (columns q) ->
    0 <= next_offset q ->
    next_offset q + Z.of_nat n <= DEQ_SIZE (open_links core) ->
    DEQ_SIZE (open_links core) < 2 ^ 31 ->
    let r := get_next_times D n core q in
    next_offset (snd r) = next_offset q + Z.of_nat n
    /\ ((0 < n)%nat ->
        more (snd r) = (next_offset (snd r) <? DEQ_SIZE (open_links core)))
    /\ responses (snd r) = (responses q + n)%nat
    /\ status (snd r) = status q
    /\ columns (snd r) = columns q
    /\ length (open_links (fst r)) = length (open_links core)
    /\ exists rows,
        body (snd r) = body q ++ concat rows
        /\ length rows = n
        /\ Forall (is_row (length (columns q))) rows.
Proof.
  induction n as [| n IH]; intros core q Hnn Ho Hle Hsz.
  - cbn. rewrite Z.add_0_r, Nat.add_0_r.
    repeat split; auto; [lia |].
    exists []. cbn. rewrite app_nil_r. auto.
  - cbn [get_next_times].
    destruct (get_next_spec D core q Hnn) as (A & St); [lia | lia |].
    cbv zeta in A, St.
    destruct (qdra_link_get_next_CT D core q) as [core1 q1].
    cbn [fst snd] in A, St.
    destruct A as ((row & Hb & Hrow) & Hn & Hm & Hr & Hc & Hl & _ & _).
    assert (Hsize : DEQ_SIZE (open_links core1) = DEQ_SIZE (open_links core))
      by (unfold DEQ_SIZE; rewrite Hl; reflexivity).
    destruct (IH core1 q1) as (N2 & M2 & R2 & S2 & C2 & L2 & rows & B2 & K2 & F2).
    + rewrite Hc. exact Hnn.
    + lia.
    + rewrite Hsize. lia.
    + rewrite Hsize. exact Hsz.
    + cbv zeta in *.
      split; [rewrite N2, Hn; lia |]. split.
      * intros _. destruct n as [| n'].
        -- cbn [get_next_times snd]. rewrite Hm, Hn. reflexivity.
        -- rewrite M2 by lia. rewrite Hsize. reflexivity.
      * split; [rewrite R2, Hr; lia |].
        split; [rewrite S2; exact St |].
        split; [rewrite C2; exact Hc |].
        split; [rewrite L2; exact Hl |].
        exists (row :: rows). rewrite B2, Hb, <- app_assoc. cbn [concat].
        split; [reflexivity |]. split; [cbn; lia |].
        constructor; [exact Hrow | rewrite Hc in F2; exact F2].
Qed.

Lemma get_first_spec D core q offset :
  Forall (fun c => 0 <= c) (columns q) ->
  0 <= offset < DEQ_SIZE (open_links core) ->
  DEQ_SIZE (open_links core) < 2 ^ 31 ->
  let r := qdra_link_get_first_CT D core q offset in
  advanced core q offset (fst r) (snd r)
  /\ status (snd r) = QD_AMQP_OK.
Proof.
  intros Hnn Ho Hsz. cbv zeta. unfold qdra_link_get_first_CT.
  rewrite to_uint64_small by lia.
  destruct (Z.leb_spec (DEQ_SIZE (open_links core)) offset); [lia |].
  rewrite link_at_nth by lia.
  destruct (nth_error (open_links core) (Z.to_nat offset))
    as [link |] eqn:E.
  - set (q2 := mkQuery _ _ offset _ _ _).
    pose proof (write_and_advance_spec D core q2 offset link
                  Hnn (proj1 Ho) eq_refl E) as H1. cbv zeta in H1.
    destruct (write_and_advance D core q2 offset link) as [core1 q3].
    exact H1.
  - apply nth_error_None in E. unfold DEQ_SIZE in *. lia.
Qed.

End PageFacts.

(** X16.  [qdra_link_get_first_CT] always answers with status OK and one
    response.  For an offset beyond the table it writes no row and says
    there is no more.  For an offset within the table it writes exactly
    one row, for the link at that offset, sets the next offset to the one
    after it, and says there is more exactly when another link follows;
    the table keeps its length, and is untouched unless the settle rate
    was asked for. *)
Theorem get_first_reports_the_link_at_the_offset :
  (forall D core q offset,
      (AgentLink.DEQ_SIZE (AgentLink.open_links core) <= offset < 2 ^ 31)%Z ->
      AgentLink.qdra_link_get_first_CT D core q offset
      = (core,
         AgentLink.mkQuery AgentLink.QD_AMQP_OK false
                           (AgentLink.next_offset q) (AgentLink.columns q)
                           (AgentLink.body q) (S (AgentLink.responses q))))
  /\ (forall D core q offset,
         Forall (fun c => (0 <= c)%Z) (AgentLink.columns q) ->
         (0 <= offset < AgentLink.DEQ_SIZE (AgentLink.open_links core))%Z ->
         (AgentLink.DEQ_SIZE (AgentLink.open_links core) < 2 ^ 31)%Z ->
         let r := AgentLink.qdra_link_get_first_CT D core q offset in
         AgentLink.status (snd r) = AgentLink.QD_AMQP_OK
         /\ (exists row,
                AgentLink.body (snd r) = AgentLink.body q ++ row
                /\ AgentLink.is_row (length (AgentLink.columns q)) row)
         /\ AgentLink.next_offset (snd r) = (offset + 1)%Z
         /\ AgentLink.more (snd r)
            = (offset + 1
               <? AgentLink.DEQ_SIZE (AgentLink.open_links core))%Z
         /\ AgentLink.responses (snd r) = S (AgentLink.responses q)
         /\ length (AgentLink.open_links (fst r))
            = length (AgentLink.open_links core)
         /\ (~ In AgentLink.QDR_LINK_SETTLE_RATE (AgentLink.columns q) ->
             fst r = core)).
Proof.
  split.
  - intros D core q offset Ho. unfold AgentLink.qdra_link_get_first_CT.
    assert (H0 : (0 <= offset)%Z)
      by (unfold AgentLink.DEQ_SIZE in Ho; lia).
    rewrite PageFacts.to_uint64_small by lia.
    destruct (Z.leb_spec (AgentLink.DEQ_SIZE (AgentLink.open_links core))
                         offset); [reflexivity | lia].
  - intros D core q offset Hnn Ho Hsz r.
    destruct (PageFacts.get_first_spec D core q offset Hnn Ho Hsz)
      as (((row & Hb & Hrow) & Hn & Hm & Hr & Hc & Hl & _ & Hk) & Hs).
    split; [exact Hs |]. split; [exists row; auto |].
    split; [exact Hn |]. split; [exact Hm |]. split; [exact Hr |].
    split; [exact Hl | exact Hk].
Qed.

(** The example table has three links: offset 1 gives the second row and
    says there is more. *)
Lemma get_first_reports_the_link_at_the_offset_witness :
  AgentLink.more
    (snd (AgentLink.qdra_link_get_first_CT 5 AgentLink.example_core
            AgentLink.example_query 1)) = true.
Proof.
  destruct get_first_reports_the_link_at_the_offset as [_ H].
  destruct (H 5%nat AgentLink.example_core AgentLink.example_query 1%Z)
    as (_ & _ & _ & Hm & _).
  - vm_compute. repeat constructor; discriminate.
  - vm_compute. split; [discriminate | reflexivity].
  - vm_compute. reflexivity.
  - rewrite Hm. vm_compute. reflexivity.
Defined.

(** X17.  Paging through the table: after [qdra_link_get_first_CT] at
    offset 0 and [n] calls of [qdra_link_get_next_CT], for [n] below the
    number of links, the response holds exactly [n + 1] rows, one per
    link and each with one value per column; [n + 1] responses were sent;
    and the query says there is more exactly when links are left, so that
    a scan ends after as many calls as there are links.  A call of
    [qdra_link_get_next_CT] past the end writes no row and says there is
    no more. *)
Theorem paging_reports_every_link_once :
  (forall D n core q,
      Forall (fun c => (0 <= c)%Z) (AgentLink.columns q) ->
      (Z.of_nat n < AgentLink.DEQ_SIZE (AgentLink.open_links core))%Z ->
      (AgentLink.DEQ_SIZE (AgentLink.open_links core) < 2 ^ 31)%Z ->
      let r1 := AgentLink.qdra_link_get_first_CT D core q 0 in
      let r := AgentLink.get_next_times D n (fst r1) (snd r1) in
      AgentLink.more (snd r)
      = (Z.of_nat n + 1 <? AgentLink.DEQ_SIZE (AgentLink.open_links core))%Z
      /\ AgentLink.next_offset (snd r) = (Z.of_nat n + 1)%Z
      /\ AgentLink.responses (snd r) = (AgentLink.responses q + n + 1)%nat
      /\ exists rows,
          AgentLink.body (snd r) = AgentLink.body q ++ concat rows
          /\ length rows = S n
          /\ Forall (AgentLink.is_row (length (AgentLink.columns q))) rows)
  /\ (forall D core q,
         (AgentLink.DEQ_SIZE (AgentLink.open_links core)
          <= AgentLink.next_offset q < 2 ^ 31)%Z ->
         AgentLink.qdra_link_get_next_CT D core q
         = (core,
            AgentLink.mkQuery (AgentLink.status q) false
                              (AgentLink.next_offset q) (AgentLink.columns q)
                              (AgentLink.body q)
                              (S (AgentLink.responses q)))).
Proof.
  split.
  - intros D n core q Hnn Hn Hsz r1 r.
    assert (H0 : (0 <= 0 < AgentLink.DEQ_SIZE (AgentLink.open_links core))%Z)
      by lia.
    destruct (PageFacts.get_first_spec D core q 0 Hnn H0 Hsz)
      as (((row & Hb & Hrow) & Hno & Hm & Hr & Hc & Hl & _ & _) & _).
    fold r1 in Hb, Hno, Hm, Hr, Hc, Hl.
    assert (Hsize : AgentLink.DEQ_SIZE (AgentLink.open_links (fst r1))
                    = AgentLink.DEQ_SIZE (AgentLink.open_links core))
      by (unfold AgentLink.DEQ_SIZE; rewrite Hl; reflexivity).
    destruct (PageFacts.get_next_times_spec D n (fst r1) (snd r1))
      as (N2 & M2 & R2 & _ & _ & _ & rows & B2 & K2 & F2).
    + rewrite Hc. exact Hnn.
    + lia.
    + rewrite Hsize. lia.
    + rewrite Hsize. exact Hsz.
    + fold r in N2, M2, R2, B2. rewrite Hsize in M2.
      rewrite Hc in F2.
      split.
      * destruct n as [| n'].
        -- unfold r. cbn [AgentLink.get_next_times snd]. exact Hm.
        -- rewrite M2 by lia. rewrite N2, Hno. f_equal. lia.
      * split; [lia |]. split; [lia |].
        exists (row :: rows). rewrite B2, Hb, <- app_assoc. cbn [concat].
        split; [reflexivity |]. split; [cbn; lia |].
        constructor; assumption.
  - intros D core q Ho. unfold AgentLink.qdra_link_get_next_CT.
    assert (H0 : (0 <= AgentLink.next_offset q)%Z)
      by (unfold AgentLink.DEQ_SIZE in Ho; lia).
    rewrite PageFacts.to_uint64_small by lia.
    destruct (Z.ltb_spec (AgentLink.next_offset q)
                (AgentLink.DEQ_SIZE (AgentLink.open_links core)));
      [lia | reflexivity].
Qed.

(** The example table, read to its end: three rows, and no more. *)
Lemma paging_reports_every_link_once_witness :
  AgentLink.more
    (snd (AgentLink.get_next_times 5 2
            (fst (AgentLink.qdra_link_get_first_CT 5 AgentLink.example_core
                    AgentLink.example_query 0))
            (snd (AgentLink.qdra_link_get_first_CT 5 AgentLink.example_core
                    AgentLink.example_query 0)))) = false.
Proof.
  destruct paging_reports_every_link_once as [H _].
  destruct (H 5%nat 2%nat AgentLink.example_core AgentLink.example_query)
    as (Hm & _).
  - vm_compute. repeat constructor; discriminate.
  - vm_compute. reflexivity.
  - vm_compute. reflexivity.
  - rewrite Hm. vm_compute. reflexivity.
Defined.
(** ** The test receiver: the message limit, the credit and the address *)

Module ReceiverFacts.
Import Ascii.
Import TestReceiver.
Local Open Scope Z_scope.

Lemma settled_snoc l e :
  settled (l ++ [e])
  = (settled l + match e with pn_delivery_settle => 1 | _ => 0 end)%nat.
Proof.
  unfold settled. rewrite filter_app, length_app.
  destruct e; reflexivity.
Qed.

Lemma flows_app l1 l2 : flows (l1 ++ l2) = flows l1 ++ flows l2.
Proof. unfold flows. apply flat_map_app. Qed.

(** What one step keeps, for a receiver with a limit. *)
Definition limit_kept (g g1 : globals) : Prop :=
  limit g1 = limit g
  /\ count g <= count g1 <= limit g
  /\ (count g1 = limit g -> stop g1 = true)
  /\ (stop g = true -> stop g1 = true /\ count g1 = count g)
  /\ Z.of_nat (settled (calls g1))
     = Z.of_nat (settled (calls g)) + (count g1 - count g).

Definition limit_ok (g : globals) : Prop :=
  0 < limit g < 2 ^ 64
  /\ 0 <= count g <= limit g
  /\ (count g = limit g -> stop g = true).

Lemma limit_kept_refl g : limit_ok g -> limit_kept g g.
Proof.
  intros (Hl & Hc & Hs). unfold limit_kept.
  repeat split; auto; lia.
Qed.

Lemma limit_kept_ok g g1 : limit_ok g -> limit_kept g g1 -> limit_ok g1.
Proof.
  intros (Hl & Hc & Hs) (L & C & S1 & _ & _). unfold limit_ok.
  rewrite L. repeat split; try lia. exact S1.
Qed.

Lemma limit_kept_trans g g1 g2 :
  limit_kept g g1 -> limit_kept g1 g2 -> limit_kept g g2.
Proof.
  intros (L & C & S1 & K & N) (L2 & C2 & S2 & K2 & N2). unfold limit_kept.
  rewrite L in *. split; [congruence |]. split; [lia |].
  split; [exact S2 |]. split; [| lia].
  intros Hs. destruct (K Hs) as [Hs1 Hc1]. destruct (K2 Hs1). split; [auto | lia].
Qed.

Ltac log_steps :=
  repeat (cbn [log set_stop set_count set_endpoints stop limit count calls
               verbose drop_connection pn_conn pn_ssn pn_link proactor
               credit_window in_max_frame in_session_window in_window_lwm
               source_address final];
          rewrite ?settled_snoc, ?Nat.add_0_r).

Ltac finish :=
  repeat match goal with
         | |- _ /\ _ => split
         | |- _ -> _ => intro
         end;
  auto; try lia; try discriminate; try congruence.

Ltac quiet_step Hok :=
  destruct Hok as (Hl & Hc & Hs); unfold limit_kept; log_steps; finish.

Ltac break_ifs :=
  repeat (log_steps;
          match goal with
          | |- context [if ?b then _ else _] => destruct b eqn:?
          end);
  log_steps.

Ltac quiet Hok :=
  destruct Hok as (Hl & Hc & Hs); break_ifs; unfold limit_kept; log_steps;
  finish.

Lemma signal_handler_limit g : limit_ok g -> limit_kept g (signal_handler g).
Proof. intros Hok. unfold signal_handler. quiet Hok. Qed.

Lemma connection_bound_limit has a g :
  limit_ok g -> limit_kept g (final (connection_bound has a g)).
Proof. intros Hok. unfold connection_bound. quiet Hok. Qed.

Lemma connection_wake_limit g :
  limit_ok g -> limit_kept g (final (connection_wake g)).
Proof. intros Hok. unfold connection_wake. quiet Hok. Qed.

Lemma proactor_timeout_limit g :
  limit_ok g -> limit_kept g (final (proactor_timeout g)).
Proof. intros Hok. unfold proactor_timeout. quiet Hok. Qed.

Lemma delivery_limit eos a g :
  limit_ok g -> limit_kept g (final (delivery eos a g)).
Proof.
  intros Hok. unfold delivery.
  destruct (stop g) eqn:Es; [cbn [final]; apply limit_kept_refl, Hok |].
  destruct ((if readable a then (last_rc a =? eos) || (last_rc a <? 0)
             else false) || negb (partial a));
    [| cbn [final]; apply limit_kept_refl, Hok].
  destruct Hok as (Hl & Hc & Hs).
  assert (Hlt : count g < limit g).
  { destruct (Z.eq_dec (count g) (limit g)) as [E | E]; [| lia].
    rewrite (Hs E) in Es. discriminate. }
  assert (Hw : to_uint64 (count g + 1) = count g + 1)
    by (unfold to_uint64; apply Z.mod_small; lia).
  log_steps.
  destruct (link_credit a <=? Z.quot (credit_window g) 2); log_steps;
    rewrite Hw;
    (destruct (limit g =? 0) eqn:El; [apply Z.eqb_eq in El; lia |]);
    cbn [negb andb];
    (destruct (Z.eqb_spec (count g + 1) (limit g)) as [E | E]);
    unfold limit_kept; log_steps; rewrite ?Es, ?Hw; finish.
Qed.

Lemma event_handler_limit eos has type a g :
  limit_ok g -> limit_kept g (final (event_handler eos has type a g)).
Proof.
  intros Hok. destruct type; cbn [event_handler].
  - apply connection_bound_limit, Hok.
  - apply connection_wake_limit, Hok.
  - apply delivery_limit, Hok.
  - apply proactor_timeout_limit, Hok.
  - apply limit_kept_refl, Hok.
  - apply limit_kept_refl, Hok.
  - apply limit_kept_refl, Hok.
Qed.

Lemma run_limit eos has steps :
  forall g, limit_ok g -> limit_kept g (final (run eos has steps g)).
Proof.
  induction steps as [| s steps IH]; intros g Hok.
  - apply limit_kept_refl, Hok.
  - destruct s as [type a |]; cbn [run].
    + pose proof (event_handler_limit eos has type a g Hok) as H1.
      destruct (event_handler eos has type a g) as [[|] g1 | g1 | g1];
        cbn [final] in *; try exact H1.
      eapply limit_kept_trans; [exact H1 |].
      apply IH. eapply limit_kept_ok; eauto.
    + pose proof (signal_handler_limit g Hok) as H1.
      eapply limit_kept_trans; [exact H1 |].
      apply IH. eapply limit_kept_ok; eauto.
Qed.

(** The credit granted since [g]. *)
Definition grants_ok (g g1 : globals) : Prop :=
  credit_window g1 = credit_window g
  /\ exists new,
      calls g1 = calls g ++ new
      /\ Forall (fun n => 0 < n <= credit_window g
                          /\ credit_window g <= 2 * n) (flows new).

Lemma grants_refl g : grants_ok g g.
Proof.
  split; [reflexivity |]. exists []. rewrite app_nil_r.
  split; [reflexivity | constructor].
Qed.

Lemma grants_trans g g1 g2 :
  grants_ok g g1 -> grants_ok g1 g2 -> grants_ok g g2.
Proof.
  intros (W & n1 & C1 & F1) (W2 & n2 & C2 & F2).
  split; [congruence |]. exists (n1 ++ n2).
  rewrite C2, C1, <- app_assoc. split; [reflexivity |].
  rewrite flows_app. apply Forall_app. split; [exact F1 |].
  rewrite W in F2. exact F2.
Qed.

Lemma half_window w c :
  0 < w -> 0 <= c -> c <= Z.quot w 2 ->
  0 < w - c <= w /\ w <= 2 * (w - c).
Proof.
  intros Hw Hc Hq.
  rewrite Z.quot_div_nonneg in Hq by lia.
  pose proof (Z.mul_div_le w 2). lia.
Qed.

Ltac grants_leaf :=
  unfold grants_ok; log_steps; split; [reflexivity |];
  rewrite <- ?app_assoc; eexists;
  split; [first [reflexivity | symmetry; apply app_nil_r] |];
  cbn [flows flat_map app]; repeat constructor; try lia.

Lemma signal_handler_grants g : grants_ok g (signal_handler g).
Proof. unfold signal_handler. break_ifs; grants_leaf. Qed.

Lemma event_handler_grants eos has type a g :
  0 < credit_window g -> 0 <= link_credit a ->
  grants_ok g (final (event_handler eos has type a g)).
Proof.
  intros Hw Hc. destruct type; cbn [event_handler];
    try apply grants_refl.
  - unfold connection_bound. break_ifs; grants_leaf.
  - unfold connection_wake. break_ifs; grants_leaf.
  - unfold delivery. break_ifs;
      try match goal with
          | H : (link_credit a <=? _) = true |- _ =>
              apply Z.leb_le in H;
              destruct (half_window _ _ Hw Hc H)
          end;
      grants_leaf.
  - unfold proactor_timeout. break_ifs; grants_leaf.
Qed.

Lemma run_grants eos has steps :
  forall g,
    0 < credit_window g -> Forall credit_not_negative steps ->
    grants_ok g (final (run eos has steps g)).
Proof.
  induction steps as [| s steps IH]; intros g Hw Hs.
  - apply grants_refl.
  - inversion Hs as [| s' steps' Hc Hrest]; subst.
    destruct s as [type a |]; cbn [run].
    + pose proof (event_handler_grants eos has type a g Hw Hc) as H1.
      destruct (event_handler eos has type a g) as [[|] g1 | g1 | g1];
        cbn [final] in *; try exact H1.
      eapply grants_trans; [exact H1 |].
      apply IH; [rewrite (proj1 H1); exact Hw | exact Hrest].
    + pose proof (signal_handler_grants g) as H1.
      eapply grants_trans; [exact H1 |].
      apply IH; [rewrite (proj1 H1); exact Hw | exact Hrest].
Qed.

Lemma strrchr_none s : no_colon s = true -> strrchr s ":"%char = None.
Proof.
  induction s as [| a s IH]; cbn; [reflexivity |].
  intros H. apply andb_true_iff in H. destruct H as [Ha Hs].
  rewrite (IH Hs). destruct (Ascii.eqb a ":"%char); [discriminate | reflexivity].
Qed.

Lemma strrchr_last host port :
  no_colon port = true ->
  strrchr (host ++ ":" ++ port)%string ":"%char = Some (host, port).
Proof.
  intros Hp. change (":" ++ port)%string with (String ":"%char port).
  induction host as [| a host IH]; cbn.
  - rewrite (strrchr_none _ Hp). reflexivity.
  - rewrite IH. reflexivity.
Qed.

Lemma substring_all s : String.substring 0 (String.length s) s = s.
Proof. induction s as [| a s IH]; cbn; [| rewrite IH]; reflexivity. Qed.

Lemma scheme_dropped s :
  (if String.prefix "amqp://" ("amqp://" ++ s)
   then String.substring 7 (String.length ("amqp://" ++ s) - 7)
                         ("amqp://" ++ s)
   else ("amqp://" ++ s))%string = s.
Proof.
  cbn [String.prefix String.append].
  repeat match goal with
         | |- context [Ascii.ascii_dec ?x ?y] =>
             destruct (Ascii.ascii_dec x y); [| congruence]
         end.
  cbn [String.length Nat.sub String.substring].
  replace (String.prefix EmptyString s) with true
    by (destruct s; reflexivity).
  rewrite Nat.sub_0_r. apply substring_all.
Qed.

Lemma prefix_app p : forall s,
  String.prefix p s = true -> exists r, s = (p ++ r)%string.
Proof.
  induction p as [| a p IH]; intros s H.
  - exists s. reflexivity.
  - destruct s as [| b s]; cbn in H; [discriminate |].
    destruct (Ascii.ascii_dec a b) as [-> | _]; [| discriminate].
    destruct (IH s H) as [r ->]. exists r. reflexivity.
Qed.

Lemma no_colon_no_scheme s :
  no_colon s = true -> String.prefix "amqp://" s = false.
Proof.
  intros H. destruct (String.prefix "amqp://" s) eqn:E; [| reflexivity].
  apply prefix_app in E. destruct E as [r ->].
  cbn in H. discriminate.
Qed.

End ReceiverFacts.

(** X18.  A receiver with a message limit, over any run of events and
    signals: the count of messages never passes the limit; once it has
    reached the limit the receiver is stopping; a stopping receiver counts
    no further message; and exactly as many deliveries were settled as
    were counted. *)
Theorem receiver_counts_up_to_the_limit :
  forall PN_EOS has_window_lwm steps g,
    (0 < TestReceiver.limit g < 2 ^ 64)%Z ->
    (0 <= TestReceiver.count g <= TestReceiver.limit g)%Z ->
    (TestReceiver.count g = TestReceiver.limit g ->
     TestReceiver.stop g = true) ->
    let g' := TestReceiver.final
                (TestReceiver.run PN_EOS has_window_lwm steps g) in
    TestReceiver.limit g' = TestReceiver.limit g
    /\ (TestReceiver.count g <= TestReceiver.count g'
        <= TestReceiver.limit g)%Z
    /\ (TestReceiver.count g' = TestReceiver.limit g ->
        TestReceiver.stop g' = true)
    /\ (TestReceiver.stop g = true ->
        TestReceiver.stop g' = true
        /\ TestReceiver.count g' = TestReceiver.count g)
    /\ (Z.of_nat (TestReceiver.settled (TestReceiver.calls g'))
        = Z.of_nat (TestReceiver.settled (TestReceiver.calls g))
          + (TestReceiver.count g' - TestReceiver.count g))%Z.
Proof.
  intros eos has steps g Hl Hc Hs g'.
  apply (ReceiverFacts.run_limit eos has steps g).
  repeat split; auto; lia.
Qed.

(** The example receiver, told to stop after two messages, is sent
    three: it counts two. *)
Lemma receiver_counts_up_to_the_limit_witness :
  TestReceiver.count
    (TestReceiver.final
       (TestReceiver.run (-1) true TestReceiver.example_steps
                         TestReceiver.example_globals)) = 2%Z.
Proof.
  destruct (receiver_counts_up_to_the_limit (-1)%Z true
              TestReceiver.example_steps TestReceiver.example_globals)
    as (_ & _ & _ & _ & _).
  - vm_compute. split; reflexivity.
  - vm_compute. split; discriminate.
  - vm_compute. discriminate.
  - vm_compute. reflexivity.
Defined.

(** X19.  With a credit window that is positive, as the option parsing
    makes it, and a link credit that is never reported negative: over
    any run of events and signals the window is not changed, and every
    grant of credit is positive, at most the window and at least half of
    it. *)
Theorem receiver_grants_at_least_half_the_window :
  forall PN_EOS has_window_lwm steps g,
    (0 < TestReceiver.credit_window g)%Z ->
    Forall TestReceiver.credit_not_negative steps ->
    let g' := TestReceiver.final
                (TestReceiver.run PN_EOS has_window_lwm steps g) in
    TestReceiver.credit_window g' = TestReceiver.credit_window g
    /\ exists new,
        TestReceiver.calls g' = TestReceiver.calls g ++ new
        /\ Forall (fun n => (0 < n <= TestReceiver.credit_window g)%Z
                            /\ (TestReceiver.credit_window g <= 2 * n)%Z)
                  (TestReceiver.flows new).
Proof.
  intros eos has steps g Hw Hs g'.
  exact (ReceiverFacts.run_grants eos has steps g Hw Hs).
Qed.

Lemma receiver_grants_at_least_half_the_window_witness :
  TestReceiver.credit_window
    (TestReceiver.final
       (TestReceiver.run (-1) true TestReceiver.example_steps
                         TestReceiver.example_globals)) = 1000%Z.
Proof.
  destruct (receiver_grants_at_least_half_the_window (-1)%Z true
              TestReceiver.example_steps TestReceiver.example_globals)
    as (H & _).
  - vm_compute. reflexivity.
  - unfold TestReceiver.example_steps.
    repeat constructor; vm_compute; discriminate.
  - rewrite H. reflexivity.
Defined.

(** X20.  The address of the server is split at its last colon: an
    address made of a host, a colon and a port without colon gives that
    host and that port, after the scheme [amqp://] if it starts with
    one; an address without colon is the host, with port 5672. *)
Theorem host_and_port_splits_at_the_last_colon :
  (forall host port,
      TestReceiver.no_colon port = true ->
      String.prefix "amqp://" (host ++ ":" ++ port)%string = false ->
      TestReceiver.host_and_port (host ++ ":" ++ port)%string
      = (host, port))
  /\ (forall host port,
         TestReceiver.no_colon port = true ->
         TestReceiver.host_and_port
           ("amqp://" ++ host ++ ":" ++ port)%string
         = (host, port))
  /\ (forall address,
         TestReceiver.no_colon address = true ->
         TestReceiver.host_and_port address = (address, "5672"%string)).
Proof.
  split; [| split].
  - intros host port Hp Hn. unfold TestReceiver.host_and_port.
    rewrite Hn, (ReceiverFacts.strrchr_last _ _ Hp). reflexivity.
  - intros host port Hp. unfold TestReceiver.host_and_port.
    rewrite ReceiverFacts.scheme_dropped,
      (ReceiverFacts.strrchr_last _ _ Hp).
    reflexivity.
  - intros address Ha. unfold TestReceiver.host_and_port.
    rewrite (ReceiverFacts.no_colon_no_scheme _ Ha),
      (ReceiverFacts.strrchr_none _ Ha).
    reflexivity.
Qed.

Lemma host_and_port_splits_at_the_last_colon_witness :
  TestReceiver.host_and_port "amqp://127.0.0.1:5673"
  = ("127.0.0.1"%string, "5673"%string).
Proof.
  destruct host_and_port_splits_at_the_last_colon as (_ & H & _).
  apply (H "127.0.0.1"%string "5673"%string). reflexivity.
Defined.
